(* ===== verification/_CoqProject ===== *)
-Q . S2P
Prelude.v
Types.v
Errors.v
Operations.v
Crdts.v
PushBuffer.v
Pack.v
Handler.v
Mutable.v
Transactional.v
PullHandler.v
Server.v
Connectivity.v
Wired.v
Interceptor.v
EventLoop.v
Replica.v
System.v
Resources.v
Rounds.v
Runs.v
Progress.v
Convergence.v
Leaving.v
Concurrency.v
ThreadConformance.v
Spec.v
Client.v
App.v
Lifecycle.v
Program.v
Ownership.v
Waiting.v
Sync.v
Harness.v
ServerConformance.v
ClientConformance.v
LoopConformance.v
UnitConformance.v
Observability.v
Metering.v
Examples.v
Build.v
Tracing.v
TestSupport.v
