(* ===== verification/Prelude.v ===== *)
(** * Qortoo: a verification of the Rust SDK for replicated datatypes

    ** The program

    Qortoo ([src/src]) gives an application replicated counters.  A [Client]
    manages datatypes by key; each datatype is a stack of layers around one
    [MutableDatatype] behind a lock:

    - the user's handle ([counter.rs], [datatype.rs]) calls the transactional
      layer ([transactional.rs]), which opens a transaction per operation or per
      closure, serializes threads, and commits or rolls back at the end;
    - the mutable layer ([mutable.rs], [tx_record.rs]) executes operations on the
      CRDT ([crdts/]), records them for rollback, and queues each committed
      transaction in the push buffer ([push_buffer.rs]);
    - the wired layer ([wired.rs], [pull_handler.rs]) exchanges packs
      ([push_pull_pack.rs]) with a [Connectivity] and applies the answers;
    - the event loop ([event_loop.rs]), one thread per datatype, decides when to
      synchronize and how to recover from errors ([errors/]).

    A [Connectivity] ([connectivity/]) leads to a server; [LocalConnectivity]
    keeps one [LocalDatatypeServer] per resource in the process, which appends
    pushed transactions to a history and answers with what the client has not
    seen.

    ** The files

    In the order of their dependencies, with what they model and show.

    - [Prelude]: the outcomes of Rust code ([result]), stateful code ([M], a
      method with [&mut self] that also gives the calls it makes), machine
      integers with their wrap-around, [BTreeMap] as a sorted association list;
      the tactics and hint databases of the development.
    - [Types], [Errors], [Operations], [Crdts]: identifiers, clocks, lifecycle
      states, errors and their routing to recovery actions, operations with their
      memory measure, the counter with its inverse operations and its snapshot
      codec.  Shown: operations are undone exactly and commute under 64-bit
      wrap-around; the codec is a bijection; routing is total on the errors that
      may be routed.
    - [PushBuffer], [Pack], [Handler]: the push buffer and its budget; attributes
      and packs; user callbacks.  Shown: which transactions are accepted, which
      run is pushed, that the accounting is exact; the order of callbacks,
      whatever panics.
    - [Mutable]: every method of [MutableDatatype].  Shown: the well-formedness
      [mutable_wf] is kept by all of them on every outcome; a commit queues one
      transaction or is rolled back; an abort restores the datatype exactly.
    - [Transactional]: begin, execute, end and the scope guards, as one thread
      runs them.  Shown: a transaction commits or leaves no trace and the datatype
      is idle again on every path; what a full buffer and a nested handle do.
    - [Concurrency]: the same code as atomic steps of several threads.  Shown:
      every interleaving is equivalent to a serial run by the code of
      [Transactional]; mutual exclusion; absence of deadlock; the release of
      [tx_mutex] by threads that do not hold it.
    - [PullHandler]: applying a pulled pack.  Shown: which transactions an accepted
      answer executes, that a join installs the snapshot, that a refusal changes
      only the state.
    - [Server]: the handlers of [LocalDatatypeServer].  Shown: its invariant; each
      push is recorded once; the answers of all handlers, branch by branch.
    - [Connectivity]: the trait as the class [ConnectivityOps], its contract as
      the class [ConnectivityLaws], with [LocalConnectivity] and
      [NullConnectivity] as instances; registration and removal as separate
      atomic steps.
    - [Wired], [EventLoop]: the synchronization round, and the loop with its
      channels, modes and back-off.  The loop is proved against the interface
      [WiredPort], which [Wired] implements.
    - [Replica], [System]: one replica against the history of its server, then any
      number of replicas, their commits, unsubscriptions and rounds in any
      interleaving.  Replicas join and leave; when the last one leaves, the server
      forgets the resource and it can be created anew.  Shown: in every reachable
      state the counter of a live replica is the history that it has seen plus its
      own unacknowledged transactions; replicas that are caught up agree; a round
      catches up.  [Runs] evaluates concrete runs of the system.
    - [Resources], [Rounds]: the resources of a connectivity do not disturb each
      other; a round as the event loop runs it, seen from a resource.
    - [Progress], [Convergence]: enough rounds drain the push buffer, and every
      schedule that gives each replica enough rounds makes all counters the sum of
      everything that was committed.
    - [Leaving]: what an unsubscription still delivers.
    - [Spec]: the abstract specification of the whole, one log of increments, a
      position in it per live replica and the reset when the last one leaves, and
      the proof that [System] refines it.
    - [Client]: the client, its manager and builders over a heap of datatypes, the
      name validators and the table of runtimes.  Shown: one datatype per key,
      detaching removes exactly the instance that became disabled, names and
      resource identifiers are unambiguous.
    - [Interceptor]: the closures that a build for tests runs inside a round.
    - [App]: the whole program: clients, managers, cores, connectivity and event
      loops, with the calls they make on each other and their delivery.
    - [Lifecycle]: every reachable program agrees on which datatypes a client
      manages; what an [unsubscribe] during a round does.
    - [Ownership]: [App] with its strong references counted, and cores dropped with
      the last one.  Shown: a datatype lives exactly while it is managed, held by a
      handle or by a running handler task.
    - [Program]: [App] refines [System]: in an orderly program (a client makes a
      datatype of a resource once, no subscription before the creator is settled, no
      overflow) each step of users, clients and event loops is a sequence of steps of
      the system of every resource, so what [System] shows holds of the values that
      handles return; and no loop dies.
    - [Waiting], [Sync]: a [sync] with a manual connectivity returns; in an orderly
      program it returns [Ok] and the counter is then the whole history.
    - [Harness], [ServerConformance], [ClientConformance], [LoopConformance],
      [UnitConformance], [ThreadConformance], [TestSupport]: the tests of the
      repository, its unit tests and those of [tests/], as programs on the model
      ([App] where they use clients, [Concurrency] where they use threads), each
      with the theorem that it passes, or that it is racy.  They tie the definitions
      to the behaviour that the authors of the code state.
    - [Observability]: the context visitor and the log layer over a tree of spans,
      the recordings of a metric and the stack traces of errors.
    - [Metering]: the metrics that a program emits: one per round, and a back-off
      exactly when the loop enters it; the tests of the recorder.
    - [Examples]: the workloads of [examples/].
    - [Build]: the build script and the version of the SDK.
    - [Tracing]: the subscriber of test builds, the setup of tracing and profiling in
      the examples, and the spans around the methods of a datatype.  Shown: one
      subscriber per process, with Loki exactly when its URL is accepted; the
      example's exporter is shut down however its workload ends.

    ** How the code is translated

    Definitions keep the names of the code, with the type's name in front where
    Rust's method call has it.  A record is the struct with its fields in order;
    [Arc]s that are shared and mutated are addresses into an explicit store
    ([Heap], [World], [lc_arcs]); a [HashMap] is a [gmap].  [u64], [i64] and [usize] are
    integers whose operations wrap as in a release build.  [panic!], [todo!] and
    failed arithmetic of the code are [Panic]; a lock that can never be obtained
    is [Blocked].  Errors carry the code's messages.

    Arguments of the definitions, because the code under [src] does not define
    them: fresh identifiers (nanoid), the current time, the first key of a
    [HashMap] in iteration order, user callbacks and closures, the regex and
    formatting crates (class [ClientDeps]), the exponential back-off (backon), the
    tokio runtime and the tracing crates (class [TracingDeps]).  The hypotheses about
    crates are [regex_documented] and, in [Tracing], that the global subscriber is
    set at most once ([DispatcherLaws]).

    ** Bounds and fuel

    [begin_loop] and [do_transaction] take fuel for their retry loops; one unit is
    enough when no other context is in the way, and with another context on the
    same thread no amount is.  [run_until_reply] takes fuel for the turns of the
    loop; one more than the events before the request is enough with a manual
    connectivity ([Waiting]).  The tests have fixed fuel ([sync_fuel], [wait_fuel]);
    it is enough, since they pass.  Theorems about sequence numbers ask that [u64]
    counters do not overflow ([push_small], [cseq < u64_max]); sizes ask that a
    transaction is smaller than the address space ([tx_fits]).

    ** What is not modelled

    Which calls of the program add span events, and [Debug] texts that only reach
    spans; the installation of the Prometheus listener; the
    module roots; the test-only [DataType] for delays and the tests that use it.
    In [App] a call of a user and a round run to completion; [Concurrency] and
    [System] have their interleavings.  [App] never frees a core, [Ownership] does,
    but clients are not dropped in either; [drop] of a core waits for its loop for a
    bounded time, which is left out like all time-outs.
    [DataType]s other than the counter are [todo!] in the code and [Panic] here.
    [System] leaves out subscriptions while the creator has unacknowledged
    transactions, lost answers to a first request, clients that return with their
    old identifier, rollbacks that overlap a round, and overflow of the 64-bit
    sequence numbers; [Runs], [Server] and [Mutable] show what the first four do.
    [Concurrency] covers user threads; the event loop's interference with a running
    transaction is the matter of [Mutable.rollback_reverts_concurrent_changes].

    ** What modelling showed

    Theorems that state a defect carry it in their comment: snapshots that count
    unsent transactions twice ([Runs]), transactions lost when a client leaves
    ([Leaving]), writes lost after a resubscription and
    transactions skipped by a repeated creation ([Server]), a client lost by
    concurrent registration ([Connectivity]), a transaction that is too large to
    push ([EventLoop]), a refused write reported as a success and a nested handle
    that never returns ([Transactional]), a rollback that undoes concurrent changes
    ([Mutable]), a mutex released without being held ([Concurrency]), an
    [unsubscribe] that is lost in a round ([Lifecycle]), a test that asserts more
    than the code promises ([ThreadConformance]). *)

From Stdlib Require Export ZArith Lia.
From stdpp Require Export numbers pretty strings gmap list.

#[global] Open Scope Z_scope.

(** ** Outcomes of Rust code

    [Ok] and [Err] are the constructors of [Result]; [Panic] is an unwinding
    panic ([unreachable!], [todo!], [unimplemented!], a failed slice index);
    [Blocked] is a thread that waits for ever. *)
Inductive result (E A : Type) : Type :=
| Ok (a : A)
| Err (e : E)
| Panic (why : string)
| Blocked.

Arguments Ok {E A} a.
Arguments Err {E A} e.
Arguments Panic {E A} why.
Arguments Blocked {E A}.

#[export] Instance result_eq_dec E A `{EqDecision E, EqDecision A} :
  EqDecision (result E A).
Proof. solve_decision. Defined.

Definition is_ok {E A} (r : result E A) : bool :=
  match r with Ok _ => true | _ => false end.

(** [Result::map_err]. *)
Definition map_err {E F A} (f : E -> F) (r : result E A) : result F A :=
  match r with
  | Ok a => Ok a
  | Err e => Err (f e)
  | Panic w => Panic w
  | Blocked => Blocked
  end.

#[export] Instance result_ret E : MRet (result E) := fun A a => Ok a.
#[export] Instance result_bind E : MBind (result E) := fun A B f r =>
  match r with
  | Ok a => f a
  | Err e => Err e
  | Panic w => Panic w
  | Blocked => Blocked
  end.

(** ** Stateful code

    [M S W E A] is a method with receiver [&mut S]: it returns a [result], the
    receiver as it is left (also on an early [?] return) and, in order, the
    calls [W] it made on objects other than the receiver. *)
Definition M (S W E A : Type) : Type := S -> result E A * S * list W.

#[export] Instance M_ret S W E : MRet (M S W E) := fun A a s => (Ok a, s, []).
#[export] Instance M_bind S W E : MBind (M S W E) := fun A B f m s =>
  match m s with
  | (Ok a, s', w) => let '(r, s'', w') := f a s' in (r, s'', w ++ w')
  | (Err e, s', w) => (Err e, s', w)
  | (Panic p, s', w) => (Panic p, s', w)
  | (Blocked, s', w) => (Blocked, s', w)
  end.

Section monad.
Context {S W E : Type}.

Definition get : M S W E S := fun s => (Ok s, s, []).
Definition gets {A} (f : S -> A) : M S W E A := fun s => (Ok (f s), s, []).
Definition modify (f : S -> S) : M S W E unit := fun s => (Ok tt, f s, []).
Definition emit (w : list W) : M S W E unit := fun s => (Ok tt, s, w).
Definition fail {A} (e : E) : M S W E A := fun s => (Err e, s, []).
Definition panic {A} (why : string) : M S W E A := fun s => (Panic why, s, []).
Definition lift {A} (r : result E A) : M S W E A := fun s => (r, s, []).
End monad.

(** [?] applied after [map_err]. *)
Definition with_err {S W E F A} (f : E -> F) (m : M S W E A) : M S W F A :=
  fun s => let '(r, s', w) := m s in (map_err f r, s', w).

(** A result that is kept for later, as in [let r = f();]; a panic unwinds. *)
Definition attempt {S W E F A} (m : M S W E A) : M S W F (result E A) := fun s =>
  let '(r, s', w) := m s in
  match r with
  | Ok a => (Ok (Ok a), s', w)
  | Err e => (Ok (Err e), s', w)
  | Panic why => (Panic why, s', w)
  | Blocked => (Blocked, s', w)
  end.

(** [for x in l { f(x)?; }]. *)
Fixpoint for_each {S W E A} (f : A -> M S W E unit) (l : list A) : M S W E unit :=
  match l with
  | [] => mret tt
  | x :: l => f x ;; for_each f l
  end.

Definition outcome {S W E A} (x : result E A * S * list W) : result E A := x.1.1.
Definition final {S W E A} (x : result E A * S * list W) : S := x.1.2.
Definition calls {S W E A} (x : result E A * S * list W) : list W := x.2.

(** [f] keeps [P], on every outcome. *)
Definition preserves {S W E A} (P : S -> Prop) (f : M S W E A) : Prop :=
  forall s, P s -> P (final (f s)).

(** ** Machine integers

    [u64] and [i64] values are integers of [Z]; arithmetic is the one of a
    release build (no [overflow-checks] in Cargo.toml), written with its
    wrap-around. [usize] has 64 bits. *)
Definition u64_max : Z := 18446744073709551615.
Definition u64_wrap (z : Z) : Z := z mod 18446744073709551616.
Definition i64_wrap (z : Z) : Z :=
  (z + 9223372036854775808) mod 18446744073709551616 - 9223372036854775808.

Definition u64_add (a b : Z) : Z := u64_wrap (a + b).
Definition u64_sub (a b : Z) : Z := u64_wrap (a - b).
Definition i64_add (a b : Z) : Z := i64_wrap (a + b).
Definition i64_neg (a : Z) : Z := i64_wrap (- a).

Definition is_u64 (z : Z) : Prop := 0 <= z <= 18446744073709551615.
Definition is_i64 (z : Z) : Prop :=
  -9223372036854775808 <= z <= 9223372036854775807.

#[export] Instance is_u64_dec z : Decision (is_u64 z).
Proof. unfold is_u64. apply _. Defined.
#[export] Instance is_i64_dec z : Decision (is_i64 z).
Proof. unfold is_i64. apply _. Defined.

Definition sumZ {A} (f : A -> Z) (l : list A) : Z :=
  foldr (fun x acc => f x + acc) 0 l.

Arguments sumZ : simpl never.

(** [Iterator::sum] over [u64]. *)
Definition u64_sum {A} (f : A -> Z) (l : list A) : Z :=
  foldl (fun acc x => u64_add acc (f x)) 0 l.

(** ** [str]

    A [str] is the string of its UTF-8 bytes; [contains] and [starts_with]. *)
Fixpoint str_contains (needle s : string) : bool :=
  String.prefix needle s ||
  match s with
  | EmptyString => false
  | String _ s => str_contains needle s
  end.

Definition str_starts_with (p s : string) : bool := String.prefix p s.

Definition str_is_empty (s : string) : bool := bool_decide (s = EmptyString).

(** ** [BTreeMap<usize, V>] as an association list in ascending key order *)
Section btree.
Context {V : Type}.

Fixpoint bt_insert (k : Z) (v : V) (m : list (Z * V)) : list (Z * V) :=
  match m with
  | [] => [(k, v)]
  | (k', v') :: m' =>
      if k <? k' then (k, v) :: m
      else if k =? k' then (k, v) :: m'
      else (k', v') :: bt_insert k v m'
  end.

Fixpoint bt_remove (k : Z) (m : list (Z * V)) : option V * list (Z * V) :=
  match m with
  | [] => (None, [])
  | (k', v') :: m' =>
      if k =? k' then (Some v', m')
      else let '(o, m'') := bt_remove k m' in (o, (k', v') :: m'')
  end.

Fixpoint bt_get (k : Z) (m : list (Z * V)) : option V :=
  match m with
  | [] => None
  | (k', v') :: m' => if k =? k' then Some v' else bt_get k m'
  end.

Fixpoint bt_sorted (m : list (Z * V)) : Prop :=
  match m with
  | [] => True
  | (k, _) :: m' => Forall (fun kv => k < kv.1) m' /\ bt_sorted m'
  end.
End btree.

(** ** Tactics and hint databases *)
Create HintDb qortoo.
Create Rewrite HintDb qortoo.

(** Solves integer goals after exposing the wrap-around. *)
Ltac wrap_lia :=
  unfold u64_add, u64_sub, u64_wrap, i64_add, i64_neg, i64_wrap, is_u64, is_i64,
    u64_max in *;
  first [ lia | Z.div_mod_to_equations; lia ].

(** Destructs the scrutinee of every [match] in the goal, simplifying. *)
Ltac split_matches := repeat (case_match; simplify_eq/=; try done).

(** Splits a conjunction and closes the immediate parts. *)
Ltac splits := split_and!; try done; try (by apply Forall_nil).

(** Decides a closed goal by evaluation. *)
Ltac concrete := vm_compute; repeat split; solve [reflexivity | discriminate | intros; discriminate].

(** ** Lemmas: the monad *)
Section monad_laws.
Context {S W E : Type}.

Lemma M_bind_Ok {A B} (m : M S W E A) (f : A -> M S W E B) s a s' w :
  m s = (Ok a, s', w) ->
  (m ≫= f) s = (let '(r, s'', w') := f a s' in (r, s'', w ++ w')).
Proof. intros H. unfold mbind, M_bind. by rewrite H. Qed.

Lemma M_bind_Err {A B} (m : M S W E A) (f : A -> M S W E B) s e s' w :
  m s = (Err e, s', w) -> (m ≫= f) s = (Err e, s', w).
Proof. intros H. unfold mbind, M_bind. by rewrite H. Qed.

Lemma M_bind_Panic {A B} (m : M S W E A) (f : A -> M S W E B) s why s' w :
  m s = (Panic why, s', w) -> (m ≫= f) s = (Panic why, s', w).
Proof. intros H. unfold mbind, M_bind. by rewrite H. Qed.

Lemma M_bind_Blocked {A B} (m : M S W E A) (f : A -> M S W E B) s s' w :
  m s = (Blocked, s', w) -> (m ≫= f) s = (Blocked, s', w).
Proof. intros H. unfold mbind, M_bind. by rewrite H. Qed.

Lemma M_ret_bind {A B} (a : A) (f : A -> M S W E B) s :
  (mret a ≫= f) s = f a s.
Proof. unfold mbind, M_bind, mret, M_ret. by destruct (f a s) as [[??]?]. Qed.

Lemma M_bind_ret {A} (m : M S W E A) s : (m ≫= mret) s = m s.
Proof.
  unfold mbind, M_bind, mret, M_ret.
  destruct (m s) as [[[]?]?]; by rewrite ?app_nil_r.
Qed.

Lemma M_bind_assoc {A B C} (m : M S W E A) (f : A -> M S W E B)
    (g : B -> M S W E C) s :
  ((m ≫= f) ≫= g) s = (m ≫= (fun a => f a ≫= g)) s.
Proof.
  unfold mbind, M_bind.
  destruct (m s) as [[[a|e|p|] s'] w]; try done.
  destruct (f a s') as [[[b|e|p|] s''] w']; try done.
  destruct (g b s'') as [[??]?]. by rewrite app_assoc.
Qed.
End monad_laws.

(** Rules for [preserves]. *)
Section preserves.
Context {S W E : Type} (P : S -> Prop).

Lemma preserves_bind {A B} (m : M S W E A) (f : A -> M S W E B) :
  preserves P m -> (forall a, preserves P (f a)) -> preserves P (m ≫= f).
Proof.
  intros Hm Hf s Hs. specialize (Hm s Hs). unfold mbind, M_bind.
  destruct (m s) as [[[a|e|p|] s'] w]; try exact Hm. specialize (Hf a s' Hm).
  by destruct (f a s') as [[??]?].
Qed.

Lemma preserves_ret {A} (a : A) : preserves P (mret a : M S W E A).
Proof. by intros s. Qed.

Lemma preserves_fail {A} (e : E) : preserves P (fail e : M S W E A).
Proof. by intros s. Qed.

Lemma preserves_modify (f : S -> S) :
  (forall s, P s -> P (f s)) -> preserves P (modify f : M S W E unit).
Proof. intros H s. apply H. Qed.

Lemma preserves_gets {A} (f : S -> A) : preserves P (gets f : M S W E A).
Proof. by intros s. Qed.

Lemma preserves_for_each {A} (f : A -> M S W E unit) l :
  (forall a, preserves P (f a)) -> preserves P (for_each f l).
Proof.
  intros Hf. induction l as [|a l IH]; simpl; [apply preserves_ret|].
  by apply preserves_bind.
Qed.
End preserves.

#[export] Hint Resolve preserves_bind preserves_ret preserves_fail preserves_modify
  preserves_gets preserves_for_each : qortoo.

(** ** Lemmas: machine integers *)
Lemma u64_wrap_id z : is_u64 z -> u64_wrap z = z.
Proof. unfold is_u64, u64_wrap. intros. by apply Z.mod_small; lia. Qed.

Lemma u64_wrap_range z : is_u64 (u64_wrap z).
Proof. unfold is_u64, u64_wrap. pose proof (Z.mod_pos_bound z 18446744073709551616). lia. Qed.

Lemma i64_wrap_id z : is_i64 z -> i64_wrap z = z.
Proof. unfold is_i64, i64_wrap. intros. rewrite Z.mod_small; lia. Qed.

Lemma i64_wrap_range z : is_i64 (i64_wrap z).
Proof.
  unfold is_i64, i64_wrap.
  pose proof (Z.mod_pos_bound (z + 9223372036854775808) 18446744073709551616). lia.
Qed.

(** Two integers congruent modulo [2^64] wrap to the same [i64]. *)
Lemma i64_wrap_congr a b k : a = b + k * 18446744073709551616 -> i64_wrap a = i64_wrap b.
Proof.
  intros ->. unfold i64_wrap.
  replace (b + k * 18446744073709551616 + 9223372036854775808)
    with (b + 9223372036854775808 + k * 18446744073709551616) by lia.
  by rewrite Z.mod_add.
Qed.

Lemma i64_wrap_eq z : exists k, i64_wrap z = z + k * 18446744073709551616.
Proof.
  unfold i64_wrap. exists (- ((z + 9223372036854775808) / 18446744073709551616)).
  pose proof (Z.div_mod (z + 9223372036854775808) 18446744073709551616). lia.
Qed.

Lemma i64_wrap_wrap_l a b : i64_wrap (i64_wrap a + b) = i64_wrap (a + b).
Proof. destruct (i64_wrap_eq a) as [k ->]. apply (i64_wrap_congr _ _ k). lia. Qed.

Lemma i64_wrap_wrap_r a b : i64_wrap (a + i64_wrap b) = i64_wrap (a + b).
Proof. rewrite Z.add_comm, i64_wrap_wrap_l. f_equal. lia. Qed.

Lemma i64_wrap_wrap a : i64_wrap (i64_wrap a) = i64_wrap a.
Proof. apply i64_wrap_id, i64_wrap_range. Qed.

Lemma i64_add_assoc a b c : i64_add (i64_add a b) c = i64_add a (b + c).
Proof. unfold i64_add. rewrite i64_wrap_wrap_l. f_equal. lia. Qed.

Lemma i64_add_neg_cancel a b : is_i64 a -> i64_add (i64_add a b) (i64_neg b) = a.
Proof.
  intros Ha. unfold i64_add, i64_neg. rewrite i64_wrap_wrap_l, i64_wrap_wrap_r.
  rewrite <- (i64_wrap_id a) at 2 by done. f_equal. lia.
Qed.

Lemma u64_wrap_eq z : exists k, u64_wrap z = z + k * 18446744073709551616.
Proof.
  unfold u64_wrap. exists (- (z / 18446744073709551616)).
  pose proof (Z.div_mod z 18446744073709551616). lia.
Qed.

Lemma u64_wrap_congr a b k : a = b + k * 18446744073709551616 -> u64_wrap a = u64_wrap b.
Proof. intros ->. unfold u64_wrap. by rewrite Z.mod_add. Qed.

Lemma u64_wrap_wrap_l a b : u64_wrap (u64_wrap a + b) = u64_wrap (a + b).
Proof. destruct (u64_wrap_eq a) as [k ->]. apply (u64_wrap_congr _ _ k). lia. Qed.

Lemma u64_wrap_wrap_r a b : u64_wrap (a + u64_wrap b) = u64_wrap (a + b).
Proof. rewrite Z.add_comm, u64_wrap_wrap_l. f_equal. lia. Qed.

Lemma u64_wrap_sub_wrap a b : u64_wrap (u64_wrap a - b) = u64_wrap (a - b).
Proof. destruct (u64_wrap_eq a) as [k ->]. apply (u64_wrap_congr _ _ k). lia. Qed.

Lemma u64_wrap_wrap a : u64_wrap (u64_wrap a) = u64_wrap a.
Proof. apply u64_wrap_id, u64_wrap_range. Qed.

#[export] Hint Resolve u64_wrap_range i64_wrap_range : qortoo.
#[export] Hint Rewrite i64_wrap_wrap_l i64_wrap_wrap_r i64_wrap_wrap
  u64_wrap_wrap_l u64_wrap_wrap_r u64_wrap_wrap u64_wrap_sub_wrap : qortoo.

Lemma sumZ_app {A} (f : A -> Z) l k : sumZ f (l ++ k) = sumZ f l + sumZ f k.
Proof. unfold sumZ. induction l; simpl; lia. Qed.

Lemma sumZ_cons {A} (f : A -> Z) x l : sumZ f (x :: l) = f x + sumZ f l.
Proof. done. Qed.

Lemma sumZ_nil {A} (f : A -> Z) : sumZ f [] = 0.
Proof. done. Qed.

Lemma sumZ_singleton {A} (f : A -> Z) x : sumZ f [x] = f x.
Proof. unfold sumZ; simpl. lia. Qed.

Lemma sumZ_ext {A} (f g : A -> Z) l :
  (forall x, x ∈ l -> f x = g x) -> sumZ f l = sumZ g l.
Proof.
  induction l as [|x l IH]; intros H; [done|]. rewrite !sumZ_cons.
  rewrite (H x) by set_solver. rewrite IH; [done|]. intros; apply H; set_solver.
Qed.

Lemma sumZ_nonneg {A} (f : A -> Z) l : (forall x, x ∈ l -> 0 <= f x) -> 0 <= sumZ f l.
Proof.
  induction l as [|y l IH]; intros H; [done|]. rewrite sumZ_cons.
  pose proof (H y ltac:(left)). assert (0 <= sumZ f l); [apply IH; intros; apply H; by right|lia].
Qed.

Lemma sumZ_member_le {A} (f : A -> Z) x l : (forall y, y ∈ l -> 0 <= f y) -> x ∈ l -> f x <= sumZ f l.
Proof.
  intros H [l1 [l2 ->]]%list_elem_of_split. rewrite sumZ_app, sumZ_cons.
  assert (0 <= sumZ f l1 /\ 0 <= sumZ f l2); [|lia].
  split; apply sumZ_nonneg; intros; apply H; set_solver.
Qed.

Lemma sumZ_zero {A} (f : A -> Z) l : (forall x, x ∈ l -> f x = 0) -> sumZ f l = 0.
Proof.
  induction l as [|y l IH]; intros H; [done|]. rewrite sumZ_cons, H, IH; [done| |left].
  intros; apply H; by right.
Qed.

Lemma sumZ_insert {A} (f : A -> Z) l i x y : l !! i = Some x ->
  sumZ f (<[i := y]> l) = sumZ f l - f x + f y.
Proof.
  revert i. induction l as [|z l IH]; intros [|i] Hi; simplify_eq/=; rewrite !sumZ_cons; [lia|].
  rewrite (IH i Hi). lia.
Qed.

(** Changing a function at one element of a list without duplicates. *)
Lemma sumZ_update {A} (f g : A -> Z) x l : NoDup l -> x ∈ l ->
  (forall y, y ∈ l -> y <> x -> g y = f y) -> sumZ g l = sumZ f l - f x + g x.
Proof.
  induction 1 as [|y l Hy Hnd IH]; intros Hx Heq; [by apply not_elem_of_nil in Hx|].
  rewrite !sumZ_cons. apply elem_of_cons in Hx as [->|Hx].
  - rewrite (sumZ_ext g f l); [lia|]. intros z Hz. apply Heq; [by right|]. by intros ->.
  - rewrite IH, Heq; [lia|by left|by intros ->|done|]. intros z Hz. apply Heq. by right.
Qed.

Lemma sumZ_replicate {A} (f : A -> Z) n x : sumZ f (replicate n x) = Z.of_nat n * f x.
Proof.
  induction n as [|n IH]; [done|]. cbn [replicate]. rewrite sumZ_cons, IH. lia.
Qed.

Lemma sumZ_filter_split {A} (f : A -> Z) (P : A -> Prop) `{forall x, Decision (P x)} l :
  sumZ f l = sumZ f (filter P l) + sumZ f (filter (fun x => ~ P x) l).
Proof.
  induction l as [|x l IH]; [done|].
  rewrite !filter_cons, sumZ_cons, IH.
  repeat case_decide; try tauto; rewrite sumZ_cons; lia.
Qed.

Lemma filter_ext_Forall {A} (P Q : A -> Prop) `{forall x, Decision (P x), forall x, Decision (Q x)} l :
  Forall (fun x => P x <-> Q x) l -> filter P l = filter Q l.
Proof.
  induction 1 as [|x l Hx _ IH]; [done|]. rewrite !filter_cons, IH.
  repeat case_decide; tauto.
Qed.

Lemma u64_add_small a b : is_u64 (a + b) -> u64_add a b = a + b.
Proof. apply u64_wrap_id. Qed.

Lemma u64_sub_small a b : is_u64 (a - b) -> u64_sub a b = a - b.
Proof. apply u64_wrap_id. Qed.

(** The successor of a [u64], and its wrap-around at the maximum. *)
Lemma u64_add_1 z : is_u64 z ->
  u64_add z 1 = if decide (z = u64_max) then 0 else z + 1.
Proof.
  intros H. case_decide as Hz; [by rewrite Hz|].
  apply u64_add_small. unfold is_u64, u64_max in *. lia.
Qed.

Lemma u64_sum_wrap {A} (f : A -> Z) l : u64_sum f l = u64_wrap (sumZ f l).
Proof.
  unfold u64_sum.
  enough (forall acc, foldl (fun a x => u64_add a (f x)) (u64_wrap acc) l
    = u64_wrap (acc + sumZ f l)) as H by apply (H 0).
  induction l as [|x l IH]; intros acc; simpl.
  - f_equal. unfold sumZ; simpl. lia.
  - unfold u64_add at 2. rewrite u64_wrap_wrap_l, IH, sumZ_cons. f_equal. lia.
Qed.

(** ** Lemmas: [BTreeMap] *)
Section btree_lemmas.
Context {V : Type}.
Implicit Types (m : list (Z * V)).

Lemma bt_get_insert k k' v m :
  bt_get k' (bt_insert k v m) = if k' =? k then Some v else bt_get k' m.
Proof.
  induction m as [|[k1 v1] m IH]; simpl; [done|].
  destruct (Z.ltb_spec k k1); simpl; [done|].
  destruct (Z.eqb_spec k k1) as [->|]; simpl.
  - by destruct (Z.eqb_spec k' k1).
  - rewrite IH. destruct (Z.eqb_spec k' k1), (Z.eqb_spec k' k); by subst.
Qed.

Lemma bt_insert_lb k v m j :
  Forall (fun kv => j < kv.1) m -> j < k ->
  Forall (fun kv => j < kv.1) (bt_insert k v m).
Proof.
  intros H ?. induction m as [|[k1 v1] m IH]; simpl; [by repeat constructor|].
  inversion H; subst. repeat case_match; repeat constructor; auto.
Qed.

Lemma bt_insert_sorted k v m : bt_sorted m -> bt_sorted (bt_insert k v m).
Proof.
  induction m as [|[k1 v1] m IH]; simpl; [by repeat constructor|].
  intros [Hl Hs]. destruct (Z.ltb_spec k k1); simpl.
  - split; [|done]. constructor; [done|].
    eapply Forall_impl; [exact Hl|]. simpl; lia.
  - destruct (Z.eqb_spec k k1) as [->|]; simpl; [done|].
    split; [apply bt_insert_lb; [done|lia]|auto].
Qed.

Lemma bt_remove_subset k m kv : kv ∈ (bt_remove k m).2 -> kv ∈ m.
Proof.
  induction m as [|[k1 v1] m IH]; simpl; [done|].
  destruct (k =? k1); simpl; [rewrite elem_of_cons; tauto|].
  destruct (bt_remove k m); simpl in *. rewrite !elem_of_cons. tauto.
Qed.

Lemma bt_remove_sorted k m : bt_sorted m -> bt_sorted (bt_remove k m).2.
Proof.
  induction m as [|[k1 v1] m IH]; simpl; [done|].
  intros [Hl Hs]. destruct (k =? k1); simpl; [done|].
  specialize (IH Hs). pose proof (bt_remove_subset k m) as Hsub.
  destruct (bt_remove k m) as [o m']; simpl in *. split; [|done].
  apply Forall_forall. intros kv Hin. rewrite Forall_forall in Hl.
  eapply Hl, Hsub, Hin.
Qed.

Lemma bt_get_lb k m : Forall (fun kv => k < kv.1) m -> bt_get k m = None.
Proof.
  induction 1 as [|[k1 v1] m H _ IH]; simpl in *; [done|].
  destruct (Z.eqb_spec k k1); [lia|done].
Qed.

Lemma bt_get_remove k k' m : bt_sorted m ->
  (bt_remove k m).1 = bt_get k m /\
  bt_get k' (bt_remove k m).2 = if k' =? k then None else bt_get k' m.
Proof.
  induction m as [|[k1 v1] m IH]; simpl; [by destruct (k' =? k)|].
  intros [Hl Hs]. destruct (IH Hs) as [IH1 IH2].
  destruct (Z.eqb_spec k k1) as [->|]; simpl.
  - split; [done|]. destruct (Z.eqb_spec k' k1) as [->|]; [|done].
    by apply bt_get_lb.
  - destruct (bt_remove k m); simpl in *. split; [done|]. rewrite IH2.
    destruct (Z.eqb_spec k' k1), (Z.eqb_spec k' k); by subst.
Qed.
End btree_lemmas.
