(* ===== verification/Types.v ===== *)
(** * Identifiers, clocks and lifecycle enums ([src/types])

    [Uid] (uid.rs), [OperationId] (operation_id.rs), [CheckPoint]
    (checkpoint.rs), [Notification] (notification.rs), [DataType] and
    [DatatypeState] (datatype.rs).  A Rust [&str] is the [string] of its UTF-8
    bytes, so [str::len] is [String.length]. *)

From Stdlib Require Import Ascii OrderedTypeEx.
From S2P Require Import Prelude.

(** ** Uid *)
Record Uid : Type := mkUid { uid_str : string }.

Abbreviation Cuid := Uid.
Abbreviation Duid := Uid.

#[export] Instance Uid_eq_dec : EqDecision Uid.
Proof. solve_decision. Defined.
#[export] Program Instance Uid_countable : Countable Uid :=
  inj_countable' uid_str mkUid _.
Next Obligation. by intros [s]. Qed.

Definition UID_LEN : Z := 16.

Definition Uid_new_nil : Uid := mkUid "0000000000000000".

Definition in_range (lo hi : Ascii.ascii) (c : Ascii.ascii) : bool :=
  ((Ascii.N_of_ascii lo <=? Ascii.N_of_ascii c) &&
   (Ascii.N_of_ascii c <=? Ascii.N_of_ascii hi))%N.

(** [char::is_ascii_alphanumeric]. *)
Definition is_ascii_alphanumeric (c : Ascii.ascii) : bool :=
  in_range "0"%char "9"%char c || in_range "A"%char "Z"%char c || in_range "a"%char "z"%char c.

Fixpoint str_all (p : Ascii.ascii -> bool) (s : string) : bool :=
  match s with
  | EmptyString => true
  | String c s => p c && str_all p s
  end.

Definition Uid_validate (s : string) : bool :=
  (Z.of_nat (String.length s) =? UID_LEN) &&
  str_all (fun c => Ascii.eqb c "-"%char || Ascii.eqb c "_"%char || is_ascii_alphanumeric c) s.

(** [TryFrom<String>] and [TryFrom<&str>]. *)
Definition Uid_try_from (value : string) : result string Uid :=
  if Uid_validate value then Ok (mkUid value) else Err "Invalid UID format"%string.

(** The derived [PartialOrd]: bytewise lexicographic order. *)
Definition Uid_cmp (a b : Uid) : comparison := String.compare (uid_str a) (uid_str b).

(** ** OperationId *)
Record OperationId : Type := mkOperationId {
  lamport : Z;
  oid_cuid : Cuid;
  oid_cseq : Z;
}.

#[export] Instance OperationId_eq_dec : EqDecision OperationId.
Proof. solve_decision. Defined.

Definition OperationId_new_with_cuid (cuid : Cuid) : OperationId :=
  mkOperationId 0 cuid 0.

Definition OperationId_new : OperationId := mkOperationId 0 Uid_new_nil 0.

Definition OperationId_next_lamport (o : OperationId) : Z * OperationId :=
  let o := mkOperationId (u64_add (lamport o) 1) (oid_cuid o) (oid_cseq o) in
  (lamport o, o).

Definition OperationId_prev_lamport (o : OperationId) : Z * OperationId :=
  let o := if 0 <? lamport o
           then mkOperationId (u64_sub (lamport o) 1) (oid_cuid o) (oid_cseq o)
           else o in
  (lamport o, o).

Definition OperationId_next_cseq (o : OperationId) : Z * OperationId :=
  let o := mkOperationId (lamport o) (oid_cuid o) (u64_add (oid_cseq o) 1) in
  (oid_cseq o, o).

Definition OperationId_next (is_new_tx : bool) (o : OperationId) : OperationId :=
  let o := if is_new_tx
           then mkOperationId (lamport o) (oid_cuid o) (u64_add (oid_cseq o) 1)
           else o in
  mkOperationId (u64_add (lamport o) 1) (oid_cuid o) (oid_cseq o).

Definition OperationId_prev_cseq (o : OperationId) : Z * OperationId :=
  let o := if 0 <? oid_cseq o
           then mkOperationId (lamport o) (oid_cuid o) (u64_sub (oid_cseq o) 1)
           else o in
  (oid_cseq o, o).

Definition OperationId_sync (o other : OperationId) : OperationId :=
  let o := mkOperationId (Z.max (lamport o) (lamport other)) (oid_cuid o) (oid_cseq o) in
  if decide (oid_cuid other = oid_cuid o)
  then mkOperationId (lamport o) (oid_cuid o) (Z.max (oid_cseq o) (oid_cseq other))
  else o.

Definition OperationId_to_string (o : OperationId) : string :=
  pretty (lamport o) +:+ ":" +:+ uid_str (oid_cuid o) +:+ ":" +:+ pretty (oid_cseq o).

Definition OperationId_partial_cmp (a b : OperationId) : option comparison :=
  if lamport b <? lamport a then Some Gt
  else if lamport a <? lamport b then Some Lt
  else Some (Uid_cmp (oid_cuid a) (oid_cuid b)).

(** ** CheckPoint *)
Record CheckPoint : Type := mkCheckPoint { cp_sseq : Z; cp_cseq : Z }.

#[export] Instance CheckPoint_eq_dec : EqDecision CheckPoint.
Proof. solve_decision. Defined.

Definition CheckPoint_default : CheckPoint := mkCheckPoint 0 0.

Definition CheckPoint_new (sseq cseq : Z) : CheckPoint := mkCheckPoint sseq cseq.

Definition CheckPoint_check_with (cp other : CheckPoint) : CheckPoint :=
  mkCheckPoint (Z.max (cp_sseq cp) (cp_sseq other)) (Z.max (cp_cseq cp) (cp_cseq other)).

Definition CheckPoint_to_string (cp : CheckPoint) : string :=
  "(s:" +:+ pretty (cp_sseq cp) +:+ ", c:" +:+ pretty (cp_cseq cp) +:+ ")".

(** The order in which checkpoints advance. *)
Definition CheckPoint_le (a b : CheckPoint) : Prop :=
  cp_sseq a <= cp_sseq b /\ cp_cseq a <= cp_cseq b.

(** ** Notification *)
Record Notification : Type := Notification_new {
  nt_cuid : Cuid;
  nt_duid : Duid;
  nt_sseq : Z;
  nt_safe : Z;
}.

#[export] Instance Notification_eq_dec : EqDecision Notification.
Proof. solve_decision. Defined.

(** ** DataType *)
Inductive DataType : Type := Counter | Variable_ | Map.

#[export] Instance DataType_eq_dec : EqDecision DataType.
Proof. solve_decision. Defined.

Definition DataType_to_string (t : DataType) : string :=
  match t with
  | Counter => "Counter"
  | Variable_ => "Variable"
  | Map => "Map"
  end.

(** ** DatatypeState *)
Inductive DatatypeState : Type :=
| Creating
| Subscribing
| SubscribingOrCreating
| Subscribed
| Unsubscribing
| Deleting
| Disabled.

#[export] Instance DatatypeState_eq_dec : EqDecision DatatypeState.
Proof. solve_decision. Defined.

Definition DatatypeState_to_string (s : DatatypeState) : string :=
  match s with
  | Creating => "Creating"
  | Subscribing => "Subscribing"
  | SubscribingOrCreating => "SubscribingOrCreating"
  | Subscribed => "Subscribed"
  | Unsubscribing => "Unsubscribing"
  | Deleting => "Deleting"
  | Disabled => "Disabled"
  end.

Definition DatatypeState_is_read_writable (s : DatatypeState) : bool :=
  match s with
  | Creating | SubscribingOrCreating | Subscribed => true
  | _ => false
  end.

Definition DatatypeState_is_readonly (s : DatatypeState) : bool :=
  negb (DatatypeState_is_read_writable s).

(** ** Lemmas: Uid *)
Lemma str_all_forall p s :
  str_all p s = true <-> forall n c, String.get n s = Some c -> p c = true.
Proof.
  induction s as [|c s IH]; simpl; [done|].
  rewrite andb_true_iff, IH. split.
  - intros [Hc Hs] [|n] c'; simpl; [congruence|eauto].
  - intros H. split; [apply (H 0%nat c eq_refl)|]. intros n c' Hn. by apply (H (S n) c').
Qed.

Lemma Uid_cmp_eq a b : Uid_cmp a b = Eq <-> a = b.
Proof.
  unfold Uid_cmp. destruct a as [a], b as [b]; simpl. split.
  - intros H%String_as_OT.cmp_eq. congruence.
  - intros [= ->]. by apply String_as_OT.cmp_eq.
Qed.

Lemma Uid_cmp_antisym a b : Uid_cmp b a = CompOpp (Uid_cmp a b).
Proof. apply String_as_OT.cmp_antisym. Qed.

(** ** Lemmas: CheckPoint *)
Lemma CheckPoint_ext a b : cp_sseq a = cp_sseq b -> cp_cseq a = cp_cseq b -> a = b.
Proof. destruct a, b; simpl. congruence. Qed.

#[export] Instance CheckPoint_le_po : PartialOrder CheckPoint_le.
Proof.
  unfold CheckPoint_le. split; [split|].
  - intros x. lia.
  - intros x y z. lia.
  - intros x y ??. apply CheckPoint_ext; lia.
Qed.

Lemma CheckPoint_check_with_lub a b c :
  CheckPoint_le (CheckPoint_check_with a b) c <-> CheckPoint_le a c /\ CheckPoint_le b c.
Proof. unfold CheckPoint_le, CheckPoint_check_with; simpl. lia. Qed.

(** ** Lemmas: OperationId *)
Lemma OperationId_partial_cmp_Some a b : is_Some (OperationId_partial_cmp a b).
Proof. unfold OperationId_partial_cmp. repeat case_match; eauto. Qed.

Lemma OperationId_next_lt_lamport new o :
  is_u64 (lamport o) -> lamport o < u64_max ->
  lamport (OperationId_next new o) = lamport o + 1.
Proof. intros. destruct new; simpl; wrap_lia. Qed.

Lemma OperationId_partial_cmp_Lt a b :
  OperationId_partial_cmp a b = Some Lt <->
  lamport a < lamport b \/
  (lamport a = lamport b /\ Uid_cmp (oid_cuid a) (oid_cuid b) = Lt).
Proof.
  unfold OperationId_partial_cmp.
  destruct (Z.ltb_spec (lamport b) (lamport a)); [split; [done|lia]|].
  destruct (Z.ltb_spec (lamport a) (lamport b)); [split; [lia|done]|].
  split; [intros [=]; right; split; [lia|done]|]. intros [?|[_ ->]]; [lia|done].
Qed.

Lemma OperationId_partial_cmp_Eq a b :
  OperationId_partial_cmp a b = Some Eq <->
  lamport a = lamport b /\ oid_cuid a = oid_cuid b.
Proof.
  unfold OperationId_partial_cmp. rewrite <- Uid_cmp_eq.
  destruct (Z.ltb_spec (lamport b) (lamport a)); [split; [done|lia]|].
  destruct (Z.ltb_spec (lamport a) (lamport b)); [split; [done|lia]|].
  split; [intros [=]; split; [lia|done]|]. by intros [_ ->].
Qed.

Lemma Uid_cmp_trans a b c : Uid_cmp a b = Lt -> Uid_cmp b c = Lt -> Uid_cmp a c = Lt.
Proof.
  unfold Uid_cmp. rewrite !(String_as_OT.cmp_lt _ _). apply String_as_OT.lt_trans.
Qed.

(** ** Properties *)

(** [PartialOrd for OperationId] orders ids by lamport clock and breaks
    ties by client id: it always answers, swapping the operands mirrors the
    answer, "less" is transitive, and two ids compare as equal exactly when
    lamport and client id agree, whatever their [cseq]: the derived
    [PartialEq] separates ids that [partial_cmp] calls equal. *)
Theorem OperationId_partial_cmp_total_order :
  (forall a b, is_Some (OperationId_partial_cmp a b)) /\
  (forall a b, OperationId_partial_cmp b a = CompOpp <$> OperationId_partial_cmp a b) /\
  (forall a b c, OperationId_partial_cmp a b = Some Lt ->
     OperationId_partial_cmp b c = Some Lt -> OperationId_partial_cmp a c = Some Lt) /\
  (forall a b, OperationId_partial_cmp a b = Some Eq <->
     lamport a = lamport b /\ oid_cuid a = oid_cuid b) /\
  (exists a b, OperationId_partial_cmp a b = Some Eq /\ a <> b).
Proof.
  split_and!.
  - apply OperationId_partial_cmp_Some.
  - intros a b. unfold OperationId_partial_cmp.
    destruct (Z.ltb_spec (lamport a) (lamport b)), (Z.ltb_spec (lamport b) (lamport a));
      simpl; try done; try lia. f_equal. apply Uid_cmp_antisym.
  - intros a b c. rewrite !OperationId_partial_cmp_Lt.
    intros [?|[??]] [?|[??]]; [left; lia..|]. right. split; [lia|].
    by eapply Uid_cmp_trans.
  - apply OperationId_partial_cmp_Eq.
  - exists (mkOperationId 0 Uid_new_nil 0), (mkOperationId 0 Uid_new_nil 1).
    split; [by vm_compute|done].
Qed.
