(* ===== verification/Errors.v ===== *)
(** * Errors and their recovery actions ([src/errors])

    [InternalReason], [ServerRejectReason], [DatatypeError], [RecoveryAction]
    and [DatatypeErrorWithAction] (datatypes.rs), [PushPullError]
    (push_pull.rs), [ConnectivityError] (connectivity.rs) and [ClientError]
    (clients.rs).  The [PartialEq] impls compare discriminants only, so each
    error type has its own boolean equality beside Leibniz equality. *)

From S2P Require Import Prelude.

(** ** errors/datatypes.rs *)
Inductive InternalReason : Type :=
| Deserialize (msg : string)
| ExecuteOperation (msg : string)
| EventLoop_ (msg : string)
| NonSequentialCseq
| GetPushingTransactions.

Inductive ServerRejectReason : Type :=
| Rej_CreateFailed (msg : string)
| Rej_ResourceNotFound (msg : string)
| Rej_MissingSubscription (msg : string)
| Rej_ProtocolViolation (msg : string).

Inductive DatatypeError : Type :=
| TransactionFailed (msg : string)
| Internal (msg : string)
| Disallowed (msg : string)
| NotWritable (msg : string)
| ReadonlyViolation
| SyncFailed (msg : string)
| PushBufferExceededMaxMemSize
| ServerRejected (reason : ServerRejectReason).

Inductive RecoveryAction : Type :=
| NotifyOnly
| RetryWithBackOff
| RollbackTransaction
| Resubscribe
| ResubscribeWithBackOff
| Disable.

Record DatatypeErrorWithAction : Type := DatatypeErrorWithAction_new {
  error : DatatypeError;
  recovery : RecoveryAction;
}.

#[export] Instance InternalReason_eq_dec : EqDecision InternalReason.
Proof. solve_decision. Defined.
#[export] Instance ServerRejectReason_eq_dec : EqDecision ServerRejectReason.
Proof. solve_decision. Defined.
#[export] Instance DatatypeError_eq_dec : EqDecision DatatypeError.
Proof. solve_decision. Defined.
#[export] Instance RecoveryAction_eq_dec : EqDecision RecoveryAction.
Proof. solve_decision. Defined.
#[export] Instance DatatypeErrorWithAction_eq_dec : EqDecision DatatypeErrorWithAction.
Proof. solve_decision. Defined.

(** The [Display] that [thiserror] derives from the [#[error(..)]] attributes. *)
Definition InternalReason_to_string (r : InternalReason) : string :=
  match r with
  | Deserialize m => "deserialize: " +:+ m
  | ExecuteOperation m => "execute operation: " +:+ m
  | EventLoop_ m => "event loop: " +:+ m
  | NonSequentialCseq => "non-sequential cseq in push buffer"
  | GetPushingTransactions => "failed to get pushing transactions"
  end.

Definition InternalReason_into_error (r : InternalReason) : DatatypeError :=
  Internal (InternalReason_to_string r).

(** [mapping] panics on the variants that are only returned to API callers. *)
Definition DatatypeError_mapping (e : DatatypeError)
    : result DatatypeErrorWithAction DatatypeErrorWithAction :=
  match e with
  | SyncFailed _ => Ok (DatatypeErrorWithAction_new e RetryWithBackOff)
  | Internal _ | ServerRejected _ | ReadonlyViolation =>
      Ok (DatatypeErrorWithAction_new e Disable)
  | PushBufferExceededMaxMemSize =>
      Ok (DatatypeErrorWithAction_new e RollbackTransaction)
  | TransactionFailed _ | Disallowed _ | NotWritable _ =>
      Panic "variant must not be routed through DatatypeError::mapping()"
  end.

Definition InternalReason_mapping (r : InternalReason)
    : result DatatypeErrorWithAction DatatypeErrorWithAction :=
  match r with
  | NonSequentialCseq =>
      Ok (DatatypeErrorWithAction_new (InternalReason_into_error r) RollbackTransaction)
  | Deserialize _ | ExecuteOperation _ | EventLoop_ _ | GetPushingTransactions =>
      DatatypeError_mapping (InternalReason_into_error r)
  end.

(** [Err(e.mapping())]: the routed error, or the panic of [mapping]. *)
Definition routed (r : result DatatypeErrorWithAction DatatypeErrorWithAction) {A}
    : result DatatypeErrorWithAction A :=
  match r with
  | Ok dewa => Err dewa
  | Err dewa => Err dewa
  | Panic why => Panic why
  | Blocked => Blocked
  end.

(** [res.map_err(|e| e.mapping())]. *)
Definition map_err_mapping {A} (r : result DatatypeError A)
    : result DatatypeErrorWithAction A :=
  match r with
  | Ok a => Ok a
  | Err e => routed (DatatypeError_mapping e)
  | Panic why => Panic why
  | Blocked => Blocked
  end.

Definition DatatypeError_code (e : DatatypeError) : Z :=
  match e with
  | TransactionFailed _ => 201
  | Internal _ => 202
  | Disallowed _ => 205
  | NotWritable _ => 206
  | ReadonlyViolation => 207
  | SyncFailed _ => 210
  | PushBufferExceededMaxMemSize => 211
  | ServerRejected _ => 213
  end.

(** [PartialEq for DatatypeError]: the discriminants are the codes. *)
Definition DatatypeError_eqb (a b : DatatypeError) : bool :=
  DatatypeError_code a =? DatatypeError_code b.

(** ** errors/push_pull.rs *)
Inductive PushPullError : Type :=
| PP_ProtocolViolation (msg : string)
| PP_ReadonlyViolation
| PP_CreateFailed (msg : string)
| PP_ResourceNotFound (msg : string)
| PP_MissingSubscription (msg : string)
| PP_ServerInternalError (msg : string).

#[export] Instance PushPullError_eq_dec : EqDecision PushPullError.
Proof. solve_decision. Defined.

Definition PushPullError_code (e : PushPullError) : Z :=
  match e with
  | PP_ProtocolViolation _ => 301
  | PP_ReadonlyViolation => 302
  | PP_CreateFailed _ => 303
  | PP_ResourceNotFound _ => 304
  | PP_MissingSubscription _ => 305
  | PP_ServerInternalError _ => 306
  end.

Definition PushPullError_eqb (a b : PushPullError) : bool :=
  PushPullError_code a =? PushPullError_code b.

Definition PushPullError_to_string (e : PushPullError) : string :=
  match e with
  | PP_ProtocolViolation m => "[PushPullError] protocol violation - " +:+ m
  | PP_ReadonlyViolation => "[PushPullError] readonly client attempted write operation"
  | PP_CreateFailed m => "[PushPullError] fail to create - " +:+ m
  | PP_ResourceNotFound m => "[PushPullError] resource not found - " +:+ m
  | PP_MissingSubscription m =>
      "[PushPullError] client's datatype is not subscribed on this server - " +:+ m
  | PP_ServerInternalError m => "[PushPullError] server internal error - " +:+ m
  end.

Definition PushPullError_to_datatype_error (e : PushPullError) : DatatypeError :=
  match e with
  | PP_ProtocolViolation m => ServerRejected (Rej_ProtocolViolation m)
  | PP_ReadonlyViolation => ReadonlyViolation
  | PP_CreateFailed m => ServerRejected (Rej_CreateFailed m)
  | PP_ResourceNotFound m => ServerRejected (Rej_ResourceNotFound m)
  | PP_MissingSubscription m => ServerRejected (Rej_MissingSubscription m)
  | PP_ServerInternalError m => SyncFailed m
  end.

(** ** errors/connectivity.rs *)
Inductive ConnectivityError : Type := TimedOut (msg : string).

#[export] Instance ConnectivityError_eq_dec : EqDecision ConnectivityError.
Proof. solve_decision. Defined.

Definition ConnectivityError_to_string (e : ConnectivityError) : string :=
  match e with
  | TimedOut m => "[ConnectivityError] connection timed out: " +:+ m
  end.

Definition ConnectivityError_to_datatype_error (e : ConnectivityError) : DatatypeError :=
  match e with
  | TimedOut _ => SyncFailed (ConnectivityError_to_string e)
  end.

(** ** errors/clients.rs *)
Inductive ClientError : Type :=
| InvalidCollectionName (msg : string)
| FailedToSubscribeOrCreateDatatype (msg : string).

#[export] Instance ClientError_eq_dec : EqDecision ClientError.
Proof. solve_decision. Defined.

Definition ClientError_code (e : ClientError) : Z :=
  match e with
  | InvalidCollectionName _ => 100
  | FailedToSubscribeOrCreateDatatype _ => 101
  end.

Definition ClientError_eqb (a b : ClientError) : bool :=
  ClientError_code a =? ClientError_code b.

Definition CLIENT_ERROR_MSG_COLLECTION_NAME : string :=
  "invalid collection name: '{}' - Collection name must be 1-47 characters, start with a letter or underscore, contain only alphanumeric characters and '.', '_', '~', '-', and must not start with 'system.' or contain '.system.'".

Definition CLIENT_ERROR_MSG_DATATYPE_KEY : string :=
  "invalid datatype key: '{}' - Key must not be empty, must not contain null characters (\0), must not exceed 255 bytes in length, and must not start with '$'.".

(** ** Lemmas *)

(** The errors that [mapping] accepts: those that may be routed. *)
Definition routable (e : DatatypeError) : bool :=
  match e with
  | TransactionFailed _ | Disallowed _ | NotWritable _ => false
  | _ => true
  end.

(** The action [mapping] pairs with a routable error. *)
Definition action_of (e : DatatypeError) : RecoveryAction :=
  match e with
  | SyncFailed _ => RetryWithBackOff
  | PushBufferExceededMaxMemSize => RollbackTransaction
  | _ => Disable
  end.

Lemma DatatypeError_mapping_routable e : routable e = true ->
  DatatypeError_mapping e = Ok (DatatypeErrorWithAction_new e (action_of e)).
Proof. by destruct e. Qed.

Lemma map_err_mapping_Err {A} e : routable e = true ->
  map_err_mapping (A := A) (Err e) = Err (DatatypeErrorWithAction_new e (action_of e)).
Proof. intros H. simpl. by rewrite DatatypeError_mapping_routable. Qed.

Lemma PushPullError_routable e : routable (PushPullError_to_datatype_error e) = true.
Proof. by destruct e. Qed.

Lemma ConnectivityError_routable e : routable (ConnectivityError_to_datatype_error e) = true.
Proof. by destruct e. Qed.

Lemma DatatypeError_eqb_equiv :
  (forall a, DatatypeError_eqb a a = true) /\
  (forall a b, DatatypeError_eqb a b = DatatypeError_eqb b a) /\
  (forall a b c, DatatypeError_eqb a b = true -> DatatypeError_eqb b c = true ->
    DatatypeError_eqb a c = true).
Proof.
  unfold DatatypeError_eqb. split_and!; intros.
  - apply Z.eqb_refl.
  - apply Z.eqb_sym.
  - rewrite Z.eqb_eq in *. congruence.
Qed.

#[export] Hint Resolve PushPullError_routable ConnectivityError_routable : qortoo.
#[export] Hint Rewrite DatatypeError_mapping_routable using done : qortoo.

(** ** Properties *)

(** Routing of errors is total and single-valued.  Every error a server
    puts into a pulled pack, and every connectivity error, is routed by
    [mapping] without a panic; only a server-internal error and a timeout are
    retried with backoff, every other wire error disables the datatype.  Every
    internal reason disables the datatype except [NonSequentialCseq], which
    rolls the transaction back.  [mapping] panics exactly on the three
    caller-facing variants, and never selects one of the reserved actions. *)
Theorem mapping_routes_errors :
  (forall e, exists dewa,
     DatatypeError_mapping (PushPullError_to_datatype_error e) = Ok dewa /\
     error dewa = PushPullError_to_datatype_error e /\
     recovery dewa = match e with PP_ServerInternalError _ => RetryWithBackOff
                                | _ => Disable end) /\
  (forall e, DatatypeError_mapping (ConnectivityError_to_datatype_error e) =
     Ok (DatatypeErrorWithAction_new (ConnectivityError_to_datatype_error e)
           RetryWithBackOff)) /\
  (forall r, InternalReason_mapping r =
     Ok (DatatypeErrorWithAction_new (InternalReason_into_error r)
           (if decide (r = NonSequentialCseq) then RollbackTransaction else Disable))) /\
  (forall e, (exists why, DatatypeError_mapping e = Panic why) <-> routable e = false) /\
  (forall e dewa, DatatypeError_mapping e = Ok dewa ->
     error dewa = e /\
     (recovery dewa = RetryWithBackOff \/ recovery dewa = RollbackTransaction \/
      recovery dewa = Disable)).
Proof.
  split_and!.
  - intros []; eexists; split_and!; reflexivity.
  - by intros [].
  - by intros [].
  - intros []; simpl; split; try done; try (intros [? ?]; done); eauto.
  - intros [] dewa; simpl; intros [= <-]; simpl; auto.
Qed.
