(* ===== verification/Operations.v ===== *)
(** * Operations and transactions ([src/operations])

    [OperationBody] (body.rs), [Operation] (mod.rs) and [Transaction]
    (transaction.rs), with the memory measure that bounds the push buffer.
    The test-only variant [Delay4Test] is not part of the library build.
    [size_of] values are those of 64-bit Linux: [Vec] and [Option<String>] 24
    bytes, [u64] 8, [bool] 1, [SystemTime] 16. *)

From Stdlib Require Import Strings.Byte.
From S2P Require Import Prelude Types.

(** ** body.rs *)
Record CounterIncreaseBody : Type := CounterIncreaseBody_new { delta : Z }.
Record SnapshotBody : Type := SnapshotBody_new { snap_data : list Byte.byte }.

Inductive OperationBody : Type :=
| CounterIncrease (b : CounterIncreaseBody)
| Snapshot (b : SnapshotBody).

#[export] Instance byte_eq_dec : EqDecision Byte.byte := Byte.byte_eq_dec.
#[export] Instance CounterIncreaseBody_eq_dec : EqDecision CounterIncreaseBody.
Proof. solve_decision. Defined.
#[export] Instance SnapshotBody_eq_dec : EqDecision SnapshotBody.
Proof. solve_decision. Defined.
#[export] Instance OperationBody_eq_dec : EqDecision OperationBody.
Proof. solve_decision. Defined.

(** [size_of::<i64>()] and [data.len()]. *)
Definition CounterIncreaseBody_size (b : CounterIncreaseBody) : Z := 8.
Definition SnapshotBody_size (b : SnapshotBody) : Z := Z.of_nat (length (snap_data b)).

Definition OperationBody_size (b : OperationBody) : Z :=
  match b with
  | CounterIncrease b => CounterIncreaseBody_size b
  | Snapshot b => SnapshotBody_size b
  end.

Definition OperationBody_to_string (b : OperationBody) : string :=
  match b with
  | CounterIncrease b => "CounterIncrease(delta=" +:+ pretty (delta b) +:+ ")"
  | Snapshot b => "Snapshot(size:" +:+ pretty (Z.of_nat (length (snap_data b))) +:+ ")"
  end.

(** ** mod.rs *)
Record Operation : Type := mkOperation {
  op_lamport : Z;
  op_body : OperationBody;
  op_at : Z;                       (* SystemTime, as nanoseconds *)
}.

#[export] Instance Operation_eq_dec : EqDecision Operation.
Proof. solve_decision. Defined.

(** [now] is the value of [SystemTime::now()]. *)
Definition Operation_new (now : Z) (body : OperationBody) : Operation :=
  mkOperation 0 body now.

Definition Operation_new_counter_increase (now d : Z) : Operation :=
  Operation_new now (CounterIncrease (CounterIncreaseBody_new d)).

Definition Operation_new_snapshot (now : Z) (body : list Byte.byte) : Operation :=
  Operation_new now (Snapshot (SnapshotBody_new body)).

Definition Operation_set_lamport (l : Z) (op : Operation) : Operation :=
  mkOperation l (op_body op) (op_at op).

Definition Operation_size (op : Operation) : Z :=
  u64_add (8 + 16) (OperationBody_size (op_body op)).

(** ** transaction.rs *)
Record Transaction : Type := mkTransaction {
  tx_cuid : Cuid;
  tx_cseq : Z;
  tx_sseq : Z;
  tx_tag : option string;
  tx_event : bool;
  tx_operations : list Operation;
}.

#[export] Instance Transaction_eq_dec : EqDecision Transaction.
Proof. solve_decision. Defined.

Definition TRANSACTION_CONSTANT_SIZE : Z := 24 + UID_LEN + 24 + 8 + 8 + 1.

Definition Transaction_default : Transaction :=
  mkTransaction Uid_new_nil 0 0 None false [].

Definition Transaction_new (cuid : Cuid) (cseq : Z) : Transaction :=
  mkTransaction cuid cseq 0 None false [].

Definition Transaction_new_with_cuid (cuid : Cuid) : Transaction :=
  mkTransaction cuid 0 0 None false [].

Definition Transaction_get_op_id (tx : Transaction) : OperationId :=
  mkOperationId 0 (tx_cuid tx) (tx_cseq tx).

Definition Transaction_set_tag (tag : option string) (tx : Transaction) : Transaction :=
  mkTransaction (tx_cuid tx) (tx_cseq tx) (tx_sseq tx) tag (tx_event tx) (tx_operations tx).

Definition Transaction_set_event (ev : bool) (tx : Transaction) : Transaction :=
  mkTransaction (tx_cuid tx) (tx_cseq tx) (tx_sseq tx) (tx_tag tx) ev (tx_operations tx).

Definition Transaction_set_sseq (sseq : Z) (tx : Transaction) : Transaction :=
  mkTransaction (tx_cuid tx) (tx_cseq tx) sseq (tx_tag tx) (tx_event tx) (tx_operations tx).

Definition Transaction_push_operation (op : Operation) (tx : Transaction) : Transaction :=
  mkTransaction (tx_cuid tx) (tx_cseq tx) (tx_sseq tx) (tx_tag tx) (tx_event tx)
    (tx_operations tx ++ [op]).

Definition Transaction_size (tx : Transaction) : Z :=
  let op_size := u64_sum Operation_size (tx_operations tx) in
  let tag_size := match tx_tag tx with
                  | Some s => Z.of_nat (String.length s)
                  | None => 0
                  end in
  u64_add (u64_add TRANSACTION_CONSTANT_SIZE tag_size) op_size.

(** [Display]; [show_at] writes a [SystemTime] in the local time zone (chrono). *)
Definition Operation_to_string (show_at : Z -> string) (op : Operation) : string :=
  pretty (op_lamport op) +:+ "." +:+ OperationBody_to_string (op_body op) +:+ " "
  +:+ show_at (op_at op) +:+ ")".

Definition Transaction_to_string (show_at : Z -> string) (tx : Transaction) : string :=
  let tag_arg := match tx_tag tx with Some tag => "🔖:" +:+ tag | None => "" end in
  let event_arg := if tx_event tx then " ✅ " else " " in
  let lamport_arg :=
    match tx_operations tx with
    | [] => "[]"
    | [first] => "[" +:+ Operation_to_string show_at first +:+ "]"
    | first :: rest =>
        "[" +:+ Operation_to_string show_at first +:+ "-"
        +:+ Operation_to_string show_at (List.last rest first) +:+ "]"
    end in
  "TX(" +:+ tag_arg +:+ event_arg +:+ uid_str (tx_cuid tx) +:+ ":" +:+ pretty (tx_cseq tx) +:+ ":"
  +:+ pretty (tx_sseq tx) +:+ ":" +:+ lamport_arg +:+ ")".

(** The sum of the counter increments of a transaction: what executing it adds
    to a counter. *)
Definition op_delta (op : Operation) : Z :=
  match op_body op with
  | CounterIncrease b => delta b
  | Snapshot _ => 0
  end.

Definition tx_delta (tx : Transaction) : Z := sumZ op_delta (tx_operations tx).

Definition is_counter_op (op : Operation) : bool :=
  match op_body op with CounterIncrease _ => true | Snapshot _ => false end.

Definition counter_tx (tx : Transaction) : bool := forallb is_counter_op (tx_operations tx).

(** ** Lemmas *)
Lemma Transaction_size_u64 tx : is_u64 (Transaction_size tx).
Proof. apply u64_wrap_range. Qed.

Lemma Transaction_size_set_sseq s tx :
  Transaction_size (Transaction_set_sseq s tx) = Transaction_size tx.
Proof. done. Qed.

Lemma tx_delta_set_sseq s tx : tx_delta (Transaction_set_sseq s tx) = tx_delta tx.
Proof. done. Qed.

Lemma tx_delta_push op tx :
  tx_delta (Transaction_push_operation op tx) = tx_delta tx + op_delta op.
Proof.
  unfold tx_delta; simpl. by rewrite sumZ_app, sumZ_singleton.
Qed.

#[export] Hint Resolve Transaction_size_u64 : qortoo.
