(* ===== verification/Crdts.v ===== *)
(** * Conflict-free datatypes ([src/datatypes/crdts])

    [CounterCrdt] (counter_crdt.rs), a wrapping [i64], and the [Crdt] enum that
    dispatches to it (mod.rs).  A method with receiver [&mut self] returns its
    [Result] and the receiver it leaves.  The interface [InvertibleCrdt] is what
    the transaction layer relies on to roll back: the inverse of an operation
    undoes it.  *)

From Stdlib Require Import Strings.Byte.
From S2P Require Import Prelude Types Errors Operations.

(** ** Little-endian bytes of an [i64] *)
Definition byte_of_Z (z : Z) : Byte.byte :=
  default x00 (Byte.of_N (Z.to_N (z mod 256))).
Definition Z_of_byte (b : Byte.byte) : Z := Z.of_N (Byte.to_N b).

Fixpoint le_split (n : nat) (z : Z) : list Byte.byte :=
  match n with
  | O => []
  | S n => byte_of_Z z :: le_split n (z / 256)
  end.

Fixpoint le_combine (bs : list Byte.byte) : Z :=
  match bs with
  | [] => 0
  | b :: bs => Z_of_byte b + 256 * le_combine bs
  end.

Definition i64_to_le_bytes (z : Z) : list Byte.byte := le_split 8 z.
Definition i64_from_le_bytes (bs : list Byte.byte) : Z := i64_wrap (le_combine bs).

(** ** datatypes/common.rs: [ReturnType] *)
Inductive ReturnType : Type :=
| RetNone
| RetCounter (value : Z).

#[export] Instance ReturnType_eq_dec : EqDecision ReturnType.
Proof. solve_decision. Defined.

(** ** counter_crdt.rs *)
Record CounterCrdt : Type := mkCounterCrdt { value : Z }.

#[export] Instance CounterCrdt_eq_dec : EqDecision CounterCrdt.
Proof. solve_decision. Defined.

Definition CounterCrdt_default : CounterCrdt := mkCounterCrdt 0.

Definition CounterCrdt_increase_by (v : Z) (c : CounterCrdt) : Z * CounterCrdt :=
  let c := mkCounterCrdt (i64_add (value c) v) in (value c, c).

Definition CounterCrdt_execute_common_operation (op : Operation) (c : CounterCrdt)
    : result DatatypeError ReturnType * CounterCrdt :=
  match op_body op with
  | CounterIncrease body =>
      let '(ret, c) := CounterCrdt_increase_by (delta body) c in (Ok (RetCounter ret), c)
  | Snapshot _ => (Panic "not implemented", c)
  end.

Definition CounterCrdt_execute_inverse_operation (op : Operation) (c : CounterCrdt)
    : result DatatypeError ReturnType * CounterCrdt :=
  match op_body op with
  | CounterIncrease body =>
      let '(ret, c) := CounterCrdt_increase_by (i64_neg (delta body)) c in
      (Ok (RetCounter ret), c)
  | Snapshot _ => (Panic "not implemented", c)
  end.

Definition CounterCrdt_to_bytes (c : CounterCrdt) : list Byte.byte :=
  i64_to_le_bytes (value c).

Definition CounterCrdt_from_bytes (bytes : list Byte.byte) : CounterCrdt :=
  mkCounterCrdt (i64_from_le_bytes bytes).

(** ** mod.rs *)
Inductive Crdt : Type := CrdtCounter (c : CounterCrdt).

#[export] Instance Crdt_eq_dec : EqDecision Crdt.
Proof. solve_decision. Defined.

Definition Crdt_new (t : DataType) : result DatatypeError Crdt :=
  match t with
  | Counter => Ok (CrdtCounter CounterCrdt_default)
  | _ => Panic "invalid type"
  end.

Definition Crdt_execute_local_operation (op : Operation) (c : Crdt)
    : result DatatypeError ReturnType * Crdt :=
  let '(CrdtCounter c) := c in
  let '(r, c) := CounterCrdt_execute_common_operation op c in (r, CrdtCounter c).

Definition Crdt_execute_remote_operation (op : Operation) (c : Crdt)
    : result DatatypeError ReturnType * Crdt :=
  let '(CrdtCounter c) := c in
  let '(r, c) := CounterCrdt_execute_common_operation op c in (r, CrdtCounter c).

Definition Crdt_execute_inverse_operation (op : Operation) (c : Crdt)
    : result DatatypeError ReturnType * Crdt :=
  let '(CrdtCounter c) := c in
  let '(r, c) := CounterCrdt_execute_inverse_operation op c in (r, CrdtCounter c).

Definition Crdt_serialize (c : Crdt) : list Byte.byte :=
  let '(CrdtCounter c) := c in CounterCrdt_to_bytes c.

Definition Crdt_deserialize (serialized : list Byte.byte) (c : Crdt)
    : result DatatypeError unit * Crdt :=
  let '(CrdtCounter _) := c in
  if decide (length serialized <> 8%nat)
  then (Err (InternalReason_into_error (Deserialize
               ("counter crdt: expected 8 bytes, got "
                +:+ pretty (Z.of_nat (length serialized))))), c)
  else (Ok tt, CrdtCounter (CounterCrdt_from_bytes serialized)).

(** The value a counter shows. *)
Definition crdt_value (c : Crdt) : Z := let '(CrdtCounter c) := c in value c.

Definition crdt_wf (c : Crdt) : Prop := is_i64 (crdt_value c).

(** ** The interface of the transaction layer

    What [MutableDatatype] relies on when it rolls a transaction back. *)
Class InvertibleCrdt (wf : Crdt -> Prop) : Prop := {
  local_wf : forall c op r c', wf c ->
    Crdt_execute_local_operation op c = (Ok r, c') -> wf c';
  local_not_ok : forall c op c',
    (forall r, Crdt_execute_local_operation op c <> (Ok r, c')) ->
    (Crdt_execute_local_operation op c).2 = c' -> c' = c;
  local_inverse : forall c op r c', wf c ->
    Crdt_execute_local_operation op c = (Ok r, c') ->
    exists r', Crdt_execute_inverse_operation op c' = (Ok r', c);
  (* the lamport stamp of an operation does not influence its effect *)
  local_lamport : forall c op l,
    Crdt_execute_local_operation (Operation_set_lamport l op) c =
    Crdt_execute_local_operation op c;
}.

(** ** Lemmas: bytes *)
Lemma Z_of_byte_range b : 0 <= Z_of_byte b < 256.
Proof. unfold Z_of_byte. pose proof (Byte.to_N_bounded b). lia. Qed.

Lemma Z_of_byte_of_Z z : Z_of_byte (byte_of_Z z) = z mod 256.
Proof.
  unfold Z_of_byte, byte_of_Z. pose proof (Z.mod_pos_bound z 256).
  destruct (Byte.of_N (Z.to_N (z mod 256))) as [b|] eqn:Hb; simpl.
  - apply Byte.to_of_N in Hb. rewrite Hb. lia.
  - apply Byte.of_N_None_iff in Hb. lia.
Qed.

Lemma byte_of_Z_of_byte b k : byte_of_Z (Z_of_byte b + 256 * k) = b.
Proof.
  unfold byte_of_Z. rewrite Z.mul_comm, Z.mod_add by lia.
  pose proof (Z_of_byte_range b). rewrite Z.mod_small by lia.
  unfold Z_of_byte. rewrite N2Z.id, Byte.of_to_N. done.
Qed.

Lemma le_split_length n z : length (le_split n z) = n.
Proof. revert z. induction n; simpl; auto. Qed.

Lemma le_combine_split n z : le_combine (le_split n z) = z mod 256 ^ Z.of_nat n.
Proof.
  revert z. induction n as [|n IH]; intros z; simpl le_split; simpl le_combine.
  - by rewrite Z.mod_1_r.
  - rewrite IH, Z_of_byte_of_Z, Nat2Z.inj_succ, Z.pow_succ_r by lia.
    rewrite Z.rem_mul_r; lia.
Qed.

Lemma le_split_combine bs k :
  le_split (length bs) (le_combine bs + 256 ^ Z.of_nat (length bs) * k) = bs.
Proof.
  revert k. induction bs as [|b bs IH]; intros k; [done|]. cbn [length le_split le_combine].
  rewrite Nat2Z.inj_succ, Z.pow_succ_r by lia.
  set (p := 256 ^ Z.of_nat (length bs)) in *.
  replace (Z_of_byte b + 256 * le_combine bs + 256 * p * k)
    with (Z_of_byte b + 256 * (le_combine bs + p * k)) by lia.
  rewrite byte_of_Z_of_byte. f_equal.
  rewrite Z.mul_comm, Z.div_add by lia.
  rewrite Z.div_small by apply Z_of_byte_range. apply IH.
Qed.

Lemma le_combine_range bs : 0 <= le_combine bs < 256 ^ Z.of_nat (length bs).
Proof.
  induction bs as [|b bs IH]; simpl le_combine; [simpl; lia|].
  cbn [length]. rewrite Nat2Z.inj_succ, Z.pow_succ_r by lia.
  pose proof (Z_of_byte_range b). lia.
Qed.

Lemma i64_bytes_roundtrip z : is_i64 z -> i64_from_le_bytes (i64_to_le_bytes z) = z.
Proof.
  intros H. unfold i64_from_le_bytes, i64_to_le_bytes. rewrite le_combine_split.
  change (256 ^ Z.of_nat 8) with 18446744073709551616.
  rewrite <- (i64_wrap_id z) at 2 by done.
  apply (i64_wrap_congr _ _ (- (z / 18446744073709551616))).
  pose proof (Z.div_mod z 18446744073709551616). lia.
Qed.

Lemma bytes_i64_roundtrip bs :
  length bs = 8%nat -> i64_to_le_bytes (i64_from_le_bytes bs) = bs.
Proof.
  intros H. unfold i64_from_le_bytes, i64_to_le_bytes.
  destruct (i64_wrap_eq (le_combine bs)) as [k ->].
  pose proof (le_split_combine bs k) as Hs. rewrite H in Hs.
  change (256 ^ Z.of_nat 8) with 18446744073709551616 in Hs.
  by rewrite Z.mul_comm in Hs.
Qed.

(** ** Lemmas: operations *)
Lemma Crdt_execute_local_counter op c : is_counter_op op = true ->
  Crdt_execute_local_operation op c =
  (Ok (RetCounter (i64_add (crdt_value c) (op_delta op))),
   CrdtCounter (mkCounterCrdt (i64_add (crdt_value c) (op_delta op)))).
Proof.
  destruct c as [c]. unfold is_counter_op, op_delta, Crdt_execute_local_operation,
    CounterCrdt_execute_common_operation. by destruct (op_body op).
Qed.

Lemma Crdt_execute_remote_local op c :
  Crdt_execute_remote_operation op c = Crdt_execute_local_operation op c.
Proof. done. Qed.

Lemma Crdt_execute_remote_counter op c : is_counter_op op = true ->
  Crdt_execute_remote_operation op c =
  (Ok (RetCounter (i64_add (crdt_value c) (op_delta op))),
   CrdtCounter (mkCounterCrdt (i64_add (crdt_value c) (op_delta op)))).
Proof. apply Crdt_execute_local_counter. Qed.

Lemma Crdt_execute_local_snapshot op c : is_counter_op op = false ->
  Crdt_execute_local_operation op c = (Panic "not implemented", c).
Proof.
  destruct c as [c]. unfold is_counter_op, Crdt_execute_local_operation,
    CounterCrdt_execute_common_operation. by destruct (op_body op).
Qed.

Lemma crdt_ext c d : crdt_value c = crdt_value d -> c = d.
Proof. destruct c as [[]], d as [[]]; simpl. congruence. Qed.

#[export] Instance counter_invertible : InvertibleCrdt crdt_wf.
Proof.
  constructor.
  - intros [c] op r c' Hwf. unfold Crdt_execute_local_operation,
      CounterCrdt_execute_common_operation. destruct (op_body op); simpl; [|done].
    intros [= _ <-]. apply i64_wrap_range.
  - intros [c] op c'. unfold Crdt_execute_local_operation,
      CounterCrdt_execute_common_operation. destruct (op_body op); simpl; [|done].
    intros H <-. by destruct (H _ eq_refl).
  - intros [[v]] op r c' Hwf. unfold Crdt_execute_local_operation,
      Crdt_execute_inverse_operation, CounterCrdt_execute_common_operation,
      CounterCrdt_execute_inverse_operation. destruct (op_body op); simpl; [|done].
    intros [= _ <-]. eexists. simpl. by rewrite i64_add_neg_cancel.
  - by intros [c] op l.
Qed.

(** ** Properties *)

(** C38.  The snapshot encoding of a counter is a bijection with the 8-byte
    strings: deserializing what was serialized restores the counter whatever
    the replica held, every 8-byte string is the serialization of the counter
    it deserializes to, and input of any other length is rejected as an
    internal error and leaves the replica unchanged. *)
Theorem crdt_snapshot_roundtrip :
  (forall c d, crdt_wf c -> Crdt_deserialize (Crdt_serialize c) d = (Ok tt, c)) /\
  (forall bs d, length bs = 8%nat ->
     exists c, Crdt_deserialize bs d = (Ok tt, c) /\ crdt_wf c /\ Crdt_serialize c = bs) /\
  (forall bs d, length bs <> 8%nat ->
     exists msg, Crdt_deserialize bs d = (Err (Internal msg), d)).
Proof.
  split_and!.
  - intros [[v]] [d] Hwf. unfold Crdt_deserialize; simpl.
    unfold CounterCrdt_from_bytes, CounterCrdt_to_bytes; simpl.
    by rewrite i64_bytes_roundtrip.
  - intros bs [d] Hl. unfold Crdt_deserialize. rewrite decide_False by lia.
    eexists. split_and!; [done|apply i64_wrap_range|].
    simpl. by apply bytes_i64_roundtrip.
  - intros bs [d] Hl. unfold Crdt_deserialize. rewrite decide_True by done. by eexists.
Qed.

(** C37.  Rollback of one operation and convergence of two: an operation that
    a counter executed locally is undone exactly by its inverse, whatever
    wrap-around happened; remote execution has the effect of local execution;
    and two increments commute. *)
Theorem counter_ops_invert_and_commute :
  (forall c op r c', crdt_wf c -> Crdt_execute_local_operation op c = (Ok r, c') ->
     crdt_wf c' /\ (Crdt_execute_inverse_operation op c').2 = c) /\
  (forall c op, Crdt_execute_remote_operation op c = Crdt_execute_local_operation op c) /\
  (forall c op1 op2, is_counter_op op1 = true -> is_counter_op op2 = true ->
     (Crdt_execute_local_operation op2 (Crdt_execute_remote_operation op1 c).2).2 =
     (Crdt_execute_local_operation op1 (Crdt_execute_remote_operation op2 c).2).2).
Proof.
  split_and!.
  - intros c op r c' Hwf He. split; [by eapply local_wf|].
    destruct (local_inverse c op r c' Hwf He) as [r' ->]. done.
  - done.
  - intros c op1 op2 H1 H2. rewrite !Crdt_execute_remote_counter by done. simpl.
    do 2 f_equal. rewrite !i64_add_assoc. f_equal. lia.
Qed.
