(* ===== verification/PushBuffer.v ===== *)
(** * The push buffer ([src/datatypes/push_buffer.rs], option.rs, defaults.rs)

    [MemoryPushBuffer] keeps the committed transactions that were not
    acknowledged, in the order of their [cseq], within a memory budget.  The
    invariant [pb_wf] says that the [cseq]s are consecutive from [first_cseq] to
    [last_cseq] and that [mem_size] is the sum of the transaction sizes.
    [ByteUnit::MB] and [ByteUnit::GB] of the [ubyte] crate are the decimal
    units. *)

From S2P Require Import Prelude Types Errors Operations.

(** ** defaults.rs *)
Definition DEFAULT_MAX_MEM_SIZE_OF_PUSH_BUFFER : Z := 100 * 1000000.
Definition LOWER_MAX_MEM_SIZE_OF_PUSH_BUFFER : Z := 1000000.
Definition UPPER_MAX_MEM_SIZE_OF_PUSH_BUFFER : Z := 1000000000.
Definition DEFAULT_MAX_TRANSMISSION_SIZE : Z := 4 * 1000000.

(** ** option.rs *)
Record DatatypeOption : Type := mkDatatypeOption { max_mem_size_of_push_buffer : Z }.

(** [Ord::clamp]. *)
Definition clamp (lo hi x : Z) : Z := Z.max lo (Z.min hi x).

Definition DatatypeOption_new (max_size_of_push_buffer : Z) : DatatypeOption :=
  mkDatatypeOption (clamp LOWER_MAX_MEM_SIZE_OF_PUSH_BUFFER
    UPPER_MAX_MEM_SIZE_OF_PUSH_BUFFER max_size_of_push_buffer).

Definition DatatypeOption_default : DatatypeOption :=
  DatatypeOption_new DEFAULT_MAX_MEM_SIZE_OF_PUSH_BUFFER.

(** ** push_buffer.rs *)
Record MemoryPushBuffer : Type := mkMemoryPushBuffer {
  transaction : list Transaction;       (* VecDeque *)
  mem_size : Z;
  option_ : DatatypeOption;
  first_cseq : Z;
  last_cseq : Z;
}.

Definition MemoryPushBuffer_new (opt : DatatypeOption) : MemoryPushBuffer :=
  mkMemoryPushBuffer [] 0 opt 0 0.

Definition need_to_deque (tx : option Transaction) (cseq : Z) : bool :=
  match tx with
  | Some tx => tx_cseq tx <=? cseq
  | None => false
  end.

Definition enqueue (tx : Transaction) (b : MemoryPushBuffer)
    : result DatatypeErrorWithAction unit * MemoryPushBuffer :=
  if negb (last_cseq b =? 0) && negb (u64_add (last_cseq b) 1 =? tx_cseq tx)
  then (routed (InternalReason_mapping NonSequentialCseq), b)
  else if max_mem_size_of_push_buffer (option_ b) <? u64_add (mem_size b) (Transaction_size tx)
  then (routed (DatatypeError_mapping PushBufferExceededMaxMemSize), b)
  else
    (Ok tt,
     {| transaction := transaction b ++ [tx];
        mem_size := u64_add (mem_size b) (Transaction_size tx);
        option_ := option_ b;
        first_cseq := if first_cseq b =? 0 then tx_cseq tx else first_cseq b;
        last_cseq := tx_cseq tx |}).

(** The [for] loop of [get_pushing_transactions], from the index on. *)
Fixpoint take_while_fits (max_mem_size total_size : Z) (popped txs : list Transaction)
    : list Transaction * Z :=
  match txs with
  | [] => (popped, total_size)
  | tx :: txs =>
      if max_mem_size <? u64_add total_size (Transaction_size tx)
      then (popped, total_size)
      else take_while_fits max_mem_size (u64_add total_size (Transaction_size tx))
             (popped ++ [tx]) txs
  end.

Definition get_pushing_transactions (cseq max_mem_size : Z) (b : MemoryPushBuffer)
    : result DatatypeError (list Transaction * Z) :=
  if (cseq =? 0) || (cseq <? first_cseq b)
  then Err (InternalReason_into_error GetPushingTransactions)
  else
    let index := u64_sub cseq (first_cseq b) in
    if Z.of_nat (length (transaction b)) <=? index
    then Ok ([], 0)
    else Ok (take_while_fits max_mem_size 0 [] (drop (Z.to_nat index) (transaction b))).

(** The [loop] of [deque]; each turn removes the front. *)
Fixpoint deque_loop (upto_cseq : Z) (txs : list Transaction) (mem first last : Z)
    (ret : list Transaction) : list Transaction * (list Transaction * Z * Z * Z) :=
  match txs with
  | tx :: rest =>
      if negb (need_to_deque (Some tx) upto_cseq) then (ret, (txs, mem, first, last))
      else
        let mem := u64_sub mem (Transaction_size tx) in
        let ret := ret ++ [tx] in
        let '(first, last) := match rest with
                              | front :: _ => (tx_cseq front, last)
                              | [] => (0, 0)
                              end in
        deque_loop upto_cseq rest mem first last ret
  | [] => (ret, (txs, mem, first, last))
  end.

Definition deque (upto_cseq : Z) (b : MemoryPushBuffer)
    : list Transaction * MemoryPushBuffer :=
  if upto_cseq <? first_cseq b then ([], b)
  else if last_cseq b <? upto_cseq
  then (transaction b, mkMemoryPushBuffer [] 0 (option_ b) 0 0)
  else
    let '(ret, (txs, mem, first, last)) :=
      deque_loop upto_cseq (transaction b) (mem_size b) (first_cseq b) (last_cseq b) [] in
    (ret, mkMemoryPushBuffer txs mem (option_ b) first last).

Definition MemoryPushBuffer_to_string (b : MemoryPushBuffer) : string :=
  "PushBuffer(mem_size: " +:+ pretty (mem_size b) +:+ ", cseq: #" +:+ pretty (first_cseq b)
  +:+ "-#" +:+ pretty (last_cseq b) +:+ " ["
  +:+ pretty (Z.of_nat (length (transaction b))) +:+ "])".

(** ** The invariant *)

(** The [cseq]s of a buffer that holds [txs] and starts at [first]. *)
Definition consecutive (first : Z) (txs : list Transaction) : Prop :=
  tx_cseq <$> txs = seqZ first (Z.of_nat (length txs)).

Definition cseqs_wf (txs : list Transaction) (first last : Z) : Prop :=
  match txs with
  | [] => first = 0 /\ last = 0
  | _ => 1 <= first /\ consecutive first txs /\
         last = first + Z.of_nat (length txs) - 1 /\ last <= u64_max
  end.

Definition pb_wf (b : MemoryPushBuffer) : Prop :=
  cseqs_wf (transaction b) (first_cseq b) (last_cseq b) /\
  mem_size b = sumZ Transaction_size (transaction b) /\
  mem_size b <= UPPER_MAX_MEM_SIZE_OF_PUSH_BUFFER /\
  max_mem_size_of_push_buffer (option_ b) <= UPPER_MAX_MEM_SIZE_OF_PUSH_BUFFER.

(** No allocation exceeds [isize::MAX] bytes. *)
Definition tx_fits (tx : Transaction) : Prop :=
  Transaction_size tx <= 9223372036854775807.

(** ** Lemmas *)
Lemma DatatypeOption_new_range n :
  LOWER_MAX_MEM_SIZE_OF_PUSH_BUFFER
    <= max_mem_size_of_push_buffer (DatatypeOption_new n)
    <= UPPER_MAX_MEM_SIZE_OF_PUSH_BUFFER.
Proof.
  unfold DatatypeOption_new, clamp, LOWER_MAX_MEM_SIZE_OF_PUSH_BUFFER,
    UPPER_MAX_MEM_SIZE_OF_PUSH_BUFFER; simpl. lia.
Qed.

Lemma consecutive_app first txs tx :
  consecutive first (txs ++ [tx]) <->
  consecutive first txs /\ tx_cseq tx = first + Z.of_nat (length txs).
Proof.
  unfold consecutive. rewrite fmap_app, length_app, Nat2Z.inj_add.
  rewrite seqZ_app by lia. change (Z.of_nat (length [tx])) with 1.
  change (tx_cseq <$> [tx]) with [tx_cseq tx].
  change (seqZ (first + Z.of_nat (length txs)) 1) with [0 + (first + Z.of_nat (length txs))].
  split.
  - intros H. apply app_inj_1 in H as [? [= ?]]; [auto|].
    by rewrite length_fmap, length_seqZ, Nat2Z.id.
  - by intros [-> ->].
Qed.

Lemma consecutive_cons first tx txs :
  consecutive first (tx :: txs) <-> tx_cseq tx = first /\ consecutive (first + 1) txs.
Proof.
  unfold consecutive. cbn [length fmap list_fmap].
  rewrite seqZ_cons by lia.
  replace (Z.pred (Z.of_nat (S (length txs)))) with (Z.of_nat (length txs)) by lia.
  unfold Z.succ. split; [by intros [=]|]. by intros [-> ->].
Qed.

Lemma consecutive_lookup first txs i tx :
  consecutive first txs -> txs !! i = Some tx -> tx_cseq tx = first + Z.of_nat i.
Proof.
  unfold consecutive. intros H Hi.
  assert (Hl : (tx_cseq <$> txs) !! i = Some (tx_cseq tx)) by by rewrite list_lookup_fmap, Hi.
  rewrite H in Hl. apply lookup_seqZ in Hl. lia.
Qed.

Lemma consecutive_drop first txs n :
  consecutive first txs -> (n <= length txs)%nat ->
  consecutive (first + Z.of_nat n) (drop n txs).
Proof.
  revert first txs. induction n as [|n IH]; intros first txs H Hn.
  - by rewrite Z.add_0_r, drop_0.
  - destruct txs as [|tx txs]; simpl in *; [lia|].
    apply consecutive_cons in H as [_ H].
    replace (first + Z.of_nat (S n)) with (first + 1 + Z.of_nat n) by lia.
    apply IH; [done|lia].
Qed.

Lemma consecutive_prefix first txs post :
  consecutive first (txs ++ post) -> consecutive first txs.
Proof.
  unfold consecutive. rewrite fmap_app, length_app, Nat2Z.inj_add, seqZ_app by lia.
  intros H. apply app_inj_1 in H as [? _]; [done|].
  by rewrite length_fmap, length_seqZ, Nat2Z.id.
Qed.

Lemma sumZ_size_nonneg txs : 0 <= sumZ Transaction_size txs.
Proof.
  induction txs as [|tx txs IH]; [done|]. rewrite sumZ_cons.
  pose proof (Transaction_size_u64 tx). unfold is_u64 in *. lia.
Qed.

Lemma pb_wf_new opt :
  max_mem_size_of_push_buffer opt <= UPPER_MAX_MEM_SIZE_OF_PUSH_BUFFER ->
  pb_wf (MemoryPushBuffer_new opt).
Proof. intros H. unfold pb_wf; simpl. split_and!; done. Qed.

Lemma pb_wf_last_0 b : pb_wf b -> last_cseq b = 0 <-> transaction b = [].
Proof.
  intros [Hc _]. unfold cseqs_wf in Hc.
  destruct (transaction b); simpl in *; [tauto|]. split; [lia|done].
Qed.

(** The three branches of [enqueue]. *)
Lemma enqueue_nonsequential tx b :
  last_cseq b <> 0 -> u64_add (last_cseq b) 1 <> tx_cseq tx ->
  enqueue tx b =
    (Err (DatatypeErrorWithAction_new (InternalReason_into_error NonSequentialCseq)
            RollbackTransaction), b).
Proof.
  intros H1 H2. unfold enqueue.
  by rewrite (proj2 (Z.eqb_neq _ _) H1), (proj2 (Z.eqb_neq _ _) H2).
Qed.

Lemma enqueue_inv tx b r b' : enqueue tx b = (r, b') ->
  (r = Ok tt /\ (last_cseq b = 0 \/ u64_add (last_cseq b) 1 = tx_cseq tx) /\
   u64_add (mem_size b) (Transaction_size tx) <= max_mem_size_of_push_buffer (option_ b) /\
   b' = {| transaction := transaction b ++ [tx];
           mem_size := u64_add (mem_size b) (Transaction_size tx);
           option_ := option_ b;
           first_cseq := if first_cseq b =? 0 then tx_cseq tx else first_cseq b;
           last_cseq := tx_cseq tx |}) \/
  (exists e, r = Err (DatatypeErrorWithAction_new e RollbackTransaction) /\ b' = b).
Proof.
  unfold enqueue.
  destruct (Z.eqb_spec (last_cseq b) 0), (Z.eqb_spec (u64_add (last_cseq b) 1) (tx_cseq tx)),
    (Z.ltb_spec (max_mem_size_of_push_buffer (option_ b))
       (u64_add (mem_size b) (Transaction_size tx))); simpl; intros [= <- <-];
    try (right; eexists; split; reflexivity); left; split_and!; auto.
Qed.

Lemma enqueue_wf tx b b' :
  pb_wf b -> 1 <= tx_cseq tx <= u64_max -> tx_fits tx ->
  enqueue tx b = (Ok tt, b') -> pb_wf b'.
Proof.
  intros (Hc & Hm & Hub & Hopt) Htx Hfit He.
  apply enqueue_inv in He as [(_ & Hseq & Hmax & ->)|(? & [=] & _)].
  pose proof (Transaction_size_u64 tx). pose proof (sumZ_size_nonneg (transaction b)).
  unfold UPPER_MAX_MEM_SIZE_OF_PUSH_BUFFER, tx_fits, u64_max in *.
  assert (Hadd : u64_add (mem_size b) (Transaction_size tx) = mem_size b + Transaction_size tx).
  { apply u64_wrap_id. unfold is_u64 in *. lia. }
  unfold pb_wf, UPPER_MAX_MEM_SIZE_OF_PUSH_BUFFER; simpl.
  rewrite Hadd in *. rewrite sumZ_app, sumZ_singleton. split_and!; try lia.
  unfold cseqs_wf in *. destruct (transaction b) as [|t ts] eqn:Ht; simpl.
  - destruct Hc as [Hf0 Hl0]. rewrite Hf0. simpl. split_and!; unfold u64_max; try lia.
    apply (consecutive_app _ []). split; [done|simpl; lia].
  - destruct Hc as (Hf & Hcons & Hl & Hlu). destruct (Z.eqb_spec (first_cseq b) 0); [lia|].
    cbn [length] in *.
    assert (tx_cseq tx = last_cseq b + 1).
    { destruct Hseq as [?|Hseq]; [lia|]. rewrite u64_add_1 in Hseq.
      - case_decide; lia.
      - unfold is_u64, u64_max in *. lia. }
    split_and!; unfold u64_max in *; try lia.
    + change (t :: ts ++ [tx]) with ((t :: ts) ++ [tx]). apply consecutive_app.
      split; [done|]. simpl length in *. lia.
    + rewrite length_app. simpl in *. lia.
Qed.

(** The loop of [get_pushing_transactions] takes the longest prefix that fits. *)
Lemma take_while_fits_spec max txs acc popped :
  0 <= acc <= max -> max <= 9223372036854775807 -> Forall tx_fits txs ->
  exists pre post,
    txs = pre ++ post /\
    take_while_fits max acc popped txs = (popped ++ pre, acc + sumZ Transaction_size pre) /\
    acc + sumZ Transaction_size pre <= max /\
    (forall tx, head post = Some tx ->
       max < acc + sumZ Transaction_size pre + Transaction_size tx).
Proof.
  revert acc popped. induction txs as [|tx txs IH]; intros acc popped Hacc Hmax Hfit.
  - exists [], []. cbn. rewrite sumZ_nil, app_nil_r, Z.add_0_r. splits; lia.
  - inversion Hfit as [|?? Htx Hfit']; subst. cbn [take_while_fits].
    pose proof (Transaction_size_u64 tx) as Hu. unfold is_u64, tx_fits in *.
    assert (Hadd : u64_add acc (Transaction_size tx) = acc + Transaction_size tx).
    { apply u64_wrap_id. unfold is_u64. lia. }
    rewrite Hadd. destruct (Z.ltb_spec max (acc + Transaction_size tx)).
    + exists [], (tx :: txs). rewrite sumZ_nil, app_nil_r, Z.add_0_r.
      splits; [lia|]. intros ? [= <-]. lia.
    + destruct (IH (acc + Transaction_size tx) (popped ++ [tx])) as (pre & post & -> & Ht & Hle & Hpost);
        [lia|done|done|].
      exists (tx :: pre), post. rewrite Ht, sumZ_cons. splits.
      * by rewrite <- app_assoc, Z.add_assoc.
      * lia.
      * intros t Hh. specialize (Hpost t Hh). lia.
Qed.

Lemma deque_loop_spec upto txs mem first last ret :
  mem = sumZ Transaction_size txs -> mem <= u64_max ->
  cseqs_wf txs first last ->
  exists pre post first' last',
    txs = pre ++ post /\
    deque_loop upto txs mem first last ret =
      (ret ++ pre, (post, sumZ Transaction_size post, first', last')) /\
    cseqs_wf post first' last' /\
    Forall (fun tx => tx_cseq tx <= upto) pre /\
    Forall (fun tx => upto < tx_cseq tx) post.
Proof.
  revert mem first last ret.
  induction txs as [|tx txs IH]; intros mem first last ret Hmem Hmax Hwf.
  - exists [], [], first, last. cbn. rewrite Hmem, app_nil_r. split_and!; auto; try apply Hwf; by apply Forall_nil.
  - cbn [deque_loop need_to_deque].
    destruct Hwf as (Hf & Hcons & Hlast & Hlu).
    destruct (Z.leb_spec (tx_cseq tx) upto) as [Hle|Hgt]; cbn [negb].
    + pose proof (sumZ_size_nonneg txs). pose proof (Transaction_size_u64 tx).
      rewrite sumZ_cons in Hmem.
      assert (u64_sub mem (Transaction_size tx) = sumZ Transaction_size txs) as ->.
      { unfold u64_sub. rewrite u64_wrap_id; [lia|]. unfold is_u64, u64_max in *. lia. }
      apply consecutive_cons in Hcons as [Hc Hcons]. cbn [length] in Hlast.
      destruct txs as [|t txs].
      * exists [tx], [], 0, 0. cbn. by split_and!; auto.
      * destruct (IH (sumZ Transaction_size (t :: txs)) (tx_cseq t) last (ret ++ [tx]))
          as (pre & post & f' & l' & -> & Hd & Hwf' & Hpre & Hpost).
        { done. }
        { unfold is_u64 in *. lia. }
        { pose proof Hcons as [Ht _]%consecutive_cons. cbn [length] in *.
          rewrite Ht. repeat split; try done; try lia. cbn [length]. lia. }
        exists (tx :: pre), post, f', l'. rewrite Hd, <- app_assoc. splits.
        by constructor.
    + exists [], (tx :: txs), first, last. cbn [app]. rewrite app_nil_r, Hmem.
      splits. apply Forall_lookup. intros i t Hi.
      pose proof (consecutive_lookup _ _ 0 tx Hcons eq_refl).
      pose proof (consecutive_lookup _ _ i t Hcons Hi). lia.
Qed.

Lemma deque_spec upto b : pb_wf b -> is_u64 upto ->
  exists pre post,
    transaction b = pre ++ post /\
    (deque upto b).1 = pre /\ transaction (deque upto b).2 = post /\
    Forall (fun tx => tx_cseq tx <= upto) pre /\
    Forall (fun tx => upto < tx_cseq tx) post /\
    pb_wf (deque upto b).2 /\ option_ (deque upto b).2 = option_ b.
Proof.
  intros (Hc & Hm & Hub & Hopt) Hu. unfold deque.
  pose proof (sumZ_size_nonneg (transaction b)) as Hnn.
  destruct (Z.ltb_spec upto (first_cseq b)) as [Hlt|Hge].
  { exists [], (transaction b). splits.
    apply Forall_lookup. intros i t Hi. unfold cseqs_wf in Hc.
    destruct (transaction b) as [|t0 ts]; [done|].
    pose proof (consecutive_lookup _ _ i t (proj1 (proj2 Hc)) Hi). lia. }
  destruct (Z.ltb_spec (last_cseq b) upto) as [Hgt|Hle].
  { exists (transaction b), []. cbn [fst snd]. splits.
    - by rewrite app_nil_r.
    - apply Forall_lookup. intros i t Hi. unfold cseqs_wf in Hc.
      destruct (transaction b) as [|t0 ts] eqn:Ht; [done|].
      pose proof (consecutive_lookup _ _ i t (proj1 (proj2 Hc)) Hi).
      apply lookup_lt_Some in Hi. lia. }
  destruct (deque_loop_spec upto (transaction b) (mem_size b) (first_cseq b) (last_cseq b) [])
    as (pre & post & f' & l' & Happ & Hd & Hwf & Hpre & Hpost); try done.
  { unfold UPPER_MAX_MEM_SIZE_OF_PUSH_BUFFER, u64_max in *. lia. }
  exists pre, post. rewrite Hd. cbn. splits.
  unfold pb_wf; cbn. splits.
  rewrite Happ, sumZ_app in Hm. pose proof (sumZ_size_nonneg pre). lia.
Qed.

(** The test of [enqueue] in a well-formed buffer. *)
Lemma enqueue_sequential tx b : pb_wf b -> 1 <= tx_cseq tx <= u64_max ->
  transaction b = [] \/ tx_cseq tx = last_cseq b + 1 <->
  negb (last_cseq b =? 0) && negb (u64_add (last_cseq b) 1 =? tx_cseq tx) = false.
Proof.
  intros [Hcs _] Htx. unfold cseqs_wf in Hcs. destruct (transaction b) as [|t ts].
  - destruct Hcs as [_ ->]. simpl. tauto.
  - cbn [length] in Hcs. destruct Hcs as (Hf & _ & Hl & Hu).
    destruct (Z.eqb_spec (last_cseq b) 0) as [E|E]; [lia|]. cbn [negb andb].
    rewrite negb_false_iff, Z.eqb_eq, u64_add_1 by (unfold is_u64, u64_max in *; lia).
    clear E Hl. split.
    + intros [?|Heq]; [done|]. case_decide; lia.
    + intros Heq. right. case_decide; lia.
Qed.

(** [enqueue] on a transaction that continues the buffer. *)
Lemma enqueue_mem tx b : pb_wf b -> tx_fits tx ->
  u64_add (mem_size b) (Transaction_size tx) = mem_size b + Transaction_size tx.
Proof.
  intros (_ & Hm & Hub & _) Hfit. pose proof (Transaction_size_u64 tx).
  pose proof (sumZ_size_nonneg (transaction b)). apply u64_add_small.
  unfold tx_fits, is_u64, UPPER_MAX_MEM_SIZE_OF_PUSH_BUFFER in *. lia.
Qed.

Lemma enqueue_accepts tx b :
  pb_wf b -> 1 <= tx_cseq tx <= u64_max -> tx_fits tx ->
  transaction b = [] \/ tx_cseq tx = last_cseq b + 1 ->
  mem_size b + Transaction_size tx <= max_mem_size_of_push_buffer (option_ b) ->
  exists b', enqueue tx b = (Ok tt, b') /\ pb_wf b' /\
     transaction b' = transaction b ++ [tx] /\ last_cseq b' = tx_cseq tx /\
     mem_size b' = mem_size b + Transaction_size tx /\ option_ b' = option_ b.
Proof.
  intros Hwf Hc Hfit Hs Hf. apply (enqueue_sequential tx b Hwf Hc) in Hs.
  destruct (enqueue tx b) as [r b'] eqn:He. pose proof He as Hinv. unfold enqueue in Hinv.
  rewrite Hs, enqueue_mem, (proj2 (Z.ltb_ge _ _) Hf) in Hinv by done. injection Hinv as <- <-.
  eexists. split; [done|]. split; [by eapply enqueue_wf|]. done.
Qed.

Lemma enqueue_full tx b :
  pb_wf b -> 1 <= tx_cseq tx <= u64_max -> tx_fits tx ->
  transaction b = [] \/ tx_cseq tx = last_cseq b + 1 ->
  max_mem_size_of_push_buffer (option_ b) < mem_size b + Transaction_size tx ->
  enqueue tx b =
    (Err (DatatypeErrorWithAction_new PushBufferExceededMaxMemSize RollbackTransaction), b).
Proof.
  intros Hwf Hc Hfit Hs Hf. apply (enqueue_sequential tx b Hwf Hc) in Hs.
  unfold enqueue. by rewrite Hs, enqueue_mem, (proj2 (Z.ltb_lt _ _) Hf).
Qed.

(** In a well-formed buffer all transactions are below, or the rest is
    consecutive from, a [cseq] at or above the first. *)
Lemma pb_split cseq b : pb_wf b -> first_cseq b <= cseq -> 1 <= cseq ->
  let n := Z.to_nat (cseq - first_cseq b) in
  0 <= first_cseq b /\
  Forall (fun tx => tx_cseq tx < cseq) (take n (transaction b)) /\
  consecutive cseq (drop n (transaction b)).
Proof.
  intros [Hcs _] Hf H1 n. unfold cseqs_wf in Hcs.
  destruct (transaction b) as [|t0 ts] eqn:Ht.
  { rewrite take_nil, drop_nil. split; [lia|]. split; [by apply Forall_nil|done]. }
  destruct Hcs as (Hf1 & Hcons & _). split; [lia|]. split.
  - apply Forall_lookup. intros i t Hi. apply lookup_take_Some in Hi as [Hi Hin].
    pose proof (consecutive_lookup _ _ i t Hcons Hi). lia.
  - destruct (le_lt_dec n (length (t0 :: ts))) as [Hn|Hn].
    + replace cseq with (first_cseq b + Z.of_nat n) by lia. by apply consecutive_drop.
    + rewrite drop_ge by lia. done.
Qed.

Lemma get_pushing_ok cseq max b :
  pb_wf b -> is_u64 cseq -> 0 <= max <= 9223372036854775807 ->
  Forall tx_fits (transaction b) -> 1 <= cseq -> first_cseq b <= cseq ->
  exists pre txs post,
    transaction b = pre ++ txs ++ post /\
    Forall (fun tx => tx_cseq tx < cseq) pre /\ consecutive cseq (txs ++ post) /\
    get_pushing_transactions cseq max b = Ok (txs, sumZ Transaction_size txs) /\
    sumZ Transaction_size txs <= max /\
    (forall tx, head post = Some tx -> max < sumZ Transaction_size (txs ++ [tx])).
Proof.
  intros Hwf Hc Hmax Hfit H1 Hf. destruct (pb_split cseq b Hwf Hf H1) as (Hf0 & Hpre & Hcons).
  set (n := Z.to_nat (cseq - first_cseq b)) in *. unfold get_pushing_transactions.
  replace ((cseq =? 0) || (cseq <? first_cseq b)) with false by
    (symmetry; rewrite orb_false_iff, Z.eqb_neq, Z.ltb_ge; lia).
  rewrite u64_sub_small by (unfold is_u64 in *; lia).
  destruct (take_while_fits_spec max (drop n (transaction b)) 0 [])
    as (txs & post & Hd & Ht & Hle & Hpost); [lia|lia|by apply Forall_drop|].
  rewrite !Z.add_0_l in *. cbn [app] in Ht. exists (take n (transaction b)), txs, post. splits.
  - by rewrite <- Hd, take_drop.
  - by rewrite <- Hd.
  - destruct (Z.leb_spec (Z.of_nat (length (transaction b))) (cseq - first_cseq b)) as [Hl|Hl].
    + rewrite drop_ge in Hd by lia. symmetry in Hd. apply app_eq_nil in Hd as [-> ->].
      by rewrite sumZ_nil.
    + fold n. by rewrite Ht.
  - intros tx Hh. rewrite sumZ_app, sumZ_singleton. by apply Hpost.
Qed.

(** A transaction larger than the limit is never handed out. *)
Lemma oversized_not_pushed cseq max b tx :
  pb_wf b -> is_u64 cseq -> 0 <= max <= 9223372036854775807 ->
  first_cseq b <= cseq -> 1 <= cseq ->
  transaction b !! Z.to_nat (cseq - first_cseq b) = Some tx ->
  max < Transaction_size tx ->
  get_pushing_transactions cseq max b = Ok ([], 0).
Proof.
  intros Hwf Hu Hmax Hf H1 Hlook Hbig. unfold get_pushing_transactions.
  replace ((cseq =? 0) || (cseq <? first_cseq b)) with false by
    (symmetry; rewrite orb_false_iff, Z.eqb_neq, Z.ltb_ge; lia).
  pose proof (lookup_lt_Some _ _ _ Hlook) as Hlen.
  assert (0 <= first_cseq b).
  { destruct Hwf as [Hcs _]. unfold cseqs_wf in Hcs. destruct (transaction b); [done|lia]. }
  rewrite u64_sub_small by (unfold is_u64 in *; lia).
  destruct (Z.leb_spec (Z.of_nat (length (transaction b))) (cseq - first_cseq b)); [done|].
  rewrite (drop_S _ _ _ Hlook). cbn [take_while_fits].
  pose proof (Transaction_size_u64 tx). rewrite u64_add_small by (unfold is_u64 in *; lia).
  by rewrite Z.add_0_l, (proj2 (Z.ltb_lt _ _) Hbig).
Qed.

(** ** Properties *)

(** C34.  [enqueue] accepts a transaction exactly when it continues the sequence
    (or the buffer is empty) and fits the budget; it then becomes the last
    element and the invariant holds again.  A refused transaction leaves the
    buffer as it was, and both refusals are routed to a rollback:
    [NonSequentialCseq] first, [PushBufferExceededMaxMemSize] otherwise. *)
Theorem enqueue_correct tx b :
  pb_wf b -> 1 <= tx_cseq tx <= u64_max -> tx_fits tx ->
  let sequential := transaction b = [] \/ tx_cseq tx = last_cseq b + 1 in
  let fits := mem_size b + Transaction_size tx <= max_mem_size_of_push_buffer (option_ b) in
  (sequential /\ fits -> exists b', enqueue tx b = (Ok tt, b') /\ pb_wf b' /\
     transaction b' = transaction b ++ [tx] /\ last_cseq b' = tx_cseq tx /\
     mem_size b' = mem_size b + Transaction_size tx /\ option_ b' = option_ b) /\
  (~ sequential -> enqueue tx b =
     (Err (DatatypeErrorWithAction_new (InternalReason_into_error NonSequentialCseq)
             RollbackTransaction), b)) /\
  (sequential /\ ~ fits -> enqueue tx b =
     (Err (DatatypeErrorWithAction_new PushBufferExceededMaxMemSize RollbackTransaction), b)).
Proof.
  intros Hwf Hc Hfit sequential fits. split_and!.
  - intros [Hs Hf]. by apply enqueue_accepts.
  - intros Hs. pose proof (enqueue_sequential tx b Hwf Hc) as Hseq. fold sequential in Hseq.
    unfold enqueue. rewrite Hseq in Hs. apply not_false_is_true in Hs. by rewrite Hs.
  - intros [Hs Hf]. apply enqueue_full; try done. by apply Z.nle_gt.
Qed.

(** A transaction that fits an empty default buffer. *)
Lemma enqueue_correct_witness :
  exists b', enqueue (Transaction_new Uid_new_nil 1)
    (MemoryPushBuffer_new DatatypeOption_default) = (Ok tt, b') /\ pb_wf b'.
Proof.
  assert (Hwf : pb_wf (MemoryPushBuffer_new DatatypeOption_default)).
  { apply pb_wf_new. concrete. }
  destruct (enqueue_correct (Transaction_new Uid_new_nil 1)
    (MemoryPushBuffer_new DatatypeOption_default) Hwf) as [H _]; [concrete|concrete|].
  destruct H as (b' & H & Hb' & _); [split; [by left|concrete]|].
  exists b'. by split.
Defined.

(** [get_pushing_transactions] fails exactly on a [cseq] below the buffer
    (or zero); otherwise it returns the longest run of buffered transactions
    that starts at [cseq] and fits [max_mem_size], in order and with
    consecutive [cseq]s, and its total size. *)
Theorem get_pushing_transactions_correct cseq max b :
  pb_wf b -> is_u64 cseq -> 0 <= max <= 9223372036854775807 ->
  Forall tx_fits (transaction b) ->
  (cseq = 0 \/ cseq < first_cseq b ->
     get_pushing_transactions cseq max b =
       Err (InternalReason_into_error GetPushingTransactions)) /\
  (1 <= cseq -> first_cseq b <= cseq ->
   exists pre txs post,
     transaction b = pre ++ txs ++ post /\
     Forall (fun tx => tx_cseq tx < cseq) pre /\ consecutive cseq (txs ++ post) /\
     get_pushing_transactions cseq max b = Ok (txs, sumZ Transaction_size txs) /\
     sumZ Transaction_size txs <= max /\
     (forall tx, head post = Some tx -> max < sumZ Transaction_size (txs ++ [tx]))).
Proof.
  intros Hwf Hc Hmax Hfit. split; [|by apply get_pushing_ok].
  intros H. unfold get_pushing_transactions.
  replace ((cseq =? 0) || (cseq <? first_cseq b)) with true; [done|].
  symmetry. rewrite orb_true_iff, Z.eqb_eq, Z.ltb_lt. lia.
Qed.

(** The two buffered transactions of this buffer are both returned. *)
Definition two_tx_buffer : MemoryPushBuffer :=
  (enqueue (Transaction_new Uid_new_nil 8)
     (enqueue (Transaction_new Uid_new_nil 7) (MemoryPushBuffer_new DatatypeOption_default)).2).2.

Lemma two_tx_buffer_wf : pb_wf two_tx_buffer.
Proof. unfold pb_wf, two_tx_buffer. splits; concrete. Qed.

Lemma get_pushing_transactions_correct_witness :
  exists txs, get_pushing_transactions 8 DEFAULT_MAX_TRANSMISSION_SIZE two_tx_buffer =
      Ok (txs, sumZ Transaction_size txs) /\
    txs = [Transaction_new Uid_new_nil 8] /\
    sumZ Transaction_size txs <= DEFAULT_MAX_TRANSMISSION_SIZE.
Proof.
  destruct (get_pushing_transactions_correct 8 DEFAULT_MAX_TRANSMISSION_SIZE two_tx_buffer
    two_tx_buffer_wf) as [_ H]; [concrete|concrete|repeat constructor; concrete|].
  destruct H as (pre & txs & post & _ & _ & _ & He & Hle & _); [concrete|concrete|].
  exists txs. split; [exact He|]. split; [|exact Hle].
  assert (Hv : get_pushing_transactions 8 DEFAULT_MAX_TRANSMISSION_SIZE two_tx_buffer =
    Ok ([Transaction_new Uid_new_nil 8], 81)) by reflexivity.
  rewrite Hv in He. congruence.
Defined.

(** [deque upto_cseq] removes and returns, in order, exactly the buffered
    transactions with [cseq <= upto_cseq]; the invariant holds again, so the
    memory accounting shrinks by exactly the size of what was returned. *)
Theorem deque_correct upto b : pb_wf b -> is_u64 upto ->
  let '(ret, b') := deque upto b in
  pb_wf b' /\ transaction b = ret ++ transaction b' /\
  Forall (fun tx => tx_cseq tx <= upto) ret /\
  Forall (fun tx => upto < tx_cseq tx) (transaction b') /\
  mem_size b' = mem_size b - sumZ Transaction_size ret.
Proof.
  intros Hwf Hu. destruct (deque_spec upto b Hwf Hu) as (pre & post & Happ & H1 & H2 & Hp & Hq & Hwf' & _).
  destruct (deque upto b) as [ret b']; simpl in *. subst. splits.
  destruct Hwf as (_ & -> & _), Hwf' as (_ & -> & _). rewrite Happ, sumZ_app. lia.
Qed.

Lemma deque_correct_witness :
  exists ret b', deque 7 two_tx_buffer = (ret, b') /\ pb_wf b' /\
    mem_size b' = 162 - sumZ Transaction_size ret /\ length ret = 1%nat.
Proof.
  pose proof (deque_correct 7 two_tx_buffer two_tx_buffer_wf ltac:(concrete)) as H.
  destruct (deque 7 two_tx_buffer) as [ret b'] eqn:He.
  destruct H as (Hwf & _ & _ & _ & Hm).
  exists ret, b'. split; [done|]. split; [exact Hwf|]. split; [exact Hm|].
  vm_compute in He. by injection He as <- _.
Defined.

