(* ===== verification/Pack.v ===== *)
(** * Attributes and push-pull packs
    ([src/clients/common.rs], [src/datatypes/common.rs],
    [src/types/push_pull_pack.rs])

    A datatype core has one [Attribute], shared by reference between its
    transactional, mutable and wired parts; its only fields that change are
    [duid] and [weak_transactional].  [PushPullPack] is the message of a
    synchronization round in both directions.  The references that
    [ClientCommon] holds to the runtime handle, the connectivity and the datatype
    manager are arguments of the definitions that follow them. *)

From S2P Require Import Prelude Types Errors Operations PushBuffer.

(** ** clients/common.rs *)
Record ClientCommon : Type := mkClientCommon {
  cc_collection : string;
  cc_cuid : Cuid;
  cc_alias : string;
}.

#[export] Instance ClientCommon_eq_dec : EqDecision ClientCommon.
Proof. solve_decision. Defined.

(** [cuid] is the value of [Cuid::new()], a fresh identifier. *)
Definition ClientCommon_new_arc (cuid : Cuid) (collection alias : string) : ClientCommon :=
  mkClientCommon collection cuid alias.

Definition ClientCommon_to_string (c : ClientCommon) : string :=
  cc_collection c +:+ "/" +:+ cc_alias c.

(** The name of the client's runtime, also used by [Drop for ClientCommon]. *)
Definition ClientCommon_thread_name (c : ClientCommon) : string :=
  cc_collection c +:+ "/" +:+ cc_alias c +:+ "/" +:+ uid_str (cc_cuid c).

(** ** datatypes/common.rs: [Attribute]

    [Weak<TransactionalDatatype>]: the address of the core and whether a strong
    reference is left. *)
Record WeakTransactional : Type := mkWeak { wt_ptr : Z; wt_alive : bool }.

Record Attribute : Type := mkAttribute {
  attr_key : string;
  attr_type : DataType;
  attr_duid : Duid;
  attr_client_common : ClientCommon;
  attr_option : DatatypeOption;
  attr_is_readonly : bool;
  attr_weak_transactional : option WeakTransactional;
}.

(** [duid] is the value of [Duid::new()]. *)
Definition Attribute_new (duid : Duid) (key : string) (type : DataType)
    (client_common : ClientCommon) (opt : DatatypeOption) (is_readonly : bool) : Attribute :=
  {| attr_key := key; attr_type := type; attr_duid := duid;
     attr_client_common := client_common; attr_option := opt;
     attr_is_readonly := is_readonly; attr_weak_transactional := None |}.

Definition Attribute_resource_id (a : Attribute) : string :=
  cc_collection (attr_client_common a) +:+ "/" +:+ attr_key a.

Definition Attribute_get_cuid (a : Attribute) : Cuid := cc_cuid (attr_client_common a).
Definition Attribute_get_duid (a : Attribute) : Duid := attr_duid a.

Definition Attribute_set_duid (new_duid : Duid) (a : Attribute) : Attribute :=
  {| attr_key := attr_key a; attr_type := attr_type a; attr_duid := new_duid;
     attr_client_common := attr_client_common a; attr_option := attr_option a;
     attr_is_readonly := attr_is_readonly a;
     attr_weak_transactional := attr_weak_transactional a |}.

Definition Attribute_set_transactional (weak : WeakTransactional) (a : Attribute) : Attribute :=
  {| attr_key := attr_key a; attr_type := attr_type a; attr_duid := attr_duid a;
     attr_client_common := attr_client_common a; attr_option := attr_option a;
     attr_is_readonly := attr_is_readonly a;
     attr_weak_transactional := Some weak |}.

(** [Weak::upgrade] of the attribute's reference. *)
Definition Attribute_upgrade (a : Attribute) : option Z :=
  match attr_weak_transactional a with
  | Some w => if wt_alive w then Some (wt_ptr w) else None
  | None => None
  end.

(** A [DatatypeSet] made for a handler: a fresh [Counter] handle on a core. *)
Inductive DatatypeSetRef : Type := DS_Counter (core : Z).

Definition Attribute_get_datatype_set (a : Attribute) : option DatatypeSetRef :=
  transactional ← Attribute_upgrade a;
  match attr_type a with
  | Counter => Some (DS_Counter transactional)
  | _ => None
  end.

(** The call [client_common.detach_datatype_if_same_instance(key, core_id)] that
    [detach_datatype_if_same_instance] makes. *)
Definition Attribute_detach_datatype_if_same_instance (a : Attribute) : option (string * Z) :=
  transactional ← Attribute_upgrade a;
  Some (attr_key a, transactional).

(** ** types/push_pull_pack.rs *)
Record PushPullPack : Type := mkPushPullPack {
  ppp_collection : string;
  ppp_cuid : Cuid;
  ppp_duid : Duid;
  ppp_key : string;
  ppp_type : DataType;
  ppp_state : DatatypeState;
  ppp_checkpoint : CheckPoint;
  ppp_safe_sseq : Z;
  ppp_transactions : list Transaction;
  ppp_snapshot_transaction : option Transaction;
  ppp_is_readonly : bool;
  ppp_error : option PushPullError;
}.

#[export] Instance PushPullPack_eq_dec : EqDecision PushPullPack.
Proof. solve_decision. Defined.

Definition PushPullPack_new (attr : Attribute) (state : DatatypeState) : PushPullPack :=
  {| ppp_collection := cc_collection (attr_client_common attr);
     ppp_cuid := cc_cuid (attr_client_common attr);
     ppp_duid := Attribute_get_duid attr;
     ppp_key := attr_key attr;
     ppp_type := attr_type attr;
     ppp_state := state;
     ppp_checkpoint := CheckPoint_default;
     ppp_safe_sseq := 0;
     ppp_transactions := [];
     ppp_snapshot_transaction := None;
     ppp_is_readonly := attr_is_readonly attr;
     ppp_error := None |}.

Definition PushPullPack_resource_id (p : PushPullPack) : string :=
  ppp_collection p +:+ "/" +:+ ppp_key p.

(** Field assignments on a pack. *)
Definition ppp_with (p : PushPullPack) (duid : Duid) (state : DatatypeState) (cp : CheckPoint)
    (safe : Z) (txs : list Transaction) (snap : option Transaction)
    (err : option PushPullError) : PushPullPack :=
  {| ppp_collection := ppp_collection p; ppp_cuid := ppp_cuid p; ppp_duid := duid;
     ppp_key := ppp_key p; ppp_type := ppp_type p; ppp_state := state;
     ppp_checkpoint := cp; ppp_safe_sseq := safe; ppp_transactions := txs;
     ppp_snapshot_transaction := snap; ppp_is_readonly := ppp_is_readonly p;
     ppp_error := err |}.

Definition ppp_set_state (s : DatatypeState) (p : PushPullPack) : PushPullPack :=
  ppp_with p (ppp_duid p) s (ppp_checkpoint p) (ppp_safe_sseq p) (ppp_transactions p)
    (ppp_snapshot_transaction p) (ppp_error p).
Definition ppp_set_error (e : PushPullError) (p : PushPullPack) : PushPullPack :=
  ppp_with p (ppp_duid p) (ppp_state p) (ppp_checkpoint p) (ppp_safe_sseq p)
    (ppp_transactions p) (ppp_snapshot_transaction p) (Some e).
Definition ppp_set_duid (d : Duid) (p : PushPullPack) : PushPullPack :=
  ppp_with p d (ppp_state p) (ppp_checkpoint p) (ppp_safe_sseq p) (ppp_transactions p)
    (ppp_snapshot_transaction p) (ppp_error p).
Definition ppp_set_cp_sseq (sseq : Z) (p : PushPullPack) : PushPullPack :=
  ppp_with p (ppp_duid p) (ppp_state p) (mkCheckPoint sseq (cp_cseq (ppp_checkpoint p)))
    (ppp_safe_sseq p) (ppp_transactions p) (ppp_snapshot_transaction p) (ppp_error p).
Definition ppp_set_cp_cseq (cseq : Z) (p : PushPullPack) : PushPullPack :=
  ppp_with p (ppp_duid p) (ppp_state p) (mkCheckPoint (cp_sseq (ppp_checkpoint p)) cseq)
    (ppp_safe_sseq p) (ppp_transactions p) (ppp_snapshot_transaction p) (ppp_error p).
Definition ppp_set_transactions (txs : list Transaction) (p : PushPullPack) : PushPullPack :=
  ppp_with p (ppp_duid p) (ppp_state p) (ppp_checkpoint p) (ppp_safe_sseq p) txs
    (ppp_snapshot_transaction p) (ppp_error p).
Definition ppp_set_snapshot (t : option Transaction) (p : PushPullPack) : PushPullPack :=
  ppp_with p (ppp_duid p) (ppp_state p) (ppp_checkpoint p) (ppp_safe_sseq p)
    (ppp_transactions p) t (ppp_error p).

Definition PushPullPack_checkpointing (cp : CheckPoint) (safe_sseq : Z) (p : PushPullPack)
    : PushPullPack :=
  let cseq := match last (ppp_transactions p) with
              | Some tx => tx_cseq tx
              | None => cp_cseq cp
              end in
  ppp_with p (ppp_duid p) (ppp_state p) (mkCheckPoint (cp_sseq cp) cseq) safe_sseq
    (ppp_transactions p) (ppp_snapshot_transaction p) (ppp_error p).

Definition PushPullPack_get_pulled_stub (p : PushPullPack) : PushPullPack :=
  ppp_with p (ppp_duid p) (ppp_state p) CheckPoint_default (ppp_safe_sseq p) [] None None.

Definition PushPullPack_to_string (p : PushPullPack) : string :=
  let attr := (if ppp_is_readonly p then "ro" else "rw")
              +:+ (if ppp_snapshot_transaction p is Some _ then "|sn" else "") in
  let err := match ppp_error p with
             | Some e => "err:" +:+ PushPullError_to_string e
             | None => ""
             end in
  "[" +:+ DataType_to_string (ppp_type p) +:+ "/" +:+ ppp_key p +:+ "/"
  +:+ uid_str (ppp_duid p) +:+ " " +:+ DatatypeState_to_string (ppp_state p) +:+ " " +:+ attr
  +:+ " tx:" +:+ pretty (Z.of_nat (length (ppp_transactions p)))
  +:+ " s" +:+ pretty (cp_sseq (ppp_checkpoint p))
  +:+ ":c" +:+ pretty (cp_cseq (ppp_checkpoint p))
  +:+ ":sf" +:+ pretty (ppp_safe_sseq p) +:+ " " +:+ err +:+ "]".

(** ** Lemmas *)
Lemma resource_id_of_attr attr state :
  PushPullPack_resource_id (PushPullPack_new attr state) = Attribute_resource_id attr.
Proof. done. Qed.

Lemma checkpointing_cseq_last cp safe p tx :
  last (ppp_transactions p) = Some tx ->
  ppp_checkpoint (PushPullPack_checkpointing cp safe p) = mkCheckPoint (cp_sseq cp) (tx_cseq tx).
Proof. intros H. unfold PushPullPack_checkpointing; simpl. by rewrite H. Qed.

Lemma checkpointing_cseq_nil cp safe p :
  ppp_transactions p = [] ->
  ppp_checkpoint (PushPullPack_checkpointing cp safe p) = cp.
Proof. intros H. unfold PushPullPack_checkpointing; simpl. rewrite H. by destruct cp. Qed.
