(* ===== verification/Handler.v ===== *)
(** * Event handlers ([src/datatypes/handler.rs])

    A [DatatypeHandler] holds two boxed closures of the user; a closure is
    either the default no-op or a user function known by an identifier, whose
    behaviour [call] is an argument of the definitions that run it: it may
    change the user's world [U] and may panic.  [HandlersManager] keeps the
    handlers by ascending priority and hands them, cloned, to a task that is
    spawned on the client's runtime. *)

From S2P Require Import Prelude Types Errors Operations PushBuffer Pack.

Inductive Callback : Type := NoOp | UserFn (id : Z).

Record DatatypeHandler : Type := mkDatatypeHandler {
  on_state_change : Callback;
  on_error : Callback;
}.

#[export] Instance Callback_eq_dec : EqDecision Callback.
Proof. solve_decision. Defined.
#[export] Instance DatatypeHandler_eq_dec : EqDecision DatatypeHandler.
Proof. solve_decision. Defined.

Definition DatatypeHandler_new : DatatypeHandler := mkDatatypeHandler NoOp NoOp.

Definition DatatypeHandler_set_on_state_change (f : Callback) (h : DatatypeHandler)
    : DatatypeHandler := mkDatatypeHandler f (on_error h).

Definition DatatypeHandler_set_on_error (f : Callback) (h : DatatypeHandler)
    : DatatypeHandler := mkDatatypeHandler (on_state_change h) f.

(** The arguments a handler is called with, besides the datatype. *)
Inductive HandlerEvent : Type :=
| StateChanged (old_state new_state : DatatypeState)
| ErrorRaised (err : DatatypeError).

#[export] Instance DatatypeSetRef_eq_dec : EqDecision DatatypeSetRef.
Proof. solve_decision. Defined.
#[export] Instance HandlerEvent_eq_dec : EqDecision HandlerEvent.
Proof. solve_decision. Defined.

(** How a call of user code ends. *)
Inductive CallResult (U : Type) : Type := Returned (u : U) | Unwound (u : U).
Arguments Returned {U} u.
Arguments Unwound {U} u.

Section run.
Context {U : Type} (call : Z -> DatatypeSetRef -> HandlerEvent -> U -> CallResult U).

Definition run_callback (f : Callback) (ds : DatatypeSetRef) (ev : HandlerEvent) (u : U)
    : CallResult U :=
  match f with NoOp => Returned u | UserFn id => call id ds ev u end.

(** [catch_unwind]; the panic is only logged. *)
Definition catch_unwind (r : CallResult U) : U :=
  match r with Returned u => u | Unwound u => u end.

Definition DatatypeHandler_notify_state_change (h : DatatypeHandler) (ds : DatatypeSetRef)
    (old_state new_state : DatatypeState) (u : U) : U :=
  catch_unwind (run_callback (on_state_change h) ds (StateChanged old_state new_state) u).

Definition DatatypeHandler_notify_error (h : DatatypeHandler) (ds : DatatypeSetRef)
    (err : DatatypeError) (u : U) : U :=
  catch_unwind (run_callback (on_error h) ds (ErrorRaised err) u).

(** The closure [notify] given to [dispatch]. *)
Definition notify_handler (ev : HandlerEvent) (h : DatatypeHandler) (ds : DatatypeSetRef)
    (u : U) : U :=
  match ev with
  | StateChanged old new => DatatypeHandler_notify_state_change h ds old new u
  | ErrorRaised err => DatatypeHandler_notify_error h ds err u
  end.

(** The body of the spawned task. *)
Definition run_handlers (ds : DatatypeSetRef) (ev : HandlerEvent)
    (handlers : list (Z * DatatypeHandler)) (u : U) : U :=
  foldl (fun u kh => notify_handler ev kh.2 ds u) u handlers.
End run.

(** ** HandlersManager *)
Record HandlersManager : Type := mkHandlersManager {
  hm_handlers : list (Z * DatatypeHandler);        (* BTreeMap *)
}.

(** A task spawned by [dispatch]. *)
Record HandlerTask : Type := mkHandlerTask {
  task_datatype : DatatypeSetRef;
  task_event : HandlerEvent;
  task_handlers : list (Z * DatatypeHandler);
}.

#[export] Instance HandlerTask_eq_dec : EqDecision HandlerTask.
Proof. solve_decision. Defined.

Definition HandlersManager_new (handlers : list (Z * DatatypeHandler)) : HandlersManager :=
  mkHandlersManager handlers.

Definition HandlersManager_set_handler (priority : Z) (h : DatatypeHandler)
    (hm : HandlersManager) : HandlersManager :=
  mkHandlersManager (bt_insert priority h (hm_handlers hm)).

(** [shared]: a spawned task still holds a clone of the handler's [Arc], so that
    [Arc::try_unwrap] fails. *)
Definition HandlersManager_unset_handler (shared : bool) (priority : Z) (hm : HandlersManager)
    : option DatatypeHandler * HandlersManager :=
  let '(removed, handlers) := bt_remove priority (hm_handlers hm) in
  (if shared then None else removed, mkHandlersManager handlers).

Definition HandlersManager_dispatch (attr : Attribute) (ev : HandlerEvent)
    (hm : HandlersManager) : option HandlerTask :=
  ds ← Attribute_get_datatype_set attr;
  Some (mkHandlerTask ds ev (hm_handlers hm)).

Definition HandlersManager_notify_state_change (attr : Attribute)
    (old_state new_state : DatatypeState) (hm : HandlersManager) : option HandlerTask :=
  HandlersManager_dispatch attr (StateChanged old_state new_state) hm.

Definition HandlersManager_notify_error (attr : Attribute) (err : DatatypeError)
    (hm : HandlersManager) : option HandlerTask :=
  HandlersManager_dispatch attr (ErrorRaised err) hm.

(** The callback that an event concerns. *)
Definition callback_of (ev : HandlerEvent) (h : DatatypeHandler) : Callback :=
  match ev with StateChanged _ _ => on_state_change h | ErrorRaised _ => on_error h end.

(** User code that logs each call, then panics where [bad] says so. *)
Definition logging_call (bad : Z -> bool) (id : Z) (ds : DatatypeSetRef) (ev : HandlerEvent)
    (log : list (Z * DatatypeSetRef * HandlerEvent))
    : CallResult (list (Z * DatatypeSetRef * HandlerEvent)) :=
  if bad id then Unwound (log ++ [(id, ds, ev)]) else Returned (log ++ [(id, ds, ev)]).

Definition user_fn (f : Callback) : option Z :=
  match f with NoOp => None | UserFn id => Some id end.

(** ** Lemmas *)
Lemma HandlersManager_set_handler_sorted priority h hm :
  bt_sorted (hm_handlers hm) -> bt_sorted (hm_handlers (HandlersManager_set_handler priority h hm)).
Proof. apply bt_insert_sorted. Qed.

Lemma HandlersManager_unset_handler_sorted shared priority hm :
  bt_sorted (hm_handlers hm) ->
  bt_sorted (hm_handlers (HandlersManager_unset_handler shared priority hm).2).
Proof.
  intros H. unfold HandlersManager_unset_handler.
  pose proof (bt_remove_sorted priority (hm_handlers hm) H).
  by destruct (bt_remove priority (hm_handlers hm)).
Qed.

Lemma run_handlers_log bad ds ev handlers log :
  run_handlers (logging_call bad) ds ev handlers log =
  log ++ ((fun id => (id, ds, ev)) <$> omap (fun kh => user_fn (callback_of ev kh.2)) handlers).
Proof.
  unfold run_handlers. revert log. induction handlers as [|[k h] hs IH]; intros log; simpl.
  { by rewrite app_nil_r. }
  rewrite IH. destruct ev; simpl;
    unfold DatatypeHandler_notify_state_change, DatatypeHandler_notify_error, logging_call;
    [destruct (on_state_change h)|destruct (on_error h)]; simpl; try done;
    destruct (bad id); simpl; by rewrite <- app_assoc.
Qed.

#[export] Hint Resolve HandlersManager_set_handler_sorted HandlersManager_unset_handler_sorted
  : qortoo.

(** ** Properties *)

(** C36.  A dispatched event reaches every registered handler exactly once, in
    strictly ascending priority, whatever subset of the user's callbacks panics;
    nothing is spawned when the datatype is gone.  [set_handler] replaces the
    handler of a priority and [unset_handler] removes it, and both keep the order. *)
Theorem dispatch_runs_every_handler_in_order attr ev hm :
  bt_sorted (hm_handlers hm) ->
  (Attribute_upgrade attr = None -> HandlersManager_dispatch attr ev hm = None) /\
  (forall t, HandlersManager_dispatch attr ev hm = Some t ->
     Attribute_upgrade attr = Some (let '(DS_Counter c) := task_datatype t in c) /\
     bt_sorted (task_handlers t) /\
     forall bad, run_handlers (logging_call bad) (task_datatype t) (task_event t) (task_handlers t) []
       = (fun id => (id, task_datatype t, ev)) <$>
           omap (fun kh => user_fn (callback_of ev kh.2)) (hm_handlers hm)) /\
  (forall p h k, let hm' := HandlersManager_set_handler p h hm in
     bt_sorted (hm_handlers hm') /\
     bt_get k (hm_handlers hm') = if k =? p then Some h else bt_get k (hm_handlers hm)) /\
  (forall p k, let '(old, hm') := HandlersManager_unset_handler false p hm in
     old = bt_get p (hm_handlers hm) /\ bt_sorted (hm_handlers hm') /\
     bt_get k (hm_handlers hm') = if k =? p then None else bt_get k (hm_handlers hm)).
Proof.
  intros Hs. unfold HandlersManager_dispatch, Attribute_get_datatype_set.
  split_and!.
  - by intros ->.
  - intros t. destruct (Attribute_upgrade attr) as [core|]; simpl; [|done].
    destruct (attr_type attr); simpl; try done. intros [= <-]; simpl.
    split_and!; [done..|]. intros bad. by rewrite run_handlers_log.
  - intros p h k. split; [by apply bt_insert_sorted|apply bt_get_insert].
  - intros p k. unfold HandlersManager_unset_handler.
    pose proof (bt_get_remove p k (hm_handlers hm) Hs) as [H1 H2].
    pose proof (bt_remove_sorted p (hm_handlers hm) Hs).
    by destruct (bt_remove p (hm_handlers hm)).
Qed.

Definition example_attribute : Attribute :=
  Attribute_set_transactional (mkWeak 1 true)
    (Attribute_new Uid_new_nil "key" Counter (mkClientCommon "col" Uid_new_nil "alias")
       DatatypeOption_default false).

(** Handlers 9 and 4, registered in that order, run as 4 then 9 although 4 panics. *)
Definition example_handlers : HandlersManager :=
  HandlersManager_set_handler 4 (mkDatatypeHandler NoOp (UserFn 40))
    (HandlersManager_set_handler 9 (mkDatatypeHandler NoOp (UserFn 90)) (HandlersManager_new [])).

Lemma dispatch_runs_every_handler_in_order_witness :
  exists t, HandlersManager_dispatch example_attribute (ErrorRaised ReadonlyViolation) example_handlers
    = Some t /\
  run_handlers (logging_call (Z.eqb 40)) (task_datatype t) (task_event t) (task_handlers t) []
  = [(40, DS_Counter 1, ErrorRaised ReadonlyViolation);
     (90, DS_Counter 1, ErrorRaised ReadonlyViolation)].
Proof.
  destruct (dispatch_runs_every_handler_in_order example_attribute (ErrorRaised ReadonlyViolation)
    example_handlers) as (_ & H & _); [vm_compute; repeat constructor|].
  eexists. split; [reflexivity|].
  destruct (H _ eq_refl) as (_ & _ & Hrun). rewrite Hrun. reflexivity.
Defined.
