(* ===== verification/Mutable.v ===== *)
(** * The mutable state of a datatype ([src/datatypes/mutable.rs], tx_record.rs)

    [MutableDatatype] is what the write lock of a datatype protects.  Its
    methods are computations in [M MutableDatatype MutableCall]: besides the new
    state they give, in order, the handler tasks they spawn and the request to
    detach the datatype from the client's manager.  The lock itself is modelled
    in [Transactional]. *)

From Stdlib Require Import Strings.Byte.
From S2P Require Import Prelude Types Errors Operations Crdts PushBuffer Pack Handler.

(** ** tx_record.rs *)
Record TxRecord : Type := mkTxRecord {
  pending : option Transaction;
  rollback_op_id : OperationId;
  rollback_state : DatatypeState;
}.

Definition TxRecord_new (state : DatatypeState) (op_id : OperationId) : TxRecord :=
  mkTxRecord None op_id state.

Definition TxRecord_record_operation (op_id : OperationId) (state : DatatypeState)
    (op : Operation) (r : TxRecord) : bool * TxRecord :=
  match pending r with
  | None =>
      let tx := Transaction_new (oid_cuid op_id) (u64_add (oid_cseq op_id) 1) in
      (true, mkTxRecord (Some (Transaction_push_operation op tx)) op_id state)
  | Some tx =>
      (false, mkTxRecord (Some (Transaction_push_operation op tx)) (rollback_op_id r)
                (rollback_state r))
  end.

(** ** mutable.rs *)
Definition DATATYPE_ERR_MSG_NO_SNAPSHOT : string := "no snapshot operation".

Record MutableDatatype : Type := mkMutableDatatype {
  m_attr : Attribute;
  m_crdt : Crdt;
  m_op_id : OperationId;
  m_push_buffer : MemoryPushBuffer;
  m_checkpoint : CheckPoint;
  m_state : DatatypeState;
  m_tx_record : TxRecord;
  m_handlers_manager : HandlersManager;
}.

(** Calls that leave the datatype. *)
Inductive MutableCall : Type :=
| SpawnTask (t : HandlerTask)
| DetachDatatype (key : string) (core_id : Z).

Abbreviation MM := (M MutableDatatype MutableCall).

(** Field assignments. *)
Definition m_set_attr (x : Attribute) (m : MutableDatatype) : MutableDatatype :=
  mkMutableDatatype x (m_crdt m) (m_op_id m) (m_push_buffer m) (m_checkpoint m) (m_state m)
    (m_tx_record m) (m_handlers_manager m).
Definition m_set_crdt (x : Crdt) (m : MutableDatatype) : MutableDatatype :=
  mkMutableDatatype (m_attr m) x (m_op_id m) (m_push_buffer m) (m_checkpoint m) (m_state m)
    (m_tx_record m) (m_handlers_manager m).
Definition m_set_op_id (x : OperationId) (m : MutableDatatype) : MutableDatatype :=
  mkMutableDatatype (m_attr m) (m_crdt m) x (m_push_buffer m) (m_checkpoint m) (m_state m)
    (m_tx_record m) (m_handlers_manager m).
Definition m_set_push_buffer (x : MemoryPushBuffer) (m : MutableDatatype) : MutableDatatype :=
  mkMutableDatatype (m_attr m) (m_crdt m) (m_op_id m) x (m_checkpoint m) (m_state m)
    (m_tx_record m) (m_handlers_manager m).
Definition m_set_checkpoint (x : CheckPoint) (m : MutableDatatype) : MutableDatatype :=
  mkMutableDatatype (m_attr m) (m_crdt m) (m_op_id m) (m_push_buffer m) x (m_state m)
    (m_tx_record m) (m_handlers_manager m).
Definition m_put_state (x : DatatypeState) (m : MutableDatatype) : MutableDatatype :=
  mkMutableDatatype (m_attr m) (m_crdt m) (m_op_id m) (m_push_buffer m) (m_checkpoint m) x
    (m_tx_record m) (m_handlers_manager m).
Definition m_set_tx_record (x : TxRecord) (m : MutableDatatype) : MutableDatatype :=
  mkMutableDatatype (m_attr m) (m_crdt m) (m_op_id m) (m_push_buffer m) (m_checkpoint m) (m_state m)
    x (m_handlers_manager m).
Definition m_set_handlers (x : HandlersManager) (m : MutableDatatype) : MutableDatatype :=
  mkMutableDatatype (m_attr m) (m_crdt m) (m_op_id m) (m_push_buffer m) (m_checkpoint m) (m_state m)
    (m_tx_record m) x.
Definition set_pending (x : option Transaction) (m : MutableDatatype) : MutableDatatype :=
  m_set_tx_record (mkTxRecord x (rollback_op_id (m_tx_record m)) (rollback_state (m_tx_record m))) m.

Definition MutableDatatype_new (attr : Attribute) (state : DatatypeState)
    (handlers : list (Z * DatatypeHandler)) : result DatatypeError MutableDatatype :=
  crdt ← Crdt_new (attr_type attr);
  let op_id := OperationId_new_with_cuid (cc_cuid (attr_client_common attr)) in
  Ok {| m_push_buffer := MemoryPushBuffer_new (attr_option attr);
        m_tx_record := TxRecord_new state op_id;
        m_checkpoint := CheckPoint_default;
        m_handlers_manager := HandlersManager_new handlers;
        m_attr := attr; m_crdt := crdt; m_state := state; m_op_id := op_id |}.

Definition Mutable_reset {E} : MM E unit :=
  modify (fun m => m_set_tx_record (TxRecord_new (m_state m) (m_op_id m))
                     (m_set_push_buffer (MemoryPushBuffer_new (attr_option (m_attr m))) m)).

(** The calls of [set_state] when the state changes. *)
Definition state_change_calls (m : MutableDatatype) (new_state : DatatypeState)
    : list MutableCall :=
  match HandlersManager_notify_state_change (m_attr m) (m_state m) new_state
          (m_handlers_manager m) with
  | Some t => [SpawnTask t]
  | None => []
  end ++
  (if decide (new_state = Disabled) then
     match Attribute_detach_datatype_if_same_instance (m_attr m) with
     | Some (key, core_id) => [DetachDatatype key core_id]
     | None => []
     end
   else []).

Definition Mutable_set_state {E} (new_state : DatatypeState) : MM E unit := fun m =>
  if decide (m_state m = new_state) then (Ok tt, m, [])
  else (Ok tt, m_put_state new_state m, state_change_calls m new_state).

Definition Mutable_disable {E} : MM E unit :=
  Mutable_reset ;; Mutable_set_state Disabled.

(** A method call on [self.crdt]. *)
Definition on_crdt {E A} (f : Crdt -> result E A * Crdt) : MM E A := fun m =>
  let '(r, c) := f (m_crdt m) in (r, m_set_crdt c m, []).

Definition Mutable_apply_snapshot_transaction (tx : Transaction) : MM DatatypeError unit :=
  match tx_operations tx with
  | [] => fail (ServerRejected (Rej_ProtocolViolation DATATYPE_ERR_MSG_NO_SNAPSHOT))
  | snap_op :: _ =>
      match op_body snap_op with
      | Snapshot body =>
          on_crdt (Crdt_deserialize (snap_data body)) ;;
          modify (fun m => m_set_op_id
            (mkOperationId (op_lamport snap_op) (oid_cuid (m_op_id m)) 0) m) ;;
          Mutable_reset
      | _ => fail (ServerRejected (Rej_ProtocolViolation DATATYPE_ERR_MSG_NO_SNAPSHOT))
      end
  end.

(** One turn of the loop of [do_rollback]; an [Err] is only logged. *)
Definition undo_operation {E} (op : Operation) : MM E unit := fun m =>
  let '(r, c) := Crdt_execute_inverse_operation op (m_crdt m) in
  let m := m_set_crdt c m in
  match r with
  | Ok _ | Err _ => (Ok tt, m, [])
  | Panic why => (Panic why, m, [])
  | Blocked => (Blocked, m, [])
  end.

Definition Mutable_do_rollback {E} : MM E unit := fun m =>
  match pending (m_tx_record m) with
  | Some tx =>
      (for_each undo_operation (rev (tx_operations tx)) ;;
       modify (fun m => m_set_op_id (rollback_op_id (m_tx_record m)) m) ;;
       st ← gets (fun m => rollback_state (m_tx_record m));
       Mutable_set_state st) (set_pending None m)
  | None => (Ok tt, m, [])
  end.

Definition Mutable_end_transaction (tag : option string) (committed : bool)
    : MM DatatypeErrorWithAction bool :=
  if negb committed then Mutable_do_rollback ;; mret false
  else fun m =>
    match pending (m_tx_record m) with
    | Some tx =>
        let m := set_pending None m in
        let tx := Transaction_set_tag tag tx in
        if decide (tx_cuid tx = oid_cuid (m_op_id m)) then
          let '(r, b) := enqueue tx (m_push_buffer m) in
          let m := m_set_push_buffer b m in
          match r with
          | Ok _ => (Ok true, m, [])
          | Err err => (Err err, set_pending (Some tx) m, [])
          | Panic why => (Panic why, m, [])
          | Blocked => (Blocked, m, [])
          end
        else (Ok true, m, [])
    | None => (Ok true, m, [])
    end.

Definition Mutable_apply_action {E} (recovery : RecoveryAction) : MM E unit :=
  match recovery with
  | NotifyOnly | RetryWithBackOff => mret tt
  | RollbackTransaction => Mutable_do_rollback
  | Resubscribe | ResubscribeWithBackOff =>
      Mutable_reset ;; Mutable_set_state SubscribingOrCreating
  | Disable => Mutable_disable
  end.

Definition execute_remote_operation (op : Operation) : MM DatatypeError unit :=
  modify (fun m => m_set_op_id
    (mkOperationId (Z.max (lamport (m_op_id m)) (op_lamport op)) (oid_cuid (m_op_id m))
       (oid_cseq (m_op_id m))) m) ;;
  on_crdt (Crdt_execute_remote_operation op) ;; mret tt.

Definition Mutable_execute_remote_transaction (tx : Transaction) : MM DatatypeError unit :=
  for_each execute_remote_operation (tx_operations tx).

Definition Mutable_execute_local_operation (op : Operation) : MM DatatypeError ReturnType :=
  fun m =>
  let op := Operation_set_lamport (u64_add (lamport (m_op_id m)) 1) op in
  let '(r, c) := Crdt_execute_local_operation op (m_crdt m) in
  let m := m_set_crdt c m in
  match r with
  | Ok ret =>
      let '(is_new_tx, rec) :=
        TxRecord_record_operation (m_op_id m) (m_state m) op (m_tx_record m) in
      (Ok ret, m_set_op_id (OperationId_next is_new_tx (m_op_id m)) (m_set_tx_record rec m), [])
  | _ => (r, m, [])
  end.

Definition Mutable_new_snapshot_operation (now : Z) (m : MutableDatatype) : Operation :=
  Operation_set_lamport (lamport (m_op_id m))
    (Operation_new_snapshot now (Crdt_serialize (m_crdt m))).

Definition Mutable_set_handler (priority : Z) (h : DatatypeHandler) (m : MutableDatatype)
    : MutableDatatype :=
  m_set_handlers (HandlersManager_set_handler priority h (m_handlers_manager m)) m.

Definition Mutable_unset_handler (shared : bool) (priority : Z) (m : MutableDatatype)
    : option DatatypeHandler * MutableDatatype :=
  let '(old, hm) := HandlersManager_unset_handler shared priority (m_handlers_manager m) in
  (old, m_set_handlers hm m).

Definition Mutable_call_error_handler {E} (err : DatatypeError) : MM E unit := fun m =>
  (Ok tt, m,
   match HandlersManager_notify_error (m_attr m) err (m_handlers_manager m) with
   | Some t => [SpawnTask t]
   | None => []
   end).

(** ** Specification vocabulary *)

(** The local operations of a transaction, as the code stamps them. *)
Fixpoint stamp_ops (l : Z) (ops : list Operation) : list Operation :=
  match ops with
  | [] => []
  | op :: ops => Operation_set_lamport (u64_add l 1) op :: stamp_ops (u64_add l 1) ops
  end.

Definition lamport_after (l : Z) (ops : list Operation) : Z :=
  foldl (fun l _ => u64_add l 1) l ops.

Definition crdt_after (c : Crdt) (ops : list Operation) : Crdt :=
  foldl (fun c op => (Crdt_execute_local_operation op c).2) c ops.

(** All operations of the list succeed, one after the other. *)
Fixpoint ops_ok (c : Crdt) (ops : list Operation) : Prop :=
  match ops with
  | [] => True
  | op :: ops => exists r c', Crdt_execute_local_operation op c = (Ok r, c') /\ ops_ok c' ops
  end.

(** The body of a transaction that calls [execute_local_operation] in sequence. *)
Definition execute_ops (ops : list Operation) : MM DatatypeError unit :=
  for_each (fun op => Mutable_execute_local_operation op ;; mret tt) ops.

(** The transaction that [ops] build from [m]. *)
Definition built_tx (m : MutableDatatype) (ops : list Operation) : Transaction :=
  {| tx_cuid := oid_cuid (m_op_id m); tx_cseq := u64_add (oid_cseq (m_op_id m)) 1;
     tx_sseq := 0; tx_tag := None; tx_event := false;
     tx_operations := stamp_ops (lamport (m_op_id m)) ops |}.

(** The state after [ops] ran from [m], before the commit. *)
Definition in_tx (m : MutableDatatype) (ops : list Operation) : MutableDatatype :=
  m_set_crdt (crdt_after (m_crdt m) ops)
    (m_set_op_id (mkOperationId (lamport_after (lamport (m_op_id m)) ops) (oid_cuid (m_op_id m))
                    (u64_add (oid_cseq (m_op_id m)) 1))
       (m_set_tx_record (mkTxRecord (Some (built_tx m ops)) (m_op_id m) (m_state m)) m)).

(** [m] with the rollback point of an aborted transaction. *)
Definition rolled_back (m : MutableDatatype) : MutableDatatype :=
  m_set_tx_record (mkTxRecord None (m_op_id m) (m_state m)) m.

(** The last [cseq] that was committed. *)
Definition committed_cseq (m : MutableDatatype) : Z :=
  match pending (m_tx_record m) with
  | Some _ => oid_cseq (rollback_op_id (m_tx_record m))
  | None => oid_cseq (m_op_id m)
  end.

Definition pending_wf (m : MutableDatatype) : Prop :=
  match pending (m_tx_record m) with
  | None => True
  | Some tx =>
      tx_cuid tx = oid_cuid (m_op_id m) /\ tx_cseq tx = oid_cseq (m_op_id m) /\
      oid_cseq (m_op_id m) = oid_cseq (rollback_op_id (m_tx_record m)) + 1 /\
      oid_cuid (rollback_op_id (m_tx_record m)) = oid_cuid (m_op_id m) /\
      counter_tx tx = true /\ tx_operations tx <> []
  end.

(** The invariant of [MutableDatatype]. *)
Definition mutable_wf (m : MutableDatatype) : Prop :=
  crdt_wf (m_crdt m) /\ pb_wf (m_push_buffer m) /\
  max_mem_size_of_push_buffer (attr_option (m_attr m)) <= UPPER_MAX_MEM_SIZE_OF_PUSH_BUFFER /\
  oid_cuid (m_op_id m) = Attribute_get_cuid (m_attr m) /\
  0 <= committed_cseq m /\ oid_cseq (m_op_id m) <= u64_max /\
  (transaction (m_push_buffer m) = [] \/ last_cseq (m_push_buffer m) = committed_cseq m) /\
  pending_wf m.

(** ** Lemmas: running operations *)
Lemma stamp_ops_app l ops op :
  stamp_ops l (ops ++ [op]) =
  stamp_ops l ops ++ [Operation_set_lamport (u64_add (lamport_after l ops) 1) op].
Proof. revert l. induction ops as [|o ops IH]; intros l; simpl; [done|]. by rewrite IH. Qed.

Lemma stamp_ops_length l ops : length (stamp_ops l ops) = length ops.
Proof. revert l. induction ops; intros; simpl; auto. Qed.

Lemma counter_stamp_ops l ops :
  Forall (fun op => is_counter_op op = true) ops -> forallb is_counter_op (stamp_ops l ops) = true.
Proof.
  intros H. revert l. induction H as [|op ops Hop _ IH]; intros l; [done|].
  cbn [stamp_ops forallb]. change (is_counter_op (Operation_set_lamport _ op)) with (is_counter_op op).
  by rewrite Hop, IH.
Qed.

(** Without overflow the stamps are consecutive. *)
Lemma stamp_ops_lamport l ops :
  0 <= l -> l + Z.of_nat (length ops) <= u64_max ->
  op_lamport <$> stamp_ops l ops = seqZ (l + 1) (Z.of_nat (length ops)) /\
  lamport_after l ops = l + Z.of_nat (length ops).
Proof.
  revert l. induction ops as [|op ops IH]; intros l Hl Hm; cbn [length] in *.
  { split; [done|]. cbn. lia. }
  rewrite Nat2Z.inj_succ in *. unfold u64_max in *.
  cbn [stamp_ops lamport_after foldl fmap list_fmap op_lamport Operation_set_lamport].
  rewrite (u64_add_small l 1) by (unfold is_u64; lia).
  fold (lamport_after (l + 1) ops). destruct (IH (l + 1)) as [-> ->]; [lia|lia|]. split; [|lia].
  rewrite (seqZ_cons (l + 1)) by lia. by rewrite Z.pred_succ.
Qed.

Lemma lamport_after_app l ops op :
  lamport_after l (ops ++ [op]) = u64_add (lamport_after l ops) 1.
Proof. unfold lamport_after. by rewrite foldl_app. Qed.

Lemma crdt_after_app c ops op :
  crdt_after c (ops ++ [op]) = (Crdt_execute_local_operation op (crdt_after c ops)).2.
Proof. unfold crdt_after. by rewrite foldl_app. Qed.

Lemma ops_ok_app c ops op :
  ops_ok c (ops ++ [op]) <->
  ops_ok c ops /\ exists r c', Crdt_execute_local_operation op (crdt_after c ops) = (Ok r, c').
Proof.
  revert c. induction ops as [|o ops IH]; intros c; simpl.
  - split; [intros (r & c' & H & _)|intros (_ & r & c' & H)]; eauto.
  - unfold crdt_after; simpl. split.
    + intros (r & c' & H & (Ho & Hr)%IH). rewrite H. simpl. eauto 10.
    + intros ((r & c' & H & Ho) & Hr). rewrite H in *. exists r, c'. split; [done|].
      apply IH. by split.
Qed.

Lemma counter_ops_ok c ops : Forall (fun op => is_counter_op op = true) ops -> ops_ok c ops.
Proof.
  intros H. revert c. induction H as [|op ops Hop _ IH]; intros c; simpl; [done|].
  rewrite Crdt_execute_local_counter by done. eauto.
Qed.

Lemma crdt_after_counter c ops :
  Forall (fun op => is_counter_op op = true) ops ->
  crdt_value (crdt_after c ops) =
    match ops with [] => crdt_value c | _ => i64_wrap (crdt_value c + sumZ op_delta ops) end.
Proof.
  revert c. induction ops as [|op ops IH] using rev_ind; intros c H.
  { done. }
  rewrite Forall_app, Forall_singleton in H. destruct H as [H Hop].
  rewrite crdt_after_app, Crdt_execute_local_counter by exact Hop. simpl.
  rewrite IH by done. rewrite sumZ_app, sumZ_singleton.
  destruct ops as [|o ops]; cbn [app].
  - unfold i64_add. rewrite sumZ_nil. by rewrite Z.add_0_l.
  - unfold i64_add. rewrite i64_wrap_wrap_l. f_equal. lia.
Qed.

(** Without a transaction in progress, the first operation starts one. *)
Lemma execute_first m op r c' :
  pending (m_tx_record m) = None ->
  Crdt_execute_local_operation op (m_crdt m) = (Ok r, c') ->
  Mutable_execute_local_operation op m = (Ok r, in_tx m [op], []).
Proof.
  intros Hp He. unfold Mutable_execute_local_operation.
  rewrite local_lamport, He. unfold TxRecord_record_operation. simpl. rewrite Hp.
  unfold in_tx, crdt_after; simpl. by rewrite He.
Qed.

Lemma execute_next m ops op r c' : ops <> [] ->
  Crdt_execute_local_operation op (crdt_after (m_crdt m) ops) = (Ok r, c') ->
  Mutable_execute_local_operation op (in_tx m ops) = (Ok r, in_tx m (ops ++ [op]), []).
Proof.
  intros Hne He. unfold Mutable_execute_local_operation. simpl.
  rewrite local_lamport, He. unfold in_tx. rewrite crdt_after_app, He, lamport_after_app.
  unfold built_tx. by rewrite stamp_ops_app.
Qed.

Lemma for_each_app {S W E A} (f : A -> M S W E unit) l k s :
  for_each f (l ++ k) s = (for_each f l ;; for_each f k) s.
Proof.
  revert s. induction l as [|x l IH]; intros s; simpl.
  - by rewrite M_ret_bind.
  - rewrite M_bind_assoc. unfold mbind, M_bind.
    destruct (f x s) as [[[[]|e|p|] s'] w]; try done.
    rewrite IH. unfold mbind, M_bind. done.
Qed.

(** A transaction body whose operations all succeed reaches [in_tx]. *)
Lemma execute_ops_in_tx m ops : ops <> [] ->
  pending (m_tx_record m) = None -> ops_ok (m_crdt m) ops ->
  execute_ops ops m = (Ok tt, in_tx m ops, []).
Proof.
  intros Hne Hp. induction ops as [|op ops IH] using rev_ind; [done|].
  intros (Ho & r & c' & He)%ops_ok_app. unfold execute_ops. rewrite for_each_app.
  destruct ops as [|o ops].
  - simpl. rewrite M_ret_bind. unfold mbind, M_bind, mret, M_ret.
    by rewrite (execute_first m op r c' Hp He).
  - erewrite M_bind_Ok; [|apply IH; [done|done]].
    simpl. unfold mbind, M_bind, mret, M_ret.
    by rewrite (execute_next m (o :: ops) op r c' ltac:(done) He).
Qed.

(** ** Lemmas: rollback *)
Lemma undo_ops E c ops l m :
  crdt_wf c -> ops_ok c ops ->
  for_each undo_operation (rev (stamp_ops l ops)) (m_set_crdt (crdt_after c ops) m)
    = (@Ok E unit tt, m_set_crdt c m, []).
Proof.
  intros Hwf. revert m. induction ops as [|op ops IH] using rev_ind; intros m Ho; [done|].
  apply ops_ok_app in Ho as (Ho & r & c' & He).
  rewrite stamp_ops_app, rev_app_distr, crdt_after_app, He. cbn [rev app snd for_each].
  assert (Hw : crdt_wf (crdt_after c ops)).
  { clear -Hwf Ho. induction ops as [|o ops IH] using rev_ind; [done|].
    apply ops_ok_app in Ho as (Ho & r & c' & He). rewrite crdt_after_app, He.
    eapply local_wf; [by apply IH|done]. }
  destruct (local_inverse (crdt_after c ops) (Operation_set_lamport (u64_add (lamport_after l ops) 1) op)
    r c' Hw) as [r' Hinv]; [by rewrite local_lamport|].
  erewrite M_bind_Ok; last first.
  { unfold undo_operation. simpl. rewrite Hinv. reflexivity. }
  change (m_set_crdt (crdt_after c ops) (m_set_crdt c' m)) with (m_set_crdt (crdt_after c ops) m).
  by rewrite IH.
Qed.

Lemma rollback_in_tx E m ops :
  crdt_wf (m_crdt m) -> ops_ok (m_crdt m) ops ->
  Mutable_do_rollback (in_tx m ops) = (@Ok E unit tt, rolled_back m, []).
Proof.
  intros Hwf Ho. unfold Mutable_do_rollback.
  change (pending (m_tx_record (in_tx m ops))) with (Some (built_tx m ops)). cbv iota.
  set (m1 := set_pending None (in_tx m ops)).
  erewrite M_bind_Ok; last first.
  { change (tx_operations (built_tx m ops)) with (stamp_ops (lamport (m_op_id m)) ops).
    change m1 with (m_set_crdt (crdt_after (m_crdt m) ops) (m_set_crdt (m_crdt m) m1)).
    apply undo_ops; [exact Hwf|exact Ho]. }
  subst m1. unfold mbind, M_bind, modify, gets, Mutable_set_state. cbn -[decide].
  rewrite decide_True by done. simpl. by destruct m.
Qed.

(** The enqueue of a commit. *)
Lemma end_transaction_committed m tx tag :
  pending (m_tx_record m) = Some tx -> tx_cuid tx = oid_cuid (m_op_id m) ->
  Mutable_end_transaction tag true m =
  (let tx := Transaction_set_tag tag tx in
   let '(r, b) := enqueue tx (m_push_buffer m) in
   match r with
   | Ok _ => (Ok true, m_set_push_buffer b (set_pending None m), [])
   | Err e => (Err e, set_pending (Some tx) (m_set_push_buffer b (set_pending None m)), [])
   | Panic why => (Panic why, m_set_push_buffer b (set_pending None m), [])
   | Blocked => (Blocked, m_set_push_buffer b (set_pending None m), [])
   end).
Proof.
  intros Hp Hc. unfold Mutable_end_transaction. cbn [negb]. rewrite Hp. cbv zeta.
  change (tx_cuid (Transaction_set_tag tag tx)) with (tx_cuid tx).
  change (oid_cuid (m_op_id (set_pending None m))) with (oid_cuid (m_op_id m)).
  rewrite decide_True by done. done.
Qed.

Lemma committed_cseq_0 m : pending (m_tx_record m) = None ->
  committed_cseq m = oid_cseq (m_op_id m).
Proof. unfold committed_cseq. by intros ->. Qed.

(** ** Lemmas: the invariant *)
Lemma mutable_wf_cseq m : mutable_wf m -> 0 <= oid_cseq (m_op_id m).
Proof.
  intros (_ & _ & _ & _ & H0 & _ & _ & Hp). unfold committed_cseq, pending_wf in *.
  destruct (pending (m_tx_record m)); [|done]. destruct Hp as (_ & _ & -> & _). lia.
Qed.

Lemma new_wf attr state handlers m :
  max_mem_size_of_push_buffer (attr_option attr) <= UPPER_MAX_MEM_SIZE_OF_PUSH_BUFFER ->
  MutableDatatype_new attr state handlers = Ok m -> mutable_wf m.
Proof.
  intros Ho. unfold MutableDatatype_new, Crdt_new, mbind, result_bind.
  destruct (attr_type attr); try done. intros [= <-].
  unfold mutable_wf, committed_cseq, pending_wf; simpl. splits.
  - by left.
Qed.

Lemma reset_wf E : preserves mutable_wf (@Mutable_reset E).
Proof.
  apply preserves_modify. intros m Hwf. pose proof (mutable_wf_cseq m Hwf).
  destruct Hwf as (H1 & H2 & H3 & H4 & H5 & H6 & H7 & H8).
  unfold mutable_wf, committed_cseq, pending_wf; simpl. splits. by left.
Qed.

Lemma set_state_wf E st : preserves mutable_wf (@Mutable_set_state E st).
Proof. intros m Hwf. unfold Mutable_set_state. by case_decide. Qed.

Lemma inverse_wf op c : crdt_wf c -> crdt_wf (Crdt_execute_inverse_operation op c).2.
Proof.
  destruct c as [c]. unfold Crdt_execute_inverse_operation, CounterCrdt_execute_inverse_operation.
  destruct (op_body op); simpl; [|done]. intros _. apply i64_wrap_range.
Qed.

Lemma execute_wf op c : crdt_wf c -> crdt_wf (Crdt_execute_local_operation op c).2.
Proof.
  intros H. destruct (is_counter_op op) eqn:Ho.
  - rewrite Crdt_execute_local_counter by done. apply i64_wrap_range.
  - by rewrite Crdt_execute_local_snapshot by done.
Qed.

Lemma set_crdt_wf c m : crdt_wf c -> mutable_wf m -> mutable_wf (m_set_crdt c m).
Proof. intros Hc (_ & H). by split. Qed.

Lemma undo_operation_counter E op m : is_counter_op op = true ->
  undo_operation op m =
    (@Ok E unit tt, m_set_crdt (Crdt_execute_inverse_operation op (m_crdt m)).2 m, []).
Proof.
  intros Ho. unfold undo_operation. destruct (m_crdt m) as [c].
  unfold Crdt_execute_inverse_operation, CounterCrdt_execute_inverse_operation, is_counter_op in *.
  by destruct (op_body op).
Qed.

(** Undoing counter operations only changes the CRDT and never panics. *)
Lemma undo_all_counter E ops m : forallb is_counter_op ops = true ->
  exists c, for_each undo_operation ops m = (@Ok E unit tt, m_set_crdt c m, []) /\
    (crdt_wf (m_crdt m) -> crdt_wf c).
Proof.
  revert m. induction ops as [|op ops IH]; intros m H.
  - exists (m_crdt m). split; [by destruct m|done].
  - apply andb_true_iff in H as [Ho H]. cbn [for_each].
    erewrite M_bind_Ok; [|by apply undo_operation_counter].
    destruct (IH (m_set_crdt (Crdt_execute_inverse_operation op (m_crdt m)).2 m) H) as (c & -> & Hc).
    exists c. split; [done|]. intros Hw. by apply Hc, inverse_wf.
Qed.

Lemma forallb_rev {A} (f : A -> bool) l : forallb f (rev l) = forallb f l.
Proof.
  induction l as [|x l IH]; simpl; [done|]. rewrite forallb_app, IH; simpl.
  destruct (f x), (forallb f l); done.
Qed.

Lemma do_rollback_eq E m tx : pending (m_tx_record m) = Some tx -> counter_tx tx = true ->
  exists c calls, (crdt_wf (m_crdt m) -> crdt_wf c) /\
  Mutable_do_rollback m =
    (@Ok E unit tt,
     m_put_state (rollback_state (m_tx_record m))
       (m_set_op_id (rollback_op_id (m_tx_record m)) (m_set_crdt c (set_pending None m))), calls).
Proof.
  intros Hp Hc. unfold Mutable_do_rollback. rewrite Hp.
  destruct (undo_all_counter E (rev (tx_operations tx)) (set_pending None m)) as (c & Hu & Hw).
  { by rewrite forallb_rev. }
  exists c. erewrite M_bind_Ok by apply Hu.
  unfold mbind, M_bind, modify, gets, Mutable_set_state. cbn -[decide state_change_calls].
  case_decide as Hd; eexists; (split; [exact Hw|]); [|reflexivity].
  destruct m; simpl in *. by subst.
Qed.

Lemma do_rollback_wf E : preserves mutable_wf (@Mutable_do_rollback E).
Proof.
  intros m Hwf. destruct (pending (m_tx_record m)) as [tx|] eqn:Hp.
  2:{ unfold Mutable_do_rollback. by rewrite Hp. }
  destruct Hwf as (H1 & H2 & H3 & H4 & H5 & H6 & H7 & H8).
  unfold pending_wf, committed_cseq in *. rewrite Hp in *.
  destruct H8 as (Ht1 & Ht2 & Ht3 & Ht4 & Ht5 & _).
  destruct (do_rollback_eq E m tx Hp Ht5) as (c & calls & Hc & ->).
  unfold mutable_wf, pending_wf, committed_cseq; simpl. splits; try lia; auto.
  by rewrite Ht4.
Qed.

Lemma disable_wf E : preserves mutable_wf (@Mutable_disable E).
Proof. apply preserves_bind; [apply reset_wf|intros; apply set_state_wf]. Qed.

Lemma apply_action_wf E r : preserves mutable_wf (@Mutable_apply_action E r).
Proof.
  destruct r; simpl; auto using reset_wf, set_state_wf, do_rollback_wf, disable_wf with qortoo.
Qed.

Lemma call_error_handler_wf E e : preserves mutable_wf (@Mutable_call_error_handler E e).
Proof. by intros m. Qed.

Lemma execute_remote_wf tx : preserves mutable_wf (Mutable_execute_remote_transaction tx).
Proof.
  apply preserves_for_each. intros op.
  apply preserves_bind; [apply preserves_modify|intros _; apply preserves_bind].
  - intros m H. exact H.
  - intros m H. unfold on_crdt.
    pose proof (execute_wf op (m_crdt m) (proj1 H)) as Hc.
    rewrite <- Crdt_execute_remote_local in Hc.
    destruct (Crdt_execute_remote_operation op (m_crdt m)) as [r c]. by apply set_crdt_wf.
  - intros; apply preserves_ret.
Qed.

Lemma deserialize_wf bs c : crdt_wf c -> crdt_wf (Crdt_deserialize bs c).2.
Proof.
  destruct c as [c]. unfold Crdt_deserialize. case_decide; simpl; [done|].
  intros _. apply i64_wrap_range.
Qed.

Lemma apply_snapshot_wf tx : preserves mutable_wf (Mutable_apply_snapshot_transaction tx).
Proof.
  intros m Hwf. unfold Mutable_apply_snapshot_transaction.
  destruct (tx_operations tx) as [|op ops]; [done|]. destruct (op_body op) as [|body]; [done|].
  pose proof (deserialize_wf (snap_data body) (m_crdt m) (proj1 Hwf)) as Hc.
  unfold mbind, M_bind, on_crdt, modify, Mutable_reset.
  destruct (Crdt_deserialize (snap_data body) (m_crdt m)) as [[[]|e|p|] c]; simpl in *;
    try by apply set_crdt_wf.
  destruct Hwf as (H1 & H2 & H3 & H4 & H5 & H6 & H7 & H8).
  unfold mutable_wf, committed_cseq, pending_wf; simpl. splits. by left.
Qed.

Lemma record_operation_wf m op c :
  mutable_wf m -> crdt_wf c -> is_counter_op op = true -> oid_cseq (m_op_id m) < u64_max ->
  mutable_wf
    (let '(is_new_tx, rec) :=
       TxRecord_record_operation (m_op_id m) (m_state m) op (m_tx_record m) in
     m_set_op_id (OperationId_next is_new_tx (m_op_id m))
       (m_set_tx_record rec (m_set_crdt c m))).
Proof.
  intros Hwf Hc Ho Hlt. pose proof (mutable_wf_cseq m Hwf) as H0.
  destruct Hwf as (H1 & H2 & H3 & H4 & H5 & H6 & H7 & H8).
  assert (Hadd : u64_add (oid_cseq (m_op_id m)) 1 = oid_cseq (m_op_id m) + 1).
  { apply u64_add_small. unfold is_u64, u64_max in *. lia. }
  unfold TxRecord_record_operation, mutable_wf, committed_cseq, pending_wf in *.
  destruct (pending (m_tx_record m)) as [tx|]; simpl.
  - destruct H8 as (Ht1 & Ht2 & Ht3 & Ht4 & Ht5 & Ht6). splits.
    + unfold counter_tx in *; simpl. rewrite forallb_app, Ht5. simpl. by rewrite Ho.
    + by destruct (tx_operations tx).
  - rewrite Hadd. splits; try lia. unfold counter_tx; simpl. by rewrite Ho.
Qed.

Lemma execute_local_wf op m : mutable_wf m -> oid_cseq (m_op_id m) < u64_max ->
  mutable_wf (final (Mutable_execute_local_operation op m)).
Proof.
  intros Hwf Hlt. unfold Mutable_execute_local_operation. rewrite local_lamport.
  destruct (is_counter_op op) eqn:Ho.
  - rewrite Crdt_execute_local_counter by done.
    pose proof (record_operation_wf m
      (Operation_set_lamport (u64_add (lamport (m_op_id m)) 1) op)
      (CrdtCounter (mkCounterCrdt (i64_add (crdt_value (m_crdt m)) (op_delta op))))
      Hwf (i64_wrap_range _) Ho Hlt) as Hr.
    cbv zeta. simpl in *.
    by destruct (TxRecord_record_operation _ _ _ _).
  - rewrite Crdt_execute_local_snapshot by done. by apply set_crdt_wf; [apply Hwf|].
Qed.

(** The memory budget of a pending transaction. *)
Definition pending_fits (tag : option string) (m : MutableDatatype) : Prop :=
  match pending (m_tx_record m) with
  | Some tx => tx_fits (Transaction_set_tag tag tx)
  | None => True
  end.

Lemma commit_buffer m tx : mutable_wf m -> pending (m_tx_record m) = Some tx ->
  1 <= tx_cseq tx <= u64_max /\ tx_cuid tx = oid_cuid (m_op_id m) /\
  (transaction (m_push_buffer m) = [] \/ tx_cseq tx = last_cseq (m_push_buffer m) + 1).
Proof.
  intros (H1 & H2 & H3 & H4 & H5 & H6 & H7 & H8) Hp.
  unfold committed_cseq, pending_wf in *. rewrite Hp in *.
  destruct H8 as (Ht1 & Ht2 & Ht3 & _). splits; try lia.
  destruct H7 as [?|Heq]; [by left|right]. lia.
Qed.

Lemma end_transaction_wf tag committed m : mutable_wf m -> pending_fits tag m ->
  mutable_wf (final (Mutable_end_transaction tag committed m)).
Proof.
  intros Hwf Hfit. destruct committed.
  2:{ refine (preserves_bind mutable_wf _ _ _ _ m Hwf);
      [apply do_rollback_wf|intros; apply preserves_ret]. }
  unfold pending_fits in Hfit. destruct (pending (m_tx_record m)) as [tx|] eqn:Hp.
  2:{ unfold Mutable_end_transaction. simpl. by rewrite Hp. }
  destruct (commit_buffer m tx Hwf Hp) as (Hc & Hcuid & Hseq).
  rewrite (end_transaction_committed m tx tag Hp Hcuid). cbv zeta.
  destruct Hwf as (H1 & H2 & H3 & H4 & H5 & H6 & H7 & H8).
  unfold pending_wf in H8. rewrite Hp in H8. destruct H8 as (Ht1 & Ht2 & Ht3 & Ht4 & Ht5 & Ht6).
  destruct (Z.le_gt_cases (mem_size (m_push_buffer m) + Transaction_size (Transaction_set_tag tag tx))
              (max_mem_size_of_push_buffer (option_ (m_push_buffer m)))) as [Hle|Hgt].
  - destruct (enqueue_accepts (Transaction_set_tag tag tx) (m_push_buffer m))
      as (b & -> & Hb & _ & Hl & _); try done.
    unfold mutable_wf, committed_cseq, pending_wf; simpl. splits; [lia|].
    right. rewrite Hl. simpl. done.
  - rewrite enqueue_full by done.
    unfold mutable_wf, committed_cseq, pending_wf in *; simpl. rewrite Hp in *. splits.
Qed.

(** The conditions of a commit. *)
Record commit_ready (m : MutableDatatype) (ops : list Operation) (tag : option string) : Prop := {
  ready_wf : mutable_wf m;
  ready_pending : pending (m_tx_record m) = None;
  ready_ops : ops <> [];
  ready_counter : Forall (fun op => is_counter_op op = true) ops;
  ready_cseq : oid_cseq (m_op_id m) < u64_max;
  ready_fits : tx_fits (Transaction_set_tag tag (built_tx m ops));
}.

(** The buffer has room for the transaction of [ops]. *)
Definition has_room (m : MutableDatatype) (ops : list Operation) (tag : option string) : Prop :=
  mem_size (m_push_buffer m) + Transaction_size (Transaction_set_tag tag (built_tx m ops))
  <= max_mem_size_of_push_buffer (option_ (m_push_buffer m)).

(** The datatype after the commit of [ops]. *)
Definition after_commit (m : MutableDatatype) (ops : list Operation) (tag : option string)
    : MutableDatatype :=
  m_set_push_buffer (enqueue (Transaction_set_tag tag (built_tx m ops)) (m_push_buffer m)).2
    (set_pending None (in_tx m ops)).

(** The datatype after a commit that the buffer refused. *)
Definition after_refused_commit (m : MutableDatatype) (ops : list Operation) (tag : option string)
    : MutableDatatype :=
  set_pending (Some (Transaction_set_tag tag (built_tx m ops))) (in_tx m ops).

Lemma built_tx_cseq m ops tag : commit_ready m ops tag ->
  u64_add (oid_cseq (m_op_id m)) 1 = oid_cseq (m_op_id m) + 1 /\
  1 <= u64_add (oid_cseq (m_op_id m)) 1 <= u64_max /\
  (transaction (m_push_buffer m) = [] \/
   u64_add (oid_cseq (m_op_id m)) 1 = last_cseq (m_push_buffer m) + 1).
Proof.
  intros [Hwf Hp _ _ Hc _]. pose proof (mutable_wf_cseq m Hwf).
  assert (Hadd : u64_add (oid_cseq (m_op_id m)) 1 = oid_cseq (m_op_id m) + 1).
  { apply u64_add_small. unfold is_u64, u64_max in *. lia. }
  rewrite Hadd. split_and!; [done|lia|lia|].
  destruct Hwf as (_ & _ & _ & _ & _ & _ & [?|Heq] & _); [by left|right].
  rewrite committed_cseq_0 in Heq by done. lia.
Qed.

Lemma commit_room m ops tag : commit_ready m ops tag -> has_room m ops tag ->
  Mutable_end_transaction tag true (in_tx m ops) = (Ok true, after_commit m ops tag, []) /\
  pb_wf (m_push_buffer (after_commit m ops tag)) /\
  transaction (m_push_buffer (after_commit m ops tag)) =
    transaction (m_push_buffer m) ++ [Transaction_set_tag tag (built_tx m ops)] /\
  last_cseq (m_push_buffer (after_commit m ops tag)) = oid_cseq (m_op_id m) + 1.
Proof.
  intros Hr Hroom. destruct (built_tx_cseq m ops tag Hr) as (Hadd & Hc & Hseq).
  unfold after_commit. rewrite (end_transaction_committed _ (built_tx m ops)) by done. cbv zeta.
  change (m_push_buffer (in_tx m ops)) with (m_push_buffer m).
  destruct (enqueue_accepts (Transaction_set_tag tag (built_tx m ops)) (m_push_buffer m))
    as (b & He & Hb & Ht & Hl & _); try done; [apply Hr|apply Hr|].
  rewrite He. cbn [snd]. split_and!; [done|done|done|]. simpl. rewrite Hl. simpl. lia.
Qed.

Lemma commit_no_room m ops tag : commit_ready m ops tag -> ~ has_room m ops tag ->
  Mutable_end_transaction tag true (in_tx m ops) =
    (Err (DatatypeErrorWithAction_new PushBufferExceededMaxMemSize RollbackTransaction),
     after_refused_commit m ops tag, []) /\
  (forall E, Mutable_apply_action RollbackTransaction (after_refused_commit m ops tag)
     = (@Ok E unit tt, rolled_back m, [])).
Proof.
  intros Hr Hno. destruct (built_tx_cseq m ops tag Hr) as (Hadd & Hc & Hseq). split.
  - rewrite (end_transaction_committed _ (built_tx m ops)) by done. cbv zeta.
    change (m_push_buffer (in_tx m ops)) with (m_push_buffer m).
    rewrite enqueue_full; [done|apply Hr|done|apply Hr|done|by apply Z.nle_gt].
  - intros E. simpl. rewrite <- (rollback_in_tx E m ops); [done|apply Hr|].
    apply counter_ops_ok, Hr.
Qed.

#[export] Hint Resolve reset_wf set_state_wf do_rollback_wf disable_wf apply_action_wf
  call_error_handler_wf execute_remote_wf apply_snapshot_wf : qortoo.

(** ** Properties *)

(** C23.  The invariant of a datatype: its counter is an [i64], its push buffer
    is well formed and ends at the last committed [cseq], and a transaction in
    progress carries the [cseq] after its rollback point.  [new] establishes it
    and every operation preserves it on every outcome, errors and panics
    included. *)
Theorem mutable_invariant :
  (forall attr state handlers m,
     max_mem_size_of_push_buffer (attr_option attr) <= UPPER_MAX_MEM_SIZE_OF_PUSH_BUFFER ->
     MutableDatatype_new attr state handlers = Ok m -> mutable_wf m) /\
  (forall op m, mutable_wf m -> oid_cseq (m_op_id m) < u64_max ->
     mutable_wf (final (Mutable_execute_local_operation op m))) /\
  (forall tag committed m, mutable_wf m -> pending_fits tag m ->
     mutable_wf (final (Mutable_end_transaction tag committed m))) /\
  (forall tx, preserves mutable_wf (Mutable_execute_remote_transaction tx)) /\
  (forall tx, preserves mutable_wf (Mutable_apply_snapshot_transaction tx)) /\
  (forall st, preserves mutable_wf (@Mutable_set_state DatatypeError st)) /\
  (forall r, preserves mutable_wf (@Mutable_apply_action DatatypeError r)).
Proof.
  split_and!; intros; eauto using new_wf, execute_local_wf, end_transaction_wf with qortoo.
Qed.

(** C16.  Abort: a transaction body that ran any number of operations and then
    failed is undone exactly.  The counter, the operation id (lamport and
    [cseq]), the state, the push buffer and the checkpoint are those before the
    first operation, nothing stays pending and no handler is called. *)
Theorem aborted_transaction_restores_datatype m ops tag :
  mutable_wf m -> pending (m_tx_record m) = None -> ops <> [] ->
  Forall (fun op => is_counter_op op = true) ops ->
  exists m1,
    execute_ops ops m = (Ok tt, m1, []) /\
    Mutable_end_transaction tag false m1 = (Ok false, rolled_back m, []).
Proof.
  intros Hwf Hp Hne Hops. exists (in_tx m ops).
  pose proof (counter_ops_ok (m_crdt m) ops Hops) as Ho. split.
  - by apply execute_ops_in_tx.
  - unfold Mutable_end_transaction. cbn [negb].
    erewrite M_bind_Ok by (apply rollback_in_tx; [apply Hwf|exact Ho]). done.
Qed.

(** C17.  Commit: when the buffer has room, the committed body becomes one
    transaction of the replica with the next [cseq], its operations in order
    and stamped with the next lamports, queued at the end of the push buffer;
    the counter has moved by the sum of the increments.  When it has no room,
    the commit fails with [PushBufferExceededMaxMemSize], and the routed
    [RollbackTransaction] restores the datatype exactly. *)
Theorem commit_enqueues_or_rolls_back m ops tag :
  commit_ready m ops tag -> 0 <= lamport (m_op_id m) ->
  lamport (m_op_id m) + Z.of_nat (length ops) <= u64_max ->
  let tx := Transaction_set_tag tag (built_tx m ops) in
  tx_cseq tx = oid_cseq (m_op_id m) + 1 /\
  op_lamport <$> tx_operations tx = seqZ (lamport (m_op_id m) + 1) (Z.of_nat (length ops)) /\
  exists m1, execute_ops ops m = (Ok tt, m1, []) /\
  (has_room m ops tag -> exists m2, Mutable_end_transaction tag true m1 = (Ok true, m2, []) /\
     transaction (m_push_buffer m2) = transaction (m_push_buffer m) ++ [tx] /\
     pending (m_tx_record m2) = None /\ m_state m2 = m_state m /\
     m_op_id m2 = mkOperationId (lamport (m_op_id m) + Z.of_nat (length ops))
                    (oid_cuid (m_op_id m)) (oid_cseq (m_op_id m) + 1) /\
     crdt_value (m_crdt m2) = i64_wrap (crdt_value (m_crdt m) + sumZ op_delta ops)) /\
  (~ has_room m ops tag -> exists m2,
     Mutable_end_transaction tag true m1 =
       (Err (DatatypeErrorWithAction_new PushBufferExceededMaxMemSize RollbackTransaction), m2, []) /\
     Mutable_apply_action RollbackTransaction m2 = (@Ok DatatypeError unit tt, rolled_back m, [])).
Proof.
  intros Hr Hl0 Hl tx. destruct (built_tx_cseq m ops tag Hr) as (Hadd & _ & _).
  destruct (stamp_ops_lamport (lamport (m_op_id m)) ops Hl0 Hl) as [Hst Hla].
  split_and!; [done|done|]. exists (in_tx m ops). split.
  { apply execute_ops_in_tx; [apply Hr|apply Hr|apply counter_ops_ok, Hr]. }
  split.
  - intros Hroom. destruct (commit_room m ops tag Hr Hroom) as (He & _ & Ht & _).
    exists (after_commit m ops tag). split_and!; try done; simpl.
    + by rewrite Hla, Hadd.
    + rewrite crdt_after_counter by apply Hr. destruct Hr as [_ _ Hne _ _ _]. by destruct ops.
  - intros Hno. destruct (commit_no_room m ops tag Hr Hno) as [He Ha].
    exists (after_refused_commit m ops tag). by split.
Qed.

(** A fresh counter replica and the body of a transaction on it. *)
Definition example_mutable : MutableDatatype :=
  {| m_attr := example_attribute; m_crdt := CrdtCounter CounterCrdt_default;
     m_op_id := OperationId_new_with_cuid Uid_new_nil;
     m_push_buffer := MemoryPushBuffer_new DatatypeOption_default;
     m_checkpoint := CheckPoint_default; m_state := Creating;
     m_tx_record := TxRecord_new Creating (OperationId_new_with_cuid Uid_new_nil);
     m_handlers_manager := HandlersManager_new [] |}.

Definition example_ops : list Operation :=
  [Operation_new_counter_increase 0 5; Operation_new_counter_increase 0 (-2)].

Lemma example_mutable_wf : mutable_wf example_mutable.
Proof. apply (new_wf example_attribute Creating []); [concrete|reflexivity]. Qed.

Lemma aborted_transaction_restores_datatype_witness :
  exists m1, execute_ops example_ops example_mutable = (Ok tt, m1, []) /\
    crdt_value (m_crdt m1) = 3 /\
    Mutable_end_transaction None false m1 = (Ok false, example_mutable, []).
Proof.
  destruct (aborted_transaction_restores_datatype example_mutable example_ops None
    example_mutable_wf) as (m1 & H1 & H2); [done|done|by repeat constructor|].
  exists m1. split; [done|]. split; [|done].
  vm_compute in H1. by injection H1 as <-.
Defined.

Lemma example_ready : commit_ready example_mutable example_ops (Some "t"%string).
Proof.
  constructor; [apply example_mutable_wf|done|done|by repeat constructor|concrete|concrete].
Qed.

Lemma commit_enqueues_or_rolls_back_witness :
  exists m1 m2, execute_ops example_ops example_mutable = (Ok tt, m1, []) /\
    Mutable_end_transaction (Some "t"%string) true m1 = (Ok true, m2, []) /\
    crdt_value (m_crdt m2) = i64_wrap (0 + 3) /\ oid_cseq (m_op_id m2) = 0 + 1.
Proof.
  destruct (commit_enqueues_or_rolls_back example_mutable example_ops (Some "t"%string)
    example_ready) as (_ & _ & m1 & H1 & H2 & _); [concrete|concrete|].
  destruct H2 as (m2 & H2 & _ & _ & _ & Hid & Hv); [concrete|].
  exists m1, m2. split_and!; [done|done|exact Hv|by rewrite Hid].
Defined.

(** C35.  A rollback writes back the state and the operation id of the moment
    the transaction started, whatever the event loop did to the datatype since:
    a concurrent subscription, unsubscription or lamport synchronisation that
    left the transaction record alone is undone with the transaction. *)
Theorem rollback_reverts_concurrent_changes m ops m1 m2 tag :
  pending (m_tx_record m) = None -> ops <> [] ->
  Forall (fun op => is_counter_op op = true) ops ->
  execute_ops ops m = (Ok tt, m1, []) ->
  m_tx_record m2 = m_tx_record m1 ->
  let m3 := final (Mutable_end_transaction tag false m2) in
  m_state m3 = m_state m /\ m_op_id m3 = m_op_id m.
Proof.
  intros Hp Hne Hops He Hrec.
  rewrite execute_ops_in_tx in He by eauto using counter_ops_ok. injection He as <-.
  simpl in Hrec. unfold Mutable_end_transaction. cbn [negb].
  destruct (do_rollback_eq DatatypeErrorWithAction m2 (built_tx m ops)) as (c & calls & _ & Hr).
  { by rewrite Hrec. }
  { by apply counter_stamp_ops. }
  erewrite M_bind_Ok by exact Hr. simpl. by rewrite Hrec.
Qed.

(** The state becomes [Subscribed] during the transaction, then [Creating] again. *)
Lemma rollback_reverts_concurrent_changes_witness :
  let m1 := final (execute_ops example_ops example_mutable) in
  let m2 := final (@Mutable_set_state DatatypeError Subscribed m1) in
  m_state m2 = Subscribed /\
  m_state (final (Mutable_end_transaction None false m2)) = Creating.
Proof.
  intros m1 m2. split; [reflexivity|].
  apply (rollback_reverts_concurrent_changes example_mutable example_ops m1 m2 None);
    [done|done|by repeat constructor|reflexivity|reflexivity].
Defined.
