(* ===== verification/Transactional.v ===== *)
(** * Transactions on a datatype ([src/datatypes/transactional.rs],
    [src/utils/defer_guard.rs], [src/utils/no_guard_mutex.rs])

    [TransactionalDatatype] is the object that user threads share: the datatype
    behind its lock, the context of the running transaction and two mutexes
    without guards.  This file gives the code as one thread runs it when no other
    thread interferes; a lock that is taken can then never be released by someone
    else, so locking it again, or waiting for another context to finish, is
    [Blocked].  [Concurrency] gives the interleavings of several threads.

    The closure of a user's transaction is a computation on the shared object.
    Contexts are compared by address; [fresh] is the address of the context that
    [begin_transaction] allocates. *)

From Stdlib Require Import Strings.Byte.
From S2P Require Import Prelude Types Errors Operations Crdts PushBuffer Pack Handler Mutable.

Record TransactionContext : Type := mkTransactionContext {
  ctx_ptr : Z;
  ctx_tag : option string;
}.

Definition TransactionContext_new (ptr : Z) (tag : string) : TransactionContext :=
  mkTransactionContext ptr (Some tag).

Definition TransactionContext_has_tag (c : TransactionContext) : bool :=
  match ctx_tag c with Some _ => true | None => false end.

(** [PartialEq for TransactionContext]. *)
Definition TransactionContext_eq (a b : TransactionContext) : bool := ctx_ptr a =? ctx_ptr b.

Record TransactionalDatatype : Type := mkTransactionalDatatype {
  td_mutable : MutableDatatype;
  td_tx_ctx : option TransactionContext;
  td_op_mutex : bool;                   (* locked *)
  td_tx_mutex : bool;
}.

(** Calls on the event loop and out of the datatype. *)
Inductive TdCall : Type :=
| TdMutable (c : MutableCall)
| PushBestEffort
| PushWithGuarantee
| SendStop.

Abbreviation TM := (M TransactionalDatatype TdCall).

(** Field assignments. *)
Definition td_set_mutable (m : MutableDatatype) (t : TransactionalDatatype)
    : TransactionalDatatype :=
  mkTransactionalDatatype m (td_tx_ctx t) (td_op_mutex t) (td_tx_mutex t).
Definition td_set_tx_ctx (c : option TransactionContext) (t : TransactionalDatatype)
    : TransactionalDatatype :=
  mkTransactionalDatatype (td_mutable t) c (td_op_mutex t) (td_tx_mutex t).
Definition td_set_op_mutex (b : bool) (t : TransactionalDatatype) : TransactionalDatatype :=
  mkTransactionalDatatype (td_mutable t) (td_tx_ctx t) b (td_tx_mutex t).
Definition td_set_tx_mutex (b : bool) (t : TransactionalDatatype) : TransactionalDatatype :=
  mkTransactionalDatatype (td_mutable t) (td_tx_ctx t) (td_op_mutex t) b.

(** A method call under [self.mutable.write()]. *)
Definition locked {E A} (f : MM E A) : TM E A := fun t =>
  let '(r, m, w) := f (td_mutable t) in (r, td_set_mutable m t, TdMutable <$> w).

(** ** no_guard_mutex.rs *)
Definition NoGuardMutex_lock (is_locked : TransactionalDatatype -> bool)
    (set : bool -> TransactionalDatatype -> TransactionalDatatype) {E} : TM E unit := fun t =>
  if is_locked t then (Blocked, t, []) else (Ok tt, set true t, []).

Definition NoGuardMutex_unlock (is_locked : TransactionalDatatype -> bool)
    (set : bool -> TransactionalDatatype -> TransactionalDatatype) {E} : TM E unit := fun t =>
  (Ok tt, if is_locked t then set false t else t, []).

Definition op_mutex_lock {E} : TM E unit := NoGuardMutex_lock td_op_mutex td_set_op_mutex.
Definition op_mutex_unlock {E} : TM E unit := NoGuardMutex_unlock td_op_mutex td_set_op_mutex.
Definition tx_mutex_lock {E} : TM E unit := NoGuardMutex_lock td_tx_mutex td_set_tx_mutex.
Definition tx_mutex_unlock {E} : TM E unit := NoGuardMutex_unlock td_tx_mutex td_set_tx_mutex.

Definition wait_for_mutex {E} : TM E unit := op_mutex_lock ;; op_mutex_unlock.
Definition wait_for_tx_mutex {E} : TM E unit := tx_mutex_lock ;; tx_mutex_unlock.

(** ** defer_guard.rs

    [D] are the deferred closures and [run] what they do. *)
Record DeferGuard (D : Type) : Type := mkDeferGuard {
  defer_func_lifo : list D;
  committed : bool;
}.
Arguments mkDeferGuard {D} defer_func_lifo committed.
Arguments defer_func_lifo {D} d.
Arguments committed {D} d.

Definition DeferGuard_new {D} : DeferGuard D := mkDeferGuard [] false.

Definition DeferGuard_add_defer_func {D} (f : D) (g : DeferGuard D) : DeferGuard D :=
  mkDeferGuard (defer_func_lifo g ++ [f]) (committed g).

Definition DeferGuard_commit {D} (g : DeferGuard D) : DeferGuard D :=
  mkDeferGuard (defer_func_lifo g) true.

(** [Drop]: pops and runs until the vector is empty. *)
Definition DeferGuard_drop {D S W E} (run : D -> bool -> M S W E unit) (g : DeferGuard D)
    : M S W E unit :=
  for_each (fun d => run d (committed g)) (rev (defer_func_lifo g)).

(** A scope that owns the guard: [body] returns the guard as it leaves it; the
    guard is dropped at the end, on an early return and while unwinding (then
    as [uncommitted] has it). *)
Definition guarded {D S W E A} (run : D -> bool -> M S W E unit) (g : DeferGuard D)
    (body : M S W E (A * DeferGuard D)) : M S W E A := fun s =>
  let '(r, s, w) := body s in
  let drop_then {B} (g : DeferGuard D) (r : result E B) :=
    let '(d, s', w') := DeferGuard_drop run g s in
    (match d with Ok _ => r | Err e => Err e | Panic why => Panic why | Blocked => Blocked end,
     s', w ++ w') in
  match r with
  | Ok (a, g') => drop_then g' (Ok a)
  | Err e => drop_then g (Err e)
  | Panic why => drop_then g (Panic why)
  | Blocked => (Blocked, s, w)
  end.

(** ** transactional.rs *)
Inductive Defer : Type :=
| DeferEndTransaction (tag : option string)
| DeferUnlockOpMutex.

Inductive BeginTransactionResult : Type :=
| BeginTx (dg : DeferGuard Defer)
| SameCtx
| OtherCtx.

(** The part of [end_transaction] that works on the datatype. *)
Definition end_mutable {E} (tag : option string) (is_committed : bool) : TM E unit := fun t =>
  let '(r, m, w) := Mutable_end_transaction tag is_committed (td_mutable t) in
  let t := td_set_mutable m t in
  let w := TdMutable <$> w in
  match r with
  | Ok true => (Ok tt, t, w ++ [PushBestEffort])
  | Ok false => (Ok tt, t, w)
  | Err dewa =>
      let '(r, t, w') :=
        (locked (Mutable_apply_action (recovery dewa)) ;;
         locked (Mutable_call_error_handler (error dewa))) t in
      (r, t, w ++ w')
  | Panic why => (Panic why, t, w)
  | Blocked => (Blocked, t, w)
  end.

Definition td_end_transaction {E} (tag : option string) (is_committed : bool) : TM E unit :=
  end_mutable tag is_committed ;;
  modify (td_set_tx_ctx None) ;;
  tx_mutex_unlock.

Definition run_defer {E} (d : Defer) (is_committed : bool) : TM E unit :=
  match d with
  | DeferEndTransaction tag => td_end_transaction tag is_committed
  | DeferUnlockOpMutex => op_mutex_unlock
  end.

Definition begin_transaction {E} (fresh : Z) (tx_ctx : TransactionContext)
    : TM E BeginTransactionResult := fun t =>
  match td_tx_ctx t with
  | None =>
      let curr_tx_ctx := if TransactionContext_has_tag tx_ctx then tx_ctx
                         else mkTransactionContext fresh None in
      (Ok (BeginTx (DeferGuard_add_defer_func (DeferEndTransaction (ctx_tag curr_tx_ctx))
                      DeferGuard_new)),
       td_set_tx_ctx (Some curr_tx_ctx) t, [])
  | Some c => (Ok (if TransactionContext_eq c tx_ctx then SameCtx else OtherCtx), t, [])
  end.

Definition check_writable : TM DatatypeError unit := fun t =>
  let state := m_state (td_mutable t) in
  (if negb (DatatypeState_is_read_writable state)
   then Err (NotWritable ("Datatype '" +:+ attr_key (m_attr (td_mutable t))
              +:+ "' cannot be modified for " +:+ DatatypeState_to_string state +:+ " state"))
   else if attr_is_readonly (m_attr (td_mutable t)) then Err ReadonlyViolation
   else Ok tt, t, []).

Definition check_disabled (op : string) : TM DatatypeError unit := fun t =>
  (if decide (m_state (td_mutable t) = Disabled)
   then Err (NotWritable (op +:+ " is not allowed in Disabled state")) else Ok tt, t, []).

Definition check_subscribed (op : string) : TM DatatypeError unit := fun t =>
  (if decide (m_state (td_mutable t) <> Subscribed)
   then Err (NotWritable (op +:+ " is only allowed in Subscribed state, current state is "
                          +:+ DatatypeState_to_string (m_state (td_mutable t))))
   else Ok tt, t, []).

(** The loop that waits for the transaction to begin; [fuel] bounds the retries. *)
Fixpoint begin_loop (fuel : nat) (fresh : Z) (tx_ctx : TransactionContext)
    : TM DatatypeError (DeferGuard Defer) :=
  match fuel with
  | O => lift Blocked
  | S fuel =>
      r ← begin_transaction fresh tx_ctx;
      match r with
      | BeginTx dg => mret dg
      | SameCtx => mret DeferGuard_new
      | OtherCtx => wait_for_mutex ;; begin_loop fuel fresh tx_ctx
      end
  end.

(** What follows the check of write permission. *)
Definition execute_checked (fuel : nat) (fresh : Z) (tx_ctx : TransactionContext)
    (op : Operation) : TM DatatypeError ReturnType :=
  defer_guard ← begin_loop fuel fresh tx_ctx;
  let defer_guard_op := DeferGuard_add_defer_func DeferUnlockOpMutex defer_guard in
  guarded run_defer defer_guard_op
    (op_mutex_lock ;;
     ret ← locked (Mutable_execute_local_operation op);
     mret (ret, DeferGuard_commit defer_guard_op)).

Definition execute_local_operation_as_tx (fuel : nat) (fresh : Z) (tx_ctx : TransactionContext)
    (op : Operation) : TM DatatypeError ReturnType :=
  check_writable ;; execute_checked fuel fresh tx_ctx op.

Fixpoint do_transaction (fuel : nat) (fresh : Z) (tx_ctx : TransactionContext)
    (tx_func : TM DatatypeError unit) : TM DatatypeError unit :=
  match fuel with
  | O => lift Blocked
  | S fuel =>
      r ← begin_transaction fresh tx_ctx;
      match r with
      | BeginTx dg =>
          guarded run_defer dg
            (tx_mutex_lock ;; tx_func ;; mret (tt, DeferGuard_commit dg))
      | SameCtx => panic "do_transaction should not be called concurrently with same context"
      | OtherCtx => wait_for_tx_mutex ;; do_transaction fuel fresh tx_ctx tx_func
      end
  end.

(** [impl Datatype for TransactionalDatatype]; [reply] is the answer of the event
    loop to the guaranteed push. *)
Definition td_get_key (t : TransactionalDatatype) : string := attr_key (m_attr (td_mutable t)).
Definition td_get_type (t : TransactionalDatatype) : DataType := attr_type (m_attr (td_mutable t)).
Definition td_get_state (t : TransactionalDatatype) : DatatypeState := m_state (td_mutable t).
Definition td_get_server_version (t : TransactionalDatatype) : Z :=
  cp_sseq (m_checkpoint (td_mutable t)).
Definition td_get_client_version (t : TransactionalDatatype) : Z := oid_cseq (m_op_id (td_mutable t)).
Definition td_get_synced_client_version (t : TransactionalDatatype) : Z :=
  cp_cseq (m_checkpoint (td_mutable t)).

Definition td_sync (reply : result DatatypeError unit) : TM DatatypeError unit :=
  check_disabled "sync" ;; emit [PushWithGuarantee] ;; lift reply.

Definition td_unsubscribe : TM DatatypeError unit :=
  check_subscribed "unsubscribe" ;;
  locked (Mutable_set_state Unsubscribing) ;;
  emit [PushBestEffort].

Definition td_set_handler {E} (id : Z) (handler : DatatypeHandler) : TM E unit :=
  modify (fun t => td_set_mutable (Mutable_set_handler id handler (td_mutable t)) t).

(** [shared]: whether another reference to the handlers is alive. *)
Definition td_unset_handler {E} (shared : bool) (id : Z) : TM E (option DatatypeHandler) := fun t =>
  let '(old, m) := Mutable_unset_handler shared id (td_mutable t) in (Ok old, td_set_mutable m t, []).

(** datatype.rs: the trait [Datatype]. *)
Class Datatype (D : Type) : Type := {
  get_key : D -> string;
  get_type : D -> DataType;
  get_state : D -> DatatypeState;
  get_server_version : D -> Z;
  get_client_version : D -> Z;
  get_synced_client_version : D -> Z;
  dt_sync : result DatatypeError unit -> M D TdCall DatatypeError unit;
  dt_unsubscribe : M D TdCall DatatypeError unit;
  dt_set_handler : Z -> DatatypeHandler -> M D TdCall DatatypeError unit;
  dt_unset_handler : bool -> Z -> M D TdCall DatatypeError (option DatatypeHandler);
}.

#[export] Instance transactional_datatype : Datatype TransactionalDatatype := {|
  get_key := td_get_key;
  get_type := td_get_type;
  get_state := td_get_state;
  get_server_version := td_get_server_version;
  get_client_version := td_get_client_version;
  get_synced_client_version := td_get_synced_client_version;
  dt_sync := td_sync;
  dt_unsubscribe := td_unsubscribe;
  dt_set_handler := td_set_handler;
  dt_unset_handler := td_unset_handler;
|}.

(** [Drop for TransactionalDatatype]. *)
Definition td_drop {E} : TM E unit := emit [SendStop].

(** [TransactionalDatatype::new_arc]: [core] is the address of the new object. *)
Definition TransactionalDatatype_new_arc (core : Z) (attr : Attribute) (state : DatatypeState)
    (handlers : list (Z * DatatypeHandler)) : result DatatypeError TransactionalDatatype :=
  m ← MutableDatatype_new (Attribute_set_transactional (mkWeak core true) attr) state handlers;
  Ok (mkTransactionalDatatype m None false false).

(** ** counter.rs *)
Record CounterHandle : Type := mkCounterHandle { ch_tx_ctx : TransactionContext }.

(** [ptr] is the address of the default context. *)
Definition Counter_new (ptr : Z) : CounterHandle := mkCounterHandle (mkTransactionContext ptr None).

Definition Counter_increase_by (fuel : nat) (fresh now delta : Z) (c : CounterHandle)
    : TM DatatypeError Z :=
  ret ← execute_local_operation_as_tx fuel fresh (ch_tx_ctx c)
          (Operation_new_counter_increase now delta);
  match ret with
  | RetCounter cv => mret cv
  | RetNone => fail (InternalReason_into_error (ExecuteOperation "unexpected return type"))
  end.

Definition Counter_increase (fuel : nat) (fresh now : Z) (c : CounterHandle) : TM DatatypeError Z :=
  Counter_increase_by fuel fresh now 1 c.

Definition Counter_get_value (t : TransactionalDatatype) : Z := crdt_value (m_crdt (td_mutable t)).

(** [tx_func] gets the handle with the transaction's context; its boxed error is
    known by its message.  [ptr] is the address of [this_tx_ctx]. *)
Definition Counter_transaction (fuel : nat) (fresh ptr : Z) (tag : string)
    (tx_func : CounterHandle -> TM string unit) (c : CounterHandle) : TM DatatypeError unit :=
  check_writable ;;
  let this_tx_ctx := TransactionContext_new ptr tag in
  do_transaction fuel fresh this_tx_ctx
    (with_err TransactionFailed (tx_func (mkCounterHandle this_tx_ctx))).

(** ** Specification vocabulary *)

(** No transaction runs and no mutex is held. *)
Definition idle (t : TransactionalDatatype) : Prop :=
  td_tx_ctx t = None /\ td_op_mutex t = false /\ td_tx_mutex t = false.

Definition writable (t : TransactionalDatatype) : bool :=
  DatatypeState_is_read_writable (m_state (td_mutable t))
  && negb (attr_is_readonly (m_attr (td_mutable t))).

(** The body of a user's transaction that executes [ops] in sequence through the
    handle of the transaction. *)
Definition tx_body (fuel : nat) (fresh : Z) (ctx : TransactionContext) (ops : list Operation)
    : TM DatatypeError unit :=
  for_each (fun op => execute_local_operation_as_tx fuel fresh ctx op ;; mret tt) ops.

(** What the commit path does besides changing the datatype. *)
Definition refused_calls (m : MutableDatatype) : list TdCall :=
  TdMutable <$> calls (@Mutable_call_error_handler DatatypeError PushBufferExceededMaxMemSize m).

(** The datatype and the calls at the end of a commit of [ops] on [m]. *)
Definition commit_outcome (m : MutableDatatype) (ops : list Operation) (tag : option string)
    (m' : MutableDatatype) (w : list TdCall) : Prop :=
  (has_room m ops tag /\ m' = after_commit m ops tag /\ w = [PushBestEffort]) \/
  (~ has_room m ops tag /\ m' = rolled_back m /\ w = refused_calls (rolled_back m)).

(** ** Lemmas *)
Lemma td_eta t : mkTransactionalDatatype (td_mutable t) (td_tx_ctx t) (td_op_mutex t) (td_tx_mutex t) = t.
Proof. by destruct t. Qed.

Lemma check_writable_eq t :
  check_writable t =
  (if writable t then Ok tt
   else if DatatypeState_is_read_writable (m_state (td_mutable t)) then Err ReadonlyViolation
   else Err (NotWritable ("Datatype '" +:+ attr_key (m_attr (td_mutable t))
          +:+ "' cannot be modified for " +:+ DatatypeState_to_string (m_state (td_mutable t))
          +:+ " state")), t, []).
Proof.
  unfold check_writable, writable.
  destruct (DatatypeState_is_read_writable _), (attr_is_readonly _); done.
Qed.

(** The end of a transaction that committed [ops]. *)
Lemma td_end_commit E m ops tag c tm : commit_ready m ops tag ->
  exists m' w, commit_outcome m ops tag m' w /\
  td_end_transaction tag true (mkTransactionalDatatype (in_tx m ops) c false tm) =
    (@Ok E unit tt, mkTransactionalDatatype m' None false false, w).
Proof.
  intros Hr. unfold commit_outcome.
  destruct (Z.le_gt_cases (mem_size (m_push_buffer m)
    + Transaction_size (Transaction_set_tag tag (built_tx m ops)))
    (max_mem_size_of_push_buffer (option_ (m_push_buffer m)))) as [Hroom|Hno].
  - destruct (commit_room m ops tag Hr Hroom) as (He & _).
    do 2 eexists. split; [by left|].
    unfold td_end_transaction. erewrite M_bind_Ok; last first.
    { unfold end_mutable. cbn [td_mutable]. rewrite He. reflexivity. }
    unfold mbind, M_bind, modify, tx_mutex_unlock, NoGuardMutex_unlock. by destruct tm.
  - assert (~ has_room m ops tag) as Hno' by by apply Z.lt_nge.
    destruct (commit_no_room m ops tag Hr Hno') as [He Ha].
    do 2 eexists. split; [by right|].
    unfold td_end_transaction. erewrite M_bind_Ok; last first.
    { unfold end_mutable. cbn [td_mutable]. rewrite He. cbn [error recovery].
      unfold locked, mbind, M_bind. cbn [td_set_mutable td_mutable]. rewrite Ha. reflexivity. }
    unfold mbind, M_bind, modify, tx_mutex_unlock, NoGuardMutex_unlock. cbn -[refused_calls].
    unfold refused_calls. cbn. by destruct tm; rewrite !app_nil_r.
Qed.

Lemma td_end_abort E m ops tag c tm : mutable_wf m -> ops_ok (m_crdt m) ops ->
  td_end_transaction tag false (mkTransactionalDatatype (in_tx m ops) c false tm) =
    (@Ok E unit tt, mkTransactionalDatatype (rolled_back m) None false false, []).
Proof.
  intros Hwf Ho. unfold td_end_transaction. erewrite M_bind_Ok; last first.
  { unfold end_mutable. cbn [td_mutable]. unfold Mutable_end_transaction. cbn [negb].
    erewrite M_bind_Ok by (apply rollback_in_tx; [apply Hwf|exact Ho]). reflexivity. }
  unfold mbind, M_bind, modify, tx_mutex_unlock, NoGuardMutex_unlock. by destruct tm.
Qed.

(** Abort when no operation ran. *)
Lemma td_end_abort_empty E m tag c tm : pending (m_tx_record m) = None ->
  td_end_transaction tag false (mkTransactionalDatatype m c false tm) =
    (@Ok E unit tt, mkTransactionalDatatype m None false false, []).
Proof.
  intros Hp. unfold td_end_transaction. erewrite M_bind_Ok; last first.
  { unfold end_mutable. cbn [td_mutable]. unfold Mutable_end_transaction. cbn [negb].
    erewrite M_bind_Ok; [reflexivity|]. unfold Mutable_do_rollback. rewrite Hp. reflexivity. }
  unfold mbind, M_bind, modify, tx_mutex_unlock, NoGuardMutex_unlock. by destruct tm.
Qed.

(** The context that [begin_transaction] installs. *)
Definition started_ctx (fresh : Z) (ctx : TransactionContext) : TransactionContext :=
  if TransactionContext_has_tag ctx then ctx else mkTransactionContext fresh None.

Lemma begin_idle E fresh ctx t : td_tx_ctx t = None ->
  begin_transaction fresh ctx t =
  (@Ok E _ (BeginTx (mkDeferGuard [DeferEndTransaction (ctx_tag (started_ctx fresh ctx))] false)),
   td_set_tx_ctx (Some (started_ctx fresh ctx)) t, []).
Proof. intros Hc. unfold begin_transaction. by rewrite Hc. Qed.

Lemma begin_same E fresh ctx t : td_tx_ctx t = Some ctx ->
  begin_transaction fresh ctx t = (@Ok E _ SameCtx, t, []).
Proof.
  intros Hc. unfold begin_transaction. rewrite Hc. unfold TransactionContext_eq.
  by rewrite Z.eqb_refl.
Qed.

(** An operation inside its transaction only changes the datatype. *)
Lemma execute_same_ctx fuel fresh ctx op t r m' :
  td_tx_ctx t = Some ctx -> td_op_mutex t = false -> writable t = true ->
  Mutable_execute_local_operation op (td_mutable t) = (Ok r, m', []) ->
  execute_local_operation_as_tx (S fuel) fresh ctx op t = (Ok r, td_set_mutable m' t, []).
Proof.
  intros Hc Ho Hw He. unfold execute_local_operation_as_tx, execute_checked.
  erewrite M_bind_Ok by (rewrite check_writable_eq, Hw; reflexivity).
  erewrite M_bind_Ok; last first.
  { cbn [begin_loop]. erewrite M_bind_Ok by by apply begin_same. reflexivity. }
  unfold guarded, mbind, M_bind, op_mutex_lock, NoGuardMutex_lock. rewrite Ho.
  unfold locked. cbn [td_mutable td_set_op_mutex]. rewrite He.
  cbn. unfold mbind, M_bind, op_mutex_unlock, NoGuardMutex_unlock, mret, M_ret. cbn.
  destruct t; simpl in *. by subst.
Qed.

Lemma tx_body_ok fuel fresh ctx ops m tm :
  ops <> [] -> pending (m_tx_record m) = None -> ops_ok (m_crdt m) ops ->
  writable (mkTransactionalDatatype m (Some ctx) false tm) = true ->
  tx_body (S fuel) fresh ctx ops (mkTransactionalDatatype m (Some ctx) false tm) =
    (Ok tt, mkTransactionalDatatype (in_tx m ops) (Some ctx) false tm, []).
Proof.
  intros Hne Hp. induction ops as [|op ops IH] using rev_ind; [done|].
  intros (Ho & r & c' & He)%ops_ok_app Hw. unfold tx_body. rewrite for_each_app.
  destruct ops as [|o ops].
  - cbn [for_each]. rewrite M_ret_bind. erewrite M_bind_Ok; last first.
    { erewrite M_bind_Ok; [reflexivity|].
      apply execute_same_ctx; [done|done|exact Hw|by eapply execute_first]. }
    reflexivity.
  - erewrite M_bind_Ok by (apply IH; done). cbn [for_each].
    erewrite M_bind_Ok; last first.
    { erewrite M_bind_Ok; [reflexivity|].
      apply execute_same_ctx; [done|done|exact Hw|].
      apply (execute_next m (o :: ops) op r c'); [done|exact He]. }
    reflexivity.
Qed.

(** ** Properties *)

(** C30.  A single operation on an idle, writable datatype is a transaction of
    its own: it returns the operation's result, leaves no lock or context
    behind, and commits one transaction.  When the push buffer refuses it, the
    operation is rolled back, yet the caller still gets the result as a success;
    only the error handlers learn of it. *)
Theorem single_operation_commits fuel fresh ctx op t r c' :
  idle t -> writable t = true ->
  Crdt_execute_local_operation op (m_crdt (td_mutable t)) = (Ok r, c') ->
  commit_ready (td_mutable t) [op] (ctx_tag ctx) ->
  exists m' w,
    execute_local_operation_as_tx (S fuel) fresh ctx op t =
      (Ok r, mkTransactionalDatatype m' None false false, w) /\
    commit_outcome (td_mutable t) [op] (ctx_tag ctx) m' w.
Proof.
  intros (Hc & Ho & Htm) Hw He Hr. destruct t as [m c om tm]; simpl in *. subst.
  assert (Htag : ctx_tag (started_ctx fresh ctx) = ctx_tag ctx).
  { unfold started_ctx, TransactionContext_has_tag. by destruct (ctx_tag ctx) eqn:Hx. }
  destruct (td_end_commit DatatypeError m [op] (ctx_tag ctx) (Some (started_ctx fresh ctx)) false Hr)
    as (m' & w & Hout & Hend).
  exists m', w. split; [|exact Hout]. unfold execute_local_operation_as_tx, execute_checked.
  erewrite M_bind_Ok by (rewrite check_writable_eq, Hw; reflexivity).
  erewrite M_bind_Ok; last first.
  { cbn [begin_loop]. erewrite M_bind_Ok by by apply begin_idle. reflexivity. }
  rewrite Htag. unfold guarded. erewrite M_bind_Ok by reflexivity.
  erewrite M_bind_Ok; last first.
  { unfold locked. cbn [td_mutable td_set_tx_ctx td_set_op_mutex].
    rewrite (execute_first m op r c') by (done || apply Hr). reflexivity. }
  cbn -[td_end_transaction]. unfold DeferGuard_drop. cbn -[td_end_transaction].
  erewrite M_bind_Ok by reflexivity. cbn -[td_end_transaction].
  erewrite M_bind_Ok by exact Hend. cbn. by rewrite app_nil_r.
Qed.

(** C29.  A user's transaction on an idle, writable datatype: when its closure
    runs [ops] and succeeds, they are committed as one transaction with the tag;
    when it runs [ops] and fails, its error is returned and the datatype is as
    before; a panic of the closure also rolls back.  In all cases the datatype is
    idle again. *)
Theorem transaction_commits_or_restores fuel fresh ptr tag ops t :
  idle t -> writable t = true -> commit_ready (td_mutable t) ops (Some tag) ->
  let ctx := TransactionContext_new ptr tag in
  let body := tx_body (S fuel) fresh ctx ops in
  (exists m' w, do_transaction (S fuel) fresh ctx body t =
     (Ok tt, mkTransactionalDatatype m' None false false, w) /\
     commit_outcome (td_mutable t) ops (Some tag) m' w) /\
  (forall e, do_transaction (S fuel) fresh ctx (body ;; fail e) t =
     (Err e, mkTransactionalDatatype (rolled_back (td_mutable t)) None false false, [])) /\
  (forall why, do_transaction (S fuel) fresh ctx (body ;; panic why) t =
     (Panic why, mkTransactionalDatatype (rolled_back (td_mutable t)) None false false, [])).
Proof.
  intros (Hc & Ho & Htm) Hw Hr ctx body. destruct t as [m c om tm]; simpl in *. subst.
  pose proof (counter_ops_ok (m_crdt m) ops (ready_counter _ _ _ Hr)) as Hops.
  assert (Hbody : body (mkTransactionalDatatype m (Some ctx) false true) =
    (Ok tt, mkTransactionalDatatype (in_tx m ops) (Some ctx) false true, [])).
  { apply tx_body_ok; [apply Hr|apply Hr|done|exact Hw]. }
  assert (Hbegin : begin_transaction fresh ctx (mkTransactionalDatatype m None false false) =
    (@Ok DatatypeError _ (BeginTx (mkDeferGuard [DeferEndTransaction (Some tag)] false)),
     mkTransactionalDatatype m (Some ctx) false false, [])) by by apply begin_idle.
  split_and!.
  - destruct (td_end_commit DatatypeError m ops (Some tag) (Some ctx) true Hr) as (m' & w & Hout & Hend).
    exists m', w. split; [|exact Hout]. cbn [do_transaction].
    erewrite M_bind_Ok by exact Hbegin. unfold guarded. erewrite M_bind_Ok by reflexivity.
    cbn [td_set_tx_mutex td_mutable td_tx_ctx td_op_mutex].
    erewrite M_bind_Ok by exact Hbody. cbn -[td_end_transaction].
    unfold DeferGuard_drop. cbn -[td_end_transaction].
    erewrite M_bind_Ok by exact Hend. cbn. by rewrite app_nil_r.
  - intros e. cbn [do_transaction].
    erewrite M_bind_Ok by exact Hbegin. unfold guarded. erewrite M_bind_Ok by reflexivity.
    cbn [td_set_tx_mutex td_mutable td_tx_ctx td_op_mutex].
    erewrite M_bind_Err; last first.
    { erewrite M_bind_Ok by exact Hbody. reflexivity. }
    unfold DeferGuard_drop. cbn -[td_end_transaction].
    erewrite M_bind_Ok; [|apply td_end_abort; [apply Hr|done]]. done.
  - intros why. cbn [do_transaction].
    erewrite M_bind_Ok by exact Hbegin. unfold guarded. erewrite M_bind_Ok by reflexivity.
    cbn [td_set_tx_mutex td_mutable td_tx_ctx td_op_mutex].
    erewrite M_bind_Panic; last first.
    { erewrite M_bind_Ok by exact Hbody. reflexivity. }
    unfold DeferGuard_drop. cbn -[td_end_transaction].
    erewrite M_bind_Ok; [|apply td_end_abort; [apply Hr|done]]. done.
Qed.

(** C32.  While a transaction runs, using another handle of the datatype from
    inside its closure never finishes: an operation retries for ever, whatever
    the number of retries, and a nested transaction waits for the mutex that its
    own thread holds; a transaction with the running context panics. *)
Theorem other_context_inside_transaction_never_returns fuel fresh t c ctx op tx_func :
  td_tx_ctx t = Some c -> td_op_mutex t = false -> td_tx_mutex t = true -> writable t = true ->
  (ctx_ptr ctx <> ctx_ptr c ->
     execute_local_operation_as_tx fuel fresh ctx op t = (Blocked, t, []) /\
     do_transaction fuel fresh ctx tx_func t = (Blocked, t, [])) /\
  (ctx_ptr ctx = ctx_ptr c ->
     exists why, do_transaction (S fuel) fresh ctx tx_func t = (Panic why, t, [])).
Proof.
  intros Hc Ho Htm Hw. split.
  - intros Hne.
    assert (Hb : forall E, begin_transaction fresh ctx t = (@Ok E _ OtherCtx, t, [])).
    { intros E. unfold begin_transaction, TransactionContext_eq. rewrite Hc.
      by rewrite (proj2 (Z.eqb_neq _ _)) by done. }
    split.
    + unfold execute_local_operation_as_tx, execute_checked.
      erewrite M_bind_Ok by (rewrite check_writable_eq, Hw; reflexivity).
      erewrite M_bind_Blocked; [reflexivity|]. induction fuel as [|fuel IH]; [done|].
      cbn [begin_loop]. erewrite M_bind_Ok by apply Hb. cbv beta iota.
      erewrite M_bind_Ok; last first.
      { unfold wait_for_mutex, op_mutex_lock, op_mutex_unlock, NoGuardMutex_lock, NoGuardMutex_unlock,
          mbind, M_bind. rewrite Ho. cbn. reflexivity. }
      replace (td_set_op_mutex false (td_set_op_mutex true t)) with t by (destruct t; simpl in *; by subst).
      by rewrite IH.
    + destruct fuel as [|fuel]; [done|]. cbn [do_transaction].
      erewrite M_bind_Ok by apply Hb. cbv beta iota. erewrite M_bind_Blocked; [reflexivity|].
      unfold wait_for_tx_mutex, tx_mutex_lock, NoGuardMutex_lock.
      erewrite M_bind_Blocked; [reflexivity|]. by rewrite Htm.
  - intros Heq. eexists. cbn [do_transaction]. erewrite M_bind_Ok; last first.
    { unfold begin_transaction, TransactionContext_eq. rewrite Hc, Heq, Z.eqb_refl. reflexivity. }
    reflexivity.
Qed.

(** Write permission: an operation or transaction on a datatype that is
    not writable fails without any effect, with [NotWritable] when the state
    forbids writing (before the read-only flag is looked at) and with
    [ReadonlyViolation] when only the flag does. *)
Theorem not_writable_has_no_effect fuel fresh ptr now delta tag tx_func h t :
  writable t = false ->
  exists e, Counter_increase_by fuel fresh now delta h t = (Err e, t, []) /\
    Counter_transaction fuel fresh ptr tag tx_func h t = (Err e, t, []) /\
    (DatatypeState_is_read_writable (m_state (td_mutable t)) = false <-> exists msg, e = NotWritable msg) /\
    (e = ReadonlyViolation ->
       DatatypeState_is_read_writable (m_state (td_mutable t)) = true /\
       attr_is_readonly (m_attr (td_mutable t)) = true).
Proof.
  intros Hw. pose proof (check_writable_eq t) as Hc. rewrite Hw in Hc.
  assert (Hfail : forall e, check_writable t = (Err e, t, []) ->
    Counter_increase_by fuel fresh now delta h t = (Err e, t, []) /\
    Counter_transaction fuel fresh ptr tag tx_func h t = (Err e, t, [])).
  { intros e He. split.
    - unfold Counter_increase_by, execute_local_operation_as_tx.
      erewrite M_bind_Err; [reflexivity|]. by erewrite M_bind_Err.
    - unfold Counter_transaction. by erewrite M_bind_Err. }
  unfold writable in Hw. destruct (DatatypeState_is_read_writable _) eqn:Hst; simpl in Hw.
  - exists ReadonlyViolation. destruct (Hfail _ Hc) as [H1 H2]. split_and!; try done.
    + split; [done|by intros [? ?]].
    + intros _. split; [done|]. by apply negb_false_iff in Hw.
  - eexists. destruct (Hfail _ Hc) as [H1 H2]. split_and!; [done|done| |done].
    split; [by eexists|done].
Qed.

(** A dropped guard runs every deferred closure exactly once, last added
    first, each with the final commit flag: [commit] anywhere before the drop
    counts for all of them. *)
Theorem defer_guard_runs_lifo (ds : list Z) (is_committed : bool) :
  let log d c : M (list (Z * bool)) unit string unit := modify (fun l => l ++ [(d, c)]) in
  let g := foldl (fun g d => DeferGuard_add_defer_func d g) DeferGuard_new ds in
  let g := if is_committed then DeferGuard_commit g else g in
  DeferGuard_drop log g [] = (Ok tt, (fun d => (d, is_committed)) <$> rev ds, []).
Proof.
  intros log g0 g.
  assert (Hg : g = mkDeferGuard ds is_committed).
  { assert (H : forall l b, foldl (fun g d => DeferGuard_add_defer_func d g) (mkDeferGuard l b) ds
      = mkDeferGuard (l ++ ds) b).
    { clear. induction ds as [|d ds IH]; intros l b; simpl; [by rewrite app_nil_r|].
      unfold DeferGuard_add_defer_func at 2; simpl. rewrite IH. by rewrite <- app_assoc. }
    unfold g, g0, DeferGuard_new. rewrite H. by destruct is_committed. }
  rewrite Hg. unfold DeferGuard_drop; simpl. generalize (rev ds) as l. clear.
  assert (H : forall l acc, for_each (fun d => log d is_committed) l acc =
    (Ok tt, acc ++ ((fun d => (d, is_committed)) <$> l), [])).
  { induction l as [|d l IH]; intros acc; [by rewrite app_nil_r|]. cbn [for_each].
    erewrite M_bind_Ok by reflexivity. rewrite IH. by rewrite <- app_assoc. }
  intros l. by rewrite H.
Qed.

(** ** Witnesses *)
Definition example_td : TransactionalDatatype :=
  mkTransactionalDatatype example_mutable None false false.

Lemma example_ready_single : commit_ready example_mutable [Operation_new_counter_increase 0 5] None.
Proof.
  constructor; [apply example_mutable_wf|done|done|by repeat constructor|concrete|concrete].
Qed.

Lemma single_operation_commits_witness :
  exists m' w,
    execute_local_operation_as_tx 1 9 (mkTransactionContext 3 None)
      (Operation_new_counter_increase 0 5) example_td =
      (Ok (RetCounter 5), mkTransactionalDatatype m' None false false, w) /\
    commit_outcome example_mutable [Operation_new_counter_increase 0 5] None m' w.
Proof.
  apply (single_operation_commits 0 9 (mkTransactionContext 3 None)
    (Operation_new_counter_increase 0 5) example_td (RetCounter 5) (CrdtCounter (mkCounterCrdt 5)));
    [done|reflexivity|reflexivity|apply example_ready_single].
Defined.

Lemma transaction_commits_or_restores_witness :
  exists m' w,
    do_transaction 1 9 (TransactionContext_new 3 "t")
      (tx_body 1 9 (TransactionContext_new 3 "t") example_ops) example_td =
      (Ok tt, mkTransactionalDatatype m' None false false, w) /\
    commit_outcome example_mutable example_ops (Some "t"%string) m' w.
Proof.
  apply (transaction_commits_or_restores 0 9 3 "t" example_ops example_td);
    [done|reflexivity|apply example_ready].
Defined.

Definition busy_td : TransactionalDatatype :=
  mkTransactionalDatatype example_mutable (Some (TransactionContext_new 3 "t")) false true.

Lemma other_context_inside_transaction_never_returns_witness :
  execute_local_operation_as_tx 100 9 (mkTransactionContext 4 None)
    (Operation_new_counter_increase 0 5) busy_td = (Blocked, busy_td, []).
Proof.
  apply (other_context_inside_transaction_never_returns 100 9 busy_td (TransactionContext_new 3 "t")
    (mkTransactionContext 4 None) (Operation_new_counter_increase 0 5) (mret tt));
    [reflexivity|reflexivity|reflexivity|reflexivity|done].
Defined.

Lemma not_writable_has_no_effect_witness :
  exists e, Counter_increase_by 1 9 0 5 (Counter_new 3)
    (td_set_mutable (m_put_state Subscribing example_mutable) example_td) =
    (Err e, td_set_mutable (m_put_state Subscribing example_mutable) example_td, []).
Proof.
  destruct (not_writable_has_no_effect 1 9 0 0 5 "t" (fun _ => mret tt) (Counter_new 3)
    (td_set_mutable (m_put_state Subscribing example_mutable) example_td)) as (e & H & _);
    [reflexivity|]. by exists e.
Defined.
