(* ===== verification/PullHandler.v ===== *)
(** * Applying a pulled pack ([src/datatypes/pull_handler.rs])

    [PullHandler] holds the pulled pack and the datatype for one synchronization
    round.  It decides the next state from the old state and the response,
    queues steps, and [commit] runs the steps and then changes the state.  The
    function pointers in [pending_steps] are the constructors of [PendingStep]. *)

From S2P Require Import Prelude Types Errors Operations Crdts PushBuffer Pack Handler Mutable.

Inductive PendingStep : Type :=
| StepApplySubscribeResponse
| StepSkipDuplicatedTransactions
| StepExecuteTransactions
| StepSyncCheckpoint.

Record PullHandler : Type := mkPullHandler {
  ph_pulled : PushPullPack;
  ph_mutable : MutableDatatype;
  ph_old_state : DatatypeState;
  ph_new_state : DatatypeState;
  ph_is_created : bool;
  ph_pending_steps : list PendingStep;
  ph_skip : Z;
}.

Abbreviation PH := (M PullHandler MutableCall DatatypeErrorWithAction).

Definition PullHandler_new (pulled : PushPullPack) (m : MutableDatatype) : PullHandler :=
  let old_state := m_state m in
  {| ph_pulled := pulled; ph_mutable := m; ph_old_state := old_state;
     ph_new_state := old_state; ph_is_created := false; ph_pending_steps := [];
     ph_skip := 0 |}.

(** Field assignments. *)
Definition ph_set_pulled (x : PushPullPack) (h : PullHandler) : PullHandler :=
  mkPullHandler x (ph_mutable h) (ph_old_state h) (ph_new_state h) (ph_is_created h)
    (ph_pending_steps h) (ph_skip h).
Definition ph_set_mutable (x : MutableDatatype) (h : PullHandler) : PullHandler :=
  mkPullHandler (ph_pulled h) x (ph_old_state h) (ph_new_state h) (ph_is_created h)
    (ph_pending_steps h) (ph_skip h).
Definition ph_set_new_state (x : DatatypeState) (h : PullHandler) : PullHandler :=
  mkPullHandler (ph_pulled h) (ph_mutable h) (ph_old_state h) x (ph_is_created h)
    (ph_pending_steps h) (ph_skip h).
Definition ph_set_is_created (x : bool) (h : PullHandler) : PullHandler :=
  mkPullHandler (ph_pulled h) (ph_mutable h) (ph_old_state h) (ph_new_state h) x
    (ph_pending_steps h) (ph_skip h).
Definition ph_set_pending_steps (x : list PendingStep) (h : PullHandler) : PullHandler :=
  mkPullHandler (ph_pulled h) (ph_mutable h) (ph_old_state h) (ph_new_state h) (ph_is_created h)
    x (ph_skip h).
Definition ph_set_skip (x : Z) (h : PullHandler) : PullHandler :=
  mkPullHandler (ph_pulled h) (ph_mutable h) (ph_old_state h) (ph_new_state h) (ph_is_created h)
    (ph_pending_steps h) x.

(** A call on [self.mutable]. *)
Definition on_mutable {E A} (f : MM E A) : M PullHandler MutableCall E A := fun h =>
  let '(r, m, w) := f (ph_mutable h) in (r, ph_set_mutable m h, w).

(** [self.mutable.f(..).map_err(|e| e.mapping())]. *)
Definition with_mapping {S W A} (f : M S W DatatypeError A) : M S W DatatypeErrorWithAction A :=
  fun s => let '(r, s', w) := f s in (map_err_mapping r, s', w).

Definition enqueue_step (step : PendingStep) : PH unit :=
  modify (fun h => ph_set_pending_steps (ph_pending_steps h ++ [step]) h).

Definition process_illegal_state_response (old new : DatatypeState) : PH unit :=
  lift (routed (DatatypeError_mapping (ServerRejected (Rej_ProtocolViolation
    ("illegal state from push-pull: received " +:+ DatatypeState_to_string new
     +:+ " for " +:+ DatatypeState_to_string old))))).

(** The test that every arm of [handle_error_and_datatype_state] starts with. *)
Definition expect_state (expected : DatatypeState) : PH unit :=
  h ← get;
  if decide (ppp_state (ph_pulled h) <> expected) then
    modify (ph_set_new_state Disabled) ;;
    process_illegal_state_response (ph_old_state h) (ppp_state (ph_pulled h))
  else mret tt.

Definition handle_error_and_datatype_state : PH unit :=
  modify (fun h => ph_set_new_state (ppp_state (ph_pulled h)) h) ;;
  h ← get;
  match ppp_error (ph_pulled h) with
  | Some sppe => lift (routed (DatatypeError_mapping (PushPullError_to_datatype_error sppe)))
  | None =>
      match ph_old_state h with
      | Creating =>
          expect_state Subscribed ;; modify (ph_set_is_created true)
      | Subscribing =>
          expect_state Subscribed ;; enqueue_step StepApplySubscribeResponse
      | SubscribingOrCreating =>
          expect_state Subscribed ;;
          if decide (ppp_duid (ph_pulled h) = Attribute_get_duid (m_attr (ph_mutable h)))
          then modify (ph_set_is_created true)
          else enqueue_step StepApplySubscribeResponse
      | Subscribed => expect_state Subscribed
      | Unsubscribing => expect_state Disabled
      | Deleting => panic "not yet implemented"
      | Disabled => panic "not yet implemented"
      end
  end.

Definition apply_subscribe_response : PH unit :=
  h ← get;
  match ppp_snapshot_transaction (ph_pulled h) with
  | Some snapshot_tx =>
      modify (fun h => ph_set_pulled (ppp_set_snapshot None (ph_pulled h)) h) ;;
      with_mapping (on_mutable (Mutable_apply_snapshot_transaction snapshot_tx))
  | None => mret tt
  end ;;
  modify (fun h => ph_set_mutable
    (m_set_attr (Attribute_set_duid (ppp_duid (ph_pulled h)) (m_attr (ph_mutable h)))
       (ph_mutable h)) h).

Definition calculate_pulling_transactions (old_cp new_cp : CheckPoint) : Z :=
  u64_sub (u64_sub (cp_sseq new_cp) (cp_sseq old_cp)) (u64_sub (cp_cseq new_cp) (cp_cseq old_cp)).

Definition skip_duplicated_transactions : PH unit :=
  modify (fun h =>
    let need_to_pull :=
      calculate_pulling_transactions (m_checkpoint (ph_mutable h)) (ppp_checkpoint (ph_pulled h)) in
    let len_pulled_txs := Z.of_nat (length (ppp_transactions (ph_pulled h))) in
    if need_to_pull <? len_pulled_txs
    then ph_set_skip (len_pulled_txs - need_to_pull) h
    else h).

Definition execute_transactions : PH unit :=
  h ← get;
  for_each (fun tx => with_mapping (on_mutable (Mutable_execute_remote_transaction tx)))
    (drop (Z.to_nat (ph_skip h)) (ppp_transactions (ph_pulled h))).

Definition sync_checkpoint : PH unit :=
  modify (fun h => ph_set_mutable
    (m_set_checkpoint (CheckPoint_check_with (m_checkpoint (ph_mutable h))
                         (ppp_checkpoint (ph_pulled h))) (ph_mutable h)) h).

Definition run_step (step : PendingStep) : PH unit :=
  match step with
  | StepApplySubscribeResponse => apply_subscribe_response
  | StepSkipDuplicatedTransactions => skip_duplicated_transactions
  | StepExecuteTransactions => execute_transactions
  | StepSyncCheckpoint => sync_checkpoint
  end.

Definition PullHandler_commit : PH unit :=
  steps ← gets ph_pending_steps;
  modify (ph_set_pending_steps []) ;;
  for_each run_step steps ;;
  h ← get;
  on_mutable (Mutable_set_state (ph_new_state h)).

Definition PullHandler_apply : PH unit :=
  result ← attempt
    (handle_error_and_datatype_state ;;
     enqueue_step StepSkipDuplicatedTransactions ;;
     enqueue_step StepExecuteTransactions ;;
     enqueue_step StepSyncCheckpoint);
  PullHandler_commit ;;
  lift result.

(** A round of the handler on [m]: [PullHandler::new(..).apply()]. *)
Definition apply_pulled (pulled : PushPullPack) : MM DatatypeErrorWithAction unit := fun m =>
  let '(r, h, w) := PullHandler_apply (PullHandler_new pulled m) in (r, ph_mutable h, w).

(** ** Specification vocabulary *)

(** The state in which the server must answer. *)
Definition expected_state (old : DatatypeState) : option DatatypeState :=
  match old with
  | Creating | Subscribing | SubscribingOrCreating | Subscribed => Some Subscribed
  | Unsubscribing => Some Disabled
  | Deleting | Disabled => None
  end.

(** Whether the response is handled as a subscription to an existing datatype. *)
Definition joins (m : MutableDatatype) (pulled : PushPullPack) : bool :=
  match m_state m with
  | Subscribing => true
  | SubscribingOrCreating =>
      negb (bool_decide (ppp_duid pulled = Attribute_get_duid (m_attr m)))
  | _ => false
  end.

Definition steps_of (m : MutableDatatype) (pulled : PushPullPack) : list PendingStep :=
  (if joins m pulled then [StepApplySubscribeResponse] else [])
  ++ [StepSkipDuplicatedTransactions; StepExecuteTransactions; StepSyncCheckpoint].

(** The effect of remote operations on a datatype. *)
Definition lamport_max (l : Z) (ops : list Operation) : Z :=
  foldl (fun l op => Z.max l (op_lamport op)) l ops.

Definition remote_applied (ops : list Operation) (m : MutableDatatype) : MutableDatatype :=
  m_set_crdt (crdt_after (m_crdt m) ops)
    (m_set_op_id (mkOperationId (lamport_max (lamport (m_op_id m)) ops) (oid_cuid (m_op_id m))
                    (oid_cseq (m_op_id m))) m).

Definition ops_of (txs : list Transaction) : list Operation := txs ≫= tx_operations.

(** The number of leading transactions that are skipped as duplicates. *)
Definition duplicates (m : MutableDatatype) (pulled : PushPullPack) : nat :=
  (length (ppp_transactions pulled) -
   Z.to_nat (calculate_pulling_transactions (m_checkpoint m) (ppp_checkpoint pulled)))%nat.

Definition new_transactions (m : MutableDatatype) (pulled : PushPullPack) : list Transaction :=
  drop (duplicates m pulled) (ppp_transactions pulled).

(** The datatype after the three steps of every successful round. *)
Definition synced (pulled : PushPullPack) (m : MutableDatatype) : MutableDatatype :=
  m_set_checkpoint (CheckPoint_check_with (m_checkpoint m) (ppp_checkpoint pulled))
    (remote_applied (ops_of (new_transactions m pulled)) m).

(** ** Lemmas: executing remote transactions *)
Lemma remote_applied_nil m : remote_applied [] m = m.
Proof. destruct m as [? ? [] ?????]. done. Qed.

Lemma remote_applied_app ops1 ops2 m :
  remote_applied (ops1 ++ ops2) m = remote_applied ops2 (remote_applied ops1 m).
Proof.
  unfold remote_applied, lamport_max, crdt_after; simpl. by rewrite !foldl_app.
Qed.

Lemma execute_remote_operation_ok op m : is_counter_op op = true ->
  execute_remote_operation op m = (Ok tt, remote_applied [op] m, []).
Proof.
  intros Ho. unfold execute_remote_operation, mbind, M_bind, modify, on_crdt, mret, M_ret.
  cbn [m_crdt m_set_op_id]. rewrite Crdt_execute_remote_local.
  rewrite Crdt_execute_local_counter by done. simpl.
  unfold remote_applied, crdt_after. simpl. by rewrite Crdt_execute_local_counter.
Qed.

Lemma execute_remote_transaction_ok tx m : counter_tx tx = true ->
  Mutable_execute_remote_transaction tx m = (Ok tt, remote_applied (tx_operations tx) m, []).
Proof.
  unfold Mutable_execute_remote_transaction, counter_tx. revert m.
  induction (tx_operations tx) as [|op ops IH]; intros m H.
  - by rewrite remote_applied_nil.
  - apply andb_true_iff in H as [Ho H]. cbn [for_each].
    erewrite M_bind_Ok by by apply execute_remote_operation_ok.
    rewrite IH by done.
    change (op :: ops) with ([op] ++ ops). by rewrite remote_applied_app.
Qed.

Lemma ph_set_mutable_id h : ph_set_mutable (ph_mutable h) h = h.
Proof. by destruct h. Qed.

Lemma execute_txs_ok txs h : forallb counter_tx txs = true ->
  for_each (fun tx => with_mapping (on_mutable (Mutable_execute_remote_transaction tx))) txs h
  = (Ok tt, ph_set_mutable (remote_applied (ops_of txs) (ph_mutable h)) h, []).
Proof.
  revert h. induction txs as [|tx txs IH]; intros h H.
  - cbn. by rewrite remote_applied_nil, ph_set_mutable_id.
  - apply andb_true_iff in H as [Ht H]. cbn [for_each].
    erewrite M_bind_Ok; last first.
    { unfold with_mapping, on_mutable. rewrite execute_remote_transaction_ok by done. reflexivity. }
    rewrite IH by done. unfold ops_of; cbn [mbind list_bind].
    by rewrite remote_applied_app.
Qed.

Lemma forallb_drop {A} (f : A -> bool) n l : forallb f l = true -> forallb f (drop n l) = true.
Proof.
  revert n. induction l as [|x l IH]; intros [|n] H; simpl in *; auto.
  apply andb_true_iff in H as [_ H]. auto.
Qed.

(** ** Lemmas: the steps of a round *)
Lemma skip_step_eq h :
  skip_duplicated_transactions h =
  (Ok tt, if decide (duplicates (ph_mutable h) (ph_pulled h) = 0%nat) then h
          else ph_set_skip (Z.of_nat (duplicates (ph_mutable h) (ph_pulled h))) h, []).
Proof.
  unfold skip_duplicated_transactions, modify, duplicates.
  set (n := calculate_pulling_transactions _ _).
  set (k := length _).
  assert (0 <= n) by (subst n; apply u64_wrap_range).
  destruct (Z.ltb_spec n (Z.of_nat k)); case_decide; try lia; [|done].
  do 2 f_equal. f_equal. lia.
Qed.

(** The three steps that every accepted round queues. *)
Lemma sync_steps_eq h : ph_skip h = 0 -> forallb counter_tx (ppp_transactions (ph_pulled h)) = true ->
  exists skip,
  for_each run_step
    [StepSkipDuplicatedTransactions; StepExecuteTransactions; StepSyncCheckpoint] h
  = (Ok tt, ph_set_skip skip (ph_set_mutable (synced (ph_pulled h) (ph_mutable h)) h), []).
Proof.
  intros H0 Hc. cbn [for_each run_step].
  erewrite M_bind_Ok by apply skip_step_eq.
  set (d := duplicates (ph_mutable h) (ph_pulled h)).
  exists (Z.of_nat d).
  set (h1 := if decide (d = 0%nat) then h else ph_set_skip (Z.of_nat d) h).
  assert (h1 = ph_set_skip (Z.of_nat d) h) as ->.
  { subst h1. case_decide as Hd; [|done]. rewrite Hd. destruct h; simpl in *. by subst. }
  unfold execute_transactions. erewrite M_bind_Ok; last first.
  { erewrite M_bind_Ok by reflexivity. cbn [ph_skip ph_set_skip ph_pulled].
    rewrite Nat2Z.id, execute_txs_ok by by apply forallb_drop. reflexivity. }
  done.
Qed.

(** Subscribing to an existing datatype. *)
Definition join_step (pulled : PushPullPack) : MM DatatypeErrorWithAction unit :=
  match ppp_snapshot_transaction pulled with
  | Some tx => with_mapping (Mutable_apply_snapshot_transaction tx)
  | None => mret tt
  end ;;
  modify (fun m => m_set_attr (Attribute_set_duid (ppp_duid pulled) (m_attr m)) m).

Lemma apply_subscribe_response_eq h :
  apply_subscribe_response h =
  (let '(r, m, w) := join_step (ph_pulled h) (ph_mutable h) in
   (r, ph_set_mutable m (ph_set_pulled (ppp_set_snapshot None (ph_pulled h)) h), w)).
Proof.
  unfold apply_subscribe_response, join_step, mbind, M_bind, get, modify, mret, M_ret, with_mapping,
    on_mutable; simpl.
  destruct (ppp_snapshot_transaction (ph_pulled h)) as [tx|] eqn:Hs; simpl.
  - destruct (Mutable_apply_snapshot_transaction tx (ph_mutable h)) as [[[[]|e|p|] m] w]; simpl;
      try done; by destruct (routed _).
  - destruct h as [p m ?????]; simpl in *. destruct p; simpl in *. by subst.
Qed.

(** ** Lemmas: a whole round *)

(** The handler after an accepted response, before [commit]. *)
Lemma accepted_phase pulled m :
  ppp_error pulled = None -> expected_state (m_state m) = Some (ppp_state pulled) ->
  exists created,
  (handle_error_and_datatype_state ;;
   enqueue_step StepSkipDuplicatedTransactions ;;
   enqueue_step StepExecuteTransactions ;;
   enqueue_step StepSyncCheckpoint) (PullHandler_new pulled m)
  = (Ok tt, mkPullHandler pulled m (m_state m) (ppp_state pulled) created (steps_of m pulled) 0, []).
Proof.
  intros He Hs. unfold steps_of, joins.
  unfold handle_error_and_datatype_state, expect_state, enqueue_step, mbind, M_bind, get, modify,
    lift, panic, mret, M_ret, PullHandler_new; cbn -[decide]; rewrite He.
  destruct (m_state m); cbn -[decide] in *; try done; injection Hs as Hs; rewrite <- Hs;
    rewrite decide_False by (intros Hne; by apply Hne); cbn -[decide]; try (eexists; reflexivity).
  case_decide; [rewrite bool_decide_true by done|rewrite bool_decide_false by done];
    eexists; reflexivity.
Qed.

Lemma commit_eq h :
  PullHandler_commit h =
  (for_each run_step (ph_pending_steps h) ;;
   h ← get; on_mutable (Mutable_set_state (ph_new_state h))) (ph_set_pending_steps [] h).
Proof.
  unfold PullHandler_commit. unfold gets, modify.
  erewrite M_bind_Ok by reflexivity. cbn -[for_each].
  erewrite M_bind_Ok by reflexivity.
  destruct ((for_each run_step (ph_pending_steps h) ;; _) _) as [[??]?]. done.
Qed.

Lemma set_state_eq E st m :
  @Mutable_set_state E st m =
  (Ok tt, m_put_state st m, if decide (m_state m = st) then [] else state_change_calls m st).
Proof.
  unfold Mutable_set_state. case_decide as H; [|done]. destruct m; simpl in *. by subst.
Qed.

Lemma synced_set_snapshot t pulled m : synced (ppp_set_snapshot t pulled) m = synced pulled m.
Proof. done. Qed.

(** The join of an accepted response. *)
Definition join (pulled : PushPullPack) (m : MutableDatatype)
    : result DatatypeErrorWithAction unit * MutableDatatype * list MutableCall :=
  if joins m pulled then join_step pulled m else (Ok tt, m, []).

Lemma steps_ok pulled m created m1 w :
  join pulled m = (Ok tt, m1, w) -> forallb counter_tx (ppp_transactions pulled) = true ->
  exists h',
    for_each run_step (steps_of m pulled)
      (mkPullHandler pulled m (m_state m) (ppp_state pulled) created [] 0) = (Ok tt, h', w) /\
    ph_mutable h' = synced pulled m1 /\ ph_new_state h' = ppp_state pulled.
Proof.
  unfold join, steps_of. intros Hj Hc. rewrite for_each_app. destruct (joins m pulled).
  - set (h1 := ph_set_mutable m1 (ph_set_pulled (ppp_set_snapshot None pulled)
      (mkPullHandler pulled m (m_state m) (ppp_state pulled) created [] 0))).
    destruct (sync_steps_eq h1 eq_refl Hc) as [skip Hsync].
    eexists. split; [|split].
    + erewrite M_bind_Ok; last first.
      { cbn [for_each run_step]. erewrite M_bind_Ok; last first.
        { rewrite apply_subscribe_response_eq. cbn [ph_pulled ph_mutable]. rewrite Hj. reflexivity. }
        reflexivity. }
      fold h1. rewrite Hsync. by rewrite !app_nil_r.
    + done.
    + done.
  - injection Hj as <- <-.
    set (h1 := mkPullHandler pulled m (m_state m) (ppp_state pulled) created [] 0).
    destruct (sync_steps_eq h1 eq_refl Hc) as [skip Hsync].
    eexists. split; [|split].
    + cbn [for_each]. rewrite M_ret_bind. exact Hsync.
    + done.
    + done.
Qed.

Lemma steps_err pulled m created m1 w e :
  join pulled m = (Err e, m1, w) ->
  exists h',
    for_each run_step (steps_of m pulled)
      (mkPullHandler pulled m (m_state m) (ppp_state pulled) created [] 0) = (Err e, h', w) /\
    ph_mutable h' = m1.
Proof.
  unfold join, steps_of. intros Hj. destruct (joins m pulled); [|done].
  eexists. split.
  - cbn [app for_each run_step]. erewrite M_bind_Err; [reflexivity|].
    rewrite apply_subscribe_response_eq. cbn [ph_pulled ph_mutable]. by rewrite Hj.
  - done.
Qed.

(** An accepted response: join if needed, then skip, execute, checkpoint, state. *)
Lemma apply_pulled_accepted pulled m :
  ppp_error pulled = None -> expected_state (m_state m) = Some (ppp_state pulled) ->
  forallb counter_tx (ppp_transactions pulled) = true ->
  (forall m1 w, join pulled m = (Ok tt, m1, w) ->
   exists w', apply_pulled pulled m =
     (Ok tt, m_put_state (ppp_state pulled) (synced pulled m1), w ++ w')) /\
  (forall e m1 w, join pulled m = (Err e, m1, w) -> apply_pulled pulled m = (Err e, m1, w)).
Proof.
  intros He Hs Hc. unfold apply_pulled, PullHandler_apply.
  destruct (accepted_phase pulled m He Hs) as [created Hacc]. split.
  - intros m1 w Hj. destruct (steps_ok pulled m created m1 w Hj Hc) as (h' & Hst & Hm & Hn).
    eexists. erewrite M_bind_Ok; last first.
    { unfold attempt. rewrite Hacc. reflexivity. }
    erewrite M_bind_Ok; last first.
    { rewrite commit_eq. cbn [ph_pending_steps].
      erewrite M_bind_Ok by exact Hst. cbv beta.
      erewrite M_bind_Ok by reflexivity. unfold on_mutable. rewrite set_state_eq. reflexivity. }
    cbn -[synced decide]. rewrite Hm, Hn, app_nil_r. reflexivity.
  - intros e m1 w Hj. destruct (steps_err pulled m created m1 w e Hj) as (h' & Hst & Hm).
    erewrite M_bind_Ok; last first.
    { unfold attempt. rewrite Hacc. reflexivity. }
    erewrite M_bind_Err; last first.
    { rewrite commit_eq. cbn [ph_pending_steps]. erewrite M_bind_Err by exact Hst. reflexivity. }
    simpl. by rewrite Hm.
Qed.

(** A refused response: the steps are dropped and only the state changes. *)
Lemma apply_pulled_refused pulled m e st :
  (handle_error_and_datatype_state (PullHandler_new pulled m) =
   (Err e, mkPullHandler pulled m (m_state m) st false [] 0, [])) ->
  apply_pulled pulled m =
    (Err e, m_put_state st m, if decide (m_state m = st) then [] else state_change_calls m st).
Proof.
  intros Hh. unfold apply_pulled, PullHandler_apply.
  erewrite M_bind_Ok; last first.
  { unfold attempt. erewrite M_bind_Err by exact Hh. reflexivity. }
  erewrite M_bind_Ok; last first.
  { rewrite commit_eq. cbn [ph_pending_steps for_each]. rewrite M_ret_bind.
    erewrite M_bind_Ok by reflexivity. unfold on_mutable. rewrite set_state_eq. reflexivity. }
  cbn -[decide state_change_calls]. by rewrite !app_nil_r.
Qed.

Lemma ops_of_counter txs : forallb counter_tx txs = true ->
  Forall (fun op => is_counter_op op = true) (ops_of txs).
Proof.
  induction txs as [|tx txs IH]; intros H; [by apply Forall_nil|].
  apply andb_true_iff in H as [Ht H]. unfold ops_of; cbn [mbind list_bind].
  apply Forall_app. split; [|by apply IH].
  unfold counter_tx in Ht. clear -Ht. induction (tx_operations tx) as [|op ops IHo]; [by apply Forall_nil|].
  apply andb_true_iff in Ht as [Ho Ht]. constructor; auto.
Qed.

Lemma sumZ_ops_of txs : sumZ op_delta (ops_of txs) = sumZ tx_delta txs.
Proof.
  induction txs as [|tx txs IH]; [done|].
  unfold ops_of in *; cbn [mbind list_bind]. rewrite sumZ_app, sumZ_cons, IH. done.
Qed.

(** The counter after remote transactions, whatever their grouping. *)
Lemma crdt_after_remote c txs : crdt_wf c -> forallb counter_tx txs = true ->
  crdt_value (crdt_after c (ops_of txs)) = i64_wrap (crdt_value c + sumZ tx_delta txs).
Proof.
  intros Hwf Hc. rewrite crdt_after_counter by by apply ops_of_counter.
  rewrite sumZ_ops_of. destruct (ops_of txs) eqn:Ho; [|done].
  rewrite <- sumZ_ops_of, Ho, sumZ_nil, Z.add_0_r. by rewrite i64_wrap_id.
Qed.

Lemma synced_value pulled m : crdt_wf (m_crdt m) ->
  forallb counter_tx (ppp_transactions pulled) = true ->
  crdt_value (m_crdt (synced pulled m)) =
    i64_wrap (crdt_value (m_crdt m) + sumZ tx_delta (new_transactions m pulled)).
Proof. intros Hw Hc. apply crdt_after_remote; [done|by apply forallb_drop]. Qed.

Lemma lamport_max_spec l ops :
  l <= lamport_max l ops /\ Forall (fun op => op_lamport op <= lamport_max l ops) ops.
Proof.
  unfold lamport_max. revert l. induction ops as [|op ops IH]; intros l; simpl.
  - split; [lia|by apply Forall_nil].
  - destruct (IH (Z.max l (op_lamport op))) as [H1 H2]. split; [lia|]. constructor; [lia|done].
Qed.

(** Applying a snapshot whose bytes are those of a counter. *)
Lemma apply_snapshot_ok tx op ops body m :
  tx_operations tx = op :: ops -> op_body op = Snapshot body -> length (snap_data body) = 8%nat ->
  Mutable_apply_snapshot_transaction tx m =
    (Ok tt,
     let m1 := m_set_op_id (mkOperationId (op_lamport op) (oid_cuid (m_op_id m)) 0)
                 (m_set_crdt (CrdtCounter (CounterCrdt_from_bytes (snap_data body))) m) in
     m_set_tx_record (TxRecord_new (m_state m) (m_op_id m1))
       (m_set_push_buffer (MemoryPushBuffer_new (attr_option (m_attr m))) m1), []).
Proof.
  intros Ho Hb Hl. unfold Mutable_apply_snapshot_transaction. rewrite Ho, Hb.
  unfold on_crdt, Crdt_deserialize, mbind, M_bind, modify, Mutable_reset.
  destruct (m_crdt m) as [c]. rewrite decide_False by lia. done.
Qed.

(** ** Properties *)

(** C25.  A response that carries an error, or a state that the client's state
    does not allow, changes nothing but the state: the counter, the operation
    id, the buffered transactions, the checkpoint and the identifier stay.  An
    illegal state is reported as a protocol violation and disables the
    datatype; an error is reported as the server's error with the action routed
    for it, and the state becomes the one the server sent. *)
Theorem refused_response_changes_only_the_state pulled m :
  m_state m <> Deleting -> m_state m <> Disabled ->
  (forall e, ppp_error pulled = Some e ->
     outcome (apply_pulled pulled m) =
       routed (DatatypeError_mapping (PushPullError_to_datatype_error e)) /\
     final (apply_pulled pulled m) = m_put_state (ppp_state pulled) m) /\
  (ppp_error pulled = None -> expected_state (m_state m) <> Some (ppp_state pulled) ->
     exists msg, outcome (apply_pulled pulled m) =
       Err (DatatypeErrorWithAction_new (ServerRejected (Rej_ProtocolViolation msg)) Disable) /\
     final (apply_pulled pulled m) = m_put_state Disabled m).
Proof.
  intros Hd1 Hd2. split.
  - intros e He.
    assert (exists x, routed (DatatypeError_mapping (PushPullError_to_datatype_error e)) =
      @Err DatatypeErrorWithAction unit x) as [x Hx] by (destruct e; eexists; reflexivity).
    rewrite Hx, (apply_pulled_refused pulled m x (ppp_state pulled)); [done|].
    unfold handle_error_and_datatype_state, mbind, M_bind, modify, get, lift; simpl.
    by rewrite He, Hx.
  - intros He Hs.
    exists ("illegal state from push-pull: received " +:+ DatatypeState_to_string (ppp_state pulled)
            +:+ " for " +:+ DatatypeState_to_string (m_state m)).
    erewrite apply_pulled_refused; [split; reflexivity|].
    unfold handle_error_and_datatype_state, expect_state, process_illegal_state_response, mbind,
      M_bind, modify, get, lift, PullHandler_new; cbn -[decide]. rewrite He.
    destruct (m_state m); try done; cbn -[decide] in *;
      rewrite decide_True by congruence; reflexivity.
Qed.


Definition example_tx : Transaction :=
  {| tx_cuid := mkUid "remoteremote0000"; tx_cseq := 1; tx_sseq := 1; tx_tag := None;
     tx_event := false;
     tx_operations := [Operation_set_lamport 7 (Operation_new_counter_increase 0 4)] |}.

(** A subscribed replica, at [sseq] 0, pulls one transaction of another client. *)
Definition example_pulled : PushPullPack :=
  ppp_set_transactions [example_tx] (ppp_set_cp_sseq 1
    (PushPullPack_new example_attribute Subscribed)).

Lemma refused_response_changes_only_the_state_witness :
  final (apply_pulled (ppp_set_state Disabled example_pulled) (m_put_state Subscribed example_mutable))
  = m_put_state Disabled (m_put_state Subscribed example_mutable).
Proof.
  destruct (refused_response_changes_only_the_state (ppp_set_state Disabled example_pulled)
    (m_put_state Subscribed example_mutable)) as [_ H]; [done|done|].
  destruct H as (msg & _ & H); [done|done|exact H].
Defined.


(** C24.  A response that joins an existing datatype installs the snapshot of
    its first operation: the counter becomes the snapshot's value plus the
    pulled transactions, the local [cseq] restarts at 0, the push buffer and
    the transaction record are emptied and the datatype takes the server's
    identifier.  Anything else than an 8-byte snapshot is refused with the
    action [Disable] and leaves identifier, buffer and checkpoint alone. *)
Theorem join_response_installs_snapshot pulled m tx :
  ppp_error pulled = None -> expected_state (m_state m) = Some (ppp_state pulled) ->
  joins m pulled = true -> forallb counter_tx (ppp_transactions pulled) = true ->
  ppp_snapshot_transaction pulled = Some tx ->
  let m' := final (apply_pulled pulled m) in
  (forall op ops body, tx_operations tx = op :: ops -> op_body op = Snapshot body ->
     length (snap_data body) = 8%nat ->
     outcome (apply_pulled pulled m) = Ok tt /\
     crdt_value (m_crdt m') = i64_wrap (i64_from_le_bytes (snap_data body)
                                        + sumZ tx_delta (new_transactions m pulled)) /\
     oid_cseq (m_op_id m') = 0 /\ op_lamport op <= lamport (m_op_id m') /\
     m_push_buffer m' = MemoryPushBuffer_new (attr_option (m_attr m)) /\
     pending (m_tx_record m') = None /\ Attribute_get_duid (m_attr m') = ppp_duid pulled /\
     m_checkpoint m' = CheckPoint_check_with (m_checkpoint m) (ppp_checkpoint pulled) /\
     m_state m' = Subscribed) /\
  ((forall op ops body, tx_operations tx = op :: ops -> op_body op = Snapshot body ->
      length (snap_data body) <> 8%nat) ->
   exists e, outcome (apply_pulled pulled m) = Err (DatatypeErrorWithAction_new e Disable) /\
     m' = m).
Proof.
  intros He Hs Hj Hc Hsn.
  assert (Hst : m_state m = Subscribing \/ m_state m = SubscribingOrCreating).
  { unfold joins in Hj. destruct (m_state m); try done; auto. }
  destruct (apply_pulled_accepted pulled m He Hs Hc) as [Hok Herr]. split.
  - intros op ops body Ho Hb Hl.
    destruct (Hok (m_set_attr (Attribute_set_duid (ppp_duid pulled) (m_attr m))
      (final (Mutable_apply_snapshot_transaction tx m))) []) as [w' ->].
    { unfold join, join_step. rewrite Hj, Hsn.
      erewrite M_bind_Ok; last first.
      { unfold with_mapping. rewrite (apply_snapshot_ok tx op ops body m Ho Hb Hl). reflexivity. }
      rewrite (apply_snapshot_ok tx op ops body m Ho Hb Hl). done. }
    rewrite (apply_snapshot_ok tx op ops body m Ho Hb Hl).
    cbn -[synced sumZ new_transactions]. split_and!; try done.
    + rewrite synced_value by (done || apply i64_wrap_range). done.
    + apply lamport_max_spec.
    + by destruct Hst as [Hst|Hst]; rewrite Hst in Hs; injection Hs as <-.
  - intros Hbad.
    assert (exists e, Mutable_apply_snapshot_transaction tx m = (Err e, m, []) /\
      DatatypeError_mapping e = Ok (DatatypeErrorWithAction_new e Disable)) as (e & Hsnap & Hm).
    { unfold Mutable_apply_snapshot_transaction.
      destruct (tx_operations tx) as [|op ops] eqn:Ho; [by eexists|].
      destruct (op_body op) as [|body] eqn:Hb; [by eexists|].
      unfold mbind, M_bind, on_crdt, Crdt_deserialize. destruct (m_crdt m) as [c] eqn:Hcr.
      rewrite decide_True by by eapply Hbad. eexists. split.
      { rewrite <- Hcr. by destruct m. }
      reflexivity. }
    exists e. rewrite (Herr (DatatypeErrorWithAction_new e Disable) m []); [done|].
    unfold join, join_step. rewrite Hj, Hsn. erewrite M_bind_Err; [reflexivity|].
    unfold with_mapping. rewrite Hsnap. unfold map_err_mapping, routed. by rewrite Hm.
Qed.

Definition example_snapshot : Transaction :=
  Transaction_push_operation
    (Operation_set_lamport 3
       (Operation_new_snapshot 0 (Crdt_serialize (CrdtCounter (mkCounterCrdt 42)))))
    (Transaction_new_with_cuid (mkUid "remoteremote0000")).

Lemma join_response_installs_snapshot_witness :
  crdt_value (m_crdt (final (apply_pulled
    (ppp_set_snapshot (Some example_snapshot) example_pulled)
    (m_put_state Subscribing example_mutable)))) = 46.
Proof.
  destruct (join_response_installs_snapshot (ppp_set_snapshot (Some example_snapshot) example_pulled)
    (m_put_state Subscribing example_mutable) example_snapshot) as [H _]; [done|done|done|done|done|].
  edestruct H as (_ & Hv & _); [reflexivity|reflexivity|reflexivity|exact Hv].
Defined.
