(* ===== verification/Server.v ===== *)
(** * The in-process synchronization server
    ([src/connectivity/local_datatype_server.rs])

    A [LocalDatatypeServer] keeps, for one datatype, the history of the pushed
    transactions in the order of their server sequence [sseq], the checkpoint of
    each client and the registered clients.  [wired_map] refers to the clients'
    datatype cores by their address; the only thing the server does with them is
    to read the creator's snapshot, [get_subscribe_snapshot], an argument here
    that [Wired] provides.  [sender_map] refers to event-loop channels by the
    address of their core; the notifications sent are the calls of the monad.
    [HashMap]s are [gmap]s; the first key of [wired_map] in its unspecified
    iteration order is the argument [first_key]. *)

From Stdlib Require Import Sorting.Sorted.
From S2P Require Import Prelude Types Errors Operations PushBuffer Pack.

Record LocalDatatypeServer : Type := mkServer {
  wired_map : gmap Cuid Z;
  sender_map : gmap Cuid Z;
  srv_collection : string;
  srv_key : string;
  srv_type : DataType;
  srv_duid : Duid;
  created : bool;
  creator : Cuid;
  srv_sseq : Z;
  cseq_map : gmap Cuid CheckPoint;
  history : list Transaction;
}.

(** [sender.try_send(Event::Notify(notification))] to the event loop of a core. *)
Inductive ServerCall : Type := SendNotify (core : Z) (n : Notification).

#[export] Instance ServerCall_eq_dec : EqDecision ServerCall.
Proof. solve_decision. Defined.

Abbreviation SM := (M LocalDatatypeServer ServerCall ConnectivityError).

Definition Server_new (attr : Attribute) : LocalDatatypeServer :=
  {| wired_map := ∅; sender_map := ∅; created := false; creator := Attribute_get_cuid attr;
     srv_collection := cc_collection (attr_client_common attr); srv_sseq := 0;
     cseq_map := ∅; history := []; srv_key := attr_key attr; srv_type := attr_type attr;
     srv_duid := Attribute_get_duid attr |}.

(** Field assignments. *)
Definition srv_set_clients (w s : gmap Cuid Z) (sv : LocalDatatypeServer) : LocalDatatypeServer :=
  mkServer w s (srv_collection sv) (srv_key sv) (srv_type sv) (srv_duid sv) (created sv)
    (creator sv) (srv_sseq sv) (cseq_map sv) (history sv).
Definition srv_set_created (d : Duid) (c : Cuid) (sv : LocalDatatypeServer) : LocalDatatypeServer :=
  mkServer (wired_map sv) (sender_map sv) (srv_collection sv) (srv_key sv) (srv_type sv) d true
    c (srv_sseq sv) (cseq_map sv) (history sv).
Definition srv_set_creator (c : Cuid) (sv : LocalDatatypeServer) : LocalDatatypeServer :=
  mkServer (wired_map sv) (sender_map sv) (srv_collection sv) (srv_key sv) (srv_type sv)
    (srv_duid sv) (created sv) c (srv_sseq sv) (cseq_map sv) (history sv).
Definition srv_set_log (sseq : Z) (m : gmap Cuid CheckPoint) (h : list Transaction)
    (sv : LocalDatatypeServer) : LocalDatatypeServer :=
  mkServer (wired_map sv) (sender_map sv) (srv_collection sv) (srv_key sv) (srv_type sv)
    (srv_duid sv) (created sv) (creator sv) sseq m h.

Definition Server_to_string (sv : LocalDatatypeServer) : string :=
  DataType_to_string (srv_type sv) +:+ " '" +:+ srv_key sv +:+ "' subscribed by "
  +:+ pretty (Z.of_nat (size (wired_map sv))) +:+ " clients, sseq: " +:+ pretty (srv_sseq sv)
  +:+ " created: " +:+ (if created sv then "true" else "false").

(** [core] is the datatype core of [wired] and the owner of [sender]. *)
Definition Server_insert_client_item (cuid : Cuid) (core : Z) (sv : LocalDatatypeServer)
    : LocalDatatypeServer :=
  srv_set_clients (<[cuid := core]> (wired_map sv)) (<[cuid := core]> (sender_map sv)) sv.

Definition Server_is_empty (sv : LocalDatatypeServer) : bool :=
  bool_decide (wired_map sv = ∅).

(** The [for] loop of [push_transactions]. *)
Fixpoint push_loop (txs : list Transaction) (sseq cseq : Z) (hist : list Transaction)
    (pushed_any : bool) : Z * Z * list Transaction * bool :=
  match txs with
  | [] => (sseq, cseq, hist, pushed_any)
  | tx :: txs =>
      if tx_cseq tx <=? cseq then push_loop txs sseq cseq hist pushed_any
      else
        let sseq := u64_add sseq 1 in
        push_loop txs sseq (tx_cseq tx) (hist ++ [Transaction_set_sseq sseq tx]) true
  end.

(** [entry(cuid).or_insert(CheckPoint::new(0, 0))]. *)
Definition client_cp (cuid : Cuid) (sv : LocalDatatypeServer) : CheckPoint :=
  default (CheckPoint_new 0 0) (cseq_map sv !! cuid).

Definition push_transactions (pushed : PushPullPack) (sv : LocalDatatypeServer)
    : Z * bool * LocalDatatypeServer :=
  let '(sseq, cseq, hist, pushed_any) :=
    push_loop (ppp_transactions pushed) (srv_sseq sv) (cp_cseq (client_cp (ppp_cuid pushed) sv))
      (history sv) false in
  (cseq, pushed_any,
   srv_set_log sseq (<[ppp_cuid pushed := mkCheckPoint sseq cseq]> (cseq_map sv)) hist sv).

(** [self.push_transactions(pushed)] inside a method. *)
Definition do_push_transactions (pushed : PushPullPack) : SM (Z * bool) := fun sv =>
  let '(r, sv) := push_transactions pushed sv in (Ok r, sv, []).

Definition pull_transactions (sv : LocalDatatypeServer) (pulled : PushPullPack) : PushPullPack :=
  let from_sseq := cp_sseq (ppp_checkpoint pulled) in
  ppp_set_cp_sseq (srv_sseq sv)
    (ppp_set_transactions
       (ppp_transactions pulled ++
        filter (fun tx => from_sseq < tx_sseq tx /\ tx_cuid tx <> ppp_cuid pulled) (history sv))
       pulled).

Definition notify_pushed (cuid : Cuid) : SM unit := fun sv =>
  let notification := Notification_new cuid (srv_duid sv) (srv_sseq sv) 0 in
  (Ok tt, sv,
   omap (fun '(registered_cuid, core) =>
           if decide (registered_cuid = cuid) then None else Some (SendNotify core notification))
     (map_to_list (sender_map sv))).

(** [pulled.error = Some(e); pulled.state = Disabled; return Ok(pulled)]. *)
Definition refuse (e : PushPullError) (pulled : PushPullPack) : PushPullPack :=
  ppp_set_state Disabled (ppp_set_error e pulled).

Definition process_creating (pushed : PushPullPack) : SM PushPullPack :=
  let pulled := PushPullPack_get_pulled_stub pushed in
  sv ← get;
  if created sv && negb (bool_decide (srv_duid sv = ppp_duid pushed))
  then mret (refuse (PP_CreateFailed "already exist") pulled)
  else if ppp_is_readonly pulled then mret (refuse PP_ReadonlyViolation pulled)
  else
    modify (srv_set_created (ppp_duid pushed) (ppp_cuid pushed)) ;;
    '(cseq, _) ← do_push_transactions pushed;
    sseq ← gets srv_sseq;
    mret (ppp_set_state Subscribed (ppp_set_cp_cseq cseq (ppp_set_cp_sseq sseq pulled))).

Definition process_client_push (pushed : PushPullPack) (success_state : DatatypeState)
    (is_realtime : bool) : SM PushPullPack :=
  let pulled := PushPullPack_get_pulled_stub pushed in
  if ppp_is_readonly pulled && negb (bool_decide (ppp_transactions pushed = []))
  then mret (refuse PP_ReadonlyViolation pulled)
  else
    '(cseq, pushed_any) ← do_push_transactions pushed;
    let pulled := ppp_set_cp_cseq cseq
                    (ppp_set_cp_sseq (cp_sseq (ppp_checkpoint pushed)) pulled) in
    sv ← get;
    let pulled := ppp_set_state success_state (pull_transactions sv pulled) in
    (if is_realtime && pushed_any then notify_pushed (ppp_cuid pushed) else mret tt) ;;
    mret pulled.

Definition process_subscribed (pushed : PushPullPack) (is_realtime : bool) : SM PushPullPack :=
  let pulled := PushPullPack_get_pulled_stub pushed in
  sv ← get;
  if bool_decide (wired_map sv !! ppp_cuid pushed = None)
  then mret (refuse (PP_MissingSubscription ("cuid '" +:+ uid_str (ppp_cuid pushed)
         +:+ "' has no active datatype subscription on this server")) pulled)
  else if negb (bool_decide (srv_type sv = ppp_type pushed))
  then mret (refuse (PP_ProtocolViolation ("type mismatch for '"
         +:+ PushPullPack_resource_id pushed +:+ "': expected " +:+ DataType_to_string (srv_type sv)
         +:+ " but got " +:+ DataType_to_string (ppp_type pushed))) pulled)
  else process_client_push pushed Subscribed is_realtime.

(** A lookup in [keys().next()] order. *)
Definition process_unsubscribing (first_key : gmap Cuid Z -> option Cuid)
    (pushed : PushPullPack) (is_realtime : bool) : SM PushPullPack :=
  sv ← get;
  if bool_decide (wired_map sv !! ppp_cuid pushed = None)
  then mret (ppp_set_state Disabled (PushPullPack_get_pulled_stub pushed))
  else
    pulled ← process_client_push pushed Disabled is_realtime;
    modify (fun sv => srv_set_clients (delete (ppp_cuid pushed) (wired_map sv))
                        (delete (ppp_cuid pushed) (sender_map sv)) sv) ;;
    modify (fun sv =>
      if decide (creator sv = ppp_cuid pushed) then
        match first_key (wired_map sv) with
        | Some next_creator => srv_set_creator next_creator sv
        | None => sv
        end
      else sv) ;;
    mret pulled.

Definition process_deleting (pushed : PushPullPack) : SM PushPullPack :=
  mret (PushPullPack_get_pulled_stub pushed).

Definition process_disabled (pushed : PushPullPack) : SM PushPullPack :=
  mret (refuse (PP_ProtocolViolation "disabled client attempted push")
          (PushPullPack_get_pulled_stub pushed)).

Definition get_creator_wired_datatype (sv : LocalDatatypeServer) : option Z :=
  wired_map sv !! creator sv.

Definition process_subscribing (get_subscribe_snapshot : Z -> Transaction)
    (pushed : PushPullPack) : SM PushPullPack :=
  let pulled := PushPullPack_get_pulled_stub pushed in
  sv ← get;
  if negb (created sv)
  then mret (refuse (PP_ResourceNotFound (DataType_to_string (ppp_type pushed) +:+ " '"
         +:+ PushPullPack_resource_id pushed +:+ "' not exists")) pulled)
  else if negb (bool_decide (srv_type sv = ppp_type pushed))
  then mret (refuse (PP_ResourceNotFound ("mismatched types for '"
         +:+ PushPullPack_resource_id pushed +:+ "': pushed type-"
         +:+ DataType_to_string (ppp_type pushed) +:+ " but existed type "
         +:+ DataType_to_string (srv_type sv))) pulled)
  else if negb (bool_decide (ppp_transactions pushed = []))
  then mret (refuse (PP_ProtocolViolation "cannot push transactions when subscribing") pulled)
  else
    let pulled := ppp_set_duid (srv_duid sv) pulled in
    match get_creator_wired_datatype sv with
    | None =>
        mret (ppp_set_error (PP_ServerInternalError ("creator unavailable for '"
                +:+ PushPullPack_resource_id pushed +:+ "'")) pulled)
    | Some w =>
        let tx := get_subscribe_snapshot w in
        let pulled := ppp_set_snapshot (Some tx) (ppp_set_cp_sseq (tx_sseq tx) pulled) in
        mret (ppp_set_state Subscribed (pull_transactions sv pulled))
    end.

Definition process_subscribing_or_creating (get_subscribe_snapshot : Z -> Transaction)
    (pushed : PushPullPack) : SM PushPullPack :=
  sv ← get;
  if created sv then process_subscribing get_subscribe_snapshot pushed
  else process_creating pushed.

(** ** Specification vocabulary *)

(** The transactions of a push that are new for a client whose last [cseq] is
    [cseq], and their [sseq] stamps. *)
Fixpoint accepted (cseq : Z) (txs : list Transaction) : list Transaction :=
  match txs with
  | [] => []
  | tx :: txs => if tx_cseq tx <=? cseq then accepted cseq txs
                 else tx :: accepted (tx_cseq tx) txs
  end.

Fixpoint stamp_sseq (sseq : Z) (txs : list Transaction) : list Transaction :=
  match txs with
  | [] => []
  | tx :: txs => Transaction_set_sseq (sseq + 1) tx :: stamp_sseq (sseq + 1) txs
  end.

(** The [cseq] acknowledged after a push. *)
Definition acked (cseq : Z) (txs : list Transaction) : Z :=
  foldl (fun c tx => Z.max c (tx_cseq tx)) cseq txs.

(** The transactions of client [c], and those of the others after [from]. *)
Definition own (c : Cuid) (h : list Transaction) : list Transaction :=
  filter (fun tx => tx_cuid tx = c) h.
Definition others_after (c : Cuid) (from : Z) (h : list Transaction) : list Transaction :=
  filter (fun tx => from < tx_sseq tx /\ tx_cuid tx <> c) h.

(** A pack whose transactions are its client's, in ascending [cseq]. *)
Definition push_wf (p : PushPullPack) : Prop :=
  Forall (fun tx => tx_cuid tx = ppp_cuid p) (ppp_transactions p) /\
  StronglySorted Z.lt (tx_cseq <$> ppp_transactions p).

(** The invariant of a server. *)
Definition server_wf (sv : LocalDatatypeServer) : Prop :=
  tx_sseq <$> history sv = seqZ 1 (Z.of_nat (length (history sv))) /\
  srv_sseq sv = Z.of_nat (length (history sv)) /\
  srv_sseq sv <= u64_max /\
  (forall c, StronglySorted Z.lt (tx_cseq <$> own c (history sv)) /\
             Forall (fun tx => tx_cseq tx <= cp_cseq (client_cp c sv)) (own c (history sv)) /\
             0 <= cp_cseq (client_cp c sv) /\ cp_sseq (client_cp c sv) <= srv_sseq sv) /\
  wired_map sv = sender_map sv.

(** No [sseq] overflow during the push. *)
Definition push_small (p : PushPullPack) (sv : LocalDatatypeServer) : Prop :=
  srv_sseq sv + Z.of_nat (length (ppp_transactions p)) <= u64_max.

#[export] Instance push_small_dec p sv : Decision (push_small p sv).
Proof. unfold push_small. apply _. Defined.

(** ** Lemmas: pushing *)
Lemma acked_ge cseq txs : cseq <= acked cseq txs.
Proof.
  unfold acked. revert cseq. induction txs as [|tx txs IH]; intros cseq; simpl; [lia|].
  specialize (IH (Z.max cseq (tx_cseq tx))). lia.
Qed.

Lemma acked_all cseq txs : Forall (fun tx => tx_cseq tx <= acked cseq txs) txs.
Proof.
  revert cseq. induction txs as [|tx txs IH]; intros cseq; [by apply Forall_nil|].
  constructor; [|apply IH]. unfold acked; simpl.
  pose proof (acked_ge (Z.max cseq (tx_cseq tx)) txs). unfold acked in *. lia.
Qed.

Lemma accepted_none cseq txs : Forall (fun tx => tx_cseq tx <= cseq) txs -> accepted cseq txs = [].
Proof.
  induction 1 as [|tx txs H _ IH]; simpl; [done|]. by rewrite (proj2 (Z.leb_le _ _) H).
Qed.

Lemma acked_none cseq txs : Forall (fun tx => tx_cseq tx <= cseq) txs -> acked cseq txs = cseq.
Proof.
  unfold acked. induction 1 as [|tx txs H _ IH]; simpl; [done|]. by rewrite Z.max_l.
Qed.

Lemma accepted_length cseq txs : (length (accepted cseq txs) <= length txs)%nat.
Proof.
  revert cseq. induction txs as [|tx txs IH]; intros cseq; simpl; [lia|].
  destruct (_ <=? _); simpl; [specialize (IH cseq)|specialize (IH (tx_cseq tx))]; lia.
Qed.

Lemma accepted_filter cseq txs : StronglySorted Z.lt (tx_cseq <$> txs) ->
  accepted cseq txs = filter (fun tx => cseq < tx_cseq tx) txs.
Proof.
  revert cseq. induction txs as [|tx txs IH]; intros cseq H; [done|].
  cbn [fmap list_fmap accepted] in *. inversion H as [|?? Hs Hf]; subst.
  rewrite filter_cons. destruct (Z.leb_spec (tx_cseq tx) cseq).
  - rewrite decide_False by lia. by apply IH.
  - rewrite decide_True by lia. f_equal. rewrite IH by done.
    apply filter_ext_Forall. rewrite Forall_fmap in Hf.
    eapply Forall_impl; [exact Hf|]. simpl. lia.
Qed.

Lemma accepted_In cseq txs tx : tx ∈ accepted cseq txs -> tx ∈ txs /\ cseq < tx_cseq tx.
Proof.
  revert cseq. induction txs as [|t txs IH]; intros cseq; simpl; [by intros ?%elem_of_nil|].
  destruct (Z.leb_spec (tx_cseq t) cseq).
  - intros [? ?]%IH. split; [by right|done].
  - intros [->|H']%elem_of_cons; [split; [by left|lia]|].
    apply IH in H' as [? ?]. split; [by right|lia].
Qed.

Lemma accepted_sorted cseq txs : StronglySorted Z.lt (tx_cseq <$> accepted cseq txs).
Proof.
  revert cseq. induction txs as [|t txs IH]; intros cseq; simpl; [constructor|].
  destruct (_ <=? _); [apply IH|]. cbn [fmap list_fmap]. constructor; [apply IH|].
  apply Forall_fmap, Forall_forall. intros tx [_ ?]%accepted_In. simpl. lia.
Qed.

Lemma push_loop_spec txs sseq cseq hist any :
  0 <= sseq -> sseq + Z.of_nat (length txs) <= u64_max ->
  push_loop txs sseq cseq hist any =
  (sseq + Z.of_nat (length (accepted cseq txs)), acked cseq txs,
   hist ++ stamp_sseq sseq (accepted cseq txs),
   any || negb (bool_decide (accepted cseq txs = []))).
Proof.
  revert sseq cseq hist any. induction txs as [|tx txs IH]; intros sseq cseq hist any H0 Hm.
  - simpl. rewrite app_nil_r, orb_false_r, Z.add_0_r. done.
  - cbn [push_loop accepted length acked foldl] in *. unfold u64_max in *.
    destruct (Z.leb_spec (tx_cseq tx) cseq).
    + rewrite IH by lia. unfold acked. simpl. by rewrite Z.max_l by lia.
    + rewrite u64_add_small by (unfold is_u64; lia). rewrite IH by lia.
      unfold acked. cbn [length stamp_sseq foldl]. rewrite <- app_assoc, Z.max_r by lia.
      rewrite orb_true_r. cbn [app]. f_equal. f_equal. f_equal. lia.
Qed.

Lemma stamp_sseq_length sseq txs : length (stamp_sseq sseq txs) = length txs.
Proof. revert sseq. induction txs; intros; simpl; auto. Qed.

Lemma stamp_sseq_seq sseq txs :
  tx_sseq <$> stamp_sseq sseq txs = seqZ (sseq + 1) (Z.of_nat (length txs)).
Proof.
  revert sseq. induction txs as [|tx txs IH]; intros sseq; [done|].
  cbn [stamp_sseq length]. rewrite Nat2Z.inj_succ, seqZ_cons by lia.
  rewrite Z.pred_succ. unfold Z.succ. by rewrite fmap_cons, IH.
Qed.

Lemma own_app c h1 h2 : own c (h1 ++ h2) = own c h1 ++ own c h2.
Proof. apply filter_app. Qed.

Lemma own_stamp c sseq txs : Forall (fun tx => tx_cuid tx = c) txs ->
  own c (stamp_sseq sseq txs) = stamp_sseq sseq txs.
Proof.
  intros H. revert sseq. induction H as [|tx txs Ht _ IH]; intros sseq; [done|].
  cbn [stamp_sseq]. unfold own in *. rewrite filter_cons_True by done. by rewrite IH.
Qed.

Lemma own_stamp_other c d sseq txs : c <> d -> Forall (fun tx => tx_cuid tx = c) txs ->
  own d (stamp_sseq sseq txs) = [].
Proof.
  intros Hne H. revert sseq. induction H as [|tx txs Ht _ IH]; intros sseq; [done|].
  cbn [stamp_sseq]. unfold own in *. rewrite filter_cons_False by (simpl; congruence). apply IH.
Qed.

Lemma stamp_sseq_cseq sseq txs : tx_cseq <$> stamp_sseq sseq txs = tx_cseq <$> txs.
Proof. revert sseq. induction txs as [|tx txs IH]; intros; [done|]. simpl. by rewrite IH. Qed.

(** [push_transactions] on a well-formed server. *)
Lemma push_transactions_eq p sv : server_wf sv -> push_small p sv ->
  let acc := accepted (cp_cseq (client_cp (ppp_cuid p) sv)) (ppp_transactions p) in
  let ack := acked (cp_cseq (client_cp (ppp_cuid p) sv)) (ppp_transactions p) in
  let sseq := srv_sseq sv + Z.of_nat (length acc) in
  push_transactions p sv =
  (ack, negb (bool_decide (acc = [])),
   srv_set_log sseq (<[ppp_cuid p := mkCheckPoint sseq ack]> (cseq_map sv))
     (history sv ++ stamp_sseq (srv_sseq sv) acc) sv).
Proof.
  intros (_ & Hs & _) Hsm. unfold push_transactions.
  rewrite push_loop_spec; [done|lia|exact Hsm].
Qed.

Lemma client_cp_insert c d cp sseq m h sv :
  client_cp d (srv_set_log sseq (<[c := cp]> m) h sv) =
  if decide (c = d) then cp else default (CheckPoint_new 0 0) (m !! d).
Proof.
  unfold client_cp; simpl. case_decide as H; [by subst; rewrite lookup_insert_eq|].
  by rewrite lookup_insert_ne.
Qed.

Lemma StronglySorted_app_lt (l k : list Z) n :
  StronglySorted Z.lt l -> StronglySorted Z.lt k ->
  Forall (fun x => x <= n) l -> Forall (fun x => n < x) k -> StronglySorted Z.lt (l ++ k).
Proof.
  intros Hl Hk Hln Hkn. induction Hl as [|x l Hl IH Hx]; simpl; [done|].
  inversion Hln; subst. constructor; [by apply IH|]. apply Forall_app. split; [done|].
  eapply Forall_impl; [exact Hkn|]. simpl. lia.
Qed.

Lemma accepted_own p cseq : push_wf p ->
  Forall (fun tx => tx_cuid tx = ppp_cuid p) (accepted cseq (ppp_transactions p)).
Proof.
  intros [Hc _]. apply Forall_forall. intros tx [Hin _]%accepted_In.
  rewrite Forall_forall in Hc. by apply Hc.
Qed.

Lemma accepted_acked cseq txs :
  Forall (fun tx => tx_cseq tx <= acked cseq txs) (accepted cseq txs).
Proof.
  apply Forall_forall. intros tx [Hin _]%accepted_In.
  pose proof (acked_all cseq txs) as Ha. rewrite Forall_forall in Ha. by apply Ha.
Qed.

Lemma Forall_stamp (P : Z -> Prop) sseq txs :
  Forall (fun tx => P (tx_cseq tx)) txs -> Forall (fun tx => P (tx_cseq tx)) (stamp_sseq sseq txs).
Proof. intros H. revert sseq. induction H; intros; constructor; auto. Qed.

Lemma push_transactions_wf p sv : server_wf sv -> push_wf p -> push_small p sv ->
  server_wf (push_transactions p sv).2.
Proof.
  intros Hwf Hp Hsm. rewrite (push_transactions_eq p sv Hwf Hsm). cbn [snd].
  destruct Hwf as (H1 & H2 & H3 & H4 & H5).
  set (c := ppp_cuid p) in *. set (cs := cp_cseq (client_cp c sv)).
  set (acc := accepted cs (ppp_transactions p)).
  pose proof (accepted_length cs (ppp_transactions p)) as Hlen. fold acc in Hlen.
  unfold push_small in Hsm.
  unfold server_wf. split_and!; cbn [history srv_sseq srv_set_log wired_map sender_map]; [..|done].
  - rewrite fmap_app, stamp_sseq_seq, length_app, stamp_sseq_length, Nat2Z.inj_add, seqZ_app by lia.
    rewrite H1, H2. f_equal. f_equal. lia.
  - rewrite length_app, stamp_sseq_length. lia.
  - lia.
  - intros d. rewrite client_cp_insert. rewrite own_app.
    destruct (H4 d) as (Hd1 & Hd2 & Hd3 & Hd4).
    pose proof (accepted_own p cs Hp) as Hown. fold acc c in Hown.
    case_decide as Hcd.
    + subst d. rewrite own_stamp by done. cbn [cp_cseq cp_sseq].
      pose proof (acked_ge cs (ppp_transactions p)).
      assert (0 <= cs) by apply Hd3.
      split_and!; [| |lia|lia].
      * rewrite fmap_app, stamp_sseq_cseq. apply (StronglySorted_app_lt _ _ cs); [done|apply accepted_sorted| |].
        -- by apply Forall_fmap.
        -- apply Forall_fmap, Forall_forall. intros tx [_ ?]%accepted_In. done.
      * apply Forall_app. split.
        -- eapply Forall_impl; [exact Hd2|]. simpl. fold cs. lia.
        -- apply (Forall_stamp (fun x => x <= acked cs (ppp_transactions p))), accepted_acked.
    + rewrite (own_stamp_other c d) by done. rewrite app_nil_r.
      change (default (CheckPoint_new 0 0) (cseq_map sv !! d)) with (client_cp d sv).
      split_and!; [done|done|done|lia].
Qed.

(** ** Lemmas: the handlers keep the invariant *)
Lemma Server_new_wf attr : server_wf (Server_new attr).
Proof.
  unfold server_wf, Server_new; simpl. split_and!; try done.
  intros c. unfold client_cp; simpl. rewrite lookup_empty. simpl.
  split_and!; try done; constructor.
Qed.

Lemma insert_client_item_wf cuid core sv :
  server_wf sv -> server_wf (Server_insert_client_item cuid core sv).
Proof. intros (? & ? & ? & ? & Hc). unfold server_wf; simpl. by rewrite Hc. Qed.

Lemma srv_set_created_wf d c sv : server_wf sv -> server_wf (srv_set_created d c sv).
Proof. done. Qed.

Lemma process_creating_final p sv :
  final (process_creating p sv) = sv \/
  final (process_creating p sv) =
    (push_transactions p (srv_set_created (ppp_duid p) (ppp_cuid p) sv)).2.
Proof.
  unfold process_creating, mbind, M_bind, get, mret, M_ret, modify, do_push_transactions, gets.
  destruct (created sv && _); [by left|].
  destruct (ppp_is_readonly _); [by left|right].
  by destruct (push_transactions p _) as [[??]?].
Qed.

Lemma notify_pushed_final c sv : final (notify_pushed c sv) = sv.
Proof. done. Qed.

Lemma process_client_push_final p st rt sv :
  final (process_client_push p st rt sv) = sv \/
  final (process_client_push p st rt sv) = (push_transactions p sv).2.
Proof.
  unfold process_client_push. destruct (ppp_is_readonly _ && _); [by left|right].
  unfold mbind, M_bind, get, mret, M_ret, do_push_transactions.
  destruct (push_transactions p sv) as [[cseq any] sv']. destruct (rt && any); done.
Qed.

Lemma process_client_push_wf p st rt sv :
  server_wf sv -> push_wf p -> push_small p sv ->
  server_wf (final (process_client_push p st rt sv)).
Proof.
  intros. destruct (process_client_push_final p st rt sv) as [->| ->]; [done|].
  by apply push_transactions_wf.
Qed.

Lemma process_subscribed_wf p rt sv :
  server_wf sv -> push_wf p -> push_small p sv ->
  server_wf (final (process_subscribed p rt sv)).
Proof.
  intros. unfold process_subscribed. erewrite M_bind_Ok by reflexivity.
  destruct (bool_decide _); [done|]. destruct (negb _); [done|].
  pose proof (process_client_push_wf p Subscribed rt sv) as Hw.
  destruct (process_client_push p Subscribed rt sv) as [[??]?]. by apply Hw.
Qed.

Lemma process_subscribing_final snap p sv : final (process_subscribing snap p sv) = sv.
Proof.
  unfold process_subscribing. erewrite M_bind_Ok by reflexivity.
  repeat (destruct (negb _); [done|]). by destruct (get_creator_wired_datatype sv).
Qed.

Lemma process_client_push_ok p st rt sv :
  exists pulled w, process_client_push p st rt sv = (Ok pulled, final (process_client_push p st rt sv), w).
Proof.
  unfold process_client_push. destruct (ppp_is_readonly _ && _); [by do 2 eexists|].
  unfold mbind, M_bind, get, mret, M_ret, do_push_transactions.
  destruct (push_transactions p sv) as [[cseq any] sv']. destruct (rt && any); by do 2 eexists.
Qed.

(** The server that an unsubscription leaves. *)
Definition unsubscribed (first_key : gmap Cuid Z -> option Cuid) (c : Cuid)
    (sv : LocalDatatypeServer) : LocalDatatypeServer :=
  let sv := srv_set_clients (delete c (wired_map sv)) (delete c (sender_map sv)) sv in
  if decide (creator sv = c) then
    match first_key (wired_map sv) with
    | Some next_creator => srv_set_creator next_creator sv
    | None => sv
    end
  else sv.

Lemma process_unsubscribing_eq fk p rt sv : wired_map sv !! ppp_cuid p <> None ->
  exists pulled w,
    process_client_push p Disabled rt sv = (Ok pulled, final (process_client_push p Disabled rt sv), w) /\
    process_unsubscribing fk p rt sv =
      (Ok pulled, unsubscribed fk (ppp_cuid p) (final (process_client_push p Disabled rt sv)), w).
Proof.
  intros Hin. destruct (process_client_push_ok p Disabled rt sv) as (pulled & w & Hp).
  exists pulled, w. split; [exact Hp|]. unfold process_unsubscribing.
  erewrite M_bind_Ok by reflexivity. rewrite bool_decide_false by done.
  erewrite M_bind_Ok by exact Hp. unfold mbind, M_bind, modify, mret, M_ret.
  by rewrite !app_nil_r.
Qed.

Lemma unsubscribed_wf fk c sv : server_wf sv -> server_wf (unsubscribed fk c sv).
Proof.
  intros (H1 & H2 & H3 & H4 & H5). unfold unsubscribed. rewrite <- H5.
  case_decide; [destruct (fk _)|]; unfold server_wf; simpl; split_and!; done.
Qed.

Lemma process_unsubscribing_wf fk p rt sv :
  server_wf sv -> push_wf p -> push_small p sv ->
  server_wf (final (process_unsubscribing fk p rt sv)).
Proof.
  intros Hwf Hp Hs. destruct (decide (wired_map sv !! ppp_cuid p = None)) as [Hn|Hn].
  - unfold process_unsubscribing. erewrite M_bind_Ok by reflexivity.
    by rewrite bool_decide_true.
  - destruct (process_unsubscribing_eq fk p rt sv Hn) as (pulled & w & _ & ->).
    by apply unsubscribed_wf, process_client_push_wf.
Qed.

Lemma process_creating_wf p sv : server_wf sv -> push_wf p -> push_small p sv ->
  server_wf (final (process_creating p sv)).
Proof.
  intros Hwf Hp Hs. destruct (process_creating_final p sv) as [->| ->]; [done|].
  by apply push_transactions_wf.
Qed.

Lemma process_subscribing_or_creating_wf snap p sv :
  server_wf sv -> push_wf p -> push_small p sv ->
  server_wf (final (process_subscribing_or_creating snap p sv)).
Proof.
  intros Hwf Hp Hs. unfold process_subscribing_or_creating. erewrite M_bind_Ok by reflexivity.
  pose proof (process_subscribing_final snap p sv) as Hf.
  pose proof (process_creating_wf p sv Hwf Hp Hs) as Hc. destruct (created sv).
  - destruct (process_subscribing snap p sv) as [[??]?]. simpl in *. by subst.
  - destruct (process_creating p sv) as [[??]?]. exact Hc.
Qed.

(** ** Properties *)

(** C22.  The server's invariant: the history is numbered [1..sseq] without
    gaps, the transactions of each client are in strictly ascending [cseq] (so
    none is recorded twice) and none is above the acknowledged [cseq], and the
    wired and sender tables agree.  A new server has it, registration and every
    request of a client keep it, whatever the answer. *)
Theorem server_invariant :
  (forall attr, server_wf (Server_new attr)) /\
  (forall cuid core sv, server_wf sv -> server_wf (Server_insert_client_item cuid core sv)) /\
  (forall p sv, server_wf sv -> push_wf p -> push_small p sv ->
     server_wf (final (process_creating p sv)) /\
     (forall snap, server_wf (final (process_subscribing snap p sv))) /\
     (forall snap, server_wf (final (process_subscribing_or_creating snap p sv))) /\
     (forall rt, server_wf (final (process_subscribed p rt sv))) /\
     (forall fk rt, server_wf (final (process_unsubscribing fk p rt sv))) /\
     server_wf (final (process_deleting p sv)) /\ server_wf (final (process_disabled p sv))).
Proof.
  split_and!; [apply Server_new_wf|intros; by apply insert_client_item_wf|].
  intros p sv Hwf Hp Hs. split_and!; try done; intros;
    rewrite ?process_subscribing_final;
    auto using process_creating_wf, process_subscribing_or_creating_wf, process_subscribed_wf,
      process_unsubscribing_wf.
Qed.

(** C19.  A push records exactly the transactions whose [cseq] is above the one
    acknowledged to the client, in order, at the end of the history; the
    acknowledgment becomes the last pushed [cseq].  Pushing the same pack again,
    as a client whose answer was lost does, changes nothing at all. *)
Theorem push_records_once p sv :
  server_wf sv -> push_wf p -> push_small p sv ->
  let cs := cp_cseq (client_cp (ppp_cuid p) sv) in
  let acc := filter (fun tx => cs < tx_cseq tx) (ppp_transactions p) in
  let '(ack, pushed_any, sv') := push_transactions p sv in
  history sv' = history sv ++ stamp_sseq (srv_sseq sv) acc /\
  ack = acked cs (ppp_transactions p) /\ ack = cp_cseq (client_cp (ppp_cuid p) sv') /\
  (pushed_any = true <-> acc <> []) /\
  (push_small p sv' -> push_transactions p sv' = (ack, false, sv')).
Proof.
  intros Hwf Hp Hsm cs acc. pose proof (push_transactions_wf p sv Hwf Hp Hsm) as Hwf'.
  assert (Hacc : accepted cs (ppp_transactions p) = acc) by apply accepted_filter, Hp.
  pose proof (push_transactions_eq p sv Hwf Hsm) as Heq. fold cs in Heq. rewrite Hacc in Heq.
  cbv zeta in Heq. rewrite Heq in *. cbn [snd] in Hwf'. set (sv' := srv_set_log _ _ _ sv) in *.
  assert (Hcp : client_cp (ppp_cuid p) sv' =
    mkCheckPoint (srv_sseq sv + Z.of_nat (length acc)) (acked cs (ppp_transactions p))).
  { unfold sv'. rewrite client_cp_insert. by rewrite decide_True. }
  split_and!.
  - done.
  - done.
  - by rewrite Hcp.
  - by rewrite negb_true_iff, bool_decide_eq_false.
  - intros Hsm'. pose proof (push_transactions_eq p sv' Hwf' Hsm') as Heq'. cbv zeta in Heq'.
    rewrite Hcp in Heq'. cbn [cp_cseq] in Heq'.
    rewrite accepted_none, acked_none in Heq' by apply acked_all.
    rewrite Heq'. cbn [length stamp_sseq]. rewrite app_nil_r, Z.add_0_r. f_equal.
    unfold sv', srv_set_log; simpl. by rewrite insert_insert_eq.
Qed.

Definition srv_attribute : Attribute :=
  Attribute_new Uid_new_nil "key" Counter (mkClientCommon "col" Uid_new_nil "alias")
    DatatypeOption_default false.

Definition example_server : LocalDatatypeServer :=
  Server_insert_client_item Uid_new_nil 1 (Server_new srv_attribute).

Lemma example_server_wf : server_wf example_server.
Proof. apply insert_client_item_wf, Server_new_wf. Qed.

(** A pack with the client's transactions 1 and 2. *)
Definition example_push : PushPullPack :=
  ppp_set_transactions [Transaction_new Uid_new_nil 1; Transaction_new Uid_new_nil 2]
    (PushPullPack_new srv_attribute Creating).

Lemma example_push_wf : push_wf example_push.
Proof. split; [by repeat constructor|]. by repeat constructor. Qed.

Lemma push_records_once_witness :
  let sv' := (push_transactions example_push example_server).2 in
  length (history sv') = 2%nat /\ push_transactions example_push sv' = (2, false, sv').
Proof.
  pose proof (push_records_once example_push example_server example_server_wf example_push_wf
    ltac:(concrete)) as H. cbv zeta in H.
  destruct (push_transactions example_push example_server) as [[ack any] sv'] eqn:He.
  cbn [snd]. destruct H as (Hh & Hack & _ & _ & Hid). split.
  - rewrite Hh. reflexivity.
  - rewrite Hid; [by rewrite Hack|]. unfold push_small.
    vm_compute in He. injection He as _ _ <-. concrete.
Defined.

Lemma others_after_push p cs sseq h from : push_wf p ->
  others_after (ppp_cuid p) from (h ++ stamp_sseq sseq (accepted cs (ppp_transactions p))) =
  others_after (ppp_cuid p) from h.
Proof.
  intros Hp. unfold others_after. rewrite filter_app.
  assert (Hn : forall s l, Forall (fun tx => tx_cuid tx = ppp_cuid p) l ->
    filter (fun tx => from < tx_sseq tx /\ tx_cuid tx <> ppp_cuid p) (stamp_sseq s l) = []).
  { intros s l H. revert s. induction H as [|tx l Ht _ IH]; intros s; [done|].
    cbn [stamp_sseq]. rewrite filter_cons_False; [apply IH|]. simpl. tauto. }
  by rewrite Hn, app_nil_r by by apply accepted_own.
Qed.

(** What a client gets that is registered with the right type and may push. *)
Lemma process_client_push_answer p st rt sv :
  server_wf sv -> push_wf p -> push_small p sv ->
  (ppp_is_readonly p = true -> ppp_transactions p = []) ->
  let cs := cp_cseq (client_cp (ppp_cuid p) sv) in
  let sv' := (push_transactions p sv).2 in
  process_client_push p st rt sv =
  (Ok (ppp_with p (ppp_duid p) st
         (mkCheckPoint (srv_sseq sv') (acked cs (ppp_transactions p)))
         (ppp_safe_sseq p) (others_after (ppp_cuid p) (cp_sseq (ppp_checkpoint p)) (history sv))
         None None),
   sv',
   if rt && negb (bool_decide (accepted cs (ppp_transactions p) = []))
   then calls (notify_pushed (ppp_cuid p) sv') else []).
Proof.
  intros Hwf Hp Hsm Hro cs sv'. unfold process_client_push.
  replace (ppp_is_readonly _ && _) with false; last first.
  { symmetry. simpl. destruct (ppp_is_readonly p); [|done]. simpl.
    by rewrite bool_decide_true by auto. }
  pose proof (push_transactions_eq p sv Hwf Hsm) as Heq. cbv zeta in Heq. fold cs in Heq.
  unfold do_push_transactions, mbind, M_bind, get, mret, M_ret.
  unfold sv'. rewrite Heq. cbn [snd].
  set (sv1 := srv_set_log _ _ _ sv).
  assert (Hoth : others_after (ppp_cuid p) (cp_sseq (ppp_checkpoint p)) (history sv1) =
    others_after (ppp_cuid p) (cp_sseq (ppp_checkpoint p)) (history sv)) by by apply others_after_push.
  unfold pull_transactions, others_after in *. cbn -[filter srv_sseq history notify_pushed] in *.
  rewrite Hoth. destruct (rt && _); cbn -[notify_pushed]; [|done].
  unfold notify_pushed. cbn. by rewrite !app_nil_r.
Qed.

(** C20.  The answer to a synchronization of a registered client: all the
    transactions of the other clients after the client's [sseq], in server
    order, none of its own, and the checkpoint that acknowledges its push; in
    realtime mode, when something was recorded, every other registered client is
    notified of the new [sseq] and the client itself is not. *)
Theorem process_subscribed_answer p rt sv :
  server_wf sv -> push_wf p -> push_small p sv ->
  wired_map sv !! ppp_cuid p <> None -> srv_type sv = ppp_type p ->
  (ppp_is_readonly p = true -> ppp_transactions p = []) ->
  exists pulled sv' w,
    process_subscribed p rt sv = (Ok pulled, sv', w) /\
    sv' = (push_transactions p sv).2 /\
    ppp_error pulled = None /\ ppp_state pulled = Subscribed /\ ppp_duid pulled = ppp_duid p /\
    ppp_transactions pulled =
      others_after (ppp_cuid p) (cp_sseq (ppp_checkpoint p)) (history sv) /\
    ppp_checkpoint pulled = mkCheckPoint (srv_sseq sv') (cp_cseq (client_cp (ppp_cuid p) sv')) /\
    (forall core n, SendNotify core n ∈ w <->
       rt = true /\ srv_sseq sv < srv_sseq sv' /\
       n = Notification_new (ppp_cuid p) (srv_duid sv) (srv_sseq sv') 0 /\
       exists c, c <> ppp_cuid p /\ sender_map sv !! c = Some core).
Proof.
  intros Hwf Hp Hsm Hw Ht Hro. unfold process_subscribed.
  pose proof (process_client_push_answer p Subscribed rt sv Hwf Hp Hsm Hro) as Ha.
  cbv zeta in Ha. do 3 eexists. split.
  { erewrite M_bind_Ok by reflexivity. rewrite bool_decide_false, bool_decide_true by done.
    cbn [negb]. rewrite Ha. reflexivity. }
  pose proof (push_transactions_eq p sv Hwf Hsm) as Heq. cbv zeta in Heq. rewrite Heq. cbn [snd].
  split_and!; try done.
  - rewrite client_cp_insert, decide_True by done. done.
  - intros core n. cbn -[notify_pushed]. set (acc := accepted _ _).
    destruct rt; simpl; [|split; [by intros ?%elem_of_nil|by intros [? _]]].
    destruct (bool_decide (acc = [])) eqn:Hacc; cbn [negb].
    + apply bool_decide_eq_true in Hacc. rewrite Hacc. simpl.
      split; [by intros ?%elem_of_nil|]. intros (_ & ? & _). lia.
    + apply bool_decide_eq_false in Hacc.
      assert (0 < Z.of_nat (length acc)) by (destruct acc; [done|simpl; lia]).
      unfold notify_pushed; simpl. rewrite list_elem_of_omap. split.
      * intros ((c & k) & Hin%elem_of_map_to_list & Hs). case_decide; [done|].
        injection Hs as <- <-. split_and!; [done|lia|done|by exists c].
      * intros (_ & _ & -> & c & Hc & Hk). exists (c, core).
        split; [by apply elem_of_map_to_list|]. by rewrite decide_False.
Qed.

(** Two registered clients; the second synchronizes two transactions. *)
Definition client2 : Cuid := mkUid "client2client200".
Definition two_clients : LocalDatatypeServer := Server_insert_client_item client2 2 example_server.

Lemma two_clients_wf : server_wf two_clients.
Proof. apply insert_client_item_wf, example_server_wf. Qed.

Lemma process_subscribed_answer_witness :
  exists pulled sv' w,
    process_subscribed example_push true two_clients = (Ok pulled, sv', w) /\
    ppp_transactions pulled = [] /\
    SendNotify 2 (Notification_new Uid_new_nil Uid_new_nil 2 0) ∈ w.
Proof.
  destruct (process_subscribed_answer example_push true two_clients two_clients_wf example_push_wf)
    as (pulled & sv' & w & H & Hsv & _ & _ & _ & Ht & _ & Hn); [concrete|concrete|done|done|].
  exists pulled, sv', w. split; [exact H|]. split; [exact Ht|].
  apply Hn. subst sv'. split_and!; [done|concrete|reflexivity|].
  exists client2. by split.
Defined.

(** C26.  An unsubscription always answers [Disabled].  A registered client is
    removed from both tables and nobody else is; its push was processed before;
    if it was the creator and a client remains, the creator becomes one of the
    remaining clients.  For an unregistered client nothing happens. *)
Theorem process_unsubscribing_removes_client fk p rt sv :
  (forall m c, fk m = Some c -> m !! c <> None) ->
  (forall m, fk m = None -> m = ∅) ->
  let c := ppp_cuid p in
  exists pulled sv' w,
    process_unsubscribing fk p rt sv = (Ok pulled, sv', w) /\ ppp_state pulled = Disabled /\
    (wired_map sv !! c = None -> sv' = sv /\ w = []) /\
    (wired_map sv !! c <> None ->
       wired_map sv' = delete c (wired_map sv) /\ sender_map sv' = delete c (sender_map sv) /\
       history sv' = history (final (process_client_push p Disabled rt sv)) /\
       (creator sv <> c -> creator sv' = creator sv) /\
       (creator sv = c -> wired_map sv' <> ∅ -> wired_map sv' !! creator sv' <> None)).
Proof.
  intros Hfk1 Hfk2 c. destruct (decide (wired_map sv !! c = None)) as [Hn|Hn].
  { exists (ppp_set_state Disabled (PushPullPack_get_pulled_stub p)), sv, [].
    unfold process_unsubscribing. erewrite M_bind_Ok by reflexivity.
    by rewrite bool_decide_true. }
  destruct (process_unsubscribing_eq fk p rt sv Hn) as (pulled & w & Hp & He).
  exists pulled, (unsubscribed fk c (final (process_client_push p Disabled rt sv))), w.
  split; [exact He|]. split.
  { unfold process_client_push in Hp. destruct (ppp_is_readonly _ && _).
    - injection Hp as <- _. done.
    - unfold mbind, M_bind, get, mret, M_ret, do_push_transactions in Hp.
      destruct (push_transactions p sv) as [[cseq any] sv1].
      destruct (rt && any); injection Hp as <- _; done. }
  split; [done|]. intros _.
  assert (Hsame : let s := final (process_client_push p Disabled rt sv) in
    wired_map s = wired_map sv /\ sender_map s = sender_map sv /\ creator s = creator sv).
  { destruct (process_client_push_final p Disabled rt sv) as [->| ->]; [done|].
    unfold push_transactions. by destruct (push_loop _ _ _ _ _) as [[[??]?]?]. }
  destruct Hsame as (Hw & Hs & Hc).
  unfold unsubscribed. cbn -[decide final]. rewrite Hc.
  case_decide as Hcr; [destruct (fk _) as [n|] eqn:Hfk|]; simpl; rewrite ?Hw, ?Hs; split_and!; try done.
  - intros _ _. rewrite Hw in Hfk. by apply (Hfk1 _ _ Hfk).
  - intros _ Hne. rewrite Hw in Hfk. by apply Hfk2 in Hfk.
Qed.

Definition first_key_of_list (m : gmap Cuid Z) : option Cuid :=
  match map_to_list m with (c, _) :: _ => Some c | [] => None end.

Lemma first_key_of_list_Some m c : first_key_of_list m = Some c -> m !! c <> None.
Proof.
  unfold first_key_of_list. destruct (map_to_list m) as [|[c' v] l] eqn:Hl; [done|].
  intros [= <-]. assert ((c', v) ∈ map_to_list m) as ->%elem_of_map_to_list by (rewrite Hl; by left).
  done.
Qed.

Lemma first_key_of_list_None m : first_key_of_list m = None -> m = ∅.
Proof.
  unfold first_key_of_list. destruct (map_to_list m) as [|[c' v] l] eqn:Hl; [|done].
  intros _. by apply map_to_list_empty_iff.
Qed.

(** The creator leaves and the other client takes its place. *)
Lemma process_unsubscribing_removes_client_witness :
  exists pulled sv' w,
    process_unsubscribing first_key_of_list example_push false two_clients = (Ok pulled, sv', w) /\
    wired_map sv' = delete Uid_new_nil (wired_map two_clients) /\
    wired_map sv' !! creator sv' <> None.
Proof.
  destruct (process_unsubscribing_removes_client first_key_of_list example_push false two_clients
    first_key_of_list_Some first_key_of_list_None) as (pulled & sv' & w & H & _ & _ & Hr).
  destruct Hr as (Hw & _ & _ & _ & Hc); [done|].
  exists pulled, sv', w. split; [exact H|]. split; [exact Hw|]. apply Hc; [done|].
  rewrite Hw. done.
Defined.

(** The answer to a subscription: refused with [Disabled] when the
    datatype does not exist, has another type, or the client pushes
    transactions; a retryable error that keeps the client's state when the
    creator is gone; otherwise the creator's snapshot at its own [sseq], the
    later transactions of the other clients and the server's identifier.  The
    server itself does not change. *)
Theorem process_subscribing_answer snap p sv :
  exists pulled, process_subscribing snap p sv = (Ok pulled, sv, []) /\
  (created sv = false \/ srv_type sv <> ppp_type p ->
     ppp_state pulled = Disabled /\ exists msg, ppp_error pulled = Some (PP_ResourceNotFound msg)) /\
  (created sv = true -> srv_type sv = ppp_type p -> ppp_transactions p <> [] ->
     ppp_state pulled = Disabled /\ exists msg, ppp_error pulled = Some (PP_ProtocolViolation msg)) /\
  (created sv = true -> srv_type sv = ppp_type p -> ppp_transactions p = [] ->
     ppp_duid pulled = srv_duid sv /\
     (wired_map sv !! creator sv = None ->
        ppp_state pulled = ppp_state p /\
        exists msg, ppp_error pulled = Some (PP_ServerInternalError msg)) /\
     (forall w, wired_map sv !! creator sv = Some w ->
        ppp_state pulled = Subscribed /\ ppp_error pulled = None /\
        ppp_snapshot_transaction pulled = Some (snap w) /\
        ppp_transactions pulled = others_after (ppp_cuid p) (tx_sseq (snap w)) (history sv) /\
        cp_sseq (ppp_checkpoint pulled) = srv_sseq sv)).
Proof.
  unfold process_subscribing. erewrite M_bind_Ok by reflexivity.
  destruct (created sv); cbn [negb].
  2:{ eexists. split; [reflexivity|]. split_and!; try done. intros _. split; [done|by eexists]. }
  destruct (bool_decide (srv_type sv = ppp_type p)) eqn:Ht; cbn [negb].
  2:{ apply bool_decide_eq_false in Ht. eexists. split; [reflexivity|]. split_and!; try done.
      intros _. split; [done|by eexists]. }
  apply bool_decide_eq_true in Ht.
  destruct (bool_decide (ppp_transactions p = [])) eqn:Hx; cbn [negb].
  2:{ apply bool_decide_eq_false in Hx. eexists. split; [reflexivity|].
      split_and!; [by intros [?|?]|by intros; split; [|eexists]|done]. }
  apply bool_decide_eq_true in Hx. unfold get_creator_wired_datatype.
  destruct (wired_map sv !! creator sv) as [w|] eqn:Hw;
    (eexists; split; [reflexivity|]; split; [by intros [?|?]|]; split; [done|]; intros _ _ _).
  - split; [done|]. split; [done|]. intros ? [= <-]. by split_and!.
  - split; [done|]. split; [|done]. intros _. split; [done|by eexists].
Qed.

(** C27.  A creation is refused when another client's datatype exists or the
    client is read-only, and is otherwise accepted, repeated requests included.
    The answer never carries transactions of other clients, but its checkpoint
    is the server's: after a repeated creation (the first answer was lost) the
    transactions that others pushed in between are skipped for good. *)
Theorem process_creating_answer p sv :
  server_wf sv -> push_wf p -> push_small p sv ->
  exists pulled sv', process_creating p sv = (Ok pulled, sv', []) /\
  ppp_transactions pulled = [] /\
  (created sv = true -> srv_duid sv <> ppp_duid p ->
     sv' = sv /\ ppp_state pulled = Disabled /\
     exists msg, ppp_error pulled = Some (PP_CreateFailed msg)) /\
  (created sv = false \/ srv_duid sv = ppp_duid p -> ppp_is_readonly p = true ->
     sv' = sv /\ ppp_state pulled = Disabled /\ ppp_error pulled = Some PP_ReadonlyViolation) /\
  (created sv = false \/ srv_duid sv = ppp_duid p -> ppp_is_readonly p = false ->
     ppp_state pulled = Subscribed /\ ppp_error pulled = None /\ created sv' = true /\
     creator sv' = ppp_cuid p /\ srv_duid sv' = ppp_duid p /\
     ppp_checkpoint pulled = mkCheckPoint (srv_sseq sv') (cp_cseq (client_cp (ppp_cuid p) sv')) /\
     (forall tx, tx ∈ history sv -> tx_cuid tx <> ppp_cuid p ->
        tx ∈ history sv' /\ (tx ∉ ppp_transactions pulled) /\
        tx_sseq tx <= cp_sseq (ppp_checkpoint pulled))).
Proof.
  intros Hwf Hp Hsm. unfold process_creating. erewrite M_bind_Ok by reflexivity.
  destruct (created sv && negb (bool_decide (srv_duid sv = ppp_duid p))) eqn:Hc.
  { apply andb_true_iff in Hc as [Hc Hd]. apply negb_true_iff, bool_decide_eq_false in Hd.
    eexists _, _. split; [reflexivity|]. rewrite Hc.
    split_and!; try done; try (by intros [?|?]). intros _ _. split_and!; [done|done|by eexists]. }
  assert (Hok : created sv = false \/ srv_duid sv = ppp_duid p).
  { destruct (created sv); [right|by left]. by apply negb_false_iff, bool_decide_eq_true in Hc. }
  change (ppp_is_readonly (PushPullPack_get_pulled_stub p)) with (ppp_is_readonly p).
  destruct (ppp_is_readonly p) eqn:Hro.
  { eexists _, _. split; [reflexivity|]. split_and!; try done. intros Hcr Hd.
    destruct Hok; congruence. }
  pose proof (push_transactions_eq p (srv_set_created (ppp_duid p) (ppp_cuid p) sv) Hwf Hsm) as Heq.
  cbv zeta in Heq.
  unfold do_push_transactions, mbind, M_bind, modify, gets, mret, M_ret. rewrite Heq.
  eexists _, _. split; [reflexivity|]. cbn -[client_cp].
  split_and!; try done.
  { intros Hcr Hd. destruct Hok; congruence. }
  intros _ _. split_and!; try done.
  { rewrite client_cp_insert, decide_True by done. done. }
  intros tx Hin _. split_and!.
  - apply elem_of_app. by left.
  - by intros ?%elem_of_nil.
  - destruct Hwf as (H1 & H2 & _).
    assert (tx_sseq tx ∈ (tx_sseq <$> history sv)) as Hs by by apply list_elem_of_fmap_2.
    rewrite H1 in Hs. apply elem_of_seqZ in Hs. lia.
Qed.

(** The client's creation is sent again after client 2 pushed a transaction. *)
Definition server_after_loss : LocalDatatypeServer :=
  let sv := final (process_creating example_push two_clients) in
  final (process_subscribed
    (ppp_set_transactions [Transaction_new client2 1]
       (PushPullPack_new (Attribute_new Uid_new_nil "key" Counter
          (mkClientCommon "col" client2 "alias") DatatypeOption_default false) Subscribed)) false sv).

Lemma server_after_loss_wf : server_wf server_after_loss.
Proof.
  apply process_subscribed_wf; [apply process_creating_wf;
    [apply two_clients_wf|apply example_push_wf|concrete]| |concrete].
  split; by repeat constructor.
Qed.

Lemma process_creating_answer_witness :
  exists pulled sv', process_creating example_push server_after_loss = (Ok pulled, sv', []) /\
    length (history sv') = 3%nat /\ ppp_transactions pulled = [] /\
    ppp_checkpoint pulled = mkCheckPoint 3 2.
Proof.
  destruct (process_creating_answer example_push server_after_loss server_after_loss_wf
    example_push_wf) as (pulled & sv' & H & Ht & _ & _ & _); [concrete|].
  exists pulled, sv'. split; [exact H|]. vm_compute in H.
  injection H as Hp Hs. subst. split_and!; reflexivity.
Defined.

(** C21.  A client that unsubscribes and subscribes again: its transactions stay
    in the history and its acknowledged [cseq] stays in the server's table, while
    the client's own [cseq] restarts at 0.  Its first transactions are therefore
    taken for repeated ones: they are acknowledged as [Subscribed] without error
    and without being recorded. *)
Theorem resubscribed_client_loses_writes fk p0 rt sv core p :
  server_wf sv -> push_wf p0 -> push_small p0 sv -> wired_map sv !! ppp_cuid p0 <> None ->
  ppp_cuid p = ppp_cuid p0 -> ppp_type p = srv_type sv -> ppp_is_readonly p = false ->
  let sv1 := Server_insert_client_item (ppp_cuid p) core
               (final (process_unsubscribing fk p0 rt sv)) in
  push_wf p -> push_small p sv1 ->
  Forall (fun tx => tx_cseq tx <= cp_cseq (client_cp (ppp_cuid p) sv)) (ppp_transactions p) ->
  exists q sv2 w, process_subscribed p rt sv1 = (Ok q, sv2, w) /\
    ppp_error q = None /\ ppp_state q = Subscribed /\ history sv2 = history sv1 /\
    Forall (fun tx => tx_cseq tx <= cp_cseq (ppp_checkpoint q)) (ppp_transactions p).
Proof.
  intros Hwf Hp0 Hsm0 Hw Hc Ht Hro sv1 Hp Hsm Hall.
  pose proof (process_unsubscribing_wf fk p0 rt sv Hwf Hp0 Hsm0) as Hwf1.
  destruct (process_unsubscribing_eq fk p0 rt sv Hw) as (pl & w0 & _ & Hun).
  assert (Hwf' : server_wf sv1) by by apply insert_client_item_wf.
  assert (Hkeep : srv_type sv1 = srv_type sv /\
    cp_cseq (client_cp (ppp_cuid p) sv) <= cp_cseq (client_cp (ppp_cuid p) sv1)).
  { unfold sv1. rewrite Hun. cbn [final fst snd]. unfold client_cp, unsubscribed.
    destruct (process_client_push_final p0 Disabled rt sv) as [-> | ->];
      [|rewrite (push_transactions_eq p0 sv Hwf Hsm0); cbn [snd]];
      (destruct (decide (creator _ = _)); [destruct (fk _)|]); simpl; (split; [done|]); try lia;
      rewrite Hc, lookup_insert_eq; apply acked_ge. }
  destruct Hkeep as [Hty Hle].
  assert (Hnone : Forall (fun tx => tx_cseq tx <= cp_cseq (client_cp (ppp_cuid p) sv1)) (ppp_transactions p)).
  { eapply Forall_impl; [exact Hall|]. simpl. lia. }
  pose proof (process_client_push_answer p Subscribed rt sv1 Hwf' Hp Hsm) as Ha. cbv zeta in Ha.
  unfold process_subscribed. do 3 eexists. split.
  { erewrite M_bind_Ok by reflexivity. rewrite bool_decide_false, bool_decide_true.
    - cbn [negb]. rewrite Ha by congruence. reflexivity.
    - congruence.
    - unfold sv1. simpl. by rewrite lookup_insert_eq. }
  cbn [ppp_error ppp_state ppp_with ppp_checkpoint cp_cseq]. split_and!; [done|done| |].
  - rewrite (push_transactions_eq p sv1 Hwf' Hsm). cbn [snd history srv_set_log].
    rewrite accepted_none by done. simpl. by rewrite app_nil_r.
  - rewrite acked_none by done. done.
Qed.

(** The client pushes transactions 1 and 2, unsubscribes, subscribes again and
    pushes a new transaction 1. *)
Lemma resubscribed_client_loses_writes_witness :
  let sv := (push_transactions example_push two_clients).2 in
  let p := ppp_set_transactions [Transaction_set_tag (Some "new"%string) (Transaction_new Uid_new_nil 1)]
             (PushPullPack_new srv_attribute Subscribed) in
  exists q sv2 w,
    process_subscribed p false (Server_insert_client_item Uid_new_nil 3
      (final (process_unsubscribing first_key_of_list
        (PushPullPack_new srv_attribute Unsubscribing) false sv))) = (Ok q, sv2, w) /\
    ppp_state q = Subscribed /\ length (history sv2) = 2%nat.
Proof.
  intros sv p.
  assert (Hwf : server_wf sv).
  { apply push_transactions_wf; [apply two_clients_wf|apply example_push_wf|concrete]. }
  destruct (resubscribed_client_loses_writes first_key_of_list (PushPullPack_new srv_attribute Unsubscribing)
    false sv 3 p Hwf) as (q & sv2 & w & H & _ & Hst & Hh & _);
    [split; by constructor|concrete|done|done|done|done|split; by repeat constructor|concrete
    |by repeat constructor|].
  exists q, sv2, w. split; [exact H|]. split; [exact Hst|]. rewrite Hh. reflexivity.
Defined.
