(* ===== verification/Connectivity.v ===== *)
(** * Connectivity backends ([src/connectivity])

    The trait [Connectivity] (mod.rs) is the class [ConnectivityOps]; what the
    synchronization protocol relies on is the class [ConnectivityLaws], which
    [LocalConnectivity] (local_connectivity.rs) and [NullConnectivity]
    (null_connectivity.rs) satisfy.

    [LocalConnectivity] shares each server by an [Arc]: [lc_arcs] is the store of
    server objects by address, [datatype_servers] maps resource identifiers to
    addresses.  [register] and [push_pull] take the two locks one after the
    other, so each is composed of two atomic steps that other clients can
    interleave. *)

From Stdlib Require Import Sorting.Sorted.
From S2P Require Import Prelude Types Errors Operations Crdts PushBuffer Pack Handler Mutable PullHandler Server.

(** ** mod.rs: the trait

    The first argument of [conn_push_pull] is [get_subscribe_snapshot] of the
    registered datatypes, by the address of their core. *)
Class ConnectivityOps (C : Type) : Type := {
  conn_register : Attribute -> Z -> C -> C;
  conn_push_pull : (Z -> Transaction) -> PushPullPack -> M C ServerCall ConnectivityError PushPullPack;
  conn_is_realtime : C -> bool;
}.

(** ** local_connectivity.rs *)
Record LocalConnectivity : Type := mkLocalConnectivity {
  lc_arcs : gmap Z LocalDatatypeServer;
  datatype_servers : gmap string Z;
  lc_fresh : Z;                         (* the next address [Arc::new] returns *)
  lc_is_realtime : bool;
}.

Definition LocalConnectivity_new_arc : LocalConnectivity := mkLocalConnectivity ∅ ∅ 0 true.

Definition get_local_datatype_server (resource_id : string) (lc : LocalConnectivity) : option Z :=
  datatype_servers lc !! resource_id.

Definition LocalConnectivity_set_realtime (tf : bool) (lc : LocalConnectivity)
    : LocalConnectivity :=
  mkLocalConnectivity (lc_arcs lc) (datatype_servers lc) (lc_fresh lc) tf.

Definition lc_set_arcs (arcs : gmap Z LocalDatatypeServer) (lc : LocalConnectivity)
    : LocalConnectivity :=
  mkLocalConnectivity arcs (datatype_servers lc) (lc_fresh lc) (lc_is_realtime lc).

(** [entry(resource_id).or_insert_with(..).clone()] under the table's lock. *)
Definition register_entry (attr : Attribute) (lc : LocalConnectivity) : Z * LocalConnectivity :=
  match datatype_servers lc !! Attribute_resource_id attr with
  | Some arc => (arc, lc)
  | None =>
      (lc_fresh lc,
       mkLocalConnectivity (<[lc_fresh lc := Server_new attr]> (lc_arcs lc))
         (<[Attribute_resource_id attr := lc_fresh lc]> (datatype_servers lc))
         (lc_fresh lc + 1) (lc_is_realtime lc))
  end.

(** [server.write().insert_client_item(wired, sender)]. *)
Definition register_client (arc : Z) (cuid : Cuid) (core : Z) (lc : LocalConnectivity)
    : LocalConnectivity :=
  lc_set_arcs (alter (Server_insert_client_item cuid core) arc (lc_arcs lc)) lc.

Definition LocalConnectivity_register (attr : Attribute) (core : Z) (lc : LocalConnectivity)
    : LocalConnectivity :=
  let '(arc, lc) := register_entry attr lc in
  register_client arc (Attribute_get_cuid attr) core lc.

(** The dispatch of [push_pull] on the pushed state. *)
Definition process (first_key : gmap Cuid Z -> option Cuid) (snap : Z -> Transaction)
    (is_realtime : bool) (pushed : PushPullPack) : SM PushPullPack :=
  match ppp_state pushed with
  | Creating => process_creating pushed
  | Subscribing => process_subscribing snap pushed
  | SubscribingOrCreating => process_subscribing_or_creating snap pushed
  | Subscribed => process_subscribed pushed is_realtime
  | Unsubscribing => process_unsubscribing first_key pushed is_realtime
  | Deleting => process_deleting pushed
  | Disabled => process_disabled pushed
  end.

Abbreviation LC := (M LocalConnectivity ServerCall ConnectivityError).

(** The part of [push_pull] under the server's lock. *)
Definition push_pull_process (first_key : gmap Cuid Z -> option Cuid) (snap : Z -> Transaction)
    (arc : Z) (pushed : PushPullPack) : LC (PushPullPack * bool) := fun lc =>
  match lc_arcs lc !! arc with
  | None => (Panic "dangling Arc", lc, [])
  | Some sv =>
      let '(r, sv, w) := process first_key snap (lc_is_realtime lc) pushed sv in
      let lc := lc_set_arcs (<[arc := sv]> (lc_arcs lc)) lc in
      (match r with
       | Ok pulled => Ok (pulled, bool_decide (ppp_state pushed = Unsubscribing) && Server_is_empty sv)
       | Err e => Err e
       | Panic why => Panic why
       | Blocked => Blocked
       end, lc, w)
  end.

(** [if should_remove_server { .. }] under the table's lock. *)
Definition push_pull_remove (resource_id : string) (arc : Z) (should_remove : bool)
    (lc : LocalConnectivity) : LocalConnectivity :=
  if should_remove && bool_decide (datatype_servers lc !! resource_id = Some arc)
  then mkLocalConnectivity (lc_arcs lc) (delete resource_id (datatype_servers lc)) (lc_fresh lc)
         (lc_is_realtime lc)
  else lc.

Definition LocalConnectivity_push_pull (first_key : gmap Cuid Z -> option Cuid)
    (snap : Z -> Transaction) (pushed : PushPullPack) : LC PushPullPack :=
  let resource_id := PushPullPack_resource_id pushed in
  lc ← get;
  match get_local_datatype_server resource_id lc with
  | None => mret (refuse (PP_ResourceNotFound resource_id) (PushPullPack_get_pulled_stub pushed))
  | Some arc =>
      '(pulled, should_remove_server) ← push_pull_process first_key snap arc pushed;
      modify (push_pull_remove resource_id arc should_remove_server) ;;
      mret pulled
  end.

#[export] Instance local_connectivity (first_key : gmap Cuid Z -> option Cuid)
    : ConnectivityOps LocalConnectivity :=
  {| conn_register := LocalConnectivity_register;
     conn_push_pull := LocalConnectivity_push_pull first_key;
     conn_is_realtime := lc_is_realtime |}.

(** ** null_connectivity.rs *)
Inductive NullConnectivity : Type := NullConnectivity_new.

Definition push_transaction (pushed pulled : PushPullPack) : PushPullPack :=
  ppp_set_cp_sseq (cp_cseq (ppp_checkpoint pushed))
    (ppp_set_cp_cseq (cp_cseq (ppp_checkpoint pushed)) pulled).

Definition set_illegal_push_request (pulled : PushPullPack) (reason : string) : PushPullPack :=
  ppp_set_state Disabled (ppp_set_error (PP_ProtocolViolation reason) pulled).

Definition NullConnectivity_push_pull (pushed : PushPullPack)
    : result ConnectivityError PushPullPack :=
  let pulled := PushPullPack_get_pulled_stub pushed in
  match ppp_state pushed with
  | Creating | SubscribingOrCreating =>
      if ppp_is_readonly pushed
      then Ok (ppp_set_state Disabled (ppp_set_error PP_ReadonlyViolation pulled))
      else Ok (push_transaction pushed (ppp_set_state Subscribed pulled))
  | Subscribing =>
      if negb (bool_decide (ppp_transactions pushed = []))
      then Ok (set_illegal_push_request pulled "cannot subscribe with transactions")
      else Ok (ppp_set_state Subscribed pulled)
  | Subscribed => Ok (push_transaction pushed (ppp_set_state Subscribed pulled))
  | Unsubscribing => Ok (push_transaction pushed (ppp_set_state Disabled pulled))
  | Deleting => Panic "not yet implemented"
  | Disabled => Panic "this cannot be happened"
  end.

#[export] Instance null_connectivity : ConnectivityOps NullConnectivity :=
  {| conn_register := fun _ _ c => c;
     conn_push_pull := fun _ pushed => lift (NullConnectivity_push_pull pushed);
     conn_is_realtime := fun _ => true |}.

(** ** The contract of a connectivity

    Of a request in a state that the client can be in during a round: it is
    answered, the answer is addressed like the request, it carries an error or
    the state that the client expects, and a snapshot comes only with a
    subscription. *)
Definition syncing (s : DatatypeState) : Prop := s <> Deleting /\ s <> Disabled.

Definition same_address (p q : PushPullPack) : Prop :=
  ppp_collection q = ppp_collection p /\ ppp_cuid q = ppp_cuid p /\ ppp_key q = ppp_key p /\
  ppp_type q = ppp_type p /\ ppp_is_readonly q = ppp_is_readonly p.

Definition legal_answer (p q : PushPullPack) : Prop :=
  same_address p q /\
  (ppp_error q = None -> expected_state (ppp_state p) = Some (ppp_state q)) /\
  (ppp_state p = Creating \/ ppp_state p = Subscribed -> ppp_duid q = ppp_duid p) /\
  (ppp_snapshot_transaction q <> None ->
     ppp_state p = Subscribing \/ ppp_state p = SubscribingOrCreating).

Class ConnectivityLaws (C : Type) `{ConnectivityOps C} (wf : C -> Prop) : Prop := {
  conn_register_wf : forall attr core c, wf c -> wf (conn_register attr core c);
  conn_push_pull_wf : forall snap p c, wf c -> wf (final (conn_push_pull snap p c));
  conn_answers : forall snap p c, wf c -> syncing (ppp_state p) ->
    exists q, outcome (conn_push_pull snap p c) = Ok q /\ legal_answer p q;
}.

(** Every address in the table refers to a server object. *)
Definition lc_wf (lc : LocalConnectivity) : Prop :=
  (forall rid arc, datatype_servers lc !! rid = Some arc ->
     lc_arcs lc !! arc <> None /\ arc < lc_fresh lc) /\
  (forall arc, lc_arcs lc !! arc <> None -> arc < lc_fresh lc).

(** ** Lemmas: every handler answers legally *)
Lemma refuse_legal e p :
  legal_answer p (refuse e (PushPullPack_get_pulled_stub p)).
Proof. unfold legal_answer, same_address; simpl. split_and!; done. Qed.

Lemma process_creating_legal p sv : ppp_state p = Creating \/ ppp_state p = SubscribingOrCreating ->
  exists q sv' w, process_creating p sv = (Ok q, sv', w) /\ legal_answer p q.
Proof.
  intros Hst. unfold process_creating, mbind, M_bind, get, mret, M_ret, modify, gets, do_push_transactions.
  destruct (created sv && _); [do 3 eexists; split; [reflexivity|apply refuse_legal]|].
  destruct (ppp_is_readonly _); [do 3 eexists; split; [reflexivity|apply refuse_legal]|].
  destruct (push_transactions p _) as [[cseq any] sv1].
  do 3 eexists. split; [reflexivity|]. unfold legal_answer, same_address; simpl. split_and!; try done.
  intros _. by destruct Hst as [-> | ->].
Qed.

Lemma process_client_push_legal p st rt sv : expected_state (ppp_state p) = Some st ->
  exists q sv' w, process_client_push p st rt sv = (Ok q, sv', w) /\ legal_answer p q.
Proof.
  intros Hst. unfold process_client_push, mbind, M_bind, get, mret, M_ret, do_push_transactions.
  destruct (ppp_is_readonly _ && _); [do 3 eexists; split; [reflexivity|apply refuse_legal]|].
  destruct (push_transactions p sv) as [[cseq any] sv1].
  destruct (rt && any); do 3 eexists; (split; [reflexivity|]); unfold legal_answer, same_address;
    simpl; split_and!; done.
Qed.

Lemma process_subscribing_legal snap p sv :
  ppp_state p = Subscribing \/ ppp_state p = SubscribingOrCreating ->
  exists q, process_subscribing snap p sv = (Ok q, sv, []) /\ legal_answer p q.
Proof.
  intros Hst. unfold process_subscribing, mbind, M_bind, get, mret, M_ret.
  repeat (destruct (negb _); [eexists; split; [reflexivity|apply refuse_legal]|]).
  destruct (get_creator_wired_datatype sv); eexists; (split; [reflexivity|]);
    unfold legal_answer, same_address; simpl; split_and!; try done;
    intros; try (by destruct Hst as [-> | ->]).
  all: by destruct Hst as [Hs|Hs]; rewrite Hs in *; destruct_or?.
Qed.

Lemma process_legal fk snap rt p sv : syncing (ppp_state p) ->
  exists q sv' w, process fk snap rt p sv = (Ok q, sv', w) /\ legal_answer p q.
Proof.
  intros [Hd1 Hd2]. unfold process. destruct (ppp_state p) eqn:Hst; try done.
  - apply process_creating_legal. by left.
  - destruct (process_subscribing_legal snap p sv) as (q & -> & Hl); [by left|]. by do 3 eexists.
  - unfold process_subscribing_or_creating. unfold mbind, M_bind, get. destruct (created sv).
    + destruct (process_subscribing_legal snap p sv) as (q & -> & Hl); [by right|]. by do 3 eexists.
    + destruct (process_creating_legal p sv) as (q & sv' & w & -> & Hl); [by right|]. by do 3 eexists.
  - unfold process_subscribed, mbind, M_bind, get, mret, M_ret.
    destruct (bool_decide _); [do 3 eexists; split; [reflexivity|apply refuse_legal]|].
    destruct (negb _); [do 3 eexists; split; [reflexivity|apply refuse_legal]|].
    destruct (process_client_push_legal p Subscribed rt sv) as (q & sv' & w & -> & Hl); [by rewrite Hst|].
    by do 3 eexists.
  - destruct (process_client_push_legal p Disabled rt sv) as (q & sv' & w & Hp & Hl); [by rewrite Hst|].
    destruct (decide (wired_map sv !! ppp_cuid p = None)) as [Hn|Hn].
    + unfold process_unsubscribing, mbind, M_bind, get, mret, M_ret.
      rewrite bool_decide_true by done. do 3 eexists. split; [reflexivity|].
      unfold legal_answer, same_address; simpl. rewrite Hst. split_and!; done.
    + destruct (process_unsubscribing_eq fk p rt sv Hn) as (q' & w' & Hp' & ->).
      rewrite Hp in Hp'. injection Hp' as <- _. by do 3 eexists.
Qed.

(** ** Lemmas: the table of servers *)
Lemma register_entry_wf attr lc : lc_wf lc -> lc_wf (register_entry attr lc).2.
Proof.
  intros [H1 H2]. unfold register_entry. destruct (datatype_servers lc !! _) eqn:Hl; [done|].
  split; simpl.
  - intros rid arc. destruct (decide (rid = Attribute_resource_id attr)) as [->|Hne].
    + rewrite lookup_insert_eq. intros [= <-]. rewrite lookup_insert_eq. split; [done|lia].
    + rewrite lookup_insert_ne by done. intros Hr. destruct (H1 _ _ Hr) as [Ha Hf].
      rewrite lookup_insert_ne by lia. split; [done|lia].
  - intros arc. destruct (decide (arc = lc_fresh lc)) as [->|Hne]; [lia|].
    rewrite lookup_insert_ne by done. intros Ha. specialize (H2 _ Ha). lia.
Qed.

Lemma lc_set_arcs_wf arcs lc :
  (forall arc, arcs !! arc <> None <-> lc_arcs lc !! arc <> None) -> lc_wf lc -> lc_wf (lc_set_arcs arcs lc).
Proof.
  intros Ha [H1 H2]. split; simpl.
  - intros rid arc Hr. rewrite Ha. by apply (H1 rid).
  - intros arc. rewrite Ha. apply H2.
Qed.

Lemma register_client_wf arc cuid core lc : lc_wf lc -> lc_wf (register_client arc cuid core lc).
Proof.
  apply lc_set_arcs_wf. intros a. destruct (decide (a = arc)) as [->|Hne].
  - rewrite lookup_alter_eq. by destruct (lc_arcs lc !! arc).
  - by rewrite lookup_alter_ne.
Qed.

Lemma push_pull_process_wf fk snap arc p lc :
  lc_wf lc -> lc_wf (final (push_pull_process fk snap arc p lc)).
Proof.
  intros Hwf. unfold push_pull_process. destruct (lc_arcs lc !! arc) as [sv|] eqn:Ha; [|done].
  destruct (process _ _ _ _ _) as [[r sv'] w]. simpl. apply lc_set_arcs_wf; [|done].
  intros a. destruct (decide (a = arc)) as [->|Hne].
  - rewrite lookup_insert_eq, Ha. done.
  - by rewrite lookup_insert_ne.
Qed.

Lemma push_pull_remove_wf rid arc b lc : lc_wf lc -> lc_wf (push_pull_remove rid arc b lc).
Proof.
  intros [H1 H2]. unfold push_pull_remove. destruct (b && _); [|done]. split; simpl; [|done].
  intros rid' arc' [_ Hr]%lookup_delete_Some. by apply (H1 rid').
Qed.

Lemma push_pull_process_ok fk snap arc p lc sv : syncing (ppp_state p) ->
  lc_arcs lc !! arc = Some sv ->
  exists q sv' w,
    process fk snap (lc_is_realtime lc) p sv = (Ok q, sv', w) /\ legal_answer p q /\
    push_pull_process fk snap arc p lc =
      (Ok (q, bool_decide (ppp_state p = Unsubscribing) && Server_is_empty sv'),
       lc_set_arcs (<[arc := sv']> (lc_arcs lc)) lc, w).
Proof.
  intros Hs Ha. destruct (process_legal fk snap (lc_is_realtime lc) p sv Hs) as (q & sv' & w & Hp & Hl).
  exists q, sv', w. split; [done|]. split; [done|].
  unfold push_pull_process. by rewrite Ha, Hp.
Qed.

#[export] Instance local_connectivity_laws fk :
  @ConnectivityLaws LocalConnectivity (local_connectivity fk) lc_wf.
Proof.
  constructor; simpl.
  - intros attr core lc Hwf. unfold LocalConnectivity_register.
    pose proof (register_entry_wf attr lc Hwf). destruct (register_entry attr lc) as [arc lc'].
    by apply register_client_wf.
  - intros snap p lc Hwf. unfold LocalConnectivity_push_pull, mbind, M_bind, get, modify, mret, M_ret.
    destruct (get_local_datatype_server _ _) as [arc|]; [|done].
    pose proof (push_pull_process_wf fk snap arc p lc Hwf) as Hw.
    destruct (push_pull_process fk snap arc p lc) as [[[[q b]|e|y|] lc'] w]; simpl in *; try done.
    by apply push_pull_remove_wf.
  - intros snap p lc [H1 H2] Hs.
    unfold LocalConnectivity_push_pull, mbind, M_bind, get, modify, mret, M_ret.
    destruct (get_local_datatype_server _ _) as [arc|] eqn:Hg.
    2:{ eexists. split; [reflexivity|]. apply refuse_legal. }
    destruct (H1 _ _ Hg) as [Ha _]. destruct (lc_arcs lc !! arc) as [sv|] eqn:Hl; [|done].
    destruct (push_pull_process_ok fk snap arc p lc sv Hs Hl) as (q & sv' & w & _ & Hq & ->).
    by exists q.
Qed.

#[export] Instance null_connectivity_laws :
  @ConnectivityLaws NullConnectivity null_connectivity (fun _ => True).
Proof.
  constructor; simpl; try done.
  intros _ p c _ [Hd1 Hd2]. unfold lift, NullConnectivity_push_pull.
  destruct (ppp_state p) eqn:Hst; try done;
    [destruct (ppp_is_readonly p) eqn:Hro|destruct (negb _)|destruct (ppp_is_readonly p) eqn:Hro| |];
    eexists; (split; [reflexivity|]); unfold legal_answer, same_address; simpl; rewrite ?Hst;
    split_and!; done.
Qed.

Lemma unsubscribed_wired fk c sv :
  wired_map (unsubscribed fk c sv) = delete c (wired_map sv).
Proof.
  unfold unsubscribed. destruct (decide _); [|done]. by destruct (fk _).
Qed.

Lemma delete_only (m : gmap Cuid Z) c : dom m = {[ c ]} -> delete c m = ∅.
Proof.
  intros Hd. apply map_eq. intros i. rewrite lookup_empty.
  destruct (decide (i = c)) as [->|Hne]; [apply lookup_delete_eq|].
  rewrite lookup_delete_ne by done. apply not_elem_of_dom. rewrite Hd.
  by rewrite elem_of_singleton.
Qed.

(** ** Properties *)

(** [LocalConnectivity::push_pull]: a request for an unknown resource is
    refused with [ResourceNotFound]; any other is answered by the server of its
    resource and by no other, under its current realtime flag; the server is
    taken out of the table exactly when the request was an unsubscription that
    left it without clients, and then the next registration of the resource
    starts from an empty server. *)
Theorem local_push_pull_routes_to_server fk snap p lc :
  lc_wf lc -> syncing (ppp_state p) ->
  let rid := PushPullPack_resource_id p in
  (datatype_servers lc !! rid = None ->
     LocalConnectivity_push_pull fk snap p lc =
       (Ok (refuse (PP_ResourceNotFound rid) (PushPullPack_get_pulled_stub p)), lc, [])) /\
  (forall arc sv, datatype_servers lc !! rid = Some arc -> lc_arcs lc !! arc = Some sv ->
   exists q sv' w lc',
     process fk snap (lc_is_realtime lc) p sv = (Ok q, sv', w) /\
     LocalConnectivity_push_pull fk snap p lc = (Ok q, lc', w) /\
     lc_arcs lc' = <[arc := sv']> (lc_arcs lc) /\
     (ppp_state p = Unsubscribing /\ wired_map sv' = ∅ ->
        datatype_servers lc' = delete rid (datatype_servers lc) /\
        forall attr core, Attribute_resource_id attr = rid ->
          exists arc', datatype_servers (LocalConnectivity_register attr core lc') !! rid = Some arc' /\
            lc_arcs (LocalConnectivity_register attr core lc') !! arc' =
              Some (Server_insert_client_item (Attribute_get_cuid attr) core (Server_new attr))) /\
     (~ (ppp_state p = Unsubscribing /\ wired_map sv' = ∅) ->
        datatype_servers lc' = datatype_servers lc)).
Proof.
  intros Hwf Hs rid. unfold LocalConnectivity_push_pull, get_local_datatype_server. fold rid. split.
  { intros Hn. erewrite M_bind_Ok by reflexivity. by rewrite Hn. }
  intros arc sv Hr Ha.
  destruct (push_pull_process_ok fk snap arc p lc sv Hs Ha) as (q & sv' & w & Hp & _ & Hpp).
  exists q, sv', w. eexists. split; [done|]. split.
  { erewrite M_bind_Ok by reflexivity. rewrite Hr. erewrite M_bind_Ok by exact Hpp.
    unfold mbind, M_bind, modify, mret, M_ret. by rewrite app_nil_r. }
  unfold push_pull_remove. cbn [datatype_servers lc_set_arcs lc_arcs]. rewrite Hr.
  rewrite (bool_decide_true (Some arc = Some arc)) by done. rewrite andb_true_r.
  unfold Server_is_empty. split_and!.
  - by destruct (_ && _).
  - intros [Hu He]. rewrite !bool_decide_true by done. simpl. split; [done|].
    intros attr core Hat. unfold LocalConnectivity_register, register_entry. simpl. rewrite Hat.
    rewrite lookup_delete_eq. simpl. exists (lc_fresh lc). rewrite lookup_insert_eq. split; [done|].
    by rewrite lookup_alter_eq, lookup_insert_eq.
  - intros Hne. destruct (bool_decide _) eqn:H1; [|done]. destruct (bool_decide (wired_map sv' = ∅)) eqn:H2; [|done].
    apply bool_decide_eq_true in H1, H2. tauto.
Qed.

Definition lc_attribute (cuid : Cuid) : Attribute :=
  Attribute_new cuid "key" Counter (mkClientCommon "col" cuid "alias") DatatypeOption_default false.

(** One registered client; it unsubscribes. *)
Definition example_lc : LocalConnectivity :=
  LocalConnectivity_register (lc_attribute Uid_new_nil) 1 LocalConnectivity_new_arc.

Definition example_unsubscribe : PushPullPack :=
  PushPullPack_new (lc_attribute Uid_new_nil) Unsubscribing.

Lemma example_lc_wf : lc_wf example_lc.
Proof.
  apply (@conn_register_wf _ _ _ (local_connectivity_laws first_key_of_list)).
  split; intros; set_solver.
Qed.

Definition no_snapshot (core : Z) : Transaction := Transaction_default.

Lemma local_push_pull_routes_to_server_witness :
  exists q lc', LocalConnectivity_push_pull first_key_of_list no_snapshot example_unsubscribe example_lc
      = (Ok q, lc', []) /\
    datatype_servers lc' = delete (PushPullPack_resource_id example_unsubscribe)
                             (datatype_servers example_lc).
Proof.
  destruct (local_push_pull_routes_to_server first_key_of_list no_snapshot example_unsubscribe example_lc
    example_lc_wf) as [_ H]; [by split|].
  destruct (H 0 (Server_insert_client_item Uid_new_nil 1 (Server_new (lc_attribute Uid_new_nil))))
    as (q & sv' & w & lc' & Hp & Hpp & _ & Hrm & _); [reflexivity|reflexivity|].
  vm_compute in Hp. injection Hp as _ Hsv Hw.
  exists q, lc'. subst w. split; [exact Hpp|].
  apply Hrm. split; [reflexivity|]. by subst sv'.
Defined.

(** C28.  The two locks of [push_pull] are not held together: a client that
    registers between the last unsubscription and the removal of the server is
    registered with a server that leaves the table, and all its requests are
    then refused with [ResourceNotFound], which disables it. *)
Theorem registration_race_loses_client fk snap p lc arc sv attr core :
  lc_wf lc -> ppp_state p = Unsubscribing ->
  let rid := PushPullPack_resource_id p in
  datatype_servers lc !! rid = Some arc -> lc_arcs lc !! arc = Some sv ->
  dom (wired_map sv) = {[ ppp_cuid p ]} ->
  Attribute_resource_id attr = rid ->
  exists q lc1 w,
    push_pull_process fk snap arc p lc = (Ok (q, true), lc1, w) /\
    let lc2 := LocalConnectivity_register attr core lc1 in
    let lc3 := push_pull_remove rid arc true lc2 in
    (exists sv2, lc_arcs lc2 !! arc = Some sv2 /\
       wired_map sv2 !! Attribute_get_cuid attr = Some core) /\
    forall state, LocalConnectivity_push_pull fk snap (PushPullPack_new attr state) lc3 =
      (Ok (refuse (PP_ResourceNotFound rid)
             (PushPullPack_get_pulled_stub (PushPullPack_new attr state))), lc3, []).
Proof.
  intros Hwf Hst rid Hr Ha Hdom Hat.
  destruct (push_pull_process_ok fk snap arc p lc sv) as (q & sv' & w & Hp & _ & Hpp);
    [rewrite Hst; by split|done|].
  assert (Hin : wired_map sv !! ppp_cuid p <> None).
  { apply not_eq_None_Some, elem_of_dom. rewrite Hdom. by apply elem_of_singleton. }
  assert (He : wired_map sv' = ∅).
  { unfold process in Hp. rewrite Hst in Hp.
    destruct (process_unsubscribing_eq fk p (lc_is_realtime lc) sv Hin) as (q' & w' & Hp' & He).
    rewrite Hp in He. injection He as _ -> _.
    assert (Hw : wired_map (final (process_client_push p Disabled (lc_is_realtime lc) sv)) = wired_map sv).
    { destruct (process_client_push_final p Disabled (lc_is_realtime lc) sv) as [->| ->]; [done|].
      unfold push_transactions. by destruct (push_loop _ _ _ _ _) as [[[??]?]?]. }
    rewrite unsubscribed_wired, Hw. by apply delete_only. }
  exists q. eexists. exists w. split.
  { rewrite Hpp, Hst. unfold Server_is_empty. rewrite !bool_decide_true by done. reflexivity. }
  cbv zeta. unfold LocalConnectivity_register, register_entry. cbn [datatype_servers lc_set_arcs].
  rewrite Hat, Hr. split.
  - eexists. simpl. rewrite lookup_alter_eq, lookup_insert_eq. split; [reflexivity|].
    simpl. by rewrite lookup_insert_eq.
  - intros state. unfold LocalConnectivity_push_pull, get_local_datatype_server, push_pull_remove.
    erewrite M_bind_Ok by reflexivity. rewrite resource_id_of_attr, Hat.
    cbn [datatype_servers register_client lc_set_arcs]. rewrite Hr, bool_decide_true by done.
    cbn [andb datatype_servers]. by rewrite lookup_delete_eq.
Qed.

Lemma registration_race_loses_client_witness :
  exists q lc1 w,
    push_pull_process first_key_of_list no_snapshot 0 example_unsubscribe example_lc
      = (Ok (q, true), lc1, w) /\
    let lc2 := LocalConnectivity_register (lc_attribute client2) 2 lc1 in
    exists q2, outcome (LocalConnectivity_push_pull first_key_of_list no_snapshot
      (PushPullPack_new (lc_attribute client2) Creating)
      (push_pull_remove "col/key" 0 true lc2)) = Ok q2 /\ ppp_state q2 = Disabled.
Proof.
  destruct (registration_race_loses_client first_key_of_list no_snapshot example_unsubscribe example_lc
    0 (Server_insert_client_item Uid_new_nil 1 (Server_new (lc_attribute Uid_new_nil)))
    (lc_attribute client2) 2 example_lc_wf) as (q & lc1 & w & H1 & _ & H2);
    [reflexivity|reflexivity|reflexivity|vm_compute; reflexivity|reflexivity|].
  exists q, lc1, w. split; [exact H1|]. cbv zeta.
  eexists. split; [|]; cycle 1.
  2:{ pose proof (H2 Creating) as H. cbv zeta in H.
      change (PushPullPack_resource_id example_unsubscribe) with "col/key"%string in H.
      rewrite H. reflexivity. }
  reflexivity.
Defined.
