(* ===== verification/Wired.v ===== *)
(** * The wired part of a datatype ([src/datatypes/wired.rs])

    [WiredDatatype] connects a datatype core with its connectivity.  A [World]
    holds the datatype cores by address, because a connectivity reads the
    creator's core when another client subscribes, and the connectivity.  A
    synchronization round takes the core's lock twice, so [do_push_pull] is the
    composition of three steps between which other threads may run.
    [Interceptor] has the round of a build for tests. *)

From Stdlib Require Import Sorting.Sorted.
From S2P Require Import Prelude Types Errors Operations Crdts PushBuffer Pack Handler Mutable PullHandler Server Connectivity.

(** ** [impl MutableDatatype] *)
Definition create_push_pull_pack : MM DatatypeError PushPullPack := fun m =>
  let ppp := PushPullPack_new (m_attr m) (m_state m) in
  match get_pushing_transactions (u64_add (cp_cseq (m_checkpoint m)) 1)
          DEFAULT_MAX_TRANSMISSION_SIZE (m_push_buffer m) with
  | Ok (transactions, _tx_size) =>
      let ppp := ppp_set_transactions transactions ppp in
      (Ok (PushPullPack_checkpointing (m_checkpoint m) 0 ppp), m, [])
  | Err e => (Err e, m, [])
  | Panic why => (Panic why, m, [])
  | Blocked => (Blocked, m, [])
  end.

Definition need_push (m : MutableDatatype) : bool :=
  bool_decide (m_state m = Creating)
  || bool_decide (m_state m = Subscribing)
  || bool_decide (m_state m = SubscribingOrCreating)
  || bool_decide (m_state m = Unsubscribing)
  || (cp_cseq (m_checkpoint m) <? last_cseq (m_push_buffer m)).

(** [get_subscribe_snapshot] of a core; [now] is [SystemTime::now()]. *)
Definition get_subscribe_snapshot (now : Z) (m : MutableDatatype) : Transaction :=
  let snap_op := Mutable_new_snapshot_operation now m in
  let tx := Transaction_new_with_cuid (Attribute_get_cuid (m_attr m)) in
  Transaction_set_sseq (cp_sseq (m_checkpoint m)) (Transaction_push_operation snap_op tx).

Definition handle_notification (notify : Notification) (m : MutableDatatype) : bool :=
  if negb (bool_decide (Attribute_get_duid (m_attr m) = nt_duid notify)) then false
  else if bool_decide (Attribute_get_cuid (m_attr m) = nt_cuid notify) then false
  else if nt_sseq notify <=? cp_sseq (m_checkpoint m) then false
  else true.

Definition handle_error (err : DatatypeError) (recovery : RecoveryAction) : MM DatatypeError unit :=
  Mutable_apply_action recovery ;; Mutable_call_error_handler err.

(** ** The world of a wired datatype *)
Record World (C : Type) : Type := mkWorld {
  w_cores : gmap Z MutableDatatype;
  w_conn : C;
}.
Arguments mkWorld {C} w_cores w_conn.
Arguments w_cores {C} w.
Arguments w_conn {C} w.

Inductive WorldCall : Type :=
| CoreCall (core : Z) (c : MutableCall)
| ConnCall (c : ServerCall)
| EmitSync (core : Z) (success : bool).

Section wired.
Context {C : Type} `{ConnectivityOps C}.

Abbreviation WM := (M (World C) WorldCall).

(** A call on [self.mutable] of a core under its write lock. *)
Definition on_core {E A} (core : Z) (f : MM E A) : WM E A := fun w =>
  match w_cores w !! core with
  | None => (Panic "dangling Arc", w, [])
  | Some m =>
      let '(r, m, calls) := f m in
      (r, mkWorld (<[core := m]> (w_cores w)) (w_conn w), CoreCall core <$> calls)
  end.

(** The snapshots that the connectivity can ask for. *)
Definition snapshots (now : Z) (w : World C) (core : Z) : Transaction :=
  match w_cores w !! core with
  | Some m => get_subscribe_snapshot now m
  | None => Transaction_default
  end.

Definition call_push_pull (now : Z) (pushing : PushPullPack)
    : WM DatatypeErrorWithAction PushPullPack := fun w =>
  let '(r, conn, calls) := conn_push_pull (snapshots now w) pushing (w_conn w) in
  (match r with
   | Ok pulled => Ok pulled
   | Err e => routed (DatatypeError_mapping (ConnectivityError_to_datatype_error e))
   | Panic why => Panic why
   | Blocked => Blocked
   end, mkWorld (w_cores w) conn, ConnCall <$> calls).

Definition do_push_pull (now core : Z) : WM DatatypeErrorWithAction unit :=
  pushing ← on_core core (with_mapping create_push_pull_pack);
  pulled ← call_push_pull now pushing;
  on_core core (apply_pulled pulled).

Definition Wired_push_pull (now core : Z) : WM DatatypeErrorWithAction unit :=
  result ← attempt (do_push_pull now core);
  emit [EmitSync core (is_ok result)] ;;
  lift result.

Definition push_if_needed (core : Z) (w : World C) : bool :=
  match w_cores w !! core with
  | Some m => if negb (conn_is_realtime (w_conn w)) || negb (need_push m) then false else true
  | None => false
  end.
End wired.

(** ** Lemmas *)
Lemma create_push_pull_pack_final m : final (create_push_pull_pack m) = m.
Proof. unfold create_push_pull_pack. by destruct (get_pushing_transactions _ _ _) as [[]| | |]. Qed.

Lemma handle_error_wf e r : preserves mutable_wf (handle_error e r).
Proof.
  apply preserves_bind; [apply apply_action_wf|intros; apply call_error_handler_wf].
Qed.

Lemma with_mapping_final {S W A} (f : M S W DatatypeError A) s : final (with_mapping f s) = final (f s).
Proof. unfold with_mapping. by destruct (f s) as [[??]?]. Qed.

(** The stages of a round, when the pack is created and the request answered. *)
Lemma do_push_pull_eq {C} `{ConnectivityOps C} now core (w : World C) m pushing q conn calls :
  w_cores w !! core = Some m ->
  create_push_pull_pack m = (Ok pushing, m, []) ->
  conn_push_pull (snapshots now w) pushing (w_conn w) = (Ok q, conn, calls) ->
  do_push_pull now core w =
    (let '(r, m', mc) := apply_pulled q m in
     (r, mkWorld (<[core := m']> (w_cores w)) conn, (ConnCall <$> calls) ++ (CoreCall core <$> mc))).
Proof.
  intros Hm Hp Hq. unfold do_push_pull.
  assert (Hw : mkWorld (<[core := m]> (w_cores w)) (w_conn w) = w).
  { destruct w; simpl in *. by rewrite insert_id. }
  erewrite M_bind_Ok; last first.
  { unfold on_core. rewrite Hm. unfold with_mapping. rewrite Hp. simpl. rewrite Hw. reflexivity. }
  erewrite M_bind_Ok; last first.
  { unfold call_push_pull. rewrite Hq. reflexivity. }
  unfold on_core. cbn [w_cores w_conn]. rewrite Hm.
  destruct (apply_pulled q m) as [[r m'] mc]. by destruct r.
Qed.

(** ** Properties *)

(** A notification makes a datatype synchronize exactly when it concerns
    its current identifier, comes from another client and announces a server
    sequence the datatype has not reached; a datatype pushes on its own exactly
    when it is realtime and is being created, subscribed or unsubscribed or has a
    committed transaction that is not acknowledged. *)
Theorem notification_and_push_conditions {C} `{ConnectivityOps C} core (w : World C) m notify :
  w_cores w !! core = Some m ->
  (handle_notification notify m = true <->
     nt_duid notify = Attribute_get_duid (m_attr m) /\ nt_cuid notify <> Attribute_get_cuid (m_attr m) /\
     cp_sseq (m_checkpoint m) < nt_sseq notify) /\
  (push_if_needed core w = true <->
     conn_is_realtime (w_conn w) = true /\
     (m_state m = Creating \/ m_state m = Subscribing \/ m_state m = SubscribingOrCreating \/
      m_state m = Unsubscribing \/ cp_cseq (m_checkpoint m) < last_cseq (m_push_buffer m))).
Proof.
  intros Hm. split.
  - unfold handle_notification.
    destruct (bool_decide (_ = nt_duid notify)) eqn:H1; cbn [negb];
      [apply bool_decide_eq_true in H1|apply bool_decide_eq_false in H1; split; [done|intros [Heq _]; congruence]].
    destruct (bool_decide (_ = nt_cuid notify)) eqn:H2;
      [apply bool_decide_eq_true in H2; split; [done|by intros (_ & ? & _)]|apply bool_decide_eq_false in H2].
    destruct (Z.leb_spec (nt_sseq notify) (cp_sseq (m_checkpoint m))).
    + split; [done|]. intros (_ & _ & ?). lia.
    + split; [|done]. intros _. split_and!; [done|congruence|done].
  - unfold push_if_needed, need_push. rewrite Hm.
    destruct (conn_is_realtime (w_conn w)); cbn [negb orb]; [|split; [done|by intros [? _]]].
    destruct (Z.ltb_spec (cp_cseq (m_checkpoint m)) (last_cseq (m_push_buffer m))) as [Hl|Hl];
      destruct (m_state m); cbn; split; intros Hx; try done; try (split; [done|]); auto 6;
      destruct Hx as [_ Hx]; destruct_or!; done || lia.
Qed.

(** The example datatype ignores its own notification and follows another's. *)
Lemma notification_and_push_conditions_witness :
  push_if_needed 1 (mkWorld {[ 1 := example_mutable ]} NullConnectivity_new) = true /\
  handle_notification (Notification_new client2 Uid_new_nil 3 0) example_mutable = true.
Proof.
  destruct (notification_and_push_conditions 1 (mkWorld {[ 1 := example_mutable ]} NullConnectivity_new)
    example_mutable (Notification_new client2 Uid_new_nil 3 0)) as [H1 H2]; [reflexivity|].
  split; [apply H2; by split; [|left]|apply H1; split_and!; [done|done|concrete]].
Defined.
