(* ===== verification/Interceptor.v ===== *)
(** * The interceptor of a round ([src/datatypes/wired_interceptor.rs])

    A build for tests gives each wired datatype two closures, which a round runs
    on the pack it is about to push and on the pack it has pulled.  A closure is
    an [Fn] that may count in an atomic it captured: [wi_cell].  Without closures
    set, the round with the interceptor is the round of [Wired]. *)

From S2P Require Import Prelude Types Errors Operations Crdts PushBuffer Pack Handler Mutable PullHandler Server Connectivity Wired.

Definition BeforePushFn : Type := Z -> PushPullPack -> PushPullPack * Z.
Definition AfterPullFn : Type :=
  Z -> PushPullPack -> result DatatypeErrorWithAction unit * PushPullPack * Z.

Record WiredInterceptor : Type := mkWiredInterceptor {
  wi_before_push : BeforePushFn;
  wi_after_pull : AfterPullFn;
  wi_cell : Z;
}.

Definition WiredInterceptor_new_arc : WiredInterceptor :=
  mkWiredInterceptor (fun cell push => (push, cell)) (fun cell pull => (Ok tt, pull, cell)) 0.

Definition set_before_push (f : BeforePushFn) (i : WiredInterceptor) : WiredInterceptor :=
  mkWiredInterceptor f (wi_after_pull i) (wi_cell i).
Definition set_after_pull (f : AfterPullFn) (i : WiredInterceptor) : WiredInterceptor :=
  mkWiredInterceptor (wi_before_push i) f (wi_cell i).
Definition wi_set_cell (cell : Z) (i : WiredInterceptor) : WiredInterceptor :=
  mkWiredInterceptor (wi_before_push i) (wi_after_pull i) cell.

(** What a round works on in a test build. *)
Record Hooked (C : Type) : Type := mkHooked { hk_world : World C; hk_interceptor : WiredInterceptor }.
Arguments mkHooked {C} hk_world hk_interceptor.
Arguments hk_world {C} h.
Arguments hk_interceptor {C} h.

Section interceptor.
Context {C : Type} `{ConnectivityOps C}.

Abbreviation HM := (M (Hooked C) WorldCall).

Definition before_push (push : PushPullPack) : HM DatatypeErrorWithAction PushPullPack := fun h =>
  let i := hk_interceptor h in
  let '(push, cell) := wi_before_push i (wi_cell i) push in
  (Ok push, mkHooked (hk_world h) (wi_set_cell cell i), []).

Definition after_pull (pull : PushPullPack) : HM DatatypeErrorWithAction PushPullPack := fun h =>
  let i := hk_interceptor h in
  let '(r, pull, cell) := wi_after_pull i (wi_cell i) pull in
  (_ ← r; Ok pull, mkHooked (hk_world h) (wi_set_cell cell i), []).

Definition on_world {E A} (f : M (World C) WorldCall E A) : HM E A := fun h =>
  let '(r, w, calls) := f (hk_world h) in (r, mkHooked w (hk_interceptor h), calls).

(** [do_push_pull] and [push_pull] of a test build. *)
Definition do_push_pull_hooked (now core : Z) : HM DatatypeErrorWithAction unit :=
  pushing ← on_world (on_core core (with_mapping create_push_pull_pack));
  pushing ← before_push pushing;
  pulled ← on_world (call_push_pull now pushing);
  pulled ← after_pull pulled;
  on_world (on_core core (apply_pulled pulled)).

Definition Wired_push_pull_hooked (now core : Z) : HM DatatypeErrorWithAction unit :=
  result ← attempt (do_push_pull_hooked now core);
  emit [EmitSync core (is_ok result)] ;;
  lift result.

(** ** Lemmas *)

(** Without closures the hooks do nothing: the round is the one of a build
    without them. *)
Lemma default_interceptor_is_transparent now core w :
  Wired_push_pull_hooked now core (mkHooked w WiredInterceptor_new_arc) =
  on_world (Wired_push_pull now core) (mkHooked w WiredInterceptor_new_arc).
Proof.
  assert (Hd : do_push_pull_hooked now core (mkHooked w WiredInterceptor_new_arc) =
    on_world (do_push_pull now core) (mkHooked w WiredInterceptor_new_arc)).
  { unfold do_push_pull_hooked, do_push_pull, before_push, after_pull, on_world, mbind, M_bind,
      result_bind, WiredInterceptor_new_arc, wi_set_cell.
    cbn [hk_world hk_interceptor wi_before_push wi_after_pull wi_cell].
    destruct (on_core core _ w) as [[[pushing|e|why|] w1] c1]; try done.
    cbn [hk_world hk_interceptor wi_before_push wi_after_pull wi_cell].
    destruct (call_push_pull now pushing w1) as [[[pulled|e|why|] w2] c2]; try done.
    cbn [hk_world hk_interceptor wi_before_push wi_after_pull wi_cell].
    by destruct (on_core core _ w2) as [[r3 w3] c3]. }
  unfold Wired_push_pull_hooked, Wired_push_pull, attempt, on_world, mbind, M_bind in *.
  cbn [hk_world hk_interceptor] in *. rewrite Hd.
  by destruct (do_push_pull now core w) as [[[[]|e|why|] w'] calls].
Qed.
End interceptor.
