(* ===== verification/EventLoop.v ===== *)
(** * The event loop of a datatype ([src/datatypes/event_loop.rs])

    Each datatype has a thread that receives events from a bounded and an
    unbounded channel and synchronizes.  The channels ([crossbeam_channel]) are
    the class [Channel]: first in first out, a full channel refuses [try_send],
    and receiving from an empty channel is impossible until it is disconnected.
    The wired datatype that the loop drives is the class [WiredPort], with an
    instance for the worlds of [Wired]; the exponential backoff ([backon]) is an
    iterator with the operations [build] and [next].

    [select!] takes any ready branch, so [receive_event] gets the branch as an
    argument and is [None] where that branch is not ready. *)

From S2P Require Import Prelude Types Errors Operations Crdts PushBuffer Pack Handler Mutable PullHandler Server Connectivity Wired.

Definition BACKOFF_MIN_DELAY : Z := 500.              (* milliseconds *)
Definition BACKOFF_MAX_DELAY : Z := 30 * 1000.
Definition DEFAULT_EVENT_LOOP_TIMEOUT_MS : Z := 100.

Inductive LoopMode : Type := Normal | BackOffMode | Stopped.

#[export] Instance LoopMode_eq_dec : EqDecision LoopMode.
Proof. solve_decision. Defined.

(** [From<RecoveryAction> for LoopMode]; the [debug_assert] is not compiled. *)
Definition LoopMode_from (r : RecoveryAction) : LoopMode :=
  match r with
  | NotifyOnly | Resubscribe => Normal
  | RetryWithBackOff | ResubscribeWithBackOff => BackOffMode
  | Disable => Stopped
  | RollbackTransaction => Normal
  end.

(** A one-shot sender is known by an identifier. *)
Inductive Event : Type :=
| Stop (tx : Z)
| PushTransaction (resp_tx : option Z)
| BackOff
| Notify (n : Notification).

Definition Event_to_string (e : Event) : string :=
  match e with
  | Stop _ => "Stop"
  | PushTransaction _ => "PushTransaction"
  | BackOff => "BackOff"
  | Notify _ => "Notify"
  end.

(** ** Channels *)
Inductive RecvResult (Q : Type) : Type :=
| Received (e : Event) (q : Q)
| Empty
| Disconnected.
Arguments Received {Q} e q.
Arguments Empty {Q}.
Arguments Disconnected {Q}.

Class Channel (Q : Type) : Type := {
  q_contents : Q -> list Event;
  q_full : Q -> bool;
  q_try_send : Event -> Q -> result DatatypeError unit * Q;
  q_recv : Q -> RecvResult Q;
  q_recv_nonempty : forall q e es, q_contents q = e :: es ->
    exists q', q_recv q = Received e q' /\ q_contents q' = es;
  q_recv_empty : forall q e q', q_recv q = Received e q' -> q_contents q = e :: q_contents q';
  q_send_room : forall q e, q_full q = false ->
    exists q', q_try_send e q = (Ok tt, q') /\ q_contents q' = q_contents q ++ [e];
  q_send_full : forall q e, q_full q = true -> exists err, q_try_send e q = (Err err, q);
  (* some sender is alive *)
  q_connected : Q -> bool;
  q_recv_connected : forall q, q_connected q = true -> q_recv q <> Disconnected;
  q_recv_keeps : forall q e q', q_recv q = Received e q' -> q_connected q' = q_connected q;
  q_send_keeps : forall q e, q_connected (q_try_send e q).2 = q_connected q;
}.

(** ** The wired datatype as the loop sees it *)
Class WiredPort (S : Type) : Type := {
  wp_push_if_needed : S -> bool;
  wp_push_pull : S -> result DatatypeErrorWithAction unit * S;
  wp_handle_error : DatatypeError -> RecoveryAction -> S -> S;
  wp_handle_notification : Notification -> S -> bool;
}.

(** What the loop sends to others. *)
Inductive LoopOut : Type :=
| StopAck (tx : Z)
| Respond (tx : Z) (err : option DatatypeError)
| EmitBackoff.

Inductive LoopStatus : Type := Running | Finished | Unwinding (why : string) | Hung.

(** The ready branch that [select!] takes. *)
Inductive Branch : Type := RecvUnbounded | RecvBounded | DefaultTimeout.

Section loop.
Context {S Q B : Type} `{WiredPort S} `{Channel Q}.
Context (build : B) (next : B -> option Z * B).

Record LoopState : Type := mkLoopState {
  ls_wired : S;
  ls_bounded : Q;
  ls_unbounded : Q;
  ls_mode : LoopMode;
  ls_backoff : option B;
  ls_status : LoopStatus;
}.

Definition ls_set_wired (x : S) (s : LoopState) : LoopState :=
  mkLoopState x (ls_bounded s) (ls_unbounded s) (ls_mode s) (ls_backoff s) (ls_status s).
Definition ls_set_bounded (x : Q) (s : LoopState) : LoopState :=
  mkLoopState (ls_wired s) x (ls_unbounded s) (ls_mode s) (ls_backoff s) (ls_status s).
Definition ls_set_unbounded (x : Q) (s : LoopState) : LoopState :=
  mkLoopState (ls_wired s) (ls_bounded s) x (ls_mode s) (ls_backoff s) (ls_status s).
Definition ls_set_mode (x : LoopMode) (s : LoopState) : LoopState :=
  mkLoopState (ls_wired s) (ls_bounded s) (ls_unbounded s) x (ls_backoff s) (ls_status s).
Definition ls_set_backoff (x : option B) (s : LoopState) : LoopState :=
  mkLoopState (ls_wired s) (ls_bounded s) (ls_unbounded s) (ls_mode s) x (ls_status s).
Definition ls_set_status (x : LoopStatus) (s : LoopState) : LoopState :=
  mkLoopState (ls_wired s) (ls_bounded s) (ls_unbounded s) (ls_mode s) (ls_backoff s) x.

(** [EventLoop::new_arc] and the start of [run]. *)
Definition EventLoop_start (wired : S) (bounded unbounded : Q) : LoopState :=
  mkLoopState wired bounded unbounded Normal None Running.

Definition channel_error (ch : string) : DatatypeError :=
  InternalReason_into_error (EventLoop_ (ch +:+ " channel error RecvError; stopping event loop")).

(** [recv(rx) -> event => event.map_err(..)]; [None] when the branch is not ready. *)
Definition recv_branch (ch : string) (q : Q) (set : Q -> LoopState -> LoopState) (s : LoopState)
    : option (result DatatypeError Event * LoopState) :=
  match q_recv q with
  | Received e q' => Some (Ok e, set q' s)
  | Empty => None
  | Disconnected => Some (Err (channel_error ch), s)
  end.

(** The mode's first match: whether to push, the delay, and the iterator. *)
Definition receive_mode (s : LoopState) : bool * option Z * LoopState :=
  match ls_mode s with
  | Normal => (true, None, s)
  | Stopped => (false, None, s)
  | BackOffMode =>
      let backoff_iter := match ls_backoff s with Some b => b | None => build end in
      let '(d, backoff_iter) := next backoff_iter in
      (false, Some (default BACKOFF_MAX_DELAY d), ls_set_backoff (Some backoff_iter) s)
  end.

Definition receive_event (branch : Branch) (s : LoopState)
    : option (result DatatypeError Event * LoopState) :=
  let '(push_if_needed, backoff_duration, s) := receive_mode s in
  if push_if_needed && wp_push_if_needed (ls_wired s)
  then Some (Ok (PushTransaction None), s)
  else
    match backoff_duration with
    | Some _ =>
        match branch with
        | RecvUnbounded => recv_branch "unbounded" (ls_unbounded s) ls_set_unbounded s
        | DefaultTimeout => Some (Ok BackOff, ls_set_mode Normal s)
        | RecvBounded => None
        end
    | None =>
        match branch with
        | RecvUnbounded => recv_branch "unbounded" (ls_unbounded s) ls_set_unbounded s
        | RecvBounded => recv_branch "bounded" (ls_bounded s) ls_set_bounded s
        | DefaultTimeout => None
        end
    end.

Definition process_blocking_resp (blocking_resp_tx : option Z) (err : option DatatypeError)
    : list LoopOut :=
  match blocking_resp_tx with
  | Some sender => [Respond sender err]
  | None => []
  end.

(** The body of the loop for a received event. *)
Definition handle_push (resp_tx : option Z) (s : LoopState) : LoopState * list LoopOut :=
  match ls_mode s with
  | Stopped =>
      (s, process_blocking_resp resp_tx
            (Some (InternalReason_into_error (EventLoop_ "event loop stopped"))))
  | _ =>
      let '(r, wired) := wp_push_pull (ls_wired s) in
      let s := ls_set_wired wired s in
      match r with
      | Ok _ =>
          (ls_set_backoff None (ls_set_mode Normal s), process_blocking_resp resp_tx None)
      | Err dewa =>
          let mode := LoopMode_from (recovery dewa) in
          let s := ls_set_mode mode s in
          let w := if decide (mode = BackOffMode) then [EmitBackoff] else [] in
          let s := ls_set_wired (wp_handle_error (error dewa) (recovery dewa) (ls_wired s)) s in
          let s := if decide (mode = BackOffMode) then s else ls_set_backoff None s in
          (s, w ++ process_blocking_resp resp_tx (Some (error dewa)))
      | Panic why => (ls_set_status (Unwinding why) s, [])
      | Blocked => (ls_set_status Hung s, [])
      end
  end.

Definition handle_event (ev : result DatatypeError Event) (s : LoopState)
    : LoopState * list LoopOut :=
  match ev with
  | Ok (Stop tx) => (ls_set_status Finished s, [StopAck tx])
  | Ok (PushTransaction resp_tx) => handle_push resp_tx s
  | Ok BackOff => (s, [])
  | Ok (Notify notify) =>
      if wp_handle_notification notify (ls_wired s)
      then (ls_set_bounded (q_try_send (PushTransaction None) (ls_bounded s)).2 s, [])
      else (s, [])
  | Err err => (ls_set_wired (wp_handle_error err Disable (ls_wired s)) s, [])
  | Panic why => (ls_set_status (Unwinding why) s, [])
  | Blocked => (ls_set_status Hung s, [])
  end.

(** One turn of the loop. *)
Definition loop_turn (branch : Branch) (s : LoopState) : option (LoopState * list LoopOut) :=
  match ls_status s with
  | Running =>
      '(ev, s) ← receive_event branch s;
      Some (handle_event ev s)
  | _ => None
  end.

(** [n] turns, for the branches taken. *)
Fixpoint loop_run (branches : list Branch) (s : LoopState) : option (LoopState * list LoopOut) :=
  match branches with
  | [] => Some (s, [])
  | b :: branches =>
      '(s, w) ← loop_turn b s;
      '(s, w') ← loop_run branches s;
      Some (s, w ++ w')
  end.
End loop.

Arguments LoopState S Q B : clear implicits.

(** ** Senders *)
Section senders.
Context {Q : Type} `{Channel Q}.

Definition send_to_unbounded (ev : Event) (unbounded : Q) : result DatatypeError unit * Q :=
  q_try_send ev unbounded.

Definition send_to_bounded (ev : Event) (bounded : Q) : result DatatypeError unit * Q :=
  q_try_send ev bounded.

Definition send_push_transaction_with_best_effort (is_realtime : bool) (bounded : Q) : Q :=
  if negb is_realtime then bounded else (send_to_bounded (PushTransaction None) bounded).2.

(** [reply] is what arrives on the one-shot channel [tx]: [None] when its sender
    was dropped. *)
Definition send_push_transaction_with_guarantee (tx : Z)
    (reply : option (option DatatypeError)) (unbounded : Q) : result DatatypeError unit * Q :=
  let '(r, unbounded) := send_to_unbounded (PushTransaction (Some tx)) unbounded in
  (match r with
   | Ok _ =>
       match reply with
       | Some (Some err) => Err err
       | Some None => Ok tt
       | None => Err (InternalReason_into_error (EventLoop_
                   "failed to receive response of sync(): channel closed"))
       end
   | Err e => Err e
   | Panic why => Panic why
   | Blocked => Blocked
   end, unbounded).

(** The acknowledgment is awaited and its absence only logged. *)
Definition send_stop (tx : Z) (unbounded : Q) : Q := (send_to_unbounded (Stop tx) unbounded).2.
End senders.

(** ** Instances *)

(** A channel as the list of its events. *)
Record ListChannel : Type := mkListChannel {
  lq_events : list Event;
  lq_capacity : option nat;
  lq_disconnected : bool;
}.

Definition lq_full (q : ListChannel) : bool :=
  match lq_capacity q with
  | Some n => (n <=? length (lq_events q))%nat
  | None => false
  end.

Definition lq_try_send (e : Event) (q : ListChannel) : result DatatypeError unit * ListChannel :=
  if lq_full q then (Err (InternalReason_into_error (EventLoop_ "Full(..)")), q)
  else (Ok tt, mkListChannel (lq_events q ++ [e]) (lq_capacity q) (lq_disconnected q)).

Definition lq_recv (q : ListChannel) : RecvResult ListChannel :=
  match lq_events q with
  | e :: es => Received e (mkListChannel es (lq_capacity q) (lq_disconnected q))
  | [] => if lq_disconnected q then Disconnected else Empty
  end.

#[export, refine] Instance list_channel : Channel ListChannel :=
  {| q_contents := lq_events; q_full := lq_full; q_try_send := lq_try_send; q_recv := lq_recv;
     q_connected := fun q => negb (lq_disconnected q) |}.
Proof.
  - intros q e es Hq. unfold lq_recv. rewrite Hq. by eexists.
  - intros q e q'. unfold lq_recv. destruct (lq_events q); [by destruct (lq_disconnected q)|].
    by intros [= <- <-].
  - intros q e Hf. unfold lq_try_send. rewrite Hf. by eexists.
  - intros q e Hf. unfold lq_try_send. rewrite Hf. by eexists.
  - intros q Hc. unfold lq_recv. apply negb_true_iff in Hc. rewrite Hc. by destruct (lq_events q).
  - intros q e q'. unfold lq_recv. destruct (lq_events q); [by destruct (lq_disconnected q)|].
    by intros [= <- <-].
  - intros q e. unfold lq_try_send. by destruct (lq_full q).
Defined.

Definition bounded_channel : ListChannel := mkListChannel [] (Some 1%nat) false.
Definition unbounded_channel : ListChannel := mkListChannel [] None false.

(** The wired datatype of a core in a world. *)
Definition with_core {C A} (core : Z) (dflt : A) (f : MutableDatatype -> A) (w : World C) : A :=
  match w_cores w !! core with Some m => f m | None => dflt end.

#[export] Instance world_port {C} `{ConnectivityOps C} (now core : Z) : WiredPort (World C) :=
  {| wp_push_if_needed := push_if_needed core;
     wp_push_pull := fun w => (Wired_push_pull now core w).1;
     wp_handle_error := fun err rec w => final (on_core core (handle_error err rec) w);
     wp_handle_notification := fun n => with_core core false (handle_notification n) |}.

(** ** Lemmas *)
Section loop_lemmas.
Context {S Q B : Type} `{WiredPort S} `{Channel Q}.
Context (build : B) (next : B -> option Z * B).
Implicit Types (s : LoopState S Q B).

(** Both channels have a living sender, as the [EventLoop] object guarantees. *)
Definition connected (s : LoopState S Q B) : Prop :=
  q_connected (ls_bounded s) = true /\ q_connected (ls_unbounded s) = true.

Lemma loop_turn_inv b s s' w :
  loop_turn build next b s = Some (s', w) ->
  ls_status s = Running /\
  exists ev s1, receive_event build next b s = Some (ev, s1) /\ handle_event ev s1 = (s', w).
Proof.
  unfold loop_turn. destruct (ls_status s); try done.
  destruct (receive_event build next b s) as [[ev s1]|]; simpl; [|done].
  intros [= Hh]. split; [done|]. by exists ev, s1.
Qed.

(** Receiving in a mode other than [Normal] comes from a channel or a timeout. *)
Lemma receive_stopped b s ev s1 : ls_mode s = Stopped ->
  receive_event build next b s = Some (ev, s1) ->
  (exists e, ev = Ok e /\ ls_wired s1 = ls_wired s /\ ls_mode s1 = Stopped /\
     ls_status s1 = ls_status s /\
     (connected s -> connected s1)) \/
  (exists err, ev = Err err /\ s1 = s /\
     (q_recv (ls_bounded s) = Disconnected \/ q_recv (ls_unbounded s) = Disconnected)).
Proof.
  intros Hm. unfold receive_event, receive_mode. rewrite Hm. cbn [andb].
  destruct b; unfold recv_branch; [| |done].
  - destruct (q_recv (ls_unbounded s)) as [e q'| |] eqn:Hr; [| done|]; intros [= <- <-].
    + left. exists e. split_and!; try done. unfold connected. simpl.
      by rewrite (q_recv_keeps _ _ _ Hr).
    + right. eexists. split_and!; try done. by right.
  - destruct (q_recv (ls_bounded s)) as [e q'| |] eqn:Hr; [| done|]; intros [= <- <-].
    + left. exists e. split_and!; try done. unfold connected. simpl.
      by rewrite (q_recv_keeps _ _ _ Hr).
    + right. eexists. split_and!; try done. by left.
Qed.

Lemma stopped_turn b s s' w :
  ls_mode s = Stopped -> connected s -> loop_turn build next b s = Some (s', w) ->
  ls_wired s' = ls_wired s /\ ls_mode s' = Stopped /\ connected s' /\
  (forall tx err, Respond tx err ∈ w ->
     err = Some (InternalReason_into_error (EventLoop_ "event loop stopped"))).
Proof.
  intros Hm Hc (_ & ev & s1 & Hr & Hh)%loop_turn_inv.
  destruct (receive_stopped b s ev s1 Hm Hr) as [(e & -> & Hw & Hm1 & _ & Hc1)|(err & _ & _ & Hd)].
  2:{ destruct Hc as [Hc1 Hc2]. by destruct Hd as [Hd|Hd]; apply q_recv_connected in Hd. }
  rewrite <- Hw. specialize (Hc1 Hc). destruct e as [tx|resp| |n]; simpl in Hh.
  - injection Hh as <- <-. split_and!; try done. by intros tx' err ?%list_elem_of_singleton.
  - unfold handle_push in Hh. rewrite Hm1 in Hh. injection Hh as <- <-.
    split_and!; try done. intros tx err. destruct resp; simpl; [|by intros ?%elem_of_nil].
    by intros [= -> ->]%list_elem_of_singleton.
  - injection Hh as <- <-. split_and!; try done. by intros tx err ?%elem_of_nil.
  - destruct (wp_handle_notification n (ls_wired s1)); injection Hh as <- <-;
      split_and!; try done; try (by intros tx err ?%elem_of_nil).
    destruct Hc1 as [Hc1 Hc2]. split; simpl; [by rewrite q_send_keeps|done].
Qed.
End loop_lemmas.

(** If the wish to push persists through a successful synchronization, the loop
    never looks at its channels again. *)
Lemma persistent_push_wish_starves_events {S Q B} `{WiredPort S} `{Channel Q} (build : B) next bs
    (s : LoopState S Q B) :
  ls_status s = Running -> ls_mode s = Normal -> ls_backoff s = None ->
  wp_push_if_needed (ls_wired s) = true -> wp_push_pull (ls_wired s) = (Ok tt, ls_wired s) ->
  loop_run build next bs s = Some (s, []).
Proof.
  intros Hst Hm Hb Hwish Hpp.
  assert (Hturn : forall b, loop_turn build next b s = Some (s, [])).
  { intros b. unfold loop_turn. rewrite Hst. unfold receive_event, receive_mode. rewrite Hm.
    rewrite Hwish. simpl. unfold handle_push. rewrite Hm, Hpp. simpl.
    destruct s as [? ? ? m bo ?]; simpl in *. by subst. }
  induction bs as [|b bs IH]; [done|]. simpl. by rewrite Hturn; simpl; rewrite IH.
Qed.

(** A round with the null connectivity of a subscribed datatype that has nothing
    it may send. *)
Lemma null_round_unchanged now core (w : World NullConnectivity) m c :
  w_cores w !! core = Some m -> m_state m = Subscribed -> m_checkpoint m = mkCheckPoint c c ->
  get_pushing_transactions (u64_add c 1) DEFAULT_MAX_TRANSMISSION_SIZE (m_push_buffer m) = Ok ([], 0) ->
  (Wired_push_pull now core w).1 = (Ok tt, w).
Proof.
  intros Hm Hst Hcp Hget.
  assert (Hpack : exists p, create_push_pull_pack m = (Ok p, m, []) /\ ppp_state p = Subscribed /\
    ppp_checkpoint p = mkCheckPoint c c).
  { unfold create_push_pull_pack. rewrite Hcp. cbn [cp_cseq]. rewrite Hget.
    eexists. split; [reflexivity|]. by split. }
  destruct Hpack as (p & Hp & Hps & Hpc).
  assert (Hq : exists q, NullConnectivity_push_pull p = Ok q /\ ppp_error q = None /\
    ppp_state q = Subscribed /\ ppp_transactions q = [] /\ ppp_checkpoint q = mkCheckPoint c c).
  { unfold NullConnectivity_push_pull. rewrite Hps. eexists. split; [reflexivity|].
    unfold push_transaction; simpl. by rewrite Hpc. }
  destruct Hq as (q & Hq & He & Hqs & Hqt & Hqc).
  destruct (apply_pulled_accepted q m He) as [Hok _]; [by rewrite Hst, Hqs|by rewrite Hqt|].
  destruct (Hok m []) as [w' Happ].
  { unfold join, joins. by rewrite Hst. }
  assert (Hsame : m_put_state (ppp_state q) (synced q m) = m).
  { unfold synced, new_transactions. rewrite Hqt, Hqs, Hcp, Hqc, drop_nil. cbn [ops_of mbind list_bind].
    rewrite remote_applied_nil. unfold CheckPoint_check_with. simpl. rewrite Z.max_id, <- Hcp, <- Hst.
    by destruct m. }
  rewrite Hsame in Happ. unfold Wired_push_pull. erewrite M_bind_Ok; last first.
  { unfold attempt. rewrite (do_push_pull_eq now core w m p q (w_conn w) []).
    - rewrite Happ. reflexivity.
    - exact Hm.
    - exact Hp.
    - simpl. unfold lift. by rewrite Hq. }
  destruct w as [cores conn]; simpl in *. by rewrite insert_id.
Qed.

(** ** Properties *)


(** Once stopped, the loop never synchronizes again, whatever events and
    branches follow: the datatype is not touched and every request is answered
    with the error of a stopped loop. *)
Theorem stopped_loop_never_syncs {S Q B} `{WiredPort S} `{Channel Q} (build : B) next bs
    (s s' : LoopState S Q B) w :
  ls_mode s = Stopped -> connected s ->
  loop_run build next bs s = Some (s', w) ->
  ls_wired s' = ls_wired s /\ ls_mode s' = Stopped /\
  (forall tx err, Respond tx err ∈ w ->
     err = Some (InternalReason_into_error (EventLoop_ "event loop stopped"))).
Proof.
  intros Hm Hc. revert s w Hm Hc. induction bs as [|b bs IH]; intros s w Hm Hc Hr; simpl in Hr.
  { injection Hr as <- <-. split_and!; try done. by intros ? ? ?%elem_of_nil. }
  destruct (loop_turn build next b s) as [[s1 w1]|] eqn:Ht; simpl in Hr; [|done].
  destruct (loop_run build next bs s1) as [[s2 w2]|] eqn:Hr2; simpl in Hr; [|done].
  injection Hr as <- <-.
  destruct (stopped_turn build next b s s1 w1 Hm Hc Ht) as (Hw & Hm1 & Hc1 & Hresp).
  destruct (IH s1 w2 Hm1 Hc1 Hr2) as (Hw2 & Hm2 & Hresp2). split_and!; [congruence|done|].
  intros tx err [Hin|Hin]%elem_of_app; eauto.
Qed.

(** During backoff the bounded channel is not received from: an event comes
    from the unbounded channel, or the delay (the iterator's, at most the default
    maximum where it has ended) passes and the loop resumes normal operation
    without touching the datatype. *)
Theorem backoff_ignores_bounded_channel {S Q B} `{WiredPort S} `{Channel Q} (build : B) next b
    (s : LoopState S Q B) ev s1 :
  ls_mode s = BackOffMode -> receive_event build next b s = Some (ev, s1) ->
  ls_bounded s1 = ls_bounded s /\ ls_wired s1 = ls_wired s /\
  ls_backoff s1 = Some (next (default build (ls_backoff s))).2 /\
  ((b = DefaultTimeout /\ ev = Ok BackOff /\ ls_mode s1 = Normal /\
    ls_unbounded s1 = ls_unbounded s) \/
   (b = RecvUnbounded /\ ls_mode s1 = BackOffMode /\
    ((exists e, ev = Ok e /\ q_contents (ls_unbounded s) = e :: q_contents (ls_unbounded s1)) \/
     (q_recv (ls_unbounded s) = Disconnected /\ ev = Err (channel_error "unbounded"))))).
Proof.
  intros Hm. unfold receive_event, receive_mode. rewrite Hm.
  change (match ls_backoff s with Some b => b | None => build end) with (default build (ls_backoff s)).
  destruct (next (default build (ls_backoff s))) as [d it]. cbn [andb snd].
  destruct b; [|done|].
  - unfold recv_branch. cbn [ls_unbounded ls_set_backoff].
    destruct (q_recv (ls_unbounded s)) as [e q'| |] eqn:Hr; [|done|];
      intros [= <- <-]; split_and!; try done; right; split_and!; try done.
    + left. exists e. split; [done|]. by apply q_recv_empty.
    + by right.
  - intros [= <- <-]. split_and!; try done. by left.
Qed.


(** ** Witnesses *)

(** A port that never wants to push and always fails with a backoff error. *)
Definition failing_port : WiredPort nat :=
  {| wp_push_if_needed := fun _ => false;
     wp_push_pull := fun n =>
       (Err (DatatypeErrorWithAction_new (SyncFailed "injected") RetryWithBackOff), S n);
     wp_handle_error := fun _ _ n => n;
     wp_handle_notification := fun _ _ => false |}.

Definition doubling (d : Z) : option Z * Z := (Some d, Z.min (2 * d) BACKOFF_MAX_DELAY).

Definition failing_loop (mode : LoopMode) : LoopState nat ListChannel Z :=
  mkLoopState 0%nat (mkListChannel [PushTransaction None] (Some 1%nat) false)
    (mkListChannel [PushTransaction (Some 7); Stop 8] None false) mode None Running.


(** A stopped loop answers the synchronization and obeys the stop. *)
Lemma stopped_loop_never_syncs_witness :
  exists s' w, @loop_run _ _ _ failing_port _ 500 doubling [RecvUnbounded; RecvBounded; RecvUnbounded]
      (failing_loop Stopped) = Some (s', w) /\
    ls_wired s' = 0%nat /\ ls_status s' = Finished /\ StopAck 8 ∈ w.
Proof.
  destruct (@loop_run _ _ _ failing_port _ 500 doubling [RecvUnbounded; RecvBounded; RecvUnbounded]
      (failing_loop Stopped)) as [[s' w]|] eqn:Hr; [|done].
  exists s', w. split; [done|]. split.
  - apply (@stopped_loop_never_syncs _ _ _ failing_port _ 500 doubling
      [RecvUnbounded; RecvBounded; RecvUnbounded] (failing_loop Stopped) s' w); [done|by split|done].
  - vm_compute in Hr. injection Hr as <- <-. split; [done|]. apply elem_of_cons; right. by left.
Defined.

Lemma backoff_ignores_bounded_channel_witness :
  exists ev s1, @receive_event _ _ _ failing_port _ 500 doubling RecvUnbounded
      (failing_loop BackOffMode) = Some (ev, s1) /\
    ls_bounded s1 = ls_bounded (failing_loop BackOffMode) /\ ls_backoff s1 = Some 1000.
Proof.
  destruct (@receive_event _ _ _ failing_port _ 500 doubling RecvUnbounded (failing_loop BackOffMode))
    as [[ev s1]|] eqn:Hr; [|done].
  destruct (@backoff_ignores_bounded_channel _ _ _ failing_port _ 500 doubling RecvUnbounded
    (failing_loop BackOffMode) ev s1 eq_refl Hr) as (Hb & _ & Hi & _).
  exists ev, s1. split_and!; [done|exact Hb|exact Hi].
Defined.

(** A subscribed datatype whose only committed transaction has [n] operations. *)
Definition big_tx (n : nat) : Transaction :=
  mkTransaction Uid_new_nil 1 0 None false (replicate n (Operation_new_counter_increase 0 1)).

Definition big_mutable (n : nat) : MutableDatatype :=
  mkMutableDatatype example_attribute (CrdtCounter (mkCounterCrdt 0)) (mkOperationId 0 Uid_new_nil 1)
    (mkMemoryPushBuffer [big_tx n] (Transaction_size (big_tx n)) DatatypeOption_default 1 1)
    CheckPoint_default Subscribed (TxRecord_new Subscribed (mkOperationId 0 Uid_new_nil 0))
    (HandlersManager_new []).

Lemma big_tx_size n : Z.of_nat n = 125001 -> Transaction_size (big_tx n) = 4000113.
Proof.
  intros Hn. unfold Transaction_size, big_tx. cbn [tx_operations tx_tag].
  rewrite u64_sum_wrap, sumZ_replicate, Hn. reflexivity.
Qed.

Lemma big_mutable_wf n : Z.of_nat n = 125001 -> mutable_wf (big_mutable n).
Proof.
  intros Hn. unfold mutable_wf. cbn [m_crdt m_push_buffer m_attr m_op_id big_mutable].
  split; [concrete|]. split.
  { unfold pb_wf. cbn [transaction first_cseq last_cseq mem_size option_].
    rewrite sumZ_singleton, big_tx_size by done. split_and!; try concrete; try done. }
  split_and!; try done; try concrete. by right.
Qed.

