(* ===== verification/Replica.v ===== *)
(** * One replica and the history of its server

    [replica_view] is the relation between a replica and the history that the
    server keeps: which prefix of the history the replica has seen, which of its
    own transactions are recorded and which are not, and what its counter is.
    [pack_view] and [answer_view] describe a push in flight and its answer.  This
    file shows how commits, pushes and answers move these relations; [System]
    composes them over all replicas. *)

From Stdlib Require Import Strings.Byte Sorting.Sorted.
From S2P Require Import Prelude Types Errors Operations Crdts PushBuffer Pack Handler Mutable Transactional PullHandler Server Connectivity Wired.

(** ** Definitions *)

(** What a recorded transaction keeps of the one in the push buffer. *)
Definition key (tx : Transaction) : Z * Z := (tx_cseq tx, tx_delta tx).

Definition cuid_of (m : MutableDatatype) : Cuid := Attribute_get_cuid (m_attr m).
Definition duid_of (m : MutableDatatype) : Duid := Attribute_get_duid (m_attr m).
Definition buffered (m : MutableDatatype) : list Transaction := transaction (m_push_buffer m).

(** The seen prefix of a history and the unacknowledged transactions. *)
Definition seen (m : MutableDatatype) (h : list Transaction) : list Transaction :=
  take (Z.to_nat (cp_sseq (m_checkpoint m))) h.
Definition unacked (m : MutableDatatype) : list Transaction :=
  drop (Z.to_nat (cp_cseq (m_checkpoint m))) (buffered m).

Definition others (c : Cuid) (h : list Transaction) : list Transaction :=
  filter (fun tx => tx_cuid tx <> c) h.

Definition own_tx (c : Cuid) (tx : Transaction) : Prop :=
  tx_cuid tx = c /\ counter_tx tx = true /\ tx_fits tx.

(** A datatype that synchronizes; a live one may be leaving; a joined one has been
    answered. *)
Definition alive (st : DatatypeState) : bool :=
  match st with
  | Creating | Subscribing | SubscribingOrCreating | Subscribed => true
  | _ => false
  end.

Definition live (st : DatatypeState) : bool :=
  match st with Unsubscribing => true | _ => alive st end.
Definition joined (st : DatatypeState) : bool :=
  match st with Subscribed | Unsubscribing => true | _ => false end.

Record replica_view (sv : LocalDatatypeServer) (m : MutableDatatype) : Prop := {
  rv_wf : mutable_wf m;
  rv_pending : pending (m_tx_record m) = None;
  rv_type : attr_type (m_attr m) = srv_type sv;
  rv_buffer : Forall (own_tx (cuid_of m)) (buffered m);
  rv_consecutive : consecutive 1 (buffered m);
  rv_cseq : oid_cseq (m_op_id m) = Z.of_nat (length (buffered m));
  rv_readonly : attr_is_readonly (m_attr m) = true -> buffered m = [];
  rv_fresh : joined (m_state m) = false -> m_checkpoint m = CheckPoint_default;
  rv_own : key <$> own (cuid_of m) (history sv) `prefix_of` key <$> buffered m;
  rv_ack : cp_cseq (client_cp (cuid_of m) sv) = Z.of_nat (length (own (cuid_of m) (history sv)));
  rv_sseq : 0 <= cp_sseq (m_checkpoint m) <= Z.of_nat (length (history sv));
  rv_cp : cp_cseq (m_checkpoint m) = Z.of_nat (length (own (cuid_of m) (seen m (history sv))));
  rv_value : crdt_value (m_crdt m) =
    i64_wrap (sumZ tx_delta (seen m (history sv)) + sumZ tx_delta (unacked m));
  rv_created : joined (m_state m) = true -> created sv = true;
}.

(** A push that the replica made and that is not answered yet. *)
Record pack_view (m : MutableDatatype) (p : PushPullPack) : Prop := {
  pv_cuid : ppp_cuid p = cuid_of m;
  pv_duid : ppp_duid p = duid_of m;
  pv_type : ppp_type p = attr_type (m_attr m);
  pv_state : ppp_state p = m_state m \/ (ppp_state p = Subscribed /\ m_state m = Unsubscribing);
  pv_resource : PushPullPack_resource_id p = Attribute_resource_id (m_attr m);
  pv_readonly : ppp_is_readonly p = attr_is_readonly (m_attr m);
  pv_sseq : cp_sseq (ppp_checkpoint p) = cp_sseq (m_checkpoint m);
  pv_txs : exists j, ppp_transactions p = take j (unacked m);
}.

(** An answer that does not join: the history up to [s'] is acknowledged. *)
Definition sync_answer (sv : LocalDatatypeServer) (m : MutableDatatype) (q : PushPullPack)
    (s' : nat) : Prop :=
  ppp_checkpoint q =
    mkCheckPoint (Z.of_nat s') (Z.of_nat (length (own (cuid_of m) (take s' (history sv))))) /\
  (Z.to_nat (cp_sseq (m_checkpoint m)) <= s')%nat /\
  ppp_transactions q = others (cuid_of m) (drop (Z.to_nat (cp_sseq (m_checkpoint m))) (take s' (history sv))).

(** An answer that joins: a snapshot of the history up to [s0], then up to [s']. *)
Definition join_answer (sv : LocalDatatypeServer) (m : MutableDatatype) (q : PushPullPack)
    (s' : nat) : Prop :=
  ppp_duid q = srv_duid sv /\
  ppp_checkpoint q = mkCheckPoint (Z.of_nat s') 0 /\
  own (cuid_of m) (history sv) = [] /\
  exists s0 tx op ops body,
    (s0 <= s')%nat /\
    ppp_snapshot_transaction q = Some tx /\ tx_operations tx = op :: ops /\
    op_body op = Snapshot body /\ length (snap_data body) = 8%nat /\
    i64_from_le_bytes (snap_data body) = i64_wrap (sumZ tx_delta (take s0 (history sv))) /\
    ppp_transactions q = drop s0 (take s' (history sv)).

Definition round_answer (sv : LocalDatatypeServer) (m : MutableDatatype) (q : PushPullPack) : Prop :=
  match ppp_error q with
  | Some _ => ppp_state q = Disabled
  | None =>
      ppp_state q = Subscribed /\ created sv = true /\
      exists s', (s' <= length (history sv))%nat /\
        if joins m q then join_answer sv m q s' else sync_answer sv m q s'
  end.

(** An answer to a replica that is leaving: to its unsubscription, or to a round
    that it was in when its user unsubscribed. *)
Definition leaving_answer (q : PushPullPack) : Prop :=
  match ppp_error q with
  | Some _ => ppp_state q = Disabled
  | None => ppp_state q = Subscribed \/
            (ppp_state q = Disabled /\ forallb counter_tx (ppp_transactions q) = true)
  end.

Definition answer_view (sv : LocalDatatypeServer) (m : MutableDatatype) (q : PushPullPack) : Prop :=
  if decide (m_state m = Unsubscribing) then leaving_answer q else round_answer sv m q.

(** What the server guarantees to every replica. *)
Record server_inv (sv : LocalDatatypeServer) : Prop := {
  si_wf : server_wf sv;
  si_counter : forallb counter_tx (history sv) = true;
  si_created : created sv = false -> history sv = [];
}.

(** ** Lemmas: lists *)
Lemma drop_take_drop {A} (l : list A) (n k j : nat) : (k <= n)%nat ->
  drop (n - k) (take j (drop k l)) = take (j - (n - k)) (drop n l).
Proof.
  intros Hk. destruct (Nat.le_gt_cases (n - k) j).
  - replace j with ((n - k) + (j - (n - k)))%nat at 1 by lia.
    rewrite <- take_drop_commute, drop_drop. do 2 f_equal. lia.
  - replace (j - (n - k))%nat with 0%nat by lia.
    rewrite drop_ge; [done|]. rewrite length_take. lia.
Qed.

(** The recorded prefix extended by the new part of a window. *)
Lemma take_window {A} (l : list A) (n k j : nat) : (k <= n)%nat ->
  take n l ++ drop (n - k) (take j (drop k l)) = take (n + (j - (n - k))) l.
Proof. intros Hk. rewrite drop_take_drop by done. apply take_take_drop. Qed.

Lemma prefix_take {A} (l k : list A) : l `prefix_of` k -> l = take (length l) k.
Proof. intros [r ->]. by rewrite take_app_length. Qed.

Lemma sumZ_fmap {A B} (g : B -> Z) (f : A -> B) l : sumZ g (f <$> l) = sumZ (fun x => g (f x)) l.
Proof. induction l as [|x l IH]; [done|]. cbn [fmap list_fmap]. by rewrite !sumZ_cons, IH. Qed.

Lemma sumZ_key txs : sumZ snd (key <$> txs) = sumZ tx_delta txs.
Proof. by rewrite sumZ_fmap. Qed.

Lemma sumZ_take_drop {A} (f : A -> Z) n l : sumZ f l = sumZ f (take n l) + sumZ f (drop n l).
Proof. by rewrite <- sumZ_app, take_drop. Qed.

Lemma own_others c h : sumZ tx_delta h = sumZ tx_delta (own c h) + sumZ tx_delta (others c h).
Proof. apply sumZ_filter_split. Qed.

Lemma own_others_length c h : (length h = length (own c h) + length (others c h))%nat.
Proof.
  unfold own, others. induction h as [|tx h IH]; [done|]. rewrite !filter_cons.
  repeat case_decide; simpl in *; try done; lia.
Qed.

Lemma others_app c h1 h2 : others c (h1 ++ h2) = others c h1 ++ others c h2.
Proof. apply filter_app. Qed.

Lemma others_no_own c h : own c h = [] -> others c h = h.
Proof.
  unfold own, others. induction h as [|tx h IH]; [done|]. rewrite !filter_cons.
  repeat case_decide; simpl in *; try done. intros Hn. by rewrite IH.
Qed.

Lemma own_take_prefix c n h : own c (take n h) `prefix_of` own c h.
Proof. exists (own c (drop n h)). by rewrite <- own_app, take_drop. Qed.

Lemma own_sub_nil c h n : own c h = [] -> own c (take n h) = [] /\ own c (drop n h) = [].
Proof.
  intros H. rewrite <- (take_drop n h), own_app in H. by apply app_nil in H.
Qed.

(** The part of a push that is new, for consecutive transactions. *)
Lemma accepted_consecutive txs f n : consecutive f txs -> f <= n + 1 ->
  accepted n txs = drop (Z.to_nat (n + 1 - f)) txs /\
  acked n txs = n + Z.of_nat (length (accepted n txs)).
Proof.
  revert f n. induction txs as [|tx txs IH]; intros f n Hc Hf.
  { rewrite drop_nil. split; [done|]. simpl. unfold acked. simpl. lia. }
  apply consecutive_cons in Hc as [Ht Hc]. cbn [accepted]. unfold acked in *. cbn [foldl].
  destruct (Z.leb_spec (tx_cseq tx) n).
  - destruct (IH (f + 1) n Hc) as [Ha Hk]; [lia|]. rewrite Z.max_l by lia.
    rewrite Hk, Ha. replace (Z.to_nat (n + 1 - f)) with (S (Z.to_nat (n + 1 - (f + 1)))) by lia.
    done.
  - destruct (IH (f + 1) (tx_cseq tx) Hc) as [Ha Hk]; [lia|]. rewrite Z.max_r by lia.
    rewrite Hk, Ha. replace (Z.to_nat (tx_cseq tx + 1 - (f + 1))) with 0%nat by lia.
    replace (Z.to_nat (n + 1 - f)) with 0%nat by lia. rewrite !drop_0. cbn [length]. split; [done|lia].
Qed.

Lemma consecutive_take first txs n : consecutive first txs -> consecutive first (take n txs).
Proof.
  intros H. apply (consecutive_prefix first (take n txs) (drop n txs)). by rewrite take_drop.
Qed.

Lemma consecutive_sorted first txs : consecutive first txs -> StronglySorted Z.lt (tx_cseq <$> txs).
Proof.
  revert first. induction txs as [|tx txs IH]; intros first H; [constructor|].
  apply consecutive_cons in H as [Ht H]. cbn [fmap list_fmap]. constructor; [by eapply IH|].
  unfold consecutive in H. rewrite H. apply Forall_forall. intros x Hx%elem_of_seqZ. lia.
Qed.

Lemma key_stamp s txs : key <$> stamp_sseq s txs = key <$> txs.
Proof. revert s. induction txs as [|tx txs IH]; intros s; [done|]. simpl. by rewrite IH. Qed.

Lemma counter_stamp s txs : forallb counter_tx txs = true -> forallb counter_tx (stamp_sseq s txs) = true.
Proof.
  revert s. induction txs as [|tx txs IH]; intros s; [done|]. simpl.
  rewrite !andb_true_iff. intros [? ?]. auto.
Qed.

Lemma others_stamp c s txs : Forall (fun tx => tx_cuid tx = c) txs -> others c (stamp_sseq s txs) = [].
Proof.
  intros H. revert s. induction H as [|tx txs Ht _ IH]; intros s; [done|].
  cbn [stamp_sseq]. unfold others in *. rewrite filter_cons_False; [apply IH|]. simpl. tauto.
Qed.

Lemma filter_none {A} (P : A -> Prop) `{forall x, Decision (P x)} l :
  Forall (fun x => ~ P x) l -> filter P l = [].
Proof. induction 1 as [|x l Hx _ IH]; [done|]. by rewrite filter_cons_False. Qed.

Lemma filter_all {A} (P : A -> Prop) `{forall x, Decision (P x)} l :
  Forall P l -> filter P l = l.
Proof. induction 1 as [|x l Hx _ IH]; [done|]. by rewrite filter_cons_True, IH. Qed.

Lemma forallb_Forall_eq {A} (f : A -> bool) l : forallb f l = true <-> Forall (fun x => f x = true) l.
Proof.
  induction l as [|x l IH]; [by split; [constructor|]|].
  cbn [forallb]. by rewrite andb_true_iff, Forall_cons, IH.
Qed.

(** In a numbered history, [sseq]s are positions. *)
Lemma others_after_drop sv c s : server_wf sv -> 0 <= s ->
  others_after c s (history sv) = others c (drop (Z.to_nat s) (history sv)).
Proof.
  intros (Hn & _) Hs. rewrite <- (take_drop (Z.to_nat s) (history sv)) at 1.
  unfold others_after, others. rewrite filter_app.
  assert (Hl : forall i tx, history sv !! i = Some tx -> tx_sseq tx = 1 + Z.of_nat i).
  { intros i tx Hi. assert ((tx_sseq <$> history sv) !! i = Some (tx_sseq tx)) as H
      by by rewrite list_lookup_fmap, Hi.
    rewrite Hn in H. apply lookup_seqZ in H. lia. }
  rewrite filter_none; last first.
  { apply Forall_lookup. intros i tx [Hi Hlt]%lookup_take_Some. apply Hl in Hi. lia. }
  cbn [app]. apply filter_ext_Forall, Forall_lookup. intros i tx Hi.
  rewrite lookup_drop in Hi. apply Hl in Hi. split; [tauto|]. intros. split; [lia|done].
Qed.

(** ** Lemmas: bounds of a view *)
Lemma view_bounds sv m : replica_view sv m ->
  0 <= cp_cseq (m_checkpoint m) /\
  (Z.to_nat (cp_cseq (m_checkpoint m)) <= length (own (cuid_of m) (history sv)))%nat /\
  (length (own (cuid_of m) (history sv)) <= length (buffered m))%nat.
Proof.
  intros Hv. rewrite (rv_cp _ _ Hv), Nat2Z.id. split_and!; [lia| |].
  - apply prefix_length, own_take_prefix.
  - pose proof (prefix_length _ _ (rv_own _ _ Hv)) as H. by rewrite !length_fmap in H.
Qed.

Lemma view_own_take sv m : replica_view sv m ->
  key <$> own (cuid_of m) (history sv) =
  key <$> take (length (own (cuid_of m) (history sv))) (buffered m).
Proof.
  intros Hv. rewrite fmap_take.
  replace (length (own (cuid_of m) (history sv)))
    with (length (key <$> own (cuid_of m) (history sv))) by apply length_fmap.
  apply prefix_take, Hv.
Qed.

(** The keys of the own transactions in a prefix of the history. *)
Lemma view_own_prefix sv m n : replica_view sv m ->
  key <$> own (cuid_of m) (take n (history sv)) =
  key <$> take (length (own (cuid_of m) (take n (history sv)))) (buffered m).
Proof.
  intros Hv. rewrite fmap_take.
  replace (length (own (cuid_of m) (take n (history sv))))
    with (length (key <$> own (cuid_of m) (take n (history sv)))) by apply length_fmap.
  apply prefix_take. etrans; [|apply (rv_own _ _ Hv)].
  destruct (own_take_prefix (cuid_of m) n (history sv)) as [r ->]. rewrite fmap_app. by eexists.
Qed.

Lemma view_first_cseq sv m : replica_view sv m -> first_cseq (m_push_buffer m) <= 1.
Proof.
  intros [Hwf _ _ _ Hc _ _ _ _ _ _ _ _ _]. destruct Hwf as (_ & [Hcs _] & _).
  unfold cseqs_wf, buffered in *. destruct (transaction (m_push_buffer m)) as [|tx txs]; [lia|].
  destruct Hcs as (_ & Hc' & _). apply consecutive_cons in Hc as [Hc _], Hc' as [Hc' _]. lia.
Qed.

Lemma unacked_consecutive sv m : replica_view sv m ->
  consecutive (cp_cseq (m_checkpoint m) + 1) (unacked m).
Proof.
  intros Hv. destruct (view_bounds sv m Hv) as (H0 & H1 & H2).
  pose proof (consecutive_drop 1 (buffered m) (Z.to_nat (cp_cseq (m_checkpoint m)))
    (rv_consecutive _ _ Hv)) as H. unfold unacked.
  replace (cp_cseq (m_checkpoint m) + 1) with (1 + Z.of_nat (Z.to_nat (cp_cseq (m_checkpoint m)))) by lia.
  apply H. lia.
Qed.

Lemma seen_app m h1 h2 : cp_sseq (m_checkpoint m) <= Z.of_nat (length h1) ->
  seen m (h1 ++ h2) = seen m h1.
Proof. intros H. unfold seen. rewrite take_app_le; [done|lia]. Qed.

(** ** Lemmas: commits *)
Lemma stamp_ops_delta l ops : sumZ op_delta (stamp_ops l ops) = sumZ op_delta ops.
Proof.
  revert l. induction ops as [|op ops IH]; intros l; [done|]. cbn [stamp_ops].
  rewrite !sumZ_cons, IH. done.
Qed.

Lemma rolled_back_view sv m : replica_view sv m -> replica_view sv (rolled_back m).
Proof.
  intros [Hwf Hp ? ? ? ? ? ? ? ? ? ? ? ?]. constructor; try done.
  destruct Hwf as (? & ? & ? & ? & Hc & ? & Hl & ?).
  unfold mutable_wf, committed_cseq, pending_wf in *; simpl. rewrite Hp in *. by split_and!.
Qed.

Lemma after_commit_wf m ops tag : commit_ready m ops tag -> has_room m ops tag ->
  mutable_wf (after_commit m ops tag).
Proof.
  intros Hr Hroom. destruct (commit_room m ops tag Hr Hroom) as (He & _).
  destruct (built_tx_cseq m ops tag Hr) as (Hadd & Hc & Hseq).
  destruct Hr as [Hwf Hp Hne Hops Hcs Hfit].
  change (after_commit m ops tag) with (final (Ok (E:=DatatypeErrorWithAction) true, after_commit m ops tag, @nil MutableCall)).
  rewrite <- He. apply end_transaction_wf; [|exact Hfit].
  pose proof (mutable_wf_cseq m Hwf).
  destruct Hwf as (H1 & H2 & H3 & H4 & H5 & H6 & H7 & H8).
  rewrite committed_cseq_0 in * by done.
  unfold mutable_wf, committed_cseq, pending_wf; simpl. split_and!; try done; try lia.
  - unfold crdt_wf. rewrite crdt_after_counter by done. destruct ops; [done|]. apply i64_wrap_range.
  - by apply counter_stamp_ops.
  - by destruct ops.
Qed.

Lemma after_commit_view sv m ops tag :
  replica_view sv m -> commit_ready m ops tag -> has_room m ops tag ->
  attr_is_readonly (m_attr m) = false ->
  replica_view sv (after_commit m ops tag).
Proof.
  intros Hv Hr Hroom Hro. destruct (commit_room m ops tag Hr Hroom) as (_ & _ & Hb & _).
  destruct (built_tx_cseq m ops tag Hr) as (Hadd & _).
  destruct (view_bounds sv m Hv) as (H0 & H1 & H2).
  set (tx := Transaction_set_tag tag (built_tx m ops)) in *.
  assert (Hbuf : buffered (after_commit m ops tag) = buffered m ++ [tx]) by exact Hb.
  assert (Hun : unacked (after_commit m ops tag) = unacked m ++ [tx]).
  { unfold unacked. rewrite Hbuf. apply drop_app_le. simpl. lia. }
  assert (Htx : tx_cseq tx = 1 + Z.of_nat (length (buffered m))).
  { simpl. rewrite Hadd, (rv_cseq _ _ Hv). lia. }
  constructor; try apply Hv.
  - by apply after_commit_wf.
  - done.
  - rewrite Hbuf. apply Forall_app. split; [apply Hv|]. rewrite Forall_singleton. split_and!.
    + simpl. apply (rv_wf _ _ Hv).
    + unfold counter_tx. simpl. apply counter_stamp_ops, Hr.
    + apply Hr.
  - rewrite Hbuf, consecutive_app. split; [apply Hv|done].
  - rewrite Hbuf, length_app. simpl. rewrite Hadd, (rv_cseq _ _ Hv). lia.
  - simpl. congruence.
  - rewrite Hbuf, fmap_app. etrans; [apply (rv_own _ _ Hv)|]. by eexists.
  - rewrite Hun, sumZ_app, sumZ_singleton. simpl crdt_value.
    change (crdt_value (m_crdt (after_commit m ops tag))) with (crdt_value (crdt_after (m_crdt m) ops)).
    rewrite crdt_after_counter by apply Hr.
    change (tx_delta tx) with (sumZ op_delta (stamp_ops (lamport (m_op_id m)) ops)).
    rewrite stamp_ops_delta.
    replace (match ops with [] => _ | _ => _ end)
      with (i64_wrap (crdt_value (m_crdt m) + sumZ op_delta ops)) by (destruct Hr; by destruct ops).
    rewrite (rv_value _ _ Hv), i64_wrap_wrap_l. f_equal.
    change (seen (after_commit m ops tag)) with (seen m). lia.
Qed.

Lemma commit_view sv m ops tag m' w :
  replica_view sv m -> commit_ready m ops tag -> attr_is_readonly (m_attr m) = false ->
  commit_outcome m ops tag m' w -> replica_view sv m'.
Proof.
  intros Hv Hr Hro [(Hroom & -> & _)|(_ & -> & _)]; [by apply after_commit_view|by apply rolled_back_view].
Qed.

(** A commit changes nothing that packs and answers refer to. *)
Lemma commit_fixed sv m ops tag m' w : replica_view sv m -> commit_ready m ops tag ->
  commit_outcome m ops tag m' w ->
  m_attr m' = m_attr m /\ m_state m' = m_state m /\ m_checkpoint m' = m_checkpoint m /\
  exists more, unacked m' = unacked m ++ more.
Proof.
  intros Hv Hr [(Hroom & -> & _)|(_ & -> & _)]; (split_and!; try done); last first.
  { exists []. by rewrite app_nil_r. }
  destruct (commit_room m ops tag Hr Hroom) as (_ & _ & Hb & _).
  destruct (view_bounds sv m Hv) as (H0 & H1 & H2).
  eexists. unfold unacked, buffered. rewrite Hb. apply drop_app_le. simpl. unfold buffered in *. lia.
Qed.

(** ** Lemmas: creating a pack *)
Lemma own_tx_fits c txs : Forall (own_tx c) txs -> Forall tx_fits txs.
Proof. intros H. eapply Forall_impl; [exact H|]. by intros tx (_ & _ & ?). Qed.

Lemma create_pack_view sv m : replica_view sv m -> cp_cseq (m_checkpoint m) < u64_max ->
  exists p, create_push_pull_pack m = (Ok p, m, []) /\ pack_view m p /\
    (sumZ Transaction_size (unacked m) <= DEFAULT_MAX_TRANSMISSION_SIZE ->
     ppp_transactions p = unacked m) /\
    (forall tx, head (unacked m) = Some tx -> Transaction_size tx <= DEFAULT_MAX_TRANSMISSION_SIZE ->
     ppp_transactions p <> []).
Proof.
  intros Hv Hlt. destruct (view_bounds sv m Hv) as (H0 & H1 & H2).
  assert (Hadd : u64_add (cp_cseq (m_checkpoint m)) 1 = cp_cseq (m_checkpoint m) + 1).
  { apply u64_add_small. unfold is_u64, u64_max in *. lia. }
  pose proof (view_first_cseq sv m Hv).
  pose proof (own_tx_fits _ _ (rv_buffer _ _ Hv)) as Hfits.
  destruct (get_pushing_ok (cp_cseq (m_checkpoint m) + 1) DEFAULT_MAX_TRANSMISSION_SIZE (m_push_buffer m))
    as (pre & txs & post & Hb & Hpre & Hcons & Hget & Hle & Hmax); try done; try lia.
  { apply (rv_wf _ _ Hv). }
  { unfold is_u64, u64_max in *. lia. }
  assert (Hun : unacked m = txs ++ post).
  { pose proof (rv_consecutive _ _ Hv) as Hc. unfold unacked, buffered in *. rewrite Hb in *.
    assert (Hlen : length pre = Z.to_nat (cp_cseq (m_checkpoint m))).
    { destruct (decide (txs ++ post = [])) as [Hn|Hn].
      - rewrite Hn, app_nil_r in *. pose proof (view_bounds sv m Hv) as (_ & Hb1 & Hb2).
        unfold buffered in Hb2. rewrite Hb in Hb2.
        destruct (decide (length pre = Z.to_nat (cp_cseq (m_checkpoint m)))); [done|].
        destruct (pre !! Z.to_nat (cp_cseq (m_checkpoint m))) as [tx|] eqn:Hl.
        + pose proof (consecutive_lookup _ _ _ _ Hc Hl).
          rewrite Forall_lookup in Hpre. specialize (Hpre _ _ Hl). simpl in Hpre. lia.
        + apply lookup_ge_None in Hl. lia.
      - destruct (txs ++ post) as [|tx rest] eqn:Ht; [done|].
        apply consecutive_cons in Hcons as [Htx _].
        assert (Hl : (pre ++ tx :: rest) !! length pre = Some tx) by by apply list_lookup_middle.
        pose proof (consecutive_lookup _ _ _ _ Hc Hl). lia. }
    rewrite <- Hlen. apply drop_app_length. }
  unfold create_push_pull_pack. rewrite Hadd, Hget. eexists. split; [reflexivity|]. split.
  - constructor; try done; [by left|]. exists (length txs). simpl. by rewrite Hun, take_app_length.
  - split.
    + intros Hs. simpl. rewrite Hun in *. destruct post as [|tx post]; [by rewrite app_nil_r|].
      specialize (Hmax tx eq_refl). rewrite !sumZ_app, sumZ_singleton in *.
      rewrite sumZ_cons in Hs. pose proof (sumZ_size_nonneg post). lia.
    + intros tx Hhd Hs Hnil. simpl in Hnil. subst txs. rewrite Hun in Hhd.
      specialize (Hmax tx Hhd). cbn [app] in Hmax. rewrite sumZ_singleton in Hmax. lia.
Qed.

(** A pack is at most one transmission. *)
Lemma pack_size sv m p m' c : replica_view sv m -> cp_cseq (m_checkpoint m) < u64_max ->
  create_push_pull_pack m = (Ok p, m', c) ->
  sumZ Transaction_size (ppp_transactions p) <= DEFAULT_MAX_TRANSMISSION_SIZE.
Proof.
  intros Hv Hlt Hc. destruct (view_bounds sv m Hv) as (H0 & _).
  assert (Hadd : u64_add (cp_cseq (m_checkpoint m)) 1 = cp_cseq (m_checkpoint m) + 1).
  { apply u64_add_small. unfold is_u64, u64_max in *. lia. }
  pose proof (view_first_cseq sv m Hv).
  destruct (get_pushing_ok (cp_cseq (m_checkpoint m) + 1) DEFAULT_MAX_TRANSMISSION_SIZE (m_push_buffer m))
    as (pre & txs & post & _ & _ & _ & Hget & Hle & _); try done; try lia.
  { apply (rv_wf _ _ Hv). }
  { unfold is_u64, u64_max in *. lia. }
  { apply (own_tx_fits _ _ (rv_buffer _ _ Hv)). }
  unfold create_push_pull_pack in Hc. rewrite Hadd, Hget in Hc. by injection Hc as <- _ _.
Qed.

Lemma pack_push_wf sv m p : replica_view sv m -> pack_view m p -> push_wf p.
Proof.
  intros Hv Hp. destruct (pv_txs _ _ Hp) as [j Hj]. split.
  - rewrite Hj, (pv_cuid _ _ Hp). apply Forall_take, Forall_drop.
    eapply Forall_impl; [apply (rv_buffer _ _ Hv)|]. by intros tx (? & _).
  - rewrite Hj. eapply consecutive_sorted, consecutive_take, unacked_consecutive, Hv.
Qed.

Lemma pack_counter sv m p : replica_view sv m -> pack_view m p ->
  forallb counter_tx (ppp_transactions p) = true.
Proof.
  intros Hv Hp. destruct (pv_txs _ _ Hp) as [j ->].
  apply forallb_Forall_eq, Forall_take, Forall_drop.
  eapply Forall_impl; [apply (rv_buffer _ _ Hv)|]. by intros tx (_ & Hc & _).
Qed.

(** ** Lemmas: recording a push *)

(** The effect of a push on the history and on the acknowledgments. *)
Record pushed_by (m : MutableDatatype) (sv sv' : LocalDatatypeServer) : Prop := {
  pb_history : exists new, history sv' = history sv ++ new /\
    Forall (fun tx => tx_cuid tx = cuid_of m) new /\
    key <$> new `prefix_of` key <$> drop (length (own (cuid_of m) (history sv))) (buffered m);
  pb_self : cp_cseq (client_cp (cuid_of m) sv') = Z.of_nat (length (own (cuid_of m) (history sv')));
  pb_other : forall d, d <> cuid_of m -> client_cp d sv' = client_cp d sv;
  pb_type : srv_type sv' = srv_type sv;
  pb_created :
    (created sv' = created sv /\ creator sv' = creator sv /\ srv_duid sv' = srv_duid sv) \/
    (created sv = false /\ created sv' = true /\ creator sv' = cuid_of m /\
     srv_duid sv' = duid_of m);
  pb_wired : wired_map sv' = wired_map sv;
}.

Lemma Forall_stamp_cuid c s txs : Forall (fun tx => tx_cuid tx = c) txs ->
  Forall (fun tx => tx_cuid tx = c) (stamp_sseq s txs).
Proof. intros H. revert s. induction H; intros; constructor; auto. Qed.

Lemma push_accepted sv m p : server_inv sv -> replica_view sv m -> pack_view m p ->
  let n := length (own (cuid_of m) (history sv)) in
  exists j, accepted (cp_cseq (client_cp (ppp_cuid p) sv)) (ppp_transactions p) =
      take j (drop n (buffered m)) /\
    acked (cp_cseq (client_cp (ppp_cuid p) sv)) (ppp_transactions p) =
      Z.of_nat (n + length (accepted (cp_cseq (client_cp (ppp_cuid p) sv)) (ppp_transactions p))) /\
    (ppp_transactions p = unacked m ->
     accepted (cp_cseq (client_cp (ppp_cuid p) sv)) (ppp_transactions p) = drop n (buffered m)).
Proof.
  intros Hs Hv Hp n. destruct (view_bounds sv m Hv) as (H0 & H1 & H2). fold n in H1, H2.
  rewrite (pv_cuid _ _ Hp), (rv_ack _ _ Hv). fold n.
  destruct (pv_txs _ _ Hp) as [j Hj].
  destruct (accepted_consecutive (ppp_transactions p) (cp_cseq (m_checkpoint m) + 1) (Z.of_nat n))
    as [Ha Hk].
  { rewrite Hj. eapply consecutive_take, unacked_consecutive, Hv. }
  { lia. }
  set (k := Z.to_nat (cp_cseq (m_checkpoint m))) in *.
  replace (Z.to_nat (Z.of_nat n + 1 - (cp_cseq (m_checkpoint m) + 1))) with (n - k)%nat in Ha by lia.
  exists (j - (n - k))%nat. split_and!.
  - rewrite Ha, Hj. unfold unacked. fold k. by rewrite drop_take_drop.
  - rewrite Hk, Nat2Z.inj_add. done.
  - intros Hall. rewrite Ha, Hall. unfold unacked. fold k. rewrite drop_drop. f_equal. lia.
Qed.

Lemma push_pushed_by sv m p : server_inv sv -> replica_view sv m -> pack_view m p -> push_small p sv ->
  pushed_by m sv (push_transactions p sv).2.
Proof.
  intros Hs Hv Hp Hsm. rewrite (push_transactions_eq p sv (si_wf _ Hs) Hsm). cbn [snd].
  destruct (push_accepted sv m p Hs Hv Hp) as (j & Ha & Hk & _).
  pose proof (accepted_own p (cp_cseq (client_cp (ppp_cuid p) sv)) (pack_push_wf sv m p Hv Hp)) as Hown.
  set (acc := accepted _ _) in *. set (ack := acked _ _) in *.
  rewrite (pv_cuid _ _ Hp) in *.
  constructor; try done.
  - exists (stamp_sseq (srv_sseq sv) acc). split_and!; [done|by apply Forall_stamp_cuid|].
    rewrite key_stamp, Ha, fmap_take. eexists. symmetry. apply take_drop.
  - rewrite client_cp_insert, decide_True by done. cbn [cp_cseq history srv_set_log].
    rewrite own_app, own_stamp by done. by rewrite length_app, stamp_sseq_length.
  - intros d Hd. by rewrite client_cp_insert, decide_False.
  - by left.
Qed.

(** The first push of the creator also creates the datatype. *)
Lemma create_pushed_by sv m sv' : created sv = false ->
  pushed_by m (srv_set_created (duid_of m) (cuid_of m) sv) sv' -> pushed_by m sv sv'.
Proof.
  intros Hc [H1 H2 H3 H4 H5 H6]. constructor; try done. right.
  destruct H5 as [(? & ? & ?)|(? & _)]; by split_and!.
Qed.

(** Its own push keeps a replica's view. *)
Lemma pushed_self_view m sv sv' : replica_view sv m -> pushed_by m sv sv' -> replica_view sv' m.
Proof.
  intros Hv [(new & Hh & Hnew & Hpre) Hself _ Ht Hcr _].
  assert (Hseen : seen m (history sv') = seen m (history sv)).
  { rewrite Hh. apply seen_app, Hv. }
  destruct (view_bounds sv m Hv) as (_ & _ & Hlen).
  pose proof (view_own_take sv m Hv) as Hown.
  destruct Hv. constructor; rewrite ?Hseen; try done.
  - by rewrite Ht.
  - rewrite Hh, own_app. unfold own at 2. rewrite filter_all by exact Hnew.
    rewrite fmap_app, Hown. destruct Hpre as [r Hr]. exists r.
    rewrite <- app_assoc, <- Hr, <- fmap_app, take_drop. done.
  - rewrite Hh, length_app. lia.
  - intros Hst. specialize (rv_created0 Hst). destruct Hcr as [(Hcr & _)|(_ & ? & _)]; congruence.
Qed.

(** So does the push of another client. *)
Lemma pushed_other_view m d sv sv' : replica_view sv d -> pushed_by m sv sv' ->
  cuid_of d <> cuid_of m -> replica_view sv' d.
Proof.
  intros Hv [(new & Hh & Hnew & _) _ Hoth Ht Hcr _] Hne.
  assert (Hseen : seen d (history sv') = seen d (history sv)).
  { rewrite Hh. apply seen_app, Hv. }
  assert (Hown : own (cuid_of d) (history sv') = own (cuid_of d) (history sv)).
  { rewrite Hh, own_app. unfold own at 2. rewrite filter_none; [by rewrite app_nil_r|].
    eapply Forall_impl; [exact Hnew|]. simpl. congruence. }
  destruct Hv. constructor; rewrite ?Hseen, ?Hown, ?Hoth by done; try done.
  - by rewrite Ht.
  - rewrite Hh, length_app. lia.
  - intros Hst. specialize (rv_created0 Hst). destruct Hcr as [(Hcr & _)|(_ & ? & _)]; congruence.
Qed.

(** ** Lemmas: answers *)

(** The answer to a push acknowledges the whole history. *)
Lemma pushed_answer sv m p sv' : server_inv sv -> server_wf sv' -> replica_view sv m ->
  pack_view m p -> pushed_by m sv sv' ->
  let q := ppp_with p (ppp_duid p) Subscribed
             (mkCheckPoint (srv_sseq sv') (cp_cseq (client_cp (cuid_of m) sv'))) (ppp_safe_sseq p)
             (others_after (ppp_cuid p) (cp_sseq (ppp_checkpoint p)) (history sv)) None None in
  sync_answer sv' m q (length (history sv')).
Proof.
  intros Hs (_ & Hl & _) Hv Hp Hpb q. pose proof (rv_sseq _ _ Hv) as Hss.
  unfold sync_answer, q. cbn [ppp_checkpoint ppp_with ppp_transactions].
  rewrite Hl, (pb_self _ _ _ Hpb), firstn_all.
  destruct (pb_history _ _ _ Hpb) as (new & Hh & Hnew & _). split_and!.
  - done.
  - rewrite Hh, length_app. lia.
  - rewrite (pv_cuid _ _ Hp), (pv_sseq _ _ Hp).
    rewrite (others_after_drop sv) by (apply Hs || lia).
    rewrite Hh, drop_app_le by lia. rewrite others_app. unfold others at 3.
    rewrite (filter_none _ new); [by rewrite app_nil_r|].
    eapply Forall_impl; [exact Hnew|]. simpl. tauto.
Qed.

(** Answers stay valid when other clients push. *)
Lemma pushed_other_answer m d q sv sv' : pushed_by m sv sv' -> cuid_of d <> cuid_of m ->
  answer_view sv d q -> answer_view sv' d q.
Proof.
  intros Hpb Hne. unfold answer_view, round_answer. destruct (decide _) as [_|_]; [done|]. destruct (ppp_error q); [done|].
  destruct (pb_history _ _ _ Hpb) as (new & Hh & Hnew & _).
  intros (Hst & Hcr & s' & Hs' & Ha). split; [done|]. split.
  { destruct (pb_created _ _ _ Hpb) as [(? & _)|(? & _)]; congruence. }
  exists s'. split.
  { rewrite Hh, length_app. lia. }
  assert (Ht : forall n, (n <= s')%nat -> take n (history sv') = take n (history sv)).
  { intros n Hn. rewrite Hh, take_app_le; [done|lia]. }
  destruct (joins d q).
  - destruct Ha as (H1 & H3 & H4 & s0 & tx & op & ops & body & H5 & H6 & H7 & H8 & H9 & H10 & H11).
    destruct (pb_created _ _ _ Hpb) as [(_ & _ & Hd)|(? & _)]; [|congruence].
    unfold join_answer. rewrite Hd. split_and!; try done.
    + rewrite Hh, own_app, H4. unfold own. rewrite filter_none; [done|].
      eapply Forall_impl; [exact Hnew|]. simpl. congruence.
    + exists s0, tx, op, ops, body. rewrite !Ht by done. by split_and!.
  - destruct Ha as (H1 & H2 & H3). unfold sync_answer. rewrite !Ht by done. by split_and!.
Qed.

Lemma set_created_view d c sv m : replica_view sv m -> replica_view (srv_set_created d c sv) m.
Proof. intros []. by constructor. Qed.

(** ** Lemmas: applying an answer *)
Lemma alive_expected st : alive st = true -> expected_state st = Some Subscribed.
Proof. by destruct st. Qed.

Lemma no_duplicates m q s k s' k' :
  m_checkpoint m = mkCheckPoint s k -> ppp_checkpoint q = mkCheckPoint s' k' ->
  0 <= s <= s' -> 0 <= k <= k' -> s' <= u64_max -> k' - k <= s' - s ->
  Z.of_nat (length (ppp_transactions q)) <= (s' - s) - (k' - k) ->
  new_transactions m q = ppp_transactions q.
Proof.
  intros Hm Hq Hs Hk Hmax Hle Hlen. unfold new_transactions, duplicates, calculate_pulling_transactions.
  rewrite Hm, Hq. cbn [cp_sseq cp_cseq]. unfold u64_max in *.
  rewrite (u64_sub_small s' s), (u64_sub_small k' k), u64_sub_small by (unfold is_u64; lia).
  replace (_ - _)%nat with 0%nat by lia. by rewrite drop_0.
Qed.

Lemma synced_wf q m : mutable_wf m -> forallb counter_tx (ppp_transactions q) = true ->
  mutable_wf (m_put_state Subscribed (synced q m)).
Proof.
  intros (H1 & H2 & H3 & H4 & H5 & H6 & H7 & H8) Hc. unfold mutable_wf. split_and!; try done.
  simpl. unfold crdt_wf. change (is_i64 (crdt_value (m_crdt (synced q m)))).
  rewrite synced_value by done. apply i64_wrap_range.
Qed.

(** The sums on both sides of an acknowledgment. *)
Lemma view_own_sum sv m n : replica_view sv m ->
  sumZ tx_delta (own (cuid_of m) (take n (history sv))) =
  sumZ tx_delta (take (length (own (cuid_of m) (take n (history sv)))) (buffered m)).
Proof.
  intros Hv. rewrite <- !sumZ_key. f_equal. by apply view_own_prefix.
Qed.

Lemma seen_split (h : list Transaction) s s' : (s <= s')%nat ->
  take s' h = take s h ++ drop s (take s' h).
Proof.
  intros Hs. rewrite <- (take_drop s (take s' h)) at 1. by rewrite take_take, Nat.min_l.
Qed.

Lemma own_between sv m s' : replica_view sv m ->
  (Z.to_nat (cp_sseq (m_checkpoint m)) <= s')%nat ->
  let k' := length (own (cuid_of m) (take s' (history sv))) in
  let between := drop (Z.to_nat (cp_sseq (m_checkpoint m))) (take s' (history sv)) in
  (Z.to_nat (cp_cseq (m_checkpoint m)) + length (own (cuid_of m) between) = k')%nat /\
  sumZ tx_delta (own (cuid_of m) between) + sumZ tx_delta (drop k' (buffered m)) =
    sumZ tx_delta (unacked m).
Proof.
  intros Hv Hs k' between. pose proof (rv_cp _ _ Hv) as Hcp.
  assert (Hsplit : own (cuid_of m) (take s' (history sv)) =
    own (cuid_of m) (seen m (history sv)) ++ own (cuid_of m) between).
  { rewrite <- own_app. f_equal. by apply seen_split. }
  split.
  - unfold k'. rewrite Hsplit, length_app. lia.
  - pose proof (view_own_sum sv m s' Hv) as H1.
    pose proof (view_own_sum sv m (Z.to_nat (cp_sseq (m_checkpoint m))) Hv) as H2.
    fold (seen m (history sv)) in H2. fold k' in H1.
    rewrite Hsplit, sumZ_app in H1. unfold unacked. rewrite Hcp, Nat2Z.id.
    pose proof (sumZ_take_drop tx_delta k' (buffered m)).
    pose proof (sumZ_take_drop tx_delta (length (own (cuid_of m) (seen m (history sv)))) (buffered m)).
    lia.
Qed.

Lemma sync_answer_applied sv m q s' : server_inv sv -> replica_view sv m ->
  alive (m_state m) = true -> ppp_error q = None -> ppp_state q = Subscribed ->
  created sv = true -> joins m q = false -> (s' <= length (history sv))%nat -> sync_answer sv m q s' ->
  exists w, let m' := m_put_state Subscribed (synced q m) in
    apply_pulled q m = (Ok tt, m', w) /\ replica_view sv m' /\
    m_checkpoint m' = ppp_checkpoint q.
Proof.
  intros Hs Hv Ha He Hst Hcr Hj Hs' (Hcp & Hle & Htxs).
  assert (Hc : forallb counter_tx (ppp_transactions q) = true).
  { rewrite Htxs. apply forallb_Forall_eq, Forall_forall. intros tx [_ Hin]%list_elem_of_filter.
    pose proof (si_counter _ Hs) as Hall. rewrite forallb_Forall_eq, Forall_forall in Hall.
    apply Hall. rewrite <- (take_drop s' (history sv)). apply elem_of_app. left.
    rewrite <- (take_drop (Z.to_nat (cp_sseq (m_checkpoint m))) (take s' (history sv))).
    apply elem_of_app. by right. }
  destruct (own_between sv m s' Hv Hle) as [Hlen Hsum].
  set (k' := length (own (cuid_of m) (take s' (history sv)))) in *.
  set (between := drop (Z.to_nat (cp_sseq (m_checkpoint m))) (take s' (history sv))) in *.
  pose proof (rv_sseq _ _ Hv) as Hss. pose proof (view_bounds sv m Hv) as (Hk0 & _).
  assert (Hbl : length between = (s' - Z.to_nat (cp_sseq (m_checkpoint m)))%nat).
  { unfold between. rewrite length_drop, length_take. lia. }
  pose proof (own_others_length (cuid_of m) between) as Hol.
  assert (Hmax : Z.of_nat s' <= u64_max).
  { destruct (si_wf _ Hs) as (_ & Hl & Hm & _). lia. }
  assert (Hnew : new_transactions m q = ppp_transactions q).
  { destruct (m_checkpoint m) as [s k] eqn:Hmc. simpl in *.
    apply (no_duplicates m q s k (Z.of_nat s') (Z.of_nat k')); rewrite ?Htxs; try done; lia. }
  destruct (apply_pulled_accepted q m He) as [Hok _]; [rewrite Hst; by apply alive_expected|done|].
  destruct (Hok m []) as [w Hw]; [unfold join; by rewrite Hj|].
  exists w. cbv zeta. rewrite Hw, Hst. split; [done|].
  assert (Hchk : m_checkpoint (m_put_state Subscribed (synced q m)) = ppp_checkpoint q).
  { simpl. unfold CheckPoint_check_with. rewrite Hcp. cbn [cp_sseq cp_cseq]. f_equal; lia. }
  split; [|exact Hchk].
  assert (Hseen : seen (m_put_state Subscribed (synced q m)) (history sv) = take s' (history sv)).
  { unfold seen. rewrite Hchk, Hcp. cbn [cp_sseq]. by rewrite Nat2Z.id. }
  assert (Hun : unacked (m_put_state Subscribed (synced q m)) = drop k' (buffered m)).
  { unfold unacked. rewrite Hchk, Hcp. cbn [cp_cseq]. by rewrite Nat2Z.id. }
  pose proof (synced_wf q m (rv_wf _ _ Hv) Hc) as Hwf'.
  constructor; rewrite ?Hseen, ?Hun; try exact Hwf'; try apply Hv; try done.
  - rewrite Hchk, Hcp. cbn [cp_sseq]. lia.
  - rewrite Hchk, Hcp. done.
  - change (crdt_value (m_crdt (m_put_state Subscribed (synced q m))))
      with (crdt_value (m_crdt (synced q m))).
    rewrite synced_value by (apply Hv || done).
    rewrite Hnew, Htxs, (rv_value _ _ Hv), i64_wrap_wrap_l. f_equal.
    rewrite (seen_split (history sv) (Z.to_nat (cp_sseq (m_checkpoint m))) s') by done.
    fold between. fold (seen m (history sv)).
    rewrite sumZ_app, (own_others (cuid_of m) between). lia.
Qed.

(** The datatype after the snapshot of a join. *)
Definition snapshot_installed (q : PushPullPack) (tx : Transaction) (m : MutableDatatype)
    : MutableDatatype :=
  m_set_attr (Attribute_set_duid (ppp_duid q) (m_attr m))
    (final (Mutable_apply_snapshot_transaction tx m)).

Lemma join_answer_applied sv m q s' : server_inv sv -> replica_view sv m ->
  alive (m_state m) = true -> joined (m_state m) = false -> ppp_error q = None ->
  ppp_state q = Subscribed -> created sv = true -> joins m q = true -> (s' <= length (history sv))%nat ->
  join_answer sv m q s' ->
  exists m' w, apply_pulled q m = (Ok tt, m', w) /\ replica_view sv m' /\
    m_attr m' = Attribute_set_duid (srv_duid sv) (m_attr m) /\ m_state m' = Subscribed /\
    m_checkpoint m' = mkCheckPoint (Z.of_nat s') 0 /\ buffered m' = [].
Proof.
  intros Hs Hv Ha Hns He Hst Hcr Hj Hs' (Hd & Hcp & Hown & s0 & tx & op & ops & body & Hle & Hsn & Ho & Hb & Hl & Hval & Htxs).
  assert (Hc : forallb counter_tx (ppp_transactions q) = true).
  { rewrite Htxs. apply forallb_drop. pose proof (si_counter _ Hs) as Hall.
    rewrite forallb_Forall_eq in *. by apply Forall_take. }
  pose proof (apply_snapshot_ok tx op ops body m Ho Hb Hl) as Hsnap.
  set (m1 := snapshot_installed q tx m).
  assert (Hm1 : m1 = m_set_attr (Attribute_set_duid (ppp_duid q) (m_attr m))
    (final (Mutable_apply_snapshot_transaction tx m))) by done.
  rewrite Hsnap in Hm1. cbn [final fst snd] in Hm1.
  assert (Hm0 : m1 = snapshot_installed q tx m) by done. clearbody m1.
  destruct (apply_pulled_accepted q m He) as [Hok _]; [rewrite Hst; by apply alive_expected|done|].
  destruct (Hok m1 []) as [w Hw].
  { unfold join, join_step. rewrite Hj, Hsn. erewrite M_bind_Ok; last first.
    { unfold with_mapping. rewrite Hsnap. reflexivity. }
    by rewrite Hm1. }
  exists (m_put_state Subscribed (synced q m1)), w. rewrite Hw, Hst. split; [done|].
  pose proof (rv_fresh _ _ Hv Hns) as Hfresh.
  assert (Hmc : m_checkpoint m1 = mkCheckPoint 0 0) by (rewrite Hm1; simpl; by rewrite Hfresh).
  assert (Hmax : Z.of_nat s' <= u64_max).
  { destruct (si_wf _ Hs) as (_ & Hl' & Hm & _). lia. }
  assert (Hnew : new_transactions m1 q = ppp_transactions q).
  { apply (no_duplicates m1 q 0 0 (Z.of_nat s') 0); try done; try lia.
    rewrite Htxs, length_drop, length_take. lia. }
  assert (Hchk : m_checkpoint (m_put_state Subscribed (synced q m1)) = mkCheckPoint (Z.of_nat s') 0).
  { simpl. rewrite Hmc, Hcp. unfold CheckPoint_check_with. simpl. f_equal; lia. }
  assert (Hattr : m_attr (m_put_state Subscribed (synced q m1)) = Attribute_set_duid (srv_duid sv) (m_attr m)).
  { rewrite <- Hd. by rewrite Hm1. }
  assert (Hbuf : buffered (m_put_state Subscribed (synced q m1)) = []) by by rewrite Hm1.
  split; [|by split_and!].
  destruct (own_sub_nil _ _ s' Hown) as [Hown' _].
  assert (Hcuid : cuid_of (m_put_state Subscribed (synced q m1)) = cuid_of m).
  { unfold cuid_of. by rewrite Hattr. }
  assert (Hwf1 : mutable_wf m1).
  { pose proof (apply_snapshot_wf tx m (rv_wf _ _ Hv)) as Hw1. rewrite Hsnap in Hw1. rewrite Hm1.
    destruct Hw1 as (? & ? & ? & ? & ? & ? & ? & ?). unfold mutable_wf. by split_and!. }
  constructor; rewrite ?Hchk, ?Hbuf, ?Hcuid; unfold seen, unacked; rewrite ?Hchk, ?Hbuf, ?Hown, ?Hcuid; try done.
  - by apply synced_wf.
  - by rewrite Hm1.
  - rewrite Hattr. apply Hv.
  - by rewrite Hm1.
  - rewrite (rv_ack _ _ Hv). by rewrite Hown.
  - simpl. lia.
  - cbn [cp_sseq cp_cseq]. by rewrite Nat2Z.id, Hown'.
  - change (crdt_value (m_crdt (m_put_state Subscribed (synced q m1))))
      with (crdt_value (m_crdt (synced q m1))).
    rewrite synced_value by (apply Hwf1 || done). rewrite Hnew, Htxs.
    replace (crdt_value (m_crdt m1)) with (i64_from_le_bytes (snap_data body)) by by rewrite Hm1.
    rewrite Hval, i64_wrap_wrap_l, drop_nil, sumZ_nil. cbn [cp_sseq]. rewrite Nat2Z.id.
    pose proof (sumZ_take_drop tx_delta s0 (take s' (history sv))) as Hsp.
    rewrite take_take, Nat.min_l in Hsp by done. f_equal. lia.
Qed.

(** A refusal disables the replica. *)
Lemma refused_answer_applied m q e :
  ppp_error q = Some e -> ppp_state q = Disabled ->
  exists dewa w, apply_pulled q m = (Err dewa, m_put_state Disabled m, w) /\
    (recovery dewa = Disable \/ recovery dewa = RetryWithBackOff).
Proof.
  intros He Hst.
  assert (exists x, routed (DatatypeError_mapping (PushPullError_to_datatype_error e)) =
    @Err DatatypeErrorWithAction unit x /\ (recovery x = Disable \/ recovery x = RetryWithBackOff))
    as (x & Hx & Hr) by (destruct e; eexists; (split; [reflexivity|]); auto).
  exists x. eexists. split; [|exact Hr]. rewrite <- Hst. apply apply_pulled_refused.
  unfold handle_error_and_datatype_state, mbind, M_bind, modify, get, lift; simpl.
  by rewrite He, Hx.
Qed.

(** ** Lemmas: the server's handlers *)

(** The replica has never pushed and the server's datatype is not its own. *)
Definition unpublished (sv : LocalDatatypeServer) (m : MutableDatatype) : Prop :=
  own (cuid_of m) (history sv) = [] /\ (created sv = true -> srv_duid sv <> duid_of m).

Lemma push_server_inv sv m p : server_inv sv -> replica_view sv m -> pack_view m p ->
  push_small p sv -> created sv = true -> server_inv (push_transactions p sv).2.
Proof.
  intros Hs Hv Hp Hsm Hcr. constructor.
  - apply push_transactions_wf; [apply Hs|by eapply pack_push_wf|done].
  - rewrite (push_transactions_eq p sv (si_wf _ Hs) Hsm). cbn [snd history srv_set_log].
    rewrite forallb_app, (si_counter _ Hs). apply counter_stamp.
    apply forallb_Forall_eq, Forall_forall. intros tx [Hin _]%accepted_In.
    pose proof (pack_counter sv m p Hv Hp) as Hc. rewrite forallb_Forall_eq, Forall_forall in Hc. auto.
  - rewrite (push_transactions_eq p sv (si_wf _ Hs) Hsm). simpl. congruence.
Qed.

Lemma pushed_all sv m p : server_inv sv -> replica_view sv m -> pack_view m p -> push_small p sv ->
  ppp_transactions p = unacked m ->
  length (own (cuid_of m) (history (push_transactions p sv).2)) = length (buffered m).
Proof.
  intros Hs Hv Hp Hsm Hall. destruct (push_accepted sv m p Hs Hv Hp) as (_ & _ & _ & Ha).
  specialize (Ha Hall).
  pose proof (accepted_own p (cp_cseq (client_cp (ppp_cuid p) sv)) (pack_push_wf sv m p Hv Hp)) as Hown.
  rewrite (push_transactions_eq p sv (si_wf _ Hs) Hsm). cbn [snd history srv_set_log].
  rewrite Ha in *. rewrite (pv_cuid _ _ Hp) in Hown.
  rewrite own_app, own_stamp by done. rewrite length_app, stamp_sseq_length, length_drop.
  destruct (view_bounds sv m Hv) as (_ & _ & ?). lia.
Qed.

(** After a push the history has at least the pushed transactions. *)
Lemma pushed_length sv m p : server_inv sv -> replica_view sv m -> pack_view m p -> push_small p sv ->
  let sv' := (push_transactions p sv).2 in
  (Z.to_nat (cp_cseq (m_checkpoint m)) + length (ppp_transactions p)
     <= length (own (cuid_of m) (history sv')))%nat /\
  (length (own (cuid_of m) (history sv')) + length (history sv)
     = length (own (cuid_of m) (history sv)) + length (history sv'))%nat.
Proof.
  intros Hs Hv Hp Hsm. destruct (view_bounds sv m Hv) as (H0 & H1 & H2).
  destruct (accepted_consecutive (ppp_transactions p) (cp_cseq (m_checkpoint m) + 1)
    (cp_cseq (client_cp (ppp_cuid p) sv))) as [Ha _].
  { destruct (pv_txs _ _ Hp) as [j ->]. eapply consecutive_take, unacked_consecutive, Hv. }
  { rewrite (pv_cuid _ _ Hp), (rv_ack _ _ Hv). lia. }
  pose proof (accepted_own p (cp_cseq (client_cp (ppp_cuid p) sv)) (pack_push_wf sv m p Hv Hp)) as Hown.
  rewrite (push_transactions_eq p sv (si_wf _ Hs) Hsm). cbn [snd history srv_set_log].
  set (acc := accepted _ _) in *. rewrite (pv_cuid _ _ Hp) in Hown.
  rewrite own_app, own_stamp by done. rewrite !length_app, stamp_sseq_length. split; [|lia].
  rewrite Ha, length_drop, (pv_cuid _ _ Hp), (rv_ack _ _ Hv). lia.
Qed.

(** Exactly: what it had, or the sent transactions if these reach further. *)
Lemma pushed_exact sv m p : server_inv sv -> replica_view sv m -> pack_view m p -> push_small p sv ->
  length (own (cuid_of m) (history (push_transactions p sv).2)) =
  Nat.max (length (own (cuid_of m) (history sv)))
    (Z.to_nat (cp_cseq (m_checkpoint m)) + length (ppp_transactions p)).
Proof.
  intros Hs Hv Hp Hsm. destruct (view_bounds sv m Hv) as (H0 & H1 & H2).
  destruct (accepted_consecutive (ppp_transactions p) (cp_cseq (m_checkpoint m) + 1)
    (cp_cseq (client_cp (ppp_cuid p) sv))) as [Ha _].
  { destruct (pv_txs _ _ Hp) as [j ->]. eapply consecutive_take, unacked_consecutive, Hv. }
  { rewrite (pv_cuid _ _ Hp), (rv_ack _ _ Hv). lia. }
  pose proof (accepted_own p (cp_cseq (client_cp (ppp_cuid p) sv)) (pack_push_wf sv m p Hv Hp)) as Hown.
  rewrite (push_transactions_eq p sv (si_wf _ Hs) Hsm). cbn [snd history srv_set_log].
  set (acc := accepted _ _) in *. rewrite (pv_cuid _ _ Hp) in Hown.
  rewrite own_app, own_stamp by done. rewrite length_app, stamp_sseq_length.
  rewrite Ha, length_drop, (pv_cuid _ _ Hp), (rv_ack _ _ Hv). lia.
Qed.

Lemma pack_readonly sv m p : replica_view sv m -> pack_view m p ->
  ppp_is_readonly p = true -> ppp_transactions p = [].
Proof.
  intros Hv Hp Hro. rewrite (pv_readonly _ _ Hp) in Hro. destruct (pv_txs _ _ Hp) as [j ->].
  unfold unacked. by rewrite (rv_readonly _ _ Hv Hro), drop_nil, take_nil.
Qed.

Lemma push_ack sv p : server_wf sv -> push_small p sv ->
  acked (cp_cseq (client_cp (ppp_cuid p) sv)) (ppp_transactions p) =
  cp_cseq (client_cp (ppp_cuid p) (push_transactions p sv).2).
Proof.
  intros Hs Hsm. rewrite (push_transactions_eq p sv Hs Hsm). cbn [snd].
  by rewrite client_cp_insert, decide_True.
Qed.

Lemma serve_subscribed sv m p rt : server_inv sv -> replica_view sv m -> pack_view m p ->
  push_small p sv -> wired_map sv !! cuid_of m <> None ->
  let sv' := (push_transactions p sv).2 in
  exists q w, process_subscribed p rt sv = (Ok q, sv', w) /\
    ppp_error q = None /\ ppp_state q = Subscribed /\
    sync_answer sv' m q (length (history sv')).
Proof.
  intros Hs Hv Hp Hsm Hw sv'. pose proof (pack_push_wf sv m p Hv Hp) as Hpw.
  pose proof (process_client_push_answer p Subscribed rt sv (si_wf _ Hs) Hpw Hsm (pack_readonly sv m p Hv Hp)) as Ha.
  cbv zeta in Ha. fold sv' in Ha.
  unfold process_subscribed. do 2 eexists. split.
  { erewrite M_bind_Ok by reflexivity. rewrite (pv_cuid _ _ Hp), bool_decide_false by done.
    rewrite bool_decide_true by (rewrite (pv_type _ _ Hp); symmetry; apply Hv).
    cbn [negb]. rewrite Ha. reflexivity. }
  split; [done|]. split; [done|].
  rewrite (push_ack sv p (si_wf _ Hs) Hsm). fold sv'. rewrite (pv_cuid _ _ Hp) at 1.
  apply (pushed_answer sv m p sv' Hs); try done.
  - by apply push_transactions_wf; [apply Hs|..].
  - by apply push_pushed_by.
Qed.

Lemma refused_view e p sv m : answer_view sv m (refuse e (PushPullPack_get_pulled_stub p)).
Proof. unfold answer_view. by destruct (decide _). Qed.

Lemma serve_creating sv m p : server_inv sv -> replica_view sv m -> pack_view m p ->
  push_small p sv -> unpublished sv m ->
  m_state m = Creating \/ (m_state m = SubscribingOrCreating /\ created sv = false) ->
  exists q sv' w, process_creating p sv = (Ok q, sv', w) /\
    (sv' = sv \/ pushed_by m sv sv' /\ server_inv sv') /\ answer_view sv' m q.
Proof.
  intros Hs Hv Hp Hsm [Hown Hun] Hst. unfold process_creating.
  destruct (created sv) eqn:Hcr; cbn [andb].
  { do 3 eexists. split; [|split; [by left|apply refused_view]].
    erewrite M_bind_Ok by reflexivity. rewrite Hcr. rewrite bool_decide_false; [reflexivity|].
    rewrite (pv_duid _ _ Hp). by apply Hun. }
  destruct (ppp_is_readonly p) eqn:Hro.
  { do 3 eexists. split; [|split; [by left|apply refused_view]].
    erewrite M_bind_Ok by reflexivity. rewrite Hcr. cbn [andb ppp_is_readonly ppp_with PushPullPack_get_pulled_stub].
    by rewrite Hro. }
  set (sv0 := srv_set_created (duid_of m) (cuid_of m) sv).
  assert (Hs0 : server_inv sv0) by (destruct Hs; by constructor).
  pose proof (set_created_view (duid_of m) (cuid_of m) sv m Hv) as Hv0. fold sv0 in Hv0.
  assert (Hsm0 : push_small p sv0) by done.
  pose proof (push_pushed_by sv0 m p Hs0 Hv0 Hp Hsm0) as Hpb.
  pose proof (push_server_inv sv0 m p Hs0 Hv0 Hp Hsm0 eq_refl) as Hs'.
  pose proof (push_ack sv0 p (si_wf _ Hs0) Hsm0) as Hack.
  set (sv' := (push_transactions p sv0).2) in *.
  assert (Hpt : push_transactions p sv0 =
    (cp_cseq (client_cp (cuid_of m) sv'), (push_transactions p sv0).1.2, sv')).
  { unfold sv'. rewrite <- (pv_cuid _ _ Hp). fold sv'. rewrite <- Hack.
    pose proof (push_transactions_eq p sv0 (si_wf _ Hs0) Hsm0) as Heq. cbv zeta in Heq.
    unfold sv'. by rewrite Heq. }
  eexists _, sv', _. split.
  { erewrite M_bind_Ok by reflexivity. rewrite Hcr.
    cbn [andb ppp_is_readonly ppp_with PushPullPack_get_pulled_stub]. rewrite Hro.
    rewrite (pv_duid _ _ Hp), (pv_cuid _ _ Hp).
    erewrite M_bind_Ok by reflexivity. fold sv0. unfold do_push_transactions.
    erewrite M_bind_Ok by (rewrite Hpt; reflexivity).
    reflexivity. }
  split; [right; split; [|done]; by apply create_pushed_by|].
  unfold answer_view, round_answer. rewrite decide_False by (by destruct Hst as [->|[-> _]]).
  split; [done|]. split; [by destruct (pb_created _ _ _ Hpb) as [(-> & _)|(? & _)]|].
  exists (length (history sv')). split; [done|].
  assert (joins m _ = false) as ->.
  { unfold joins. destruct Hst as [->|[-> _]]; [done|]. cbn [ppp_duid ppp_set_state ppp_with].
    apply negb_false_iff, bool_decide_eq_true. cbn. apply Hp. }
  assert (Hfr : m_checkpoint m = CheckPoint_default).
  { apply (rv_fresh _ _ Hv). by destruct Hst as [->|[-> _]]. }
  unfold sync_answer. cbn [ppp_checkpoint ppp_with ppp_set_state ppp_set_cp_cseq ppp_set_cp_sseq ppp_transactions PushPullPack_get_pulled_stub cp_sseq].
  rewrite (pb_self _ _ _ Hpb), firstn_all, Hfr. split_and!; [|simpl; lia|].
  - f_equal. apply Hs'.
  - simpl. rewrite drop_0. destruct (pb_history _ _ _ Hpb) as (new & -> & Hnew & _).
    change (history sv0) with (history sv). rewrite (si_created _ Hs Hcr). cbn [app].
    unfold others. rewrite filter_none; [done|]. eapply Forall_impl; [exact Hnew|]. simpl. tauto.
Qed.

(** The snapshot of a replica without unacknowledged transactions. *)
Lemma snapshot_of_settled sv m now : replica_view sv m -> unacked m = [] ->
  exists op, tx_operations (get_subscribe_snapshot now m) = [op] /\
  exists body, op_body op = Snapshot body /\ length (snap_data body) = 8%nat /\
    i64_from_le_bytes (snap_data body) = i64_wrap (sumZ tx_delta (seen m (history sv))).
Proof.
  intros Hv Hun. eexists. split; [reflexivity|]. eexists. split; [reflexivity|]. split.
  - destruct (m_crdt m) as [c]. apply le_split_length.
  - pose proof (rv_value _ _ Hv) as Hval. rewrite Hun, sumZ_nil, Z.add_0_r in Hval.
    rewrite <- Hval. destruct (m_crdt m) as [c] eqn:Hc. simpl.
    apply (i64_bytes_roundtrip (value c)).
    destruct Hv as [Hwf]. destruct Hwf as [Hwf _]. by rewrite Hc in Hwf.
Qed.

Lemma serve_subscribing snap sv m p ck mk now : server_inv sv -> replica_view sv m ->
  pack_view m p -> unpublished sv m ->
  (m_state m = Subscribing \/ m_state m = SubscribingOrCreating) ->
  (created sv = true -> wired_map sv !! creator sv = Some ck /\
     snap ck = get_subscribe_snapshot now mk /\ replica_view sv mk /\ unacked mk = []) ->
  exists q, process_subscribing snap p sv = (Ok q, sv, []) /\ answer_view sv m q.
Proof.
  intros Hs Hv Hp [Hown Hun] Hst Hck. unfold process_subscribing.
  destruct (created sv) eqn:Hcr; last first.
  { eexists. split; [|apply refused_view]. erewrite M_bind_Ok by reflexivity. by rewrite Hcr. }
  destruct (Hck eq_refl) as (Hw & Hsn & Hvk & Huk).
  destruct (decide (ppp_transactions p = [])) as [Hx|Hx]; last first.
  { eexists. split; [|apply refused_view]. erewrite M_bind_Ok by reflexivity. rewrite Hcr. cbn [negb].
    rewrite bool_decide_true by (rewrite (pv_type _ _ Hp); symmetry; apply Hv). cbn [negb].
    rewrite bool_decide_false by done. reflexivity. }
  eexists. split.
  { erewrite M_bind_Ok by reflexivity. rewrite Hcr. cbn [negb].
    rewrite bool_decide_true by (rewrite (pv_type _ _ Hp); symmetry; apply Hv). cbn [negb].
    rewrite bool_decide_true by done. cbn [negb]. unfold get_creator_wired_datatype. rewrite Hw.
    cbv zeta. reflexivity. }
  unfold answer_view. rewrite decide_False by (by destruct Hst as [-> | ->]).
  unfold round_answer. cbn -[joins join_answer sync_answer]. split; [done|]. split; [done|].
  exists (length (history sv)). split; [done|].
  assert (joins m _ = true) as ->.
  { unfold joins. destruct Hst as [->| ->]; [done|]. cbn. apply negb_true_iff, bool_decide_eq_false.
    by apply Hun. }
  destruct (snapshot_of_settled sv mk now Hvk Huk) as (op & Ho & body & Hb & Hl & Hval).
  pose proof (rv_sseq _ _ Hvk) as Hss.
  unfold join_answer. cbn -[get_subscribe_snapshot filter]. rewrite Hsn. split_and!; try done.
  - f_equal. apply Hs.
  - exists (Z.to_nat (cp_sseq (m_checkpoint mk))), (get_subscribe_snapshot now mk), op, [], body.
    split_and!; try done; [lia|].
    change (tx_sseq (get_subscribe_snapshot now mk)) with (cp_sseq (m_checkpoint mk)).
    rewrite (pv_cuid _ _ Hp). fold (others_after (cuid_of m) (cp_sseq (m_checkpoint mk)) (history sv)).
    rewrite (others_after_drop sv) by (apply Hs || lia). rewrite firstn_all.
    apply others_no_own. by apply own_sub_nil.
Qed.

(** ** Lemmas: leaving *)

(** The end of a refused answer in the event loop is in [System.receive_answer]. *)
Lemma illegal_answer_applied m q : m_state m = Unsubscribing ->
  ppp_error q = None -> ppp_state q = Subscribed ->
  exists dewa w, apply_pulled q m = (Err dewa, m_put_state Disabled m, w) /\ recovery dewa = Disable.
Proof.
  intros Hm He Hst.
  eexists (DatatypeErrorWithAction_new (ServerRejected (Rej_ProtocolViolation
    ("illegal state from push-pull: received " +:+ DatatypeState_to_string Subscribed
     +:+ " for " +:+ DatatypeState_to_string Unsubscribing))) Disable), _.
  split; [|done]. apply apply_pulled_refused.
  unfold handle_error_and_datatype_state, expect_state, process_illegal_state_response, mbind,
    M_bind, modify, get, lift, PullHandler_new; cbn -[decide].
  rewrite He, Hm. cbn -[decide]. by rewrite Hst, decide_True.
Qed.

Lemma leaving_answer_applied m q : m_state m = Unsubscribing ->
  ppp_error q = None -> ppp_state q = Disabled -> forallb counter_tx (ppp_transactions q) = true ->
  exists w, apply_pulled q m = (Ok tt, m_put_state Disabled (synced q m), w).
Proof.
  intros Hm He Hst Hc.
  destruct (apply_pulled_accepted q m He) as [Hok _]; [by rewrite Hm, Hst|done|].
  destruct (Hok m []) as [w Hw]; [unfold join, joins; by rewrite Hm|].
  exists w. by rewrite Hw, Hst.
Qed.

(** An answer to a live replica is one that it can take while leaving. *)
Lemma round_answer_leaving sv m q : round_answer sv m q -> leaving_answer q.
Proof.
  unfold round_answer, leaving_answer. destruct (ppp_error q); [done|]. intros (? & _). by left.
Qed.

Lemma unsubscribed_same fk c sv :
  history (unsubscribed fk c sv) = history sv /\ cseq_map (unsubscribed fk c sv) = cseq_map sv /\
  created (unsubscribed fk c sv) = created sv /\ srv_type (unsubscribed fk c sv) = srv_type sv /\
  srv_duid (unsubscribed fk c sv) = srv_duid sv /\ srv_sseq (unsubscribed fk c sv) = srv_sseq sv.
Proof. unfold unsubscribed. destruct (decide _); [destruct (fk _)|]; done. Qed.

Lemma unsubscribed_view fk c sv m : replica_view sv m -> replica_view (unsubscribed fk c sv) m.
Proof.
  intros []. destruct (unsubscribed_same fk c sv) as (Hh & Hm & Hc & Ht & _).
  constructor; unfold client_cp in *; rewrite ?Hh, ?Hm, ?Hc, ?Ht; done.
Qed.

Lemma unsubscribed_answer fk c sv m q : answer_view sv m q -> answer_view (unsubscribed fk c sv) m q.
Proof.
  destruct (unsubscribed_same fk c sv) as (Hh & _ & Hc & _ & Hd & _).
  unfold answer_view, round_answer, join_answer, sync_answer. by rewrite Hh, Hc, Hd.
Qed.

Lemma unsubscribed_inv fk c sv : server_inv sv -> server_inv (unsubscribed fk c sv).
Proof.
  intros []. destruct (unsubscribed_same fk c sv) as (Hh & _ & Hc & _).
  constructor; rewrite ?Hh, ?Hc; try done. by apply unsubscribed_wf.
Qed.

(** The unsubscription of a registered client records its push first. *)
Lemma serve_unsubscribing fk sv m p rt : server_inv sv -> replica_view sv m -> pack_view m p ->
  push_small p sv -> wired_map sv !! cuid_of m <> None ->
  let sv' := (push_transactions p sv).2 in
  exists q w, process_unsubscribing fk p rt sv = (Ok q, unsubscribed fk (cuid_of m) sv', w) /\
    ppp_error q = None /\ ppp_state q = Disabled /\ leaving_answer q.
Proof.
  intros Hs Hv Hp Hsm Hw sv'. pose proof (pack_push_wf sv m p Hv Hp) as Hpw.
  pose proof (process_client_push_answer p Disabled rt sv (si_wf _ Hs) Hpw Hsm (pack_readonly sv m p Hv Hp)) as Ha.
  cbv zeta in Ha. fold sv' in Ha.
  destruct (process_unsubscribing_eq fk p rt sv) as (q & w & Hq & Hpr).
  { by rewrite (pv_cuid _ _ Hp). }
  rewrite Ha in Hq, Hpr. cbn [final fst snd] in Hq, Hpr. rewrite (pv_cuid _ _ Hp) in Hpr.
  injection Hq as Hq _. exists q, w. split; [exact Hpr|]. subst q.
  split; [done|]. split; [done|]. right. split; [done|].
  cbn [ppp_transactions ppp_with]. pose proof (si_counter _ Hs) as Hall.
  rewrite forallb_Forall_eq, Forall_forall in *.
  intros tx [_ Hin]%list_elem_of_filter. by apply Hall.
Qed.

(** The unsubscription of a client that is not registered. *)
Lemma serve_unregistered fk sv p rt : wired_map sv !! ppp_cuid p = None ->
  exists q, process_unsubscribing fk p rt sv = (Ok q, sv, []) /\ leaving_answer q.
Proof.
  intros Hw. eexists. split.
  - unfold process_unsubscribing. erewrite M_bind_Ok by reflexivity. by rewrite bool_decide_true.
  - by right.
Qed.
