(* ===== verification/System.v ===== *)
(** * Several replicas and one server

    The replicas of one resource on a [LocalConnectivity], as a transition
    system.  A synchronization round ([WiredDatatype::do_push_pull]) takes the
    replica's lock twice and the server's lock once, so it is three steps, and
    the steps of all replicas and the commits of their users interleave freely.
    A phase says how far the round of a replica has come; a replica runs one
    round at a time because its event loop is one thread.

    The transitions are the functions of the code: registration, commits,
    unsubscription at any moment, the three steps of a round, and the loss of a
    round; aborted transactions, handlers, disabled datatypes and the datatypes of
    other resources change nothing that the replicas share. A replica may leave
    while others work; the creator's place is taken over, and with the last client
    the server forgets the resource, which can then be created again. The side
    conditions exclude: a subscription while the creator has transactions of its own
    that are not acknowledged ([Runs.unsettled_snapshot_counts_twice] shows why),
    lost answers to the first request (see [Server.process_creating_answer]), a
    client that comes back with its old identifier (see
    [Server.resubscribed_client_loses_writes]), rollbacks that overlap a round (see
    [Mutable.rollback_reverts_concurrent_changes]), and overflow of the 64-bit
    sequence numbers. *)

From Stdlib Require Import Strings.Byte Sorting.Sorted.
From S2P Require Import Prelude Types Errors Operations Crdts PushBuffer Pack Handler Mutable Transactional PullHandler Server Connectivity Wired Replica.

(** ** Definitions *)

(** How far the round of a replica has come. *)
Inductive Phase : Type :=
| Sent (pushed : PushPullPack)
| Received (pulled : PushPullPack).

Record System : Type := mkSystem {
  s_world : World LocalConnectivity;
  s_phases : gmap Z Phase;
}.

Definition cores (s : System) : gmap Z MutableDatatype := w_cores (s_world s).

Definition initial_system : System :=
  mkSystem (mkWorld ∅ LocalConnectivity_new_arc) ∅.

Definition server_of (rid : string) (lc : LocalConnectivity) : option LocalDatatypeServer :=
  arc ← datatype_servers lc !! rid; lc_arcs lc !! arc.

(** The end of a round in the event loop: an error is handled at once. *)
Definition receive_answer (pulled : PushPullPack) : MM DatatypeError unit :=
  r ← attempt (apply_pulled pulled);
  match r with
  | Ok _ => mret tt
  | Err dewa => handle_error (error dewa) (recovery dewa)
  | Panic why => panic why
  | Blocked => lift Blocked
  end.

(** The creator has nothing that the server has not acknowledged. *)
Definition creator_settled (rid : string) (w : World LocalConnectivity) : Prop :=
  forall sv k mk, server_of rid (w_conn w) = Some sv -> created sv = true ->
    wired_map sv !! creator sv = Some k -> w_cores w !! k = Some mk ->
    m_state mk = Subscribed /\ unacked mk = [].

Definition subscribes (st : DatatypeState) : bool :=
  match st with Subscribing | SubscribingOrCreating => true | _ => false end.

Definition initial_state (st : DatatypeState) : bool :=
  match st with Creating | Subscribing | SubscribingOrCreating => true | _ => false end.

(** [HashMap::keys().next()]: some key, unless the map is empty. *)
Class FirstKey (fk : gmap Cuid Z -> option Cuid) : Prop := {
  first_key_Some : forall m c, fk m = Some c -> m !! c <> None;
  first_key_None : forall m, fk m = None -> m = ∅;
}.

#[export] Instance first_key_of_list_laws : FirstKey first_key_of_list.
Proof. constructor; [apply first_key_of_list_Some|apply first_key_of_list_None]. Qed.

Section system.
Context (rid : string) (fk : gmap Cuid Z -> option Cuid).

#[local] Instance conn_ops : ConnectivityOps LocalConnectivity := local_connectivity fk.

Inductive sys_step : System -> System -> Prop :=
(** A client makes a datatype; identifiers are fresh. *)
| step_register w ph core attr st handlers t :
    Attribute_resource_id attr = rid ->
    max_mem_size_of_push_buffer (attr_option attr) <= UPPER_MAX_MEM_SIZE_OF_PUSH_BUFFER ->
    initial_state st = true -> w_cores w !! core = None ->
    (forall k m, w_cores w !! k = Some m ->
       cuid_of m <> Attribute_get_cuid attr /\ duid_of m <> Attribute_get_duid attr) ->
    TransactionalDatatype_new_arc core attr st handlers = Ok t ->
    sys_step (mkSystem w ph)
      (mkSystem (mkWorld (<[core := td_mutable t]> (w_cores w)) (conn_register attr core (w_conn w))) ph)
(** A user commits a transaction on a writable datatype. *)
| step_transaction w ph core m ops tag m' calls :
    w_cores w !! core = Some m ->
    writable (mkTransactionalDatatype m None false false) = true ->
    commit_ready m ops tag -> commit_outcome m ops tag m' calls ->
    sys_step (mkSystem w ph) (mkSystem (mkWorld (<[core := m']> (w_cores w)) (w_conn w)) ph)
(** A user unsubscribes, at any time: the replica is leaving. *)
| step_unsubscribe w ph core m w' calls :
    w_cores w !! core = Some m -> m_state m = Subscribed ->
    on_core core (@Mutable_set_state DatatypeError Unsubscribing) w = (Ok tt, w', calls) ->
    sys_step (mkSystem w ph) (mkSystem w' ph)
(** The event loop of a replica starts a round. *)
| step_send w ph core m pushed w' :
    ph !! core = None -> w_cores w !! core = Some m -> live (m_state m) = true ->
    cp_cseq (m_checkpoint m) < u64_max ->
    on_core core (with_mapping create_push_pull_pack) w = (Ok pushed, w', []) ->
    sys_step (mkSystem w ph) (mkSystem w' (<[core := Sent pushed]> ph))
(** The connectivity answers. *)
| step_serve w ph core pushed now pulled w' calls :
    ph !! core = Some (Sent pushed) ->
    (forall sv, server_of rid (w_conn w) = Some sv -> push_small pushed sv) ->
    (subscribes (ppp_state pushed) = true -> creator_settled rid w) ->
    call_push_pull now pushed w = (Ok pulled, w', calls) ->
    sys_step (mkSystem w ph) (mkSystem w' (<[core := Received pulled]> ph))
(** The event loop applies the answer. *)
| step_receive w ph core pulled w' calls :
    ph !! core = Some (Received pulled) ->
    on_core core (receive_answer pulled) w = (Ok tt, w', calls) ->
    sys_step (mkSystem w ph) (mkSystem w' (delete core ph))
(** A round of a subscribed or leaving replica is lost, before or after the
    answer. *)
| step_lose w ph core m :
    w_cores w !! core = Some m -> joined (m_state m) = true ->
    sys_step (mkSystem w ph) (mkSystem w (delete core ph))
(** A user's transaction on a writable datatype is aborted. *)
| step_abort w ph core m :
    w_cores w !! core = Some m -> writable (mkTransactionalDatatype m None false false) = true ->
    sys_step (mkSystem w ph) (mkSystem (mkWorld (<[core := rolled_back m]> (w_cores w)) (w_conn w)) ph)
(** A user sets or removes a handler. *)
| step_handlers w ph core m hm :
    w_cores w !! core = Some m ->
    sys_step (mkSystem w ph) (mkSystem (mkWorld (<[core := m_set_handlers hm m]> (w_cores w)) (w_conn w)) ph)
(** A disabled datatype takes no part any more, whatever its event loop does. *)
| step_disabled w ph core m m' :
    w_cores w !! core = Some m -> m_state m = Disabled ->
    m_attr m' = m_attr m -> m_state m' = Disabled ->
    sys_step (mkSystem w ph) (mkSystem (mkWorld (<[core := m']> (w_cores w)) (w_conn w)) ph)
(** Datatypes of other resources use the connectivity. *)
| step_others w ph lc :
    lc_wf lc -> server_of rid lc = server_of rid (w_conn w) ->
    sys_step (mkSystem w ph) (mkSystem (mkWorld (w_cores w) lc) ph).

(** ** The invariant *)
Definition phase_inv (sv : LocalDatatypeServer) (m : MutableDatatype) (ph : option Phase) : Prop :=
  match ph with
  | None => joined (m_state m) = false -> unpublished sv m
  | Some (Sent p) => pack_view m p /\ (joined (m_state m) = false -> unpublished sv m)
  | Some (Received q) => answer_view sv m q
  end.

(** A replica that the server does not know any more: it is disabled, or it waits
    for the answer to its unsubscription or asks again. *)
Definition left_inv (m : MutableDatatype) (ph : option Phase) : Prop :=
  if decide (m_state m = Unsubscribing) then
    match ph with
    | None => True
    | Some (Sent p) =>
        ppp_state p = Unsubscribing /\ ppp_cuid p = cuid_of m /\ PushPullPack_resource_id p = rid
    | Some (Received q) => leaving_answer q
    end
  else m_state m = Disabled /\ ph = None.

Definition replica_inv (sv : LocalDatatypeServer) (m : MutableDatatype) (ph : option Phase) : Prop :=
  Attribute_resource_id (m_attr m) = rid /\
  match wired_map sv !! cuid_of m with
  | Some _ => if live (m_state m) then replica_view sv m /\ phase_inv sv m ph else m_state m = Disabled /\ ph = None
  | None => left_inv m ph
  end.

Record net_inv (sv : LocalDatatypeServer) (cs : gmap Z MutableDatatype) (phs : gmap Z Phase) : Prop := {
  ni_server : server_inv sv;
  ni_type : srv_type sv = Counter;
  ni_creator : created sv = true ->
    (exists k mk, wired_map sv !! creator sv = Some k /\ cs !! k = Some mk) /\
    (exists k mk, cs !! k = Some mk /\ duid_of mk = srv_duid sv);
  ni_wired : forall d k, wired_map sv !! d = Some k -> exists m, cs !! k = Some m /\ cuid_of m = d;
  ni_cuid : forall a b ma mb, cs !! a = Some ma -> cs !! b = Some mb -> cuid_of ma = cuid_of mb -> a = b;
  ni_clients : forall d, (forall k m, cs !! k = Some m -> cuid_of m <> d) ->
    own d (history sv) = [] /\ cp_cseq (client_cp d sv) = 0;
  ni_duid : forall a b ma mb, cs !! a = Some ma -> cs !! b = Some mb ->
    alive (m_state ma) = true -> alive (m_state mb) = true -> duid_of ma = duid_of mb ->
    a = b \/ (created sv = true /\ srv_duid sv = duid_of ma);
  ni_phases : forall k, cs !! k = None -> phs !! k = None;
  ni_replica : forall k m, cs !! k = Some m -> replica_inv sv m (phs !! k);
}.

(** No server: every replica there was has left. *)
Record net_none (cs : gmap Z MutableDatatype) (phs : gmap Z Phase) : Prop := {
  nn_cuid : forall a b ma mb, cs !! a = Some ma -> cs !! b = Some mb -> cuid_of ma = cuid_of mb -> a = b;
  nn_phases : forall k, cs !! k = None -> phs !! k = None;
  nn_replica : forall k m, cs !! k = Some m ->
    Attribute_resource_id (m_attr m) = rid /\ left_inv m (phs !! k);
}.

Definition net (so : option LocalDatatypeServer) (cs : gmap Z MutableDatatype) (phs : gmap Z Phase)
    : Prop :=
  match so with
  | None => net_none cs phs
  | Some sv => net_inv sv cs phs /\ wired_map sv <> ∅
  end.

Definition sys_inv (s : System) : Prop :=
  lc_wf (w_conn (s_world s)) /\ net (server_of rid (w_conn (s_world s))) (cores s) (s_phases s).

(** ** Lemmas: the invariant of the net *)

(** The cores after a change of one of them. *)
Lemma insert_core {A} (cs : gmap Z A) k m m' j x : cs !! k = Some m -> <[k := m']> cs !! j = Some x ->
  exists y, cs !! j = Some y /\ ((j = k /\ y = m /\ x = m') \/ (j <> k /\ x = y)).
Proof.
  intros Hk Hj. destruct (decide (j = k)) as [->|Hne].
  - rewrite lookup_insert_eq in Hj. injection Hj as <-. exists m. split; [done|by left].
  - rewrite lookup_insert_ne in Hj by done. exists x. split; [done|by right].
Qed.

Lemma net_cuid sv cs phs a b ma mb : net_inv sv cs phs ->
  cs !! a = Some ma -> cs !! b = Some mb -> a <> b -> cuid_of ma <> cuid_of mb.
Proof. intros Hn Ha Hb Hne Heq. by apply Hne, (ni_cuid _ _ _ Hn a b ma mb). Qed.

Lemma net_wired_core sv cs phs k m j : net_inv sv cs phs -> cs !! k = Some m ->
  wired_map sv !! cuid_of m = Some j -> j = k.
Proof.
  intros Hn Hk Hj. destruct (ni_wired _ _ _ Hn _ _ Hj) as (d & Hd & Hc).
  by apply (ni_cuid _ _ _ Hn j k d m).
Qed.

(** A live replica is registered, unless its unsubscription was served. *)
Lemma net_alive sv cs phs k m : net_inv sv cs phs -> cs !! k = Some m -> alive (m_state m) = true ->
  wired_map sv !! cuid_of m = Some k /\ replica_view sv m /\ phase_inv sv m (phs !! k).
Proof.
  intros Hn Hk Ha. destruct (ni_replica _ _ _ Hn k m Hk) as [_ Hv].
  destruct (wired_map sv !! cuid_of m) as [j|] eqn:Hw.
  - rewrite (net_wired_core sv cs phs k m j Hn Hk Hw).
    destruct (m_state m); (done || by destruct Hv).
  - unfold left_inv in Hv. destruct (decide _) as [He|_]; [by rewrite He in Ha|].
    destruct Hv as [Hf _]. by rewrite Hf in Ha.
Qed.

Lemma net_wired sv cs phs k m : net_inv sv cs phs -> cs !! k = Some m -> alive (m_state m) = true ->
  wired_map sv !! cuid_of m = Some k.
Proof. intros. by eapply net_alive. Qed.

(** A replica in a round. *)
Lemma net_phase_core sv cs phs k ph : net_inv sv cs phs -> phs !! k = Some ph ->
  exists m, cs !! k = Some m /\ Attribute_resource_id (m_attr m) = rid /\ live (m_state m) = true /\
    ((wired_map sv !! cuid_of m = Some k /\ replica_view sv m /\ phase_inv sv m (Some ph)) \/
     (wired_map sv !! cuid_of m = None /\ m_state m = Unsubscribing /\ left_inv m (Some ph))).
Proof.
  intros Hn Hph. destruct (cs !! k) as [m|] eqn:Hk; [|by rewrite (ni_phases _ _ _ Hn k Hk) in Hph].
  exists m. split; [done|]. destruct (ni_replica _ _ _ Hn k m Hk) as [Hr Hv]. rewrite Hph in Hv.
  split; [done|]. destruct (wired_map sv !! cuid_of m) as [j|] eqn:Hw.
  - rewrite (net_wired_core sv cs phs k m j Hn Hk Hw).
    destruct (live (m_state m)); [|by destruct Hv]. split; [done|]. left. by destruct Hv.
  - pose proof Hv as Hl. unfold left_inv in Hv. destruct (decide _) as [He|_]; [|by destruct Hv].
    rewrite He. split; [done|]. by right.
Qed.

(** A step of one replica that leaves the server alone. *)
Lemma net_update sv cs phs phs' k m m' : net_inv sv cs phs -> cs !! k = Some m ->
  cuid_of m' = cuid_of m ->
  (duid_of m' = duid_of m \/ (created sv = true /\ duid_of m' = srv_duid sv)) ->
  (alive (m_state m') = true -> alive (m_state m) = true) ->
  (forall j, j <> k -> phs' !! j = phs !! j) ->
  replica_inv sv m' (phs' !! k) -> net_inv sv (<[k := m']> cs) phs'.
Proof.
  intros Hn Hk Hcuid Hduid Hal Hphs Hr. destruct Hn as [H1 H2 H3 H4 H5 H6 H7 H8 H9]. constructor; try done.
  - intros Hcr. destruct (H3 Hcr) as ((c & mc & Hw & Hc) & (d & md & Hd & Hdd)). split.
    + exists c. destruct (decide (c = k)) as [->|Hne]; [exists m'; by rewrite lookup_insert_eq|].
      exists mc. by rewrite lookup_insert_ne.
    + exists d. destruct (decide (d = k)) as [->|Hne]; [|exists md; by rewrite lookup_insert_ne].
      exists m'. rewrite lookup_insert_eq. split; [done|]. destruct Hduid as [He|[_ He]]; congruence.
  - intros d j Hj. destruct (H4 d j Hj) as (x & Hx & Hd).
    destruct (decide (j = k)) as [->|Hne]; [exists m'; rewrite lookup_insert_eq|exists x; by rewrite lookup_insert_ne].
    split; [done|congruence].
  - intros a b ma mb (ya & Ha & Hya)%(insert_core _ _ m) (yb & Hb & Hyb)%(insert_core _ _ m) He; [|done..].
    apply (H5 a b ya yb); [done..|].
    destruct Hya as [(_ & -> & ->)|[_ ->]], Hyb as [(_ & -> & ->)|[_ ->]]; congruence.
  - intros d Hd. apply H6. intros j x Hx. destruct (decide (j = k)) as [->|Hne].
    + assert (x = m) as -> by congruence. rewrite <- Hcuid. apply (Hd k). by rewrite lookup_insert_eq.
    + apply (Hd j). by rewrite lookup_insert_ne.
  - intros a b ma mb (ya & Ha & Hya)%(insert_core _ _ m) (yb & Hb & Hyb)%(insert_core _ _ m) Haa Hab He; [|done..].
    destruct (decide (a = b)) as [->|Hne]; [by left|]. right.
    destruct Hya as [(-> & -> & ->)|[Hak ->]], Hyb as [(-> & -> & ->)|[Hbk ->]]; try done.
    + destruct Hduid as [Hd|[? Hd]]; [|done].
      destruct (H7 k b m yb) as [?|[? ?]]; try done; [auto|congruence|split; congruence].
    + destruct Hduid as [Hd|[? Hd]]; [|split; congruence].
      destruct (H7 a k ya m) as [?|[? ?]]; try done; [auto|congruence].
    + destruct (H7 a b ya yb) as [?|?]; done.
  - intros j. destruct (decide (j = k)) as [->|Hne]; [by rewrite lookup_insert_eq|].
    rewrite lookup_insert_ne, Hphs by done. apply H8.
  - intros j x. destruct (decide (j = k)) as [->|Hne].
    + rewrite lookup_insert_eq. by intros [= <-].
    + rewrite lookup_insert_ne, Hphs by done. apply H9.
Qed.

Lemma none_update cs phs phs' k m m' : net_none cs phs -> cs !! k = Some m ->
  m_attr m' = m_attr m -> (forall j, j <> k -> phs' !! j = phs !! j) -> left_inv m' (phs' !! k) ->
  net_none (<[k := m']> cs) phs'.
Proof.
  intros [H1 H2 H3] Hk Hattr Hphs Hl. constructor.
  - intros a b ma mb (ya & Ha & Hya)%(insert_core _ _ m) (yb & Hb & Hyb)%(insert_core _ _ m) He; [|done..].
    apply (H1 a b ya yb); [done..|]. unfold cuid_of in *.
    destruct Hya as [(_ & -> & ->)|[_ ->]], Hyb as [(_ & -> & ->)|[_ ->]]; congruence.
  - intros j. destruct (decide (j = k)) as [->|Hne]; [by rewrite lookup_insert_eq|].
    rewrite lookup_insert_ne, Hphs by done. apply H2.
  - intros j x (y & Hy & Hor)%(insert_core _ _ m); [|done]. destruct (H3 j y Hy) as [Hr Hv].
    destruct Hor as [(-> & -> & ->)|[Hne ->]]; [by rewrite Hattr|by rewrite Hphs].
Qed.

(** A push of the registered replica at [k] and its answer. *)
Lemma net_pushed sv sv' cs phs k m q : net_inv sv cs phs -> cs !! k = Some m ->
  live (m_state m) = true -> wired_map sv !! cuid_of m = Some k -> replica_view sv m ->
  pushed_by m sv sv' -> server_inv sv' -> answer_view sv' m q ->
  net_inv sv' cs (<[k := Received q]> phs).
Proof.
  intros Hn Hk Ha Hwk Hvm Hpb Hs' Hans. pose proof Hn as [H1 H2 H3 H4 H5 H6 H7 H8 H9].
  destruct (pb_history _ _ _ Hpb) as (new & Hh & Hnew & _).
  assert (Hown : forall d, d <> cuid_of m -> own d (history sv') = own d (history sv)).
  { intros d Hd. rewrite Hh, own_app. unfold own at 2. rewrite filter_none; [by rewrite app_nil_r|].
    eapply Forall_impl; [exact Hnew|]. simpl. congruence. }
  constructor; try done.
  - by rewrite (pb_type _ _ _ Hpb).
  - intros Hcr. rewrite (pb_wired _ _ _ Hpb).
    destruct (pb_created _ _ _ Hpb) as [(Hc & -> & ->)|(_ & _ & -> & ->)].
    + apply H3. congruence.
    + split; by exists k, m.
  - intros d j. rewrite (pb_wired _ _ _ Hpb). apply H4.
  - intros d Hd. rewrite Hown, (pb_other _ _ _ Hpb) by (intros ->; by apply (Hd k m)). by apply H6.
  - intros a b ma mb Hla Hlb Haa Hab Hd. destruct (H7 a b ma mb Hla Hlb Haa Hab Hd) as [?|[Hc Hsd]]; [by left|right].
    destruct (pb_created _ _ _ Hpb) as [(-> & _ & ->)|(? & _)]; [done|congruence].
  - intros j Hj. rewrite lookup_insert_ne; [by apply H8|]. congruence.
  - intros j d Hj. destruct (H9 j d Hj) as [Hr Hv]. split; [done|]. rewrite (pb_wired _ _ _ Hpb).
    destruct (decide (j = k)) as [->|Hne].
    { rewrite lookup_insert_eq. assert (d = m) as -> by congruence. rewrite Hwk, Ha.
      split; [by eapply pushed_self_view|done]. }
    rewrite lookup_insert_ne by done. destruct (wired_map sv !! cuid_of d); [|done].
    destruct (live (m_state d)) eqn:Hld; [|done]. destruct Hv as [Hv Hp].
    assert (Hcu : cuid_of d <> cuid_of m) by by eapply net_cuid.
    split; [by eapply pushed_other_view|].
    assert (Hun : (joined (m_state d) = false -> unpublished sv d) ->
                  joined (m_state d) = false -> unpublished sv' d).
    { intros Hu Hns. destruct (Hu Hns) as [Ho Hx]. split; [by rewrite Hown|].
      destruct (pb_created _ _ _ Hpb) as [(-> & _ & ->)|(Hc & Hc' & _ & ->)]; [done|].
      intros _ Heq. assert (Hkm : joined (m_state m) = false).
      { destruct (joined (m_state m)) eqn:Hj'; [|done]. rewrite (rv_created _ _ Hvm Hj') in Hc. done. }
      destruct (H7 j k d m Hj Hk) as [?|[? _]]; try done; [| |congruence].
      - by destruct (m_state d).
      - by destruct (m_state m). }
    unfold phase_inv in *. destruct (phs !! j) as [[p|a]|].
    + destruct Hp as [? ?]. split; auto.
    + by eapply pushed_other_answer.
    + auto.
Qed.

(** An answer that leaves the server alone. *)
Lemma net_received sv cs phs k m q : net_inv sv cs phs -> cs !! k = Some m ->
  live (m_state m) = true ->
  (if wired_map sv !! cuid_of m then answer_view sv m q
   else m_state m = Unsubscribing /\ leaving_answer q) ->
  net_inv sv cs (<[k := Received q]> phs).
Proof.
  intros Hn Hk Ha Hq. rewrite <- (insert_id cs k m Hk).
  apply (net_update sv cs phs _ k m); try done; [by left| |].
  - intros j Hj. by rewrite lookup_insert_ne.
  - rewrite lookup_insert_eq. destruct (ni_replica _ _ _ Hn k m Hk) as [Hr Hv].
    split; [done|]. destruct (wired_map sv !! cuid_of m).
    + rewrite Ha in *. split; [apply Hv|done].
    + destruct Hq as [Hst Hq]. unfold left_inv. by rewrite decide_True.
Qed.

(** The replica at [k] is removed from the server. *)
Lemma left_replicas sv cs phs k m q : net_inv sv cs phs -> cs !! k = Some m ->
  m_state m = Unsubscribing -> phs !! k = Some (Received q) -> leaving_answer q ->
  forall j d, cs !! j = Some d -> replica_inv (unsubscribed fk (cuid_of m) sv) d (phs !! j).
Proof.
  intros Hn Hk Hm Hph Hq j d Hj. destruct (ni_replica _ _ _ Hn j d Hj) as [Hr Hv].
  split; [done|]. rewrite unsubscribed_wired. destruct (decide (j = k)) as [->|Hne].
  - assert (d = m) as -> by congruence. rewrite lookup_delete_eq, Hph. unfold left_inv.
    by rewrite decide_True.
  - rewrite lookup_delete_ne by (intros He; by apply (net_cuid sv cs phs k j m d) in He).
    destruct (wired_map sv !! cuid_of d); [|done]. destruct (live (m_state d)); [|done].
    destruct Hv as [Hv Hp]. split; [by apply unsubscribed_view|].
    destruct (unsubscribed_same fk (cuid_of m) sv) as (Hh & _ & Hc & _ & Hd & _).
    unfold phase_inv, unpublished in *. rewrite Hh, Hc, Hd.
    destruct (phs !! j) as [[p|a]|]; try done. by apply unsubscribed_answer.
Qed.

Lemma net_left `{!FirstKey fk} sv cs phs k m q : net_inv sv cs phs -> cs !! k = Some m ->
  m_state m = Unsubscribing -> phs !! k = Some (Received q) -> leaving_answer q ->
  let sv' := unsubscribed fk (cuid_of m) sv in
  net (if Server_is_empty sv' then None else Some sv') cs phs.
Proof.
  intros Hn Hk Hm Hph Hq sv'. pose proof Hn as [H1 H2 H3 H4 H5 H6 H7 H8 H9].
  pose proof (left_replicas sv cs phs k m q Hn Hk Hm Hph Hq) as Hrep. fold sv' in Hrep.
  destruct (unsubscribed_same fk (cuid_of m) sv) as (Hh & Hcm & Hc & Ht & Hd & _).
  assert (Hwd : wired_map sv' = delete (cuid_of m) (wired_map sv)) by apply unsubscribed_wired.
  fold sv' in Hh, Hcm, Hc, Ht, Hd. unfold Server_is_empty.
  destruct (bool_decide _) eqn:He; [apply bool_decide_eq_true in He|apply bool_decide_eq_false in He].
  - constructor; try done. intros j d Hj. destruct (Hrep j d Hj) as [Hr Hv]. split; [done|].
    by rewrite He, lookup_empty in Hv.
  - split; [|done]. constructor; unfold client_cp; rewrite ?Hh, ?Hcm, ?Hc, ?Ht, ?Hd; try done.
    + by apply unsubscribed_inv.
    + intros Hcr. destruct (H3 Hcr) as ((c & mc & Hw & Hcc) & Hsd). split; [|done].
      assert (Hcw : wired_map sv' !! creator sv' <> None).
      { rewrite Hwd in He |- *. unfold sv', unsubscribed in *. cbn [creator srv_set_clients wired_map] in *.
        destruct (decide _) as [Heq|Hneq].
        - destruct (fk (delete (cuid_of m) (wired_map sv))) as [n|] eqn:Hfk; cbn [creator srv_set_creator].
          + by apply (first_key_Some _ _ Hfk).
          + by apply first_key_None in Hfk.
        - cbn [creator srv_set_clients]. by rewrite lookup_delete_ne, Hw. }
      destruct (wired_map sv' !! creator sv') as [j|] eqn:Hj; [|done].
      rewrite Hwd in Hj. apply lookup_delete_Some in Hj as [_ Hj].
      destruct (H4 _ _ Hj) as (x & Hx & _). by exists j, x.
    + intros d j Hj. rewrite Hwd in Hj. apply lookup_delete_Some in Hj as [_ Hj]. by apply H4.
Qed.

Lemma net_none_new cs phs attr : net_none cs phs -> attr_type attr = Counter -> net_inv (Server_new attr) cs phs.
Proof.
  intros [H1 H2 H3] Ht. constructor; try done.
  - constructor; [apply Server_new_wf|done|done].
  - intros a b ma mb Ha Hb Haa. destruct (H3 a ma Ha) as [_ Hl]. unfold left_inv in Hl.
    destruct (decide _) as [He|_]; [by rewrite He in Haa|destruct Hl as [Hf _]; by rewrite Hf in Haa].
Qed.

(** A new replica against a server that does not know it. *)
Lemma new_replica_view sv attr st handlers m : server_inv sv -> srv_type sv = Counter ->
  max_mem_size_of_push_buffer (attr_option attr) <= UPPER_MAX_MEM_SIZE_OF_PUSH_BUFFER ->
  initial_state st = true -> MutableDatatype_new attr st handlers = Ok m ->
  own (Attribute_get_cuid attr) (history sv) = [] ->
  cp_cseq (client_cp (Attribute_get_cuid attr) sv) = 0 ->
  m_attr m = attr /\ m_state m = st /\ replica_view sv m.
Proof.
  intros Hs Ht Hmax Hst Hm Hown Hack. pose proof (new_wf attr st handlers m Hmax Hm) as Hwf.
  unfold MutableDatatype_new, Crdt_new, mbind, result_bind in Hm.
  destruct (attr_type attr) eqn:Hat; try done. injection Hm as <-.
  split; [done|]. split; [done|].
  constructor; try done; unfold cuid_of; cbn [m_attr m_state]; rewrite ?Hown; try done.
  - by rewrite Ht.
  - simpl. lia.
  - by destruct st.
Qed.

Lemma net_register sv cs phs core attr st handlers m : net_inv sv cs phs ->
  cs !! core = None -> Attribute_resource_id attr = rid ->
  max_mem_size_of_push_buffer (attr_option attr) <= UPPER_MAX_MEM_SIZE_OF_PUSH_BUFFER ->
  initial_state st = true ->
  (forall k d, cs !! k = Some d -> cuid_of d <> Attribute_get_cuid attr /\ duid_of d <> Attribute_get_duid attr) ->
  MutableDatatype_new attr st handlers = Ok m ->
  net_inv (Server_insert_client_item (Attribute_get_cuid attr) core sv) (<[core := m]> cs) phs.
Proof.
  intros Hn Hc Hrid Hmax Hst Hfresh Hm. pose proof Hn as [H1 H2 H3 H4 H5 H6 H7 H8 H9].
  set (c := Attribute_get_cuid attr) in *. set (sv' := Server_insert_client_item c core sv).
  assert (Hw : wired_map sv !! c = None).
  { destruct (wired_map sv !! c) as [k|] eqn:Hk; [|done].
    apply H4 in Hk as (d & Hd & Hcd). by destruct (Hfresh k d Hd). }
  destruct (H6 c) as [Hown Hack]; [intros k d Hd; by destruct (Hfresh k d Hd)|].
  destruct (new_replica_view sv attr st handlers m) as (Hattr & Hmst & Hv); try done.
  assert (Hdm : duid_of m = Attribute_get_duid attr) by (unfold duid_of; by rewrite Hattr).
  assert (Hcm : cuid_of m = c) by (unfold cuid_of; by rewrite Hattr).
  assert (Hview : forall d, replica_view sv d -> replica_view sv' d) by (intros d []; by constructor).
  assert (Hold : forall j x, cs !! j = Some x -> j <> core) by (intros j x Hj ->; congruence).
  assert (Hcase : forall j x, <[core := m]> cs !! j = Some x ->
    (j = core /\ x = m) \/ (j <> core /\ cs !! j = Some x /\ cuid_of x <> c /\ duid_of x <> duid_of m)).
  { intros j x [[<- <-]|[Hne Hx]]%lookup_insert_Some; [by left|right].
    destruct (Hfresh j x Hx). by rewrite Hdm. }
  constructor; try done.
  - destruct H1. constructor; [by apply insert_client_item_wf|done|done].
  - intros Hcr. destruct (H3 Hcr) as ((k & mk & Hwk & Hk) & (d & md & Hd & Hdd)). split.
    + exists k, mk. rewrite lookup_insert_ne by (intros <-; by apply Hold in Hk). split; [|done]. simpl.
      rewrite lookup_insert_ne; [done|]. intros Heq. simpl in Heq. congruence.
    + exists d, md. by rewrite lookup_insert_ne by (intros <-; by apply Hold in Hd).
  - intros d k. simpl. intros [[<- <-]|[Hne Hk]]%lookup_insert_Some.
    + exists m. by rewrite lookup_insert_eq.
    + destruct (H4 d k Hk) as (x & Hx & Hd). exists x. split; [|done].
      by rewrite lookup_insert_ne by (intros <-; by apply Hold in Hx).
  - intros a b ma mb [[-> ->]|(Ha & Hka & Hca & _)]%Hcase [[-> ->]|(Hb & Hkb & Hcb & _)]%Hcase He;
      (done || congruence || by apply (H5 a b ma mb)).
  - intros d Hd. apply H6. intros j x Hj. apply (Hd j). by rewrite lookup_insert_ne by (intros <-; by apply Hold in Hj).
  - intros a b ma mb [[-> ->]|(Ha & Hka & _ & Hca)]%Hcase [[-> ->]|(Hb & Hkb & _ & Hcb)]%Hcase Haa Hab He;
      [by left|congruence|congruence|by apply (H7 a b ma mb)].
  - intros k [Hk Hne]%lookup_insert_None. by apply H8.
  - intros k x [[-> ->]|(Hne & Hx & Hcx & _)]%Hcase.
    + split; [by rewrite Hattr|]. simpl. rewrite Hcm, lookup_insert_eq, Hmst, (H8 core Hc).
      replace (live st) with true by by destruct st.
      split; [by apply Hview|]. intros _. split; [by rewrite Hcm|].
      intros Hcr. destruct (H3 Hcr) as (_ & (k & mk & Hk & Hdk)).
      simpl. rewrite Hdm, <- Hdk. by destruct (Hfresh k mk Hk).
    + destruct (H9 k x Hx) as [Hr Hp]. split; [done|]. simpl. rewrite lookup_insert_ne by done.
      destruct (wired_map sv !! cuid_of x); [|done].
      destruct (live (m_state x)); [|done]. destruct Hp as [Hp1 Hp2]. split; [by apply Hview|].
      unfold phase_inv in *. by destruct (phs !! k) as [[]|].
Qed.
(** ** Lemmas: the steps of a round *)
Lemma joins_not_joined m q : joins m q = true -> joined (m_state m) = false.
Proof. unfold joins. by destruct (m_state m). Qed.

Lemma receive_refused m q e :
  ppp_error q = Some e -> ppp_state q = Disabled ->
  exists m' w, receive_answer q m = (Ok tt, m', w) /\ m_state m' = Disabled /\ m_attr m' = m_attr m.
Proof.
  intros He Hst. destruct (refused_answer_applied m q e He Hst) as (dewa & w & Hap & Hr).
  unfold receive_answer. erewrite M_bind_Ok by (unfold attempt; rewrite Hap; reflexivity).
  unfold handle_error. destruct Hr as [-> | ->]; cbn -[Mutable_set_state Mutable_call_error_handler].
  - unfold Mutable_disable, mbind, M_bind, Mutable_reset, modify, Mutable_set_state.
    cbn -[Mutable_call_error_handler]. by do 2 eexists.
  - unfold mbind, M_bind, mret, M_ret. cbn. by do 2 eexists.
Qed.

Lemma receive_ok m q m' w : apply_pulled q m = (Ok tt, m', w) -> receive_answer q m = (Ok tt, m', w).
Proof.
  intros Hap. unfold receive_answer. erewrite M_bind_Ok by (unfold attempt; rewrite Hap; reflexivity).
  unfold mret, M_ret. by rewrite app_nil_r.
Qed.

(** What an answer changes in the replica that it keeps alive: it sees more of
    the history, and a join drops the transactions of its own, none of which is
    in the history. *)
Definition received_from (sv : LocalDatatypeServer) (m m' : MutableDatatype) : Prop :=
  cp_sseq (m_checkpoint m) <= cp_sseq (m_checkpoint m') /\
  (buffered m' = buffered m \/
   buffered m' = [] /\ own (cuid_of m) (history sv) = [] /\ m_checkpoint m = CheckPoint_default).

Lemma receive_inv sv m q : server_inv sv -> replica_view sv m -> alive (m_state m) = true ->
  answer_view sv m q ->
  exists m' w, receive_answer q m = (Ok tt, m', w) /\
    (m_attr m' = m_attr m \/ (created sv = true /\ m_attr m' = Attribute_set_duid (srv_duid sv) (m_attr m))) /\
    (m_state m' = Disabled \/
     m_state m' = Subscribed /\ replica_view sv m' /\ received_from sv m m').
Proof.
  intros Hs Hv Ha Hq. unfold answer_view in Hq.
  rewrite decide_False in Hq by (intros He; by rewrite He in Ha).
  unfold round_answer in Hq. destruct (ppp_error q) as [e|] eqn:He.
  { destruct (receive_refused m q e He Hq) as (m' & w & Hr & Hst & Hattr).
    exists m', w. split; [done|]. by split; left. }
  destruct Hq as (Hst & Hcr & s' & Hle & Hans). destruct (joins m q) eqn:Hj.
  - destruct (join_answer_applied sv m q s' Hs Hv Ha (joins_not_joined m q Hj) He Hst Hcr Hj Hle Hans)
      as (m' & w & Hap & Hv' & Hattr & Hst' & Hcp & Hb).
    exists m', w. split; [by apply receive_ok|]. split; [by right|]. right.
    split; [done|]. split; [done|]. pose proof (rv_fresh _ _ Hv (joins_not_joined m q Hj)) as Hf.
    unfold received_from. rewrite Hcp, Hf. split; [simpl; lia|]. right. split; [done|].
    split; [apply Hans|done].
  - destruct (sync_answer_applied sv m q s' Hs Hv Ha He Hst Hcr Hj Hle Hans) as (w & Hap & Hv' & Hcp).
    eexists _, w. split; [by apply receive_ok|]. split; [by left|]. right.
    split; [done|]. split; [done|]. unfold received_from. rewrite Hcp. destruct Hans as (-> & Hge & _).
    split; [simpl|by left]. pose proof (rv_sseq _ _ Hv). lia.
Qed.

(** A leaving replica is disabled by whatever it receives. *)
Lemma receive_leaving m q : m_state m = Unsubscribing -> leaving_answer q ->
  exists m' w, receive_answer q m = (Ok tt, m', w) /\ m_state m' = Disabled /\ m_attr m' = m_attr m.
Proof.
  unfold leaving_answer. intros Hm Hq. destruct (ppp_error q) as [e|] eqn:He.
  { by destruct (receive_refused m q e He Hq) as (m' & w & Hr & ? & ?); eauto. }
  destruct Hq as [Hst|[Hst Hc]].
  - destruct (illegal_answer_applied m q Hm He Hst) as (dewa & w & Hap & Hr).
    unfold receive_answer. erewrite M_bind_Ok by (unfold attempt; rewrite Hap; reflexivity).
    unfold handle_error. rewrite Hr. cbn -[Mutable_set_state Mutable_call_error_handler].
    unfold Mutable_disable, mbind, M_bind, Mutable_reset, modify, Mutable_set_state.
    cbn -[Mutable_call_error_handler]. by do 2 eexists.
  - destruct (leaving_answer_applied m q Hm He Hst Hc) as (w & Hap).
    eexists _, w. split; [by apply receive_ok|]. done.
Qed.

(** ** Lemmas: the connectivity *)
Lemma server_of_register attr core lc : Attribute_resource_id attr = rid -> lc_wf lc ->
  server_of rid (LocalConnectivity_register attr core lc) =
    Some (Server_insert_client_item (Attribute_get_cuid attr) core
            (default (Server_new attr) (server_of rid lc))).
Proof.
  intros Hr [H1 H2]. unfold LocalConnectivity_register, register_entry, server_of. rewrite Hr.
  destruct (datatype_servers lc !! rid) as [arc|] eqn:Ha; simpl.
  - rewrite Ha. simpl. rewrite lookup_alter_eq. destruct (H1 _ _ Ha) as [Hs _].
    by destruct (lc_arcs lc !! arc).
  - rewrite lookup_insert_eq. simpl. by rewrite lookup_alter_eq, lookup_insert_eq.
Qed.

(** What a request leaves of the server: nothing when its last client is gone. *)
Definition after_request (p : PushPullPack) (sv : LocalDatatypeServer) : option LocalDatatypeServer :=
  if bool_decide (ppp_state p = Unsubscribing) && Server_is_empty sv then None else Some sv.

(** A request is answered by the server of the resource. *)
Lemma serve_route snap p lc sv q sv' w : server_of rid lc = Some sv ->
  PushPullPack_resource_id p = rid ->
  process fk snap (lc_is_realtime lc) p sv = (Ok q, sv', w) ->
  exists lc', LocalConnectivity_push_pull fk snap p lc = (Ok q, lc', w) /\
    server_of rid lc' = after_request p sv'.
Proof.
  unfold server_of. intros Hs Hr Hp.
  destruct (datatype_servers lc !! rid) as [arc|] eqn:Ha; [|done]. simpl in Hs.
  eexists. unfold LocalConnectivity_push_pull. rewrite Hr. split.
  - erewrite M_bind_Ok by reflexivity. unfold get_local_datatype_server. rewrite Ha.
    erewrite M_bind_Ok by (unfold push_pull_process; rewrite Hs, Hp; reflexivity).
    unfold mbind, M_bind, modify, mret, M_ret. by rewrite !app_nil_r.
  - unfold push_pull_remove, after_request. cbn [datatype_servers lc_set_arcs]. rewrite Ha.
    rewrite (bool_decide_true (Some arc = Some arc)), andb_true_r by done.
    destruct (_ && _); cbn; [by rewrite lookup_delete_eq|].
    rewrite Ha. simpl. by rewrite lookup_insert_eq.
Qed.

(** Without a server the request is refused. *)
Lemma serve_nobody snap p lc : lc_wf lc -> server_of rid lc = None -> PushPullPack_resource_id p = rid ->
  exists q, LocalConnectivity_push_pull fk snap p lc = (Ok q, lc, []) /\ leaving_answer q.
Proof.
  intros [Hwf _] Hs Hr. eexists. unfold LocalConnectivity_push_pull. rewrite Hr.
  assert (Hnone : datatype_servers lc !! rid = None).
  { unfold server_of in Hs. destruct (datatype_servers lc !! rid) as [arc|] eqn:Ha; [|done].
    destruct (Hwf _ _ Ha) as [Hx _]. by simpl in Hs. }
  split.
  - erewrite M_bind_Ok by reflexivity. unfold get_local_datatype_server. rewrite Hnone. reflexivity.
  - done.
Qed.

(** What a request of [m] does to the server. *)
Definition served (m : MutableDatatype) (sv sv' : LocalDatatypeServer) : Prop :=
  sv' = sv \/
  (wired_map sv !! cuid_of m <> None /\
   exists sv1, pushed_by m sv sv1 /\
     (sv' = sv1 \/ (m_state m = Unsubscribing /\ sv' = unsubscribed fk (cuid_of m) sv1))).

(** A request that is no unsubscription: unchanged server, or a push. *)
Lemma net_answered sv sv' cs phs k m p q : net_inv sv cs phs -> wired_map sv <> ∅ ->
  cs !! k = Some m -> live (m_state m) = true -> wired_map sv !! cuid_of m = Some k ->
  replica_view sv m -> ppp_state p <> Unsubscribing ->
  (sv' = sv \/ pushed_by m sv sv' /\ server_inv sv') -> answer_view sv' m q ->
  net (after_request p sv') cs (<[k := Received q]> phs) /\ served m sv sv'.
Proof.
  intros Hn Hne Hk Hl Hw Hv Hp Hor Hq. unfold after_request. rewrite bool_decide_false by done.
  destruct Hor as [-> |[Hpb Hs']].
  - split; [|by left]. split; [|done]. eapply net_received; [done|done|done|by rewrite Hw].
  - split; [split; [by eapply net_pushed|by rewrite (pb_wired _ _ _ Hpb)]|].
    right. split; [by rewrite Hw|]. exists sv'. split; [done|by left].
Qed.

Lemma serve_push sv cs phs snap k m p rt : net_inv sv cs phs -> wired_map sv <> ∅ ->
  cs !! k = Some m -> live (m_state m) = true -> wired_map sv !! cuid_of m = Some k ->
  replica_view sv m -> pack_view m p -> push_small p sv -> joined (m_state m) = true ->
  ppp_state p = Subscribed ->
  exists q sv' w, process fk snap rt p sv = (Ok q, sv', w) /\
    net (after_request p sv') cs (<[k := Received q]> phs) /\ served m sv sv'.
Proof.
  intros Hn Hne Hk Hl Hw Hv Hp Hsm Hj Hst. pose proof (ni_server _ _ _ Hn) as Hs.
  destruct (serve_subscribed sv m p rt Hs Hv Hp Hsm) as (q & w & Hpr & He & Hsq & Hans); [by rewrite Hw|].
  assert (Hcr : created sv = true) by by apply (rv_created _ _ Hv).
  pose proof (push_pushed_by sv m p Hs Hv Hp Hsm) as Hpb.
  pose proof (push_server_inv sv m p Hs Hv Hp Hsm Hcr) as Hs'.
  do 3 eexists. split; [unfold process; by rewrite Hst|].
  eapply net_answered; try done; [by rewrite Hst|by right|].
  unfold answer_view. destruct (decide _) as [Hu|Hu].
  - unfold leaving_answer. rewrite He. by left.
  - unfold round_answer. rewrite He. split; [done|]. split.
    { destruct (pb_created _ _ _ Hpb) as [(-> & _)|(? & _)]; congruence. }
    eexists. split; [reflexivity|]. unfold joins. by destruct (m_state m).
Qed.

Lemma serve_alive sv cs phs snap k m p rt : net_inv sv cs phs -> wired_map sv <> ∅ ->
  cs !! k = Some m -> alive (m_state m) = true ->
  phs !! k = Some (Sent p) -> push_small p sv ->
  (subscribes (ppp_state p) = true -> created sv = true ->
   exists ck mk now, wired_map sv !! creator sv = Some ck /\ snap ck = get_subscribe_snapshot now mk /\
     replica_view sv mk /\ unacked mk = []) ->
  exists q sv' w, process fk snap rt p sv = (Ok q, sv', w) /\
    net (after_request p sv') cs (<[k := Received q]> phs) /\ served m sv sv'.
Proof.
  intros Hn Hne Hk Ha Hph Hsm Hset. pose proof (ni_server _ _ _ Hn) as Hs.
  destruct (net_alive sv cs phs k m Hn Hk Ha) as (Hw & Hv & Hpi). rewrite Hph in Hpi. destruct Hpi as [Hp Hun].
  assert (Hl : live (m_state m) = true) by by destruct (m_state m).
  assert (Hst : ppp_state p = m_state m).
  { destruct (pv_state _ _ Hp) as [?|[_ Hu]]; [done|by rewrite Hu in Ha]. }
  assert (Hnu : ppp_state p <> Unsubscribing) by (rewrite Hst; by destruct (m_state m)).
  assert (Hcreate : process fk snap rt p sv = process_creating p sv ->
    m_state m = Creating \/ (m_state m = SubscribingOrCreating /\ created sv = false) ->
    exists q sv' w, process fk snap rt p sv = (Ok q, sv', w) /\
      net (after_request p sv') cs (<[k := Received q]> phs) /\ served m sv sv').
  { intros Heq Hor. destruct (serve_creating sv m p Hs Hv Hp Hsm) as (q & sv' & w & Hpr & Ho & Hq); [|done|].
    - apply Hun. by destruct Hor as [-> |[-> _]].
    - exists q, sv', w. split; [by rewrite Heq|]. by eapply net_answered. }
  assert (Hsubscribe : process fk snap rt p sv = process_subscribing snap p sv ->
    m_state m = Subscribing \/ m_state m = SubscribingOrCreating ->
    exists q sv' w, process fk snap rt p sv = (Ok q, sv', w) /\
      net (after_request p sv') cs (<[k := Received q]> phs) /\ served m sv sv').
  { intros Heq Hor. assert (Hsub : subscribes (ppp_state p) = true).
    { rewrite Hst. by destruct Hor as [-> | ->]. }
    assert (Hex : exists ck mk now, created sv = true ->
      wired_map sv !! creator sv = Some ck /\ snap ck = get_subscribe_snapshot now mk /\
      replica_view sv mk /\ unacked mk = []).
    { destruct (created sv) eqn:Hcr; [|by exists 0, m, 0].
      destruct (Hset Hsub eq_refl) as (ck & mk & now & H). by exists ck, mk, now. }
    destruct Hex as (ck & mk & now & Hex).
    destruct (serve_subscribing snap sv m p ck mk now Hs Hv Hp) as (q & Hpr & Hq); [|done|done|].
    - apply Hun. by destruct Hor as [-> | ->].
    - exists q, sv, []. split; [by rewrite Heq|]. eapply net_answered; try done. by left. }
  destruct (m_state m) eqn:Hms; try done.
  - apply Hcreate; [|by left]. unfold process. by rewrite Hst.
  - apply Hsubscribe; [|by left]. unfold process. by rewrite Hst.
  - unfold process. destruct (created sv) eqn:Hcr.
    + apply Hsubscribe; [|by right]. unfold process, process_subscribing_or_creating. rewrite Hst.
      erewrite M_bind_Ok by reflexivity. rewrite Hcr. by destruct (process_subscribing snap p sv) as [[??]?].
    + apply Hcreate; [|by right]. unfold process, process_subscribing_or_creating. rewrite Hst.
      erewrite M_bind_Ok by reflexivity. rewrite Hcr. by destruct (process_creating p sv) as [[??]?].
  - apply (serve_push sv cs phs snap k m p rt); try done; by rewrite Hms.
Qed.

Lemma serve_leaving `{!FirstKey fk} sv cs phs snap k m p rt : net_inv sv cs phs -> wired_map sv <> ∅ ->
  cs !! k = Some m -> m_state m = Unsubscribing ->
  phs !! k = Some (Sent p) -> push_small p sv ->
  exists q sv' w, process fk snap rt p sv = (Ok q, sv', w) /\
    net (after_request p sv') cs (<[k := Received q]> phs) /\ served m sv sv'.
Proof.
  intros Hn Hne Hk Hm Hph Hsm. pose proof (ni_server _ _ _ Hn) as Hs.
  destruct (net_phase_core sv cs phs k _ Hn Hph) as (x & Hx & _ & Hl & Hor).
  rewrite Hk in Hx. injection Hx as <-. destruct Hor as [(Hw & Hv & Hp & _)|(Hw & _ & Hli)].
  - destruct (pv_state _ _ Hp) as [Hst|[Hst _]].
    2: { by apply (serve_push sv cs phs snap k m p rt); rewrite ?Hm. }
    rewrite Hm in Hst.
    destruct (serve_unsubscribing fk sv m p rt Hs Hv Hp Hsm) as (q & w & Hpr & _ & _ & Hq); [by rewrite Hw|].
    pose proof (push_pushed_by sv m p Hs Hv Hp Hsm) as Hpb.
    assert (Hcr : created sv = true) by (apply (rv_created _ _ Hv); by rewrite Hm).
    pose proof (push_server_inv sv m p Hs Hv Hp Hsm Hcr) as Hs'.
    set (sv1 := (push_transactions p sv).2) in *.
    exists q, (unsubscribed fk (cuid_of m) sv1), w. split; [unfold process; by rewrite Hst|].
    split; [|right; split; [by rewrite Hw|exists sv1; split; [done|by right]]].
    unfold after_request. rewrite bool_decide_true by done. cbn [andb].
    eapply net_left; [|exact Hk|exact Hm|apply lookup_insert_eq|exact Hq].
    eapply net_pushed; try done. unfold answer_view. by rewrite decide_True.
  - unfold left_inv in Hli. rewrite decide_True in Hli by done. destruct Hli as (Hst & Hc & Hr).
    destruct (serve_unregistered fk sv p rt) as (q & Hpr & Hq); [by rewrite Hc|].
    exists q, sv, []. split; [unfold process; by rewrite Hst|]. split; [|by left].
    unfold after_request, Server_is_empty. rewrite (bool_decide_false (wired_map sv = ∅)), andb_false_r by done.
    split; [|done]. eapply net_received; [done|done|by rewrite Hm|by rewrite Hw].
Qed.

(** ** Lemmas: the steps keep the invariant *)
Lemma writable_alive m c a b : writable (mkTransactionalDatatype m c a b) = true ->
  alive (m_state m) = true /\ attr_is_readonly (m_attr m) = false.
Proof.
  unfold writable; simpl. rewrite andb_true_iff, negb_true_iff.
  intros [H1 H2]. split; [|done]. by destruct (m_state m).
Qed.

Lemma phase_inv_commit sv m ops tag m' w ph : replica_view sv m -> commit_ready m ops tag ->
  commit_outcome m ops tag m' w -> phase_inv sv m ph -> phase_inv sv m' ph.
Proof.
  intros Hv Hr Ho Hp. destruct (commit_fixed sv m ops tag m' w Hv Hr Ho) as (Hat & Hst & Hcp & more & Hun).
  assert (Hu : (joined (m_state m) = false -> unpublished sv m) ->
               joined (m_state m') = false -> unpublished sv m').
  { unfold unpublished, cuid_of, duid_of. rewrite Hat, Hst. done. }
  destruct ph as [[p|q]|]; simpl in *.
  - destruct Hp as [[H1 H2 H3 H4 H5 H6 H7 [j H8]] H9]. split; [|by apply Hu].
    constructor; unfold cuid_of, duid_of in *; rewrite ?Hat, ?Hst, ?Hcp; try done.
    exists (Nat.min j (length (unacked m))).
    rewrite Hun, H8, take_app_le by lia.
    destruct (Nat.le_gt_cases j (length (unacked m))); [by rewrite Nat.min_l|].
    by rewrite Nat.min_r, !take_ge by lia.
  - unfold answer_view, round_answer, joins, join_answer, sync_answer, cuid_of in *. by rewrite Hst, Hat, Hcp.
  - by apply Hu.
Qed.

Lemma net_transaction sv cs phs k m ops tag m' w : net_inv sv cs phs -> cs !! k = Some m ->
  writable (mkTransactionalDatatype m None false false) = true ->
  commit_ready m ops tag -> commit_outcome m ops tag m' w -> net_inv sv (<[k := m']> cs) phs.
Proof.
  intros Hn Hk Hw Hr Ho. destruct (writable_alive m None false false Hw) as [Ha Hro].
  destruct (net_alive sv cs phs k m Hn Hk Ha) as (Hwk & Hv & Hp).
  destruct (ni_replica _ _ _ Hn k m Hk) as [Hrid _].
  destruct (commit_fixed sv m ops tag m' w Hv Hr Ho) as (Hat & Hst & _ & _).
  assert (Hcu : cuid_of m' = cuid_of m) by (unfold cuid_of; by rewrite Hat).
  apply (net_update sv cs phs phs k m); try done.
  - left. unfold duid_of. by rewrite Hat.
  - split; [by rewrite Hat|]. rewrite Hcu, Hwk, Hst. replace (live (m_state m)) with true by by destruct (m_state m).
    split; [by eapply commit_view|by eapply phase_inv_commit].
Qed.

(** *** The user leaves *)
Lemma leaving_view sv m : replica_view sv m -> m_state m = Subscribed ->
  replica_view sv (m_put_state Unsubscribing m).
Proof.
  intros Hv Hm. pose proof (rv_created _ _ Hv) as Hcr. rewrite Hm in Hcr. destruct Hv.
  by constructor.
Qed.

Lemma leaving_phase sv m ph : m_state m = Subscribed -> phase_inv sv m ph ->
  phase_inv sv (m_put_state Unsubscribing m) ph.
Proof.
  intros Hm. destruct ph as [[p|q]|]; simpl; [| |done].
  - intros [[H1 H2 H3 H4 H5 H6 H7 H8] _]. split; [|done]. constructor; try done. right.
    split; [|done]. destruct H4 as [->|[-> _]]; done.
  - unfold answer_view. cbn [m_state m_put_state]. rewrite decide_False by by rewrite Hm.
    rewrite decide_True by done. apply round_answer_leaving.
Qed.

Lemma net_unsubscribe sv cs phs k m : net_inv sv cs phs -> cs !! k = Some m -> m_state m = Subscribed ->
  net_inv sv (<[k := m_put_state Unsubscribing m]> cs) phs.
Proof.
  intros Hn Hk Hm. destruct (net_alive sv cs phs k m Hn Hk) as (Hwk & Hv & Hp); [by rewrite Hm|].
  destruct (ni_replica _ _ _ Hn k m Hk) as [Hrid _].
  apply (net_update sv cs phs phs k m); try done; [by left|].
  split; [done|]. change (cuid_of (m_put_state Unsubscribing m)) with (cuid_of m). rewrite Hwk.
  split; [by apply leaving_view|by apply leaving_phase].
Qed.

(** *** The rounds *)
Lemma create_pack_fields m p m' c : create_push_pull_pack m = (Ok p, m', c) ->
  m' = m /\ c = [] /\ ppp_state p = m_state m /\ ppp_cuid p = cuid_of m /\
  PushPullPack_resource_id p = Attribute_resource_id (m_attr m).
Proof.
  unfold create_push_pull_pack. destruct (get_pushing_transactions _ _ _) as [[txs sz]| | |]; try done.
  by intros [= <- <- <-].
Qed.

Lemma left_send m ph p : left_inv m ph -> live (m_state m) = true ->
  ppp_state p = m_state m -> ppp_cuid p = cuid_of m -> PushPullPack_resource_id p = rid ->
  left_inv m (Some (Sent p)).
Proof.
  unfold left_inv. intros Hl Hlive Hst Hc Hr. destruct (decide _) as [He|Hne].
  - split_and!; [congruence|done|done].
  - exfalso. destruct Hl as [Hl _]. destruct (m_state m); done.
Qed.

Lemma net_send sv cs phs k m : net_inv sv cs phs -> cs !! k = Some m ->
  alive (m_state m) = true -> phs !! k = None -> cp_cseq (m_checkpoint m) < u64_max ->
  exists p, create_push_pull_pack m = (Ok p, m, []) /\ pack_view m p /\
    (sumZ Transaction_size (unacked m) <= DEFAULT_MAX_TRANSMISSION_SIZE ->
     ppp_transactions p = unacked m) /\
    (forall tx, head (unacked m) = Some tx -> Transaction_size tx <= DEFAULT_MAX_TRANSMISSION_SIZE ->
     ppp_transactions p <> []).
Proof.
  intros Hn Hk Ha Hph Hlt. destruct (net_alive sv cs phs k m Hn Hk Ha) as (_ & Hv & _).
  destruct (create_pack_view sv m Hv Hlt) as (p & Hc & Hp & Hall). by exists p.
Qed.

Lemma net_sent sv cs phs k m p : net_inv sv cs phs -> cs !! k = Some m -> live (m_state m) = true ->
  phs !! k = None -> cp_cseq (m_checkpoint m) < u64_max -> create_push_pull_pack m = (Ok p, m, []) ->
  net_inv sv cs (<[k := Sent p]> phs).
Proof.
  intros Hn Hk Hl Hph Hlt Hc. rewrite <- (insert_id cs k m Hk).
  apply (net_update sv cs phs _ k m); try done; [by left| |].
  { intros j Hj. by rewrite lookup_insert_ne. }
  rewrite lookup_insert_eq. destruct (ni_replica _ _ _ Hn k m Hk) as [Hr Hv]. split; [done|].
  destruct (create_pack_fields m p m [] Hc) as (_ & _ & Hst & Hcu & Hre).
  destruct (wired_map sv !! cuid_of m).
  - rewrite Hl, Hph in *. destruct Hv as [Hv Hun]. split; [done|].
    destruct (create_pack_view sv m Hv Hlt) as (p' & Hc' & Hp & _).
    rewrite Hc in Hc'. injection Hc' as <-. by split.
  - eapply left_send; [exact Hv|done..|by rewrite Hre].
Qed.

Lemma disabled_left m : m_state m = Disabled -> left_inv m None.
Proof. unfold left_inv. intros ->. by rewrite decide_False. Qed.

Lemma left_receive m q : left_inv m (Some (Received q)) ->
  exists m' w, receive_answer q m = (Ok tt, m', w) /\ m_state m' = Disabled /\ m_attr m' = m_attr m.
Proof.
  unfold left_inv. destruct (decide _) as [He|Hne]; [|by intros [_ ?]]. by apply receive_leaving.
Qed.

Lemma net_receive sv cs phs k m q : net_inv sv cs phs -> cs !! k = Some m ->
  phs !! k = Some (Received q) ->
  exists m' w, receive_answer q m = (Ok tt, m', w) /\ net_inv sv (<[k := m']> cs) (delete k phs) /\
    cuid_of m' = cuid_of m /\
    (m_state m' = Disabled \/
     m_state m' = Subscribed /\ alive (m_state m) = true /\ received_from sv m m').
Proof.
  intros Hn Hk Hph. destruct (net_phase_core sv cs phs k _ Hn Hph) as (x & Hx & Hrid & Hl & Hor).
  rewrite Hk in Hx. injection Hx as <-.
  assert (Hgone : forall m', m_state m' = Disabled -> m_attr m' = m_attr m ->
    net_inv sv (<[k := m']> cs) (delete k phs) /\ cuid_of m' = cuid_of m).
  { intros m' Hst Hattr. assert (Hcu : cuid_of m' = cuid_of m) by (unfold cuid_of; by rewrite Hattr).
    split; [|done]. apply (net_update sv cs phs _ k m); try done.
    - left. unfold duid_of. by rewrite Hattr.
    - by rewrite Hst.
    - intros j Hj. by rewrite lookup_delete_ne.
    - rewrite lookup_delete_eq. split; [by rewrite Hattr|].
      destruct (wired_map sv !! cuid_of m'); [by rewrite Hst|by apply disabled_left]. }
  destruct (decide (m_state m = Unsubscribing)) as [Hm|Hm].
  - assert (Hq : leaving_answer q).
    { destruct Hor as [(_ & _ & Hq)|(_ & _ & Hq)]; [unfold phase_inv, answer_view in Hq|unfold left_inv in Hq];
        by rewrite decide_True in Hq. }
    destruct (receive_leaving m q Hm Hq) as (m' & w & Hr & Hst & Hattr).
    destruct (Hgone m' Hst Hattr). exists m', w. split_and!; [done..|by left].
  - destruct Hor as [(Hw & Hv & Hq)|(_ & ? & _)]; [|done].
    assert (Ha : alive (m_state m) = true) by by destruct (m_state m).
    destruct (receive_inv sv m q (ni_server _ _ _ Hn) Hv Ha Hq) as (m' & w & Hr & Hattr & Hal).
    assert (Hcu : cuid_of m' = cuid_of m) by (unfold cuid_of; by destruct Hattr as [-> |[_ ->]]).
    exists m', w. split; [done|]. split; [|split; [done|]].
    + apply (net_update sv cs phs _ k m); try done.
      * unfold duid_of. destruct Hattr as [-> |[? ->]]; [by left|by right].
      * intros j Hj. by rewrite lookup_delete_ne.
      * rewrite lookup_delete_eq. split; [by destruct Hattr as [-> |[_ ->]]|].
        rewrite Hcu, Hw. destruct Hal as [-> |(Hst & Hv' & _)]; [done|]. rewrite Hst. split; [done|].
        unfold phase_inv. by rewrite Hst.
    + destruct Hal as [? |(Hst & _ & Hrf)]; [by left|by right].
Qed.

Lemma net_lose sv cs phs k m : net_inv sv cs phs -> cs !! k = Some m -> joined (m_state m) = true ->
  net_inv sv cs (delete k phs).
Proof.
  intros Hn Hk Hst. destruct (ni_replica _ _ _ Hn k m Hk) as [Hrid Hv].
  rewrite <- (insert_id cs k m Hk). apply (net_update sv cs phs _ k m); try done; [by left| |].
  - intros j Hj. by rewrite lookup_delete_ne.
  - rewrite lookup_delete_eq. split; [done|]. destruct (wired_map sv !! cuid_of m).
    + destruct (live (m_state m)); [|by destruct Hv]. split; [apply Hv|]. intros Hf. congruence.
    + unfold left_inv in *. destruct (decide _); [done|]. by destruct Hv.
Qed.

(** The snapshot that the connectivity reads is that of the settled creator. *)
Lemma settled_snapshot w phs sv p now : server_of rid (w_conn w) = Some sv ->
  net_inv sv (w_cores w) phs -> (subscribes (ppp_state p) = true -> creator_settled rid w) ->
  subscribes (ppp_state p) = true -> created sv = true ->
  exists ck mk now', wired_map sv !! creator sv = Some ck /\
    snapshots now w ck = get_subscribe_snapshot now' mk /\ replica_view sv mk /\ unacked mk = [].
Proof.
  intros Hs Hn Hset Hsub Hcr. destruct (ni_creator _ _ _ Hn Hcr) as ((k & mk & Hw & Hk) & _).
  destruct (Hset Hsub sv k mk Hs Hcr Hw Hk) as [Hst Hun]. exists k, mk, now.
  destruct (net_alive sv _ phs k mk Hn Hk) as (_ & Hv & _); [by rewrite Hst|].
  split_and!; [done|unfold snapshots; by rewrite Hk|done|done].
Qed.

Lemma on_core_eq {C E A} k (f : MM E A) (w : World C) m r m' c : w_cores w !! k = Some m ->
  f m = (r, m', c) ->
  on_core k f w = (r, mkWorld (<[k := m']> (w_cores w)) (w_conn w), CoreCall k <$> c).
Proof. intros Hk Hf. unfold on_core. by rewrite Hk, Hf. Qed.

Lemma on_core_lookup {C E A} k (f : MM E A) (w w' : World C) a c :
  on_core k f w = (Ok a, w', c) -> exists m, w_cores w !! k = Some m.
Proof. unfold on_core. destruct (w_cores w !! k) as [m|]; [by exists m|done]. Qed.

(** A replica that has left, without a server. *)
Lemma none_core cs phs k ph : net_none cs phs -> phs !! k = Some ph ->
  exists m, cs !! k = Some m /\ m_state m = Unsubscribing /\ Attribute_resource_id (m_attr m) = rid /\
    left_inv m (Some ph).
Proof.
  intros Hn Hph. destruct (cs !! k) as [m|] eqn:Hk; [|by rewrite (nn_phases _ _ Hn k Hk) in Hph].
  exists m. split; [done|]. destruct (nn_replica _ _ Hn k m Hk) as [Hr Hl]. rewrite Hph in Hl.
  split_and!; try done. unfold left_inv in Hl. destruct (decide _); [done|]. by destruct Hl.
Qed.

Lemma none_phase cs phs phs' k m : net_none cs phs -> cs !! k = Some m ->
  (forall j, j <> k -> phs' !! j = phs !! j) -> left_inv m (phs' !! k) -> net_none cs phs'.
Proof. intros Hn Hk Hphs Hl. rewrite <- (insert_id cs k m Hk). by eapply none_update. Qed.

(** A request in any state of the system. *)
Lemma serve_net `{!FirstKey fk} w phs k p now : lc_wf (w_conn w) ->
  net (server_of rid (w_conn w)) (w_cores w) phs -> phs !! k = Some (Sent p) ->
  (forall sv, server_of rid (w_conn w) = Some sv -> push_small p sv) ->
  (subscribes (ppp_state p) = true -> creator_settled rid w) ->
  exists q conn' c m,
    LocalConnectivity_push_pull fk (snapshots now w) p (w_conn w) = (Ok q, conn', c) /\
    net (server_of rid conn') (w_cores w) (<[k := Received q]> phs) /\
    w_cores w !! k = Some m /\ live (m_state m) = true /\
    match server_of rid (w_conn w) with
    | None => server_of rid conn' = None
    | Some sv => exists sv', served m sv sv' /\ server_of rid conn' = after_request p sv'
    end.
Proof.
  intros Hlc Hn Hph Hsm Hset. destruct (server_of rid (w_conn w)) as [sv|] eqn:Hs.
  - destruct Hn as [Hn Hne]. destruct (net_phase_core sv _ phs k _ Hn Hph) as (m & Hk & Hrid & Hl & Hor).
    assert (Hr : PushPullPack_resource_id p = rid).
    { destruct Hor as [(_ & _ & Hp & _)|(_ & Hm & Hp)]; [by rewrite (pv_resource _ _ Hp)|].
      unfold left_inv in Hp. rewrite decide_True in Hp by done. apply Hp. }
    assert (Hserve : exists q sv' c, process fk (snapshots now w) (lc_is_realtime (w_conn w)) p sv = (Ok q, sv', c) /\
      net (after_request p sv') (w_cores w) (<[k := Received q]> phs) /\ served m sv sv').
    { destruct (decide (m_state m = Unsubscribing)) as [Hm|Hm].
      - by apply serve_leaving; auto.
      - apply serve_alive; auto; [by destruct (m_state m)|]. intros. by eapply settled_snapshot. }
    destruct Hserve as (q & sv' & c & Hpr & Hn' & Hsd).
    destruct (serve_route (snapshots now w) p (w_conn w) sv q sv' c Hs Hr Hpr) as (conn' & Hpp & Hs').
    exists q, conn', c, m. rewrite Hs'. split_and!; [done..|by exists sv'].
  - destruct (none_core _ phs k _ Hn Hph) as (m & Hk & Hm & Hrid & Hp). pose proof Hp as Hp'.
    unfold left_inv in Hp'. rewrite decide_True in Hp' by done. destruct Hp' as (Hst & Hc & Hr).
    destruct (serve_nobody (snapshots now w) p (w_conn w) Hlc Hs Hr) as (q & Hpp & Hq).
    exists q, (w_conn w), [], m. rewrite Hs. split_and!; [done| |done|by rewrite Hm|done].
    eapply none_phase; [done|exact Hk|intros j Hj; by rewrite lookup_insert_ne|].
    rewrite lookup_insert_eq. unfold left_inv. by rewrite decide_True.
Qed.

Lemma call_push_pull_inv `{!FirstKey fk} w phs k p now q w' c : lc_wf (w_conn w) ->
  net (server_of rid (w_conn w)) (w_cores w) phs -> phs !! k = Some (Sent p) ->
  (forall sv, server_of rid (w_conn w) = Some sv -> push_small p sv) ->
  (subscribes (ppp_state p) = true -> creator_settled rid w) ->
  call_push_pull now p w = (Ok q, w', c) ->
  lc_wf (w_conn w') /\ w_cores w' = w_cores w /\
  net (server_of rid (w_conn w')) (w_cores w) (<[k := Received q]> phs) /\
  exists m, w_cores w !! k = Some m /\ live (m_state m) = true /\
    match server_of rid (w_conn w) with
    | None => server_of rid (w_conn w') = None
    | Some sv => exists sv', served m sv sv' /\ server_of rid (w_conn w') = after_request p sv'
    end.
Proof.
  intros Hlc Hn Hph Hsm Hset Hcall.
  destruct (serve_net w phs k p now Hlc Hn Hph Hsm Hset) as (q0 & conn' & c0 & m & Hpp & Hn' & Hk & Hl & Heff).
  pose proof (@conn_push_pull_wf _ _ _ (local_connectivity_laws fk) (snapshots now w) p (w_conn w) Hlc) as Hwf.
  unfold call_push_pull in Hcall. cbn [conn_push_pull conn_ops local_connectivity] in *.
  rewrite Hpp in *. injection Hcall as <- <- <-. split; [exact Hwf|]. split; [done|].
  split; [exact Hn'|]. by exists m.
Qed.

(** One change of one core, whatever the server. *)
Lemma net_none_core so cs phs k m : net so cs phs -> cs !! k = Some m -> alive (m_state m) = true ->
  exists sv, so = Some sv.
Proof.
  destruct so as [sv|]; [by exists sv|]. intros Hn Hk Ha. destruct (nn_replica _ _ Hn k m Hk) as [_ Hl].
  unfold left_inv in Hl. destruct (decide _) as [He|_]; [by rewrite He in Ha|destruct Hl as [Hf _]; by rewrite Hf in Ha].
Qed.

Lemma step_register_inv w ph core attr st handlers t :
  sys_inv (mkSystem w ph) -> Attribute_resource_id attr = rid ->
  max_mem_size_of_push_buffer (attr_option attr) <= UPPER_MAX_MEM_SIZE_OF_PUSH_BUFFER ->
  initial_state st = true -> w_cores w !! core = None ->
  (forall k m, w_cores w !! k = Some m ->
     cuid_of m <> Attribute_get_cuid attr /\ duid_of m <> Attribute_get_duid attr) ->
  TransactionalDatatype_new_arc core attr st handlers = Ok t ->
  sys_inv (mkSystem (mkWorld (<[core := td_mutable t]> (w_cores w)) (conn_register attr core (w_conn w))) ph).
Proof.
  intros [Hlc Hinv] Hrid Hmax Hst Hc Hfresh Ht. unfold sys_inv, cores in *. cbn [s_world s_phases w_cores w_conn] in *.
  unfold TransactionalDatatype_new_arc, mbind, result_bind in Ht.
  destruct (MutableDatatype_new _ st handlers) as [m| | |] eqn:Hm; try done. injection Ht as <-.
  split; [by apply (@conn_register_wf _ _ _ (local_connectivity_laws fk))|].
  cbn [conn_register conn_ops local_connectivity]. rewrite server_of_register by done.
  cbn [td_mutable]. set (attr' := Attribute_set_transactional (mkWeak core true) attr) in *.
  assert (Hn : net_inv (default (Server_new attr) (server_of rid (w_conn w))) (w_cores w) ph).
  { destruct (server_of rid (w_conn w)); [apply Hinv|]. apply net_none_new; [exact Hinv|].
    unfold MutableDatatype_new, Crdt_new, mbind, result_bind in Hm. simpl in Hm.
    by destruct (attr_type attr). }
  split; [by apply (net_register _ _ _ core attr' st handlers)|].
  simpl. intros He. by apply (insert_non_empty _ _ _ He).
Qed.

Lemma step_receive_inv so cs ph core q : net so cs ph -> ph !! core = Some (Received q) ->
  exists m m' c, cs !! core = Some m /\ receive_answer q m = (Ok tt, m', c) /\
    net so (<[core := m']> cs) (delete core ph).
Proof.
  intros Hn Hph. destruct so as [sv|].
  - destruct Hn as [Hn Hne]. destruct (net_phase_core sv _ ph core _ Hn Hph) as (m & Hm & _).
    destruct (net_receive sv _ ph core m q Hn Hm Hph) as (m' & c & Hrec & Hn' & _). by exists m, m', c.
  - destruct (none_core _ ph core _ Hn Hph) as (m & Hm & _ & _ & Hl).
    destruct (left_receive m q Hl) as (m' & c & Hrec & Hst & Hat). exists m, m', c. split_and!; [done..|].
    eapply none_update; [done..| |].
    + intros j Hj. by rewrite lookup_delete_ne.
    + rewrite lookup_delete_eq. by apply disabled_left.
Qed.

Lemma step_send_inv so cs ph core m p : net so cs ph -> cs !! core = Some m -> live (m_state m) = true ->
  ph !! core = None -> cp_cseq (m_checkpoint m) < u64_max -> create_push_pull_pack m = (Ok p, m, []) ->
  net so cs (<[core := Sent p]> ph).
Proof.
  intros Hn Hm Hl Hph Hlt Hc. destruct so as [sv|].
  - destruct Hn as [Hn Hne]. split; [|done]. by eapply net_sent.
  - destruct (nn_replica _ _ Hn core m Hm) as [Hr Hli].
    destruct (create_pack_fields m p m [] Hc) as (_ & _ & Hst & Hcu & Hre).
    eapply none_phase; [done|exact Hm|intros j Hj; by rewrite lookup_insert_ne|].
    rewrite lookup_insert_eq. eapply left_send; [exact Hli|done..|by rewrite Hre].
Qed.

Lemma step_lose_inv so cs ph core m : net so cs ph -> cs !! core = Some m -> joined (m_state m) = true ->
  net so cs (delete core ph).
Proof.
  intros Hn Hm Hst. destruct so as [sv|].
  - destruct Hn as [Hn Hne]. split; [|done]. by eapply net_lose.
  - eapply none_phase; [done|exact Hm|intros j Hj; by rewrite lookup_delete_ne|].
    destruct (nn_replica _ _ Hn core m Hm) as [_ Hl]. rewrite lookup_delete_eq.
    unfold left_inv in *. destruct (decide _); [done|]. by destruct Hl.
Qed.

(** A step of a replica that its server cannot tell: the shared data stay. *)
Definition same_data (m m' : MutableDatatype) : Prop :=
  m_crdt m' = m_crdt m /\ m_op_id m' = m_op_id m /\ m_push_buffer m' = m_push_buffer m /\
  m_checkpoint m' = m_checkpoint m /\
  (pending (m_tx_record m) = None -> pending (m_tx_record m') = None).

Lemma same_data_view sv m m' : m_attr m' = m_attr m -> m_state m' = m_state m -> same_data m m' ->
  replica_view sv m -> replica_view sv m'.
Proof.
  intros Ha Hs (Hc & Ho & Hb & Hcp & Hp) [Hwf Hpe H1 H2 H3 H4 H5 H6 H7 H8 H9 H10 H11 H12].
  specialize (Hp Hpe).
  assert (Hwf' : mutable_wf m').
  { unfold mutable_wf, pending_wf, committed_cseq in *. by rewrite Hp, Hpe, Hc, Ho, Hb, Ha in *. }
  unfold unacked, buffered, seen, cuid_of in *.
  constructor; unfold unacked, buffered, seen, cuid_of; rewrite ?Ha, ?Hs, ?Hc, ?Ho, ?Hb, ?Hcp; done.
Qed.

Lemma net_keep so cs phs k m m' : net so cs phs -> cs !! k = Some m ->
  m_attr m' = m_attr m -> m_state m' = m_state m -> (live (m_state m) = true -> same_data m m') ->
  net so (<[k := m']> cs) phs.
Proof.
  intros Hn Hk Ha Hst Hd.
  assert (Hl : forall ph, left_inv m ph -> left_inv m' ph).
  { intros ph. unfold left_inv, cuid_of. by rewrite Hst, Ha. }
  destruct so as [sv|]; [destruct Hn as [Hn Hne]; split; [|done]|].
  - destruct (ni_replica _ _ _ Hn k m Hk) as [Hr Hv].
    apply (net_update sv cs phs phs k m); unfold cuid_of, duid_of in *; rewrite ?Ha, ?Hst; try done; [by left|].
    split; [by rewrite Ha|]. unfold cuid_of. rewrite Ha. fold (cuid_of m). rewrite Hst.
    unfold cuid_of in Hv. destruct (wired_map sv !! _); [|by apply Hl].
    destruct (live (m_state m)) eqn:Hlive; [|done]. specialize (Hd eq_refl). destruct Hv as [Hv Hp].
    split; [by eapply same_data_view|]. destruct Hd as (Hc & Ho & Hb & Hcp & _).
    unfold phase_inv, answer_view, round_answer, sync_answer, join_answer, joins, unpublished, cuid_of, duid_of in *.
    destruct (phs !! k) as [[p|q]|]; rewrite ?Hst, ?Ha, ?Hcp; try done.
    destruct Hp as [[] Hun]. split; [|done].
    constructor; unfold cuid_of, duid_of, unacked, buffered; by rewrite ?Hst, ?Ha, ?Hcp, ?Hb.
  - apply (none_update cs phs phs k m); [done..|]. apply Hl. by apply (nn_replica _ _ Hn k m Hk).
Qed.

(** The send step reads the core and leaves it alone. *)
Lemma send_world core (w w' : World LocalConnectivity) m p : w_cores w !! core = Some m ->
  on_core core (with_mapping create_push_pull_pack) w = (Ok p, w', []) ->
  w' = w /\ create_push_pull_pack m = (Ok p, m, []).
Proof.
  intros Hm Hon. unfold on_core in Hon. rewrite Hm in Hon. unfold with_mapping in Hon.
  destruct (create_push_pull_pack m) as [[r m1] c] eqn:Hc.
  pose proof (create_push_pull_pack_final m) as Hf. rewrite Hc in Hf. cbn in Hf. subst m1.
  destruct r as [p'|e|why|]; cbn in Hon; try done; [|by unfold routed in Hon; destruct (DatatypeError_mapping e)].
  injection Hon as -> <- Hcalls. rewrite insert_id by done.
  split; [by destruct w|]. by destruct c.
Qed.

Lemma sys_step_inv `{!FirstKey fk} s s' : sys_step s s' -> sys_inv s -> sys_inv s'.
Proof.
  intros Hstep Hsys. destruct Hstep as [w ph core attr st hs t Hrid Hmax Hst Hc Hfresh Ht
    |w ph core m ops tag m' calls Hm Hw Hr Ho|w ph core m w' calls Hm Hst Hon
    |w ph core m p w' Hph Hm Ha Hlt Hon
    |w ph core p now q w' calls Hph Hsm Hset Hcall|w ph core q w' calls Hph Hon|w ph core m Hm Hst
    |w ph core m Hm Hw|w ph core m hm Hm|w ph core m m' Hm Hst Hat Hst'|w ph lc Hlc' Hs];
    [by eapply step_register_inv|..];
    destruct Hsys as [Hlc Hinv]; unfold sys_inv, cores in *; cbn [s_world s_phases w_cores w_conn] in *.
  - split; [done|]. destruct (net_none_core _ _ _ _ _ Hinv Hm) as [sv Hs]; [by eapply writable_alive|].
    rewrite Hs in *. destruct Hinv as [Hn Hne]. split; [by eapply net_transaction|done].
  - erewrite on_core_eq in Hon; [|done|]; last first.
    { unfold Mutable_set_state. by rewrite decide_False by by rewrite Hst. }
    injection Hon as <- _. split; [done|]. cbn [w_conn w_cores].
    destruct (net_none_core _ _ _ _ _ Hinv Hm) as [sv Hs]; [by rewrite Hst|].
    rewrite Hs in *. destruct Hinv as [Hn Hne]. split; [by apply net_unsubscribe|done].
  - destruct (send_world core w w' m p Hm Hon) as [-> Hc]. split; [done|]. by eapply step_send_inv.
  - destruct (call_push_pull_inv w ph core p now q w' calls Hlc Hinv Hph Hsm Hset Hcall)
      as (Hlc' & Hcs & Hn & _). by rewrite Hcs.
  - destruct (step_receive_inv _ _ ph core q Hinv Hph) as (m & m' & c & Hm & Hrec & Hn).
    erewrite on_core_eq in Hon by done. by injection Hon as <- _.
  - split; [done|]. by eapply step_lose_inv.
  - split; [done|]. by eapply net_keep.
  - split; [done|]. by eapply net_keep.
  - split; [done|]. cbn [w_conn w_cores]. eapply net_keep; try done; by rewrite Hst.
  - split; [done|]. cbn [w_conn w_cores]. by rewrite Hs.
Qed.

Definition reachable (s : System) : Prop := rtc sys_step initial_system s.

Context `{!FirstKey fk}.

Lemma initial_inv : sys_inv initial_system.
Proof. split; [|done]. split; intros ? H; set_solver. Qed.

Lemma reachable_inv s : reachable s -> sys_inv s.
Proof.
  intros H. apply (rtc_ind_r (R:=sys_step) sys_inv initial_system); [apply initial_inv| |exact H].
  intros x y _ Hxy. by apply sys_step_inv.
Qed.

Lemma reachable_net s sv : reachable s -> server_of rid (w_conn (s_world s)) = Some sv ->
  net_inv sv (cores s) (s_phases s).
Proof. intros [_ Hi]%reachable_inv Hs. rewrite Hs in Hi. apply Hi. Qed.

Lemma reachable_view s sv k m : reachable s -> server_of rid (w_conn (s_world s)) = Some sv ->
  cores s !! k = Some m -> alive (m_state m) = true -> server_inv sv /\ replica_view sv m.
Proof.
  intros Hr Hs Hk Ha. pose proof (reachable_net s sv Hr Hs) as Hn. split; [apply Hn|].
  by eapply net_alive.
Qed.

(** The replica has seen the whole history and all its transactions are in it. *)
Definition caught_up (sv : LocalDatatypeServer) (m : MutableDatatype) : Prop :=
  cp_sseq (m_checkpoint m) = srv_sseq sv /\ unacked m = [].

Lemma caught_up_value sv m : server_inv sv -> replica_view sv m -> caught_up sv m ->
  crdt_value (m_crdt m) = i64_wrap (sumZ tx_delta (history sv)) /\
  key <$> own (cuid_of m) (history sv) = key <$> buffered m.
Proof.
  intros Hs Hv [Hc Hu]. pose proof (rv_value _ _ Hv) as Hval. destruct (si_wf _ Hs) as (_ & Hl & _).
  assert (Hseen : seen m (history sv) = history sv).
  { unfold seen. rewrite Hc, Hl, Nat2Z.id. apply firstn_all. }
  rewrite Hseen, Hu, sumZ_nil, Z.add_0_r in Hval. split; [done|].
  rewrite (view_own_take sv m Hv). f_equal. apply take_ge.
  pose proof (rv_cp _ _ Hv) as Hcp. rewrite Hseen in Hcp. unfold unacked in Hu. rewrite Hcp, Nat2Z.id in Hu.
  assert (Hz : length (drop (length (own (cuid_of m) (history sv))) (buffered m)) = 0%nat) by by rewrite Hu.
  rewrite length_drop in Hz. lia.
Qed.

(** ** Properties *)

(** C1.  In every reachable state, whatever the interleaving of commits and
    rounds: the counter of a live replica is the sum of the transactions of the
    history it has seen plus its own transactions that are not acknowledged,
    modulo 2^64; the transactions it has in the history are a prefix of those it
    committed, in order, each recorded once; and the server acknowledged exactly
    those. *)
Theorem replicas_track_history s sv k m :
  reachable s -> server_of rid (w_conn (s_world s)) = Some sv ->
  cores s !! k = Some m -> alive (m_state m) = true ->
  crdt_value (m_crdt m) =
    i64_wrap (sumZ tx_delta (seen m (history sv)) + sumZ tx_delta (unacked m)) /\
  key <$> own (cuid_of m) (history sv) `prefix_of` key <$> buffered m /\
  tx_cseq <$> buffered m = seqZ 1 (oid_cseq (m_op_id m)) /\
  cp_cseq (client_cp (cuid_of m) sv) = Z.of_nat (length (own (cuid_of m) (history sv))) /\
  cp_cseq (m_checkpoint m) = Z.of_nat (length (own (cuid_of m) (seen m (history sv)))) /\
  cp_sseq (m_checkpoint m) <= srv_sseq sv.
Proof.
  intros Hr Hs Hk Ha. destruct (reachable_view s sv k m Hr Hs Hk Ha) as [Hsi Hv].
  destruct (si_wf _ Hsi) as (_ & Hl & _).
  split_and!; try apply Hv.
  - rewrite (rv_cseq _ _ Hv). apply (rv_consecutive _ _ Hv).
  - rewrite Hl. apply (rv_sseq _ _ Hv).
Qed.

(** Convergence: in every reachable state, two live replicas that have seen
    the whole history and whose transactions are all acknowledged have the same
    counter, the sum of the history; and everything they committed is in it. *)
Theorem caught_up_replicas_converge s sv j k mj mk :
  reachable s -> server_of rid (w_conn (s_world s)) = Some sv ->
  cores s !! j = Some mj -> cores s !! k = Some mk ->
  alive (m_state mj) = true -> alive (m_state mk) = true ->
  caught_up sv mj -> caught_up sv mk ->
  crdt_value (m_crdt mj) = crdt_value (m_crdt mk) /\
  crdt_value (m_crdt mk) = i64_wrap (sumZ tx_delta (history sv)) /\
  key <$> own (cuid_of mk) (history sv) = key <$> buffered mk.
Proof.
  intros Hr Hs Hj Hk Haj Hak Hcj Hck.
  destruct (reachable_view s sv j mj Hr Hs Hj Haj) as [Hsi Hvj].
  destruct (reachable_view s sv k mk Hr Hs Hk Hak) as [_ Hvk].
  destruct (caught_up_value sv mj Hsi Hvj Hcj) as [-> _].
  by destruct (caught_up_value sv mk Hsi Hvk Hck) as [-> ->].
Qed.

(** One undisturbed round of a subscribed replica. *)
Lemma round_applied s sv k m now :
  reachable s -> server_of rid (w_conn (s_world s)) = Some sv ->
  cores s !! k = Some m -> m_state m = Subscribed -> s_phases s !! k = None ->
  cp_cseq (m_checkpoint m) < u64_max ->
  srv_sseq sv + Z.of_nat (length (unacked m)) <= u64_max ->
  exists p m' sv' conn' calls,
    let w' := mkWorld (<[k := m']> (cores s)) conn' in
    do_push_pull now k (s_world s) = (Ok tt, w', calls) /\
    reachable (mkSystem w' (s_phases s)) /\ server_of rid conn' = Some sv' /\
    m_state m' = Subscribed /\ cuid_of m' = cuid_of m /\ buffered m' = buffered m /\
    sv' = (push_transactions p sv).2 /\ push_small p sv /\ pack_view m p /\
    m_checkpoint m' = mkCheckPoint (srv_sseq sv') (Z.of_nat (length (own (cuid_of m) (history sv')))) /\
    (sumZ Transaction_size (unacked m) <= DEFAULT_MAX_TRANSMISSION_SIZE ->
     ppp_transactions p = unacked m) /\
    (forall tx, head (unacked m) = Some tx -> Transaction_size tx <= DEFAULT_MAX_TRANSMISSION_SIZE ->
     ppp_transactions p <> []).
Proof.
  intros Hr Hs Hk Hst Hph Hlt Hsmall. destruct s as [w ph]. unfold cores in *. simpl in *.
  assert (Ha : alive (m_state m) = true) by by rewrite Hst.
  pose proof (reachable_net _ sv Hr Hs) as Hn. unfold cores in Hn. simpl in Hn.
  destruct (reachable_view _ sv k m Hr Hs Hk Ha) as [Hsi Hv].
  destruct (net_send sv _ ph k m Hn Hk Ha Hph Hlt) as (p & Hp & Hpv & Hall).
  assert (Hpst : ppp_state p = Subscribed).
  { destruct (pv_state _ _ Hpv) as [->|[-> _]]; done. }
  assert (Hw1 : mkWorld (<[k := m]> (w_cores w)) (w_conn w) = w) by (rewrite insert_id by done; by destruct w).
  assert (Hsend : on_core k (with_mapping create_push_pull_pack) w = (Ok p, w, [])).
  { erewrite on_core_eq by (done || (unfold with_mapping; rewrite Hp; reflexivity)). simpl. by rewrite Hw1. }
  assert (Hsm : push_small p sv).
  { unfold push_small. destruct (pv_txs _ _ Hpv) as [j ->]. rewrite length_take. lia. }
  assert (Hwired : wired_map sv !! cuid_of m <> None) by by rewrite (net_wired sv _ ph k m Hn Hk Ha).
  destruct (serve_subscribed sv m p (lc_is_realtime (w_conn w)) Hsi Hv Hpv Hsm Hwired)
    as (q & c & Hpr & He & Hq & Hans).
  pose proof (push_pushed_by sv m p Hsi Hv Hpv Hsm) as Hpb.
  assert (Hjo : joined (m_state m) = true) by by rewrite Hst.
  pose proof (push_server_inv sv m p Hsi Hv Hpv Hsm (rv_created _ _ Hv Hjo)) as Hsi'.
  set (sv' := (push_transactions p sv).2) in *.
  destruct (serve_route (snapshots now w) p (w_conn w) sv q sv' c Hs) as (conn' & Hpp & Hs').
  { rewrite (pv_resource _ _ Hpv). by destruct (ni_replica _ _ _ Hn k m Hk). }
  { unfold process. by rewrite Hpst. }
  unfold after_request in Hs'. rewrite bool_decide_false in Hs' by by rewrite Hpst.
  pose proof (pushed_self_view m sv sv' Hv Hpb) as Hv'.
  destruct (sync_answer_applied sv' m q (length (history sv')) Hsi' Hv' Ha He Hq) as (c' & Hap & Hv2 & Hcp).
  { apply (rv_created _ _ Hv' Hjo). }
  { unfold joins. by rewrite Hst. }
  { done. }
  { exact Hans. }
  set (m' := m_put_state Subscribed (synced q m)) in *.
  eexists p, m', sv', conn', _. cbv zeta.
  split; [|split; [|do 7 (split; [done|])]].
  - erewrite do_push_pull_eq by done. rewrite Hap. reflexivity.
  - assert (Hcall : call_push_pull now p w = (Ok q, mkWorld (w_cores w) conn', ConnCall <$> c)).
    { unfold call_push_pull. cbn [conn_push_pull conn_ops local_connectivity]. by rewrite Hpp. }
    assert (Hrecv : on_core k (receive_answer q) (mkWorld (w_cores w) conn') =
      (Ok tt, mkWorld (<[k := m']> (w_cores w)) conn', CoreCall k <$> c')).
    { by erewrite on_core_eq by (done || by apply receive_ok). }
    assert (Hphs : ph = delete k (<[k := Received q]> (<[k := Sent p]> ph))).
    { by rewrite insert_insert_eq, delete_insert_id. }
    unfold reachable. eapply rtc_r; [eapply rtc_r; [eapply rtc_r; [exact Hr|]|]|].
    + eapply step_send; try done. by rewrite Hst.
    + eapply step_serve; [apply lookup_insert_eq| | |exact Hcall].
      * intros x Hx. rewrite Hs in Hx. by injection Hx as <-.
      * by rewrite Hpst.
    + rewrite Hphs at 2. eapply step_receive; [apply lookup_insert_eq|exact Hrecv].
  - split; [|exact Hall]. destruct Hans as (Hchk & _). rewrite firstn_all in Hchk.
    rewrite Hcp, Hchk. f_equal. symmetry. apply Hsi'.
Qed.

(** One undisturbed round of a subscribed replica whose unacknowledged
    transactions fit into one transmission succeeds and leaves it caught up:
    [do_push_pull] is the three steps of the system in a row, the result is
    reachable again, and no other replica changes. *)
Theorem round_catches_up s sv k m now :
  reachable s -> server_of rid (w_conn (s_world s)) = Some sv ->
  cores s !! k = Some m -> m_state m = Subscribed -> s_phases s !! k = None ->
  cp_cseq (m_checkpoint m) < u64_max ->
  sumZ Transaction_size (unacked m) <= DEFAULT_MAX_TRANSMISSION_SIZE ->
  srv_sseq sv + Z.of_nat (length (unacked m)) <= u64_max ->
  exists m' sv' conn' calls,
    let w' := mkWorld (<[k := m']> (cores s)) conn' in
    do_push_pull now k (s_world s) = (Ok tt, w', calls) /\
    reachable (mkSystem w' (s_phases s)) /\ server_of rid conn' = Some sv' /\
    m_state m' = Subscribed /\ caught_up sv' m'.
Proof.
  intros Hr Hs Hk Hst Hph Hlt Hfit Hsmall.
  destruct (round_applied s sv k m now Hr Hs Hk Hst Hph Hlt Hsmall)
    as (p & m' & sv' & conn' & calls & Hdo & Hr' & Hs' & Hst' & _ & Hb & Hsv & Hsm & Hpv & Hcp & Hall & _).
  exists m', sv', conn', calls. cbv zeta. split; [done|]. split; [done|]. split; [done|].
  split; [done|]. destruct (reachable_view s sv k m Hr Hs Hk) as [Hsi Hv]; [by rewrite Hst|].
  pose proof (pushed_all sv m p Hsi Hv Hpv Hsm (Hall Hfit)) as Hlen. rewrite <- Hsv in Hlen.
  split; [by rewrite Hcp|]. unfold unacked. rewrite Hcp, Hb, Hlen. cbn [cp_cseq].
  rewrite Nat2Z.id. by apply drop_ge.
Qed.
End system.
