(* ===== verification/Resources.v ===== *)
(** * Several resources on one connectivity

    A [LocalConnectivity] serves any number of resources.  Each has a server of its
    own, so a request for one resource leaves the servers of the others alone, and
    its answer depends on the datatypes that are registered there only. *)

From Stdlib Require Import Sorting.Sorted.
From S2P Require Import Prelude Types Errors Operations Crdts PushBuffer Pack Handler Mutable Transactional PullHandler Server Connectivity Wired Replica System.

(** Different resources have different servers. *)
Definition lc_separate (lc : LocalConnectivity) : Prop :=
  forall r1 r2 arc, datatype_servers lc !! r1 = Some arc -> datatype_servers lc !! r2 = Some arc -> r1 = r2.

Section resources.
Context (fk : gmap Cuid Z -> option Cuid).
Implicit Types (lc : LocalConnectivity) (p : PushPullPack).

Lemma register_separate attr core lc : lc_wf lc -> lc_separate lc ->
  lc_separate (LocalConnectivity_register attr core lc).
Proof.
  intros [Hwf _] Hs r1 r2 arc. unfold LocalConnectivity_register, register_entry.
  destruct (datatype_servers lc !! Attribute_resource_id attr) as [arc0|] eqn:Ha; [apply Hs|]. cbn.
  intros [[<- <-]|[Hne1 H1]]%lookup_insert_Some [[<- He]|[Hne2 H2]]%lookup_insert_Some; try done.
  - destruct (Hwf _ _ H2). lia.
  - subst arc. destruct (Hwf _ _ H1). lia.
  - by eapply Hs.
Qed.

Lemma server_of_register_other rid attr core lc : lc_wf lc -> lc_separate lc ->
  Attribute_resource_id attr <> rid ->
  server_of rid (LocalConnectivity_register attr core lc) = server_of rid lc.
Proof.
  intros [Hwf _] Hs Hne. unfold LocalConnectivity_register, register_entry, server_of.
  destruct (datatype_servers lc !! Attribute_resource_id attr) as [arc0|] eqn:Ha; cbn.
  - destruct (datatype_servers lc !! rid) as [arc|] eqn:Hr; [|done]. cbn.
    rewrite lookup_alter_ne; [done|]. intros ->. by apply Hne, (Hs _ _ arc).
  - rewrite lookup_insert_ne by done. destruct (datatype_servers lc !! rid) as [arc|] eqn:Hr; [|done]. cbn.
    destruct (Hwf _ _ Hr). rewrite lookup_alter_ne, lookup_insert_ne by lia. done.
Qed.

(** A request changes the server of its resource, and may remove it. *)
Lemma push_pull_shape snap p lc :
  exists arcs, (forall arc, datatype_servers lc !! PushPullPack_resource_id p <> Some arc ->
      arcs !! arc = lc_arcs lc !! arc) /\
    (final (LocalConnectivity_push_pull fk snap p lc) = lc_set_arcs arcs lc \/
     final (LocalConnectivity_push_pull fk snap p lc) =
       mkLocalConnectivity arcs (delete (PushPullPack_resource_id p) (datatype_servers lc)) (lc_fresh lc)
         (lc_is_realtime lc)).
Proof.
  unfold LocalConnectivity_push_pull, mbind, M_bind, get, modify, mret, M_ret, get_local_datatype_server.
  destruct (datatype_servers lc !! PushPullPack_resource_id p) as [arc|] eqn:Ha; last first.
  { exists (lc_arcs lc). split; [done|]. left. by destruct lc. }
  unfold push_pull_process. destruct (lc_arcs lc !! arc) as [sv|] eqn:Hs; last first.
  { exists (lc_arcs lc). split; [done|]. left. by destruct lc. }
  destruct (process fk snap (lc_is_realtime lc) p sv) as [[r sv'] w].
  exists (<[arc := sv']> (lc_arcs lc)). split.
  { intros arc' Hne. rewrite lookup_insert_ne; [done|]. congruence. }
  destruct r; cbn; try by left. unfold push_pull_remove. destruct (_ && _); [by right|by left].
Qed.

Lemma push_pull_separate snap p lc : lc_separate lc ->
  lc_separate (final (LocalConnectivity_push_pull fk snap p lc)).
Proof.
  intros Hs. destruct (push_pull_shape snap p lc) as (arcs & _ & [-> | ->]); [apply Hs|].
  intros r1 r2 arc. cbn. intros [_ H1]%lookup_delete_Some [_ H2]%lookup_delete_Some. by eapply Hs.
Qed.

Lemma push_pull_other rid snap p lc : lc_separate lc -> PushPullPack_resource_id p <> rid ->
  server_of rid (final (LocalConnectivity_push_pull fk snap p lc)) = server_of rid lc.
Proof.
  intros Hs Hne. destruct (push_pull_shape snap p lc) as (arcs & Harcs & Hor).
  assert (Hr : forall arc, datatype_servers lc !! rid = Some arc -> arcs !! arc = lc_arcs lc !! arc).
  { intros arc Ha. apply Harcs. intros Hp. by apply Hne, (Hs _ _ arc). }
  unfold server_of. destruct Hor as [-> | ->]; cbn; rewrite ?lookup_delete_ne by done;
    destruct (datatype_servers lc !! rid) as [arc|] eqn:Ha; try done; cbn; by apply Hr.
Qed.

(** The answer depends on the snapshots of the datatypes registered there. *)
Lemma push_pull_snapshots snap snap' p lc :
  (forall sv c k, server_of (PushPullPack_resource_id p) lc = Some sv -> wired_map sv !! c = Some k ->
     snap k = snap' k) ->
  LocalConnectivity_push_pull fk snap p lc = LocalConnectivity_push_pull fk snap' p lc.
Proof.
  intros Hsnap. unfold LocalConnectivity_push_pull, mbind, M_bind, get, get_local_datatype_server.
  destruct (datatype_servers lc !! PushPullPack_resource_id p) as [arc|] eqn:Ha; [|done].
  unfold push_pull_process. destruct (lc_arcs lc !! arc) as [sv|] eqn:Hs; [|done].
  assert (Hk : forall c k, wired_map sv !! c = Some k -> snap k = snap' k).
  { intros c k. apply Hsnap. unfold server_of. by rewrite Ha. }
  assert (Hsub : process_subscribing snap p sv = process_subscribing snap' p sv).
  { unfold process_subscribing, mbind, M_bind, get, mret, M_ret, get_creator_wired_datatype.
    repeat (destruct (negb _); [done|]).
    destruct (wired_map sv !! creator sv) as [k|] eqn:Hc; [|done]. by rewrite (Hk _ _ Hc). }
  assert (process fk snap (lc_is_realtime lc) p sv = process fk snap' (lc_is_realtime lc) p sv) as ->; [|done].
  unfold process. destruct (ppp_state p); try done.
  unfold process_subscribing_or_creating, mbind, M_bind, get. destruct (created sv); [|done]. by rewrite Hsub.
Qed.
End resources.
