(* ===== verification/Rounds.v ===== *)
(** * A round as the event loop runs it

    The loop runs a round without interruption and handles its error at once.  Seen
    from a resource, a round of one of its datatypes is the three steps of [System]
    in a row, a round of a disabled datatype is refused, and a round of another
    resource's datatype happens elsewhere.  [registered] is what holds as long as no
    answer is lost: a replica that is leaving is still known to the server. *)

From Stdlib Require Import Sorting.Sorted.
From S2P Require Import Prelude Types Errors Operations Crdts PushBuffer Pack Handler Mutable Transactional PullHandler Server Connectivity Wired Replica System Resources.

(** ** Definitions *)
Section rounds.
Context {C : Type} `{ConnectivityOps C}.

(** [push_pull] and, when it fails, [handle_error]; the calls are left out. *)
Definition loop_round (now core : Z) (w : World C) : result DatatypeErrorWithAction unit * World C :=
  let '(r, w, _) := Wired_push_pull now core w in
  (r, match r with
      | Err e => final (on_core core (handle_error (error e) (recovery e)) w)
      | _ => w
      end).

(** The loop survives the round. *)
Definition survives (r : result DatatypeErrorWithAction unit) : Prop :=
  match r with Ok _ | Err _ => True | _ => False end.

(** A round that is answered, from its three stages. *)
Lemma loop_round_eq now core (w : World C) m p q conn c m' c' :
  w_cores w !! core = Some m -> create_push_pull_pack m = (Ok p, m, []) ->
  conn_push_pull (snapshots now w) p (w_conn w) = (Ok q, conn, c) ->
  receive_answer q m = (Ok tt, m', c') ->
  exists r, loop_round now core w = (r, mkWorld (<[core := m']> (w_cores w)) conn) /\ survives r.
Proof.
  intros Hm Hp Hq Hr. pose proof (do_push_pull_eq now core w m p q conn c Hm Hp Hq) as Hdo.
  unfold receive_answer, attempt, mbind, M_bind in Hr.
  unfold loop_round, Wired_push_pull, attempt, emit, lift, mbind, M_bind. rewrite Hdo.
  destruct (apply_pulled q m) as [[[[]|e|why|] m1] c1]; cbn in Hr; try done.
  - injection Hr as -> _. exists (Ok tt). by split.
  - exists (Err e). split; [|done]. cbn. unfold on_core. cbn. rewrite lookup_insert_eq.
    destruct (handle_error (error e) (recovery e) m1) as [[r2 m2] c2]. injection Hr as _ -> _.
    cbn. by rewrite insert_insert_eq.
Qed.
End rounds.

Section resource.
Context (rid : string) (fk : gmap Cuid Z -> option Cuid) `{!FirstKey fk}.
#[local] Instance rounds_conn : ConnectivityOps LocalConnectivity := local_connectivity fk.
Implicit Types (w ws : World LocalConnectivity).

Definition registered (s : System) : Prop :=
  forall k m, cores s !! k = Some m -> m_state m = Unsubscribing ->
    exists sv, server_of rid (w_conn (s_world s)) = Some sv /\ wired_map sv !! cuid_of m <> None.

(** [ws] has the datatypes of the resource among those of [w]. *)
Definition part_of ws w : Prop :=
  w_conn ws = w_conn w /\ forall k m, w_cores ws !! k = Some m -> w_cores w !! k = Some m.

(** ** Lemmas *)
Lemma live_registered ws k m : sys_inv rid (mkSystem ws ∅) -> registered (mkSystem ws ∅) ->
  w_cores ws !! k = Some m -> live (m_state m) = true ->
  exists sv, server_of rid (w_conn ws) = Some sv /\ wired_map sv <> ∅ /\ net_inv rid sv (w_cores ws) ∅ /\
    wired_map sv !! cuid_of m <> None /\ server_inv sv /\ replica_view sv m.
Proof.
  intros [_ Hn] Hreg Hm Hl. unfold cores in Hn. cbn in Hn.
  assert (Hw : exists sv, server_of rid (w_conn ws) = Some sv /\ wired_map sv !! cuid_of m <> None).
  { destruct (decide (m_state m = Unsubscribing)) as [Hu|Hu]; [by apply (Hreg k m)|].
    assert (Ha : alive (m_state m) = true) by by destruct (m_state m).
    destruct (net_none_core _ _ _ _ _ _ Hn Hm Ha) as [sv Hs]. rewrite Hs in Hn. destruct Hn as [Hn _].
    exists sv. split; [done|]. by rewrite (net_wired _ sv _ ∅ k m Hn Hm Ha). }
  destruct Hw as (sv & Hs & Hw). rewrite Hs in Hn. destruct Hn as [Hn Hne]. exists sv.
  split_and!; try done; [apply Hn|]. destruct (ni_replica _ _ _ _ Hn k m Hm) as [_ Hv].
  destruct (wired_map sv !! cuid_of m); [|done]. rewrite Hl in Hv. apply Hv.
Qed.

(** A served request removes at most the client that made it. *)
Lemma served_registered sv sv' cs m p j mj : net_inv rid sv cs ∅ -> served fk m sv sv' ->
  wired_map sv !! cuid_of mj <> None -> cuid_of mj <> cuid_of m -> cs !! j = Some mj ->
  exists sv2, after_request p sv' = Some sv2 /\ wired_map sv2 !! cuid_of mj <> None.
Proof.
  intros Hn Hsd Hw Hne Hj.
  assert (Hw' : wired_map sv' !! cuid_of mj <> None).
  { destruct Hsd as [-> |(_ & sv1 & Hpb & [-> |[_ ->]])]; [done|by rewrite (pb_wired _ _ _ Hpb)|].
    by rewrite unsubscribed_wired, lookup_delete_ne, (pb_wired _ _ _ Hpb) by congruence. }
  exists sv'. split; [|done]. unfold after_request, Server_is_empty.
  rewrite (bool_decide_false (wired_map sv' = ∅)), andb_false_r; [done|]. intros He. by rewrite He in Hw'.
Qed.

(** A round of a live datatype of the resource. *)
Lemma live_round now core w ws m sv :
  part_of ws w -> reachable rid fk (mkSystem ws ∅) -> registered (mkSystem ws ∅) ->
  w_cores ws !! core = Some m -> live (m_state m) = true ->
  cp_cseq (m_checkpoint m) < u64_max -> server_of rid (w_conn ws) = Some sv ->
  srv_sseq sv + Z.of_nat (length (buffered m)) <= u64_max ->
  (subscribes (m_state m) = true -> creator_settled rid ws) ->
  exists r m' conn',
    loop_round now core w = (r, mkWorld (<[core := m']> (w_cores w)) conn') /\ survives r /\
    cuid_of m' = cuid_of m /\ m_state m' <> Unsubscribing /\
    rtc (sys_step rid fk) (mkSystem ws ∅) (mkSystem (mkWorld (<[core := m']> (w_cores ws)) conn') ∅) /\
    registered (mkSystem (mkWorld (<[core := m']> (w_cores ws)) conn') ∅).
Proof.
  intros [Hconn Hpart] Hr Hreg Hm Hl Hlt Hs Hsmall Hset.
  pose proof (reachable_inv _ _ _ Hr) as Hinv.
  destruct (live_registered ws core m Hinv Hreg Hm Hl) as (sv0 & Hs0 & Hne & Hn & Hw & Hsi & Hv).
  rewrite Hs in Hs0. injection Hs0 as <-. destruct Hinv as [Hlc Hnet]. unfold cores in Hnet. cbn in Hlc, Hnet.
  destruct (create_pack_view sv m Hv Hlt) as (p & Hp & Hpv & _).
  destruct (create_pack_fields m p m [] Hp) as (_ & _ & Hst & Hcu & Hre).
  set (phs := <[core := Sent p]> (∅ : gmap Z Phase)).
  assert (Hsend : sys_step rid fk (mkSystem ws ∅) (mkSystem ws phs)).
  { apply (step_send rid fk ws ∅ core m p ws); try done.
    erewrite on_core_eq by (done || (unfold with_mapping; rewrite Hp; reflexivity)). cbn.
    rewrite insert_id by done. by destruct ws. }
  assert (Hn1 : net rid (server_of rid (w_conn ws)) (w_cores ws) phs).
  { destruct (sys_step_inv rid fk _ _ Hsend) as [_ Hx]; [by split|]. exact Hx. }
  assert (Hsm : forall x, server_of rid (w_conn ws) = Some x -> push_small p x).
  { rewrite Hs. intros x [= <-]. unfold push_small. destruct (pv_txs _ _ Hpv) as [j ->].
    rewrite length_take. unfold unacked. rewrite length_drop. lia. }
  assert (Hset' : subscribes (ppp_state p) = true -> creator_settled rid ws) by by rewrite Hst.
  destruct (serve_net rid fk ws phs core p now Hlc Hn1 (lookup_insert_eq _ _ _) Hsm Hset')
    as (q & conn' & c & m0 & Hpp & Hn2 & Hm0 & _ & Heff).
  rewrite Hm in Hm0. injection Hm0 as <-. rewrite Hs in Heff. destruct Heff as (sv' & Hsd & Hs').
  set (phq := <[core := Received q]> phs).
  assert (Hserve : sys_step rid fk (mkSystem ws phs) (mkSystem (mkWorld (w_cores ws) conn') phq)).
  { eapply step_serve with (now := now); [apply lookup_insert_eq|exact Hsm|exact Hset'|].
    unfold call_push_pull. cbn [conn_push_pull System.conn_ops local_connectivity].
    by rewrite Hpp. }
  destruct (step_receive_inv rid _ _ phq core q Hn2 (lookup_insert_eq _ _ _)) as (m0 & m' & c' & Hm0 & Hrec & Hn3).
  rewrite Hm in Hm0. injection Hm0 as <-.
  assert (Hphs : delete core phq = ∅).
  { unfold phq, phs. by rewrite insert_insert_eq, delete_insert_id by apply lookup_empty. }
  assert (Hreceive : sys_step rid fk (mkSystem (mkWorld (w_cores ws) conn') phq)
    (mkSystem (mkWorld (<[core := m']> (w_cores ws)) conn') ∅)).
  { rewrite <- Hphs. eapply step_receive; [apply lookup_insert_eq|]. by erewrite on_core_eq by done. }
  assert (Hsame : LocalConnectivity_push_pull fk (snapshots now w) p (w_conn w) = (Ok q, conn', c)).
  { rewrite <- Hconn, <- Hpp. apply push_pull_snapshots. intros x d k Hx Hk.
    rewrite Hre in Hx. destruct (ni_replica _ _ _ _ Hn core m Hm) as [Hrid _]. rewrite Hrid, Hs in Hx.
    injection Hx as <-. destruct (ni_wired _ _ _ _ Hn _ _ Hk) as (mk & Hmk & _).
    unfold snapshots. by rewrite Hmk, (Hpart _ _ Hmk). }
  destruct (loop_round_eq now core w m p q conn' c m' c') as (r & Hround & Hsurv); try done; [by apply Hpart|].
  assert (Hm' : cuid_of m' = cuid_of m /\ m_state m' <> Unsubscribing).
  { destruct (server_of rid conn') as [sv2|] eqn:Hs2.
    - destruct Hn2 as [Hn2 _]. destruct (net_receive rid sv2 _ phq core m q Hn2 Hm (lookup_insert_eq _ _ _))
        as (x & cx & Hx & _ & Hcux & Hor). rewrite Hrec in Hx. injection Hx as <- _. split; [done|].
      by destruct Hor as [-> |[-> _]].
    - destruct (none_core rid _ phq core _ Hn2 (lookup_insert_eq _ _ _)) as (x & Hx & Hux & _ & Hlx).
      cbn in Hx. rewrite Hm in Hx. injection Hx as <-. destruct (left_receive rid m q Hlx) as (x & cx & Hx & Hstx & Hax).
      rewrite Hrec in Hx. injection Hx as <- _. unfold cuid_of. by rewrite Hax, Hstx. }
  exists r, m', conn'. split_and!; try done; [apply Hm'|apply Hm'| |].
  - eapply rtc_l; [exact Hsend|]. eapply rtc_l; [exact Hserve|]. by apply rtc_once.
  - intros k mk. unfold cores. cbn. intros [[<- <-]|[Hk Hmk]]%lookup_insert_Some Hu; [by destruct Hm'|].
    destruct (Hreg k mk Hmk Hu) as (x & Hx & Hwx). cbn in Hx. rewrite Hs in Hx. injection Hx as <-.
    rewrite Hs'. eapply served_registered; try done. intros He. by apply Hk, (ni_cuid _ _ _ _ Hn core k m mk).
Qed.

(** A disabled datatype is refused, wherever it asks. *)
Lemma push_disabled snap p lc : lc_wf lc -> ppp_state p = Disabled ->
  exists q e, LocalConnectivity_push_pull fk snap p lc = (Ok q, lc, []) /\
    ppp_error q = Some e /\ ppp_state q = Disabled.
Proof.
  intros [Hwf _] Hp. unfold LocalConnectivity_push_pull, mbind, M_bind, get, modify, mret, M_ret,
    get_local_datatype_server.
  destruct (datatype_servers lc !! _) as [arc|] eqn:Ha; [|by do 2 eexists].
  destruct (Hwf _ _ Ha) as [Hs _]. unfold push_pull_process.
  destruct (lc_arcs lc !! arc) as [sv|] eqn:Hsv; [|done].
  unfold process. rewrite Hp. cbn -[bool_decide]. rewrite bool_decide_false by done.
  exists (refuse (PP_ProtocolViolation "disabled client attempted push") (PushPullPack_get_pulled_stub p)).
  eexists. split_and!; [|reflexivity|reflexivity]. unfold push_pull_remove. cbn. unfold lc_set_arcs.
  rewrite insert_id by done. by destruct lc.
Qed.

Lemma disable_disables {E} m : exists c m', @Mutable_disable E m = (Ok tt, m', c) /\
  m_attr m' = m_attr m /\ m_state m' = Disabled.
Proof.
  unfold Mutable_disable, mbind, M_bind, Mutable_reset, modify. rewrite set_state_eq.
  eexists _, _. by split_and!.
Qed.

Lemma create_pack_cases m :
  (exists p, create_push_pull_pack m = (Ok p, m, []) /\ ppp_state p = m_state m) \/
  create_push_pull_pack m = (Err (InternalReason_into_error GetPushingTransactions), m, []).
Proof.
  unfold create_push_pull_pack, get_pushing_transactions. cbv zeta.
  destruct (_ || _); [by right|left]. destruct (_ <=? _); [by eexists|].
  destruct (take_while_fits _ _ _ _) as [txs sz]. by eexists.
Qed.

Lemma disabled_round now core w m : w_cores w !! core = Some m -> m_state m = Disabled -> lc_wf (w_conn w) ->
  exists r m', loop_round now core w = (r, mkWorld (<[core := m']> (w_cores w)) (w_conn w)) /\ survives r /\
    m_attr m' = m_attr m /\ m_state m' = Disabled.
Proof.
  intros Hm Hst Hlc. destruct (create_pack_cases m) as [(p & Hp & Hpst)|Hp].
  - destruct (push_disabled (snapshots now w) p (w_conn w) Hlc) as (q & e & Hpp & He & Hq); [congruence|].
    destruct (receive_refused m q e He Hq) as (m' & c' & Hrec & Hst' & Hat).
    destruct (loop_round_eq now core w m p q (w_conn w) [] m' c') as (r & Hround & Hsurv); try done.
    by exists r, m'.
  - destruct (@disable_disables DatatypeError m) as (c & m' & Hdis & Hat & Hst').
    eexists _, m'. split_and!; [|shelve|done|done].
    unfold loop_round, Wired_push_pull, do_push_pull, attempt, emit, lift, on_core, mbind, M_bind. rewrite Hm.
    unfold with_mapping. rewrite Hp. cbn. rewrite lookup_insert_eq.
    unfold handle_error, mbind, M_bind. cbn [Mutable_apply_action]. rewrite Hdis. cbn.
    rewrite insert_insert_eq. reflexivity.
    Unshelve. done.
Qed.

(** What a round does to the connectivity is what its request does. *)
Lemma loop_round_conn (P : LocalConnectivity -> Prop) now core w m : w_cores w !! core = Some m ->
  P (w_conn w) ->
  (forall snap p, PushPullPack_resource_id p = Attribute_resource_id (m_attr m) ->
     P (final (LocalConnectivity_push_pull fk snap p (w_conn w)))) ->
  P (w_conn (loop_round now core w).2).
Proof.
  intros Hm Hold Hreq.
  assert (Hdo : P (w_conn (final (do_push_pull now core w)))).
  { unfold do_push_pull. unfold mbind at 1, M_bind at 1. unfold on_core at 1. rewrite Hm.
    destruct (with_mapping create_push_pull_pack m) as [[[p|e|why|] m1] c1] eqn:Hp; try done.
    assert (Hr : PushPullPack_resource_id p = Attribute_resource_id (m_attr m)).
    { unfold with_mapping in Hp. destruct (create_push_pull_pack m) as [[[p0|e|why|] m0] c0] eqn:Hc; try done;
        [|by destruct e].
      injection Hp as <- <- <-. by destruct (create_pack_fields m p0 m0 c0 Hc) as (_ & _ & _ & _ & ->). }
    unfold call_push_pull, mbind, M_bind. cbn [w_cores w_conn].
    set (snap := snapshots now _). pose proof (Hreq snap p Hr) as Ho.
    change (conn_push_pull snap p (w_conn w)) with (LocalConnectivity_push_pull fk snap p (w_conn w)).
    destruct (LocalConnectivity_push_pull fk snap p (w_conn w)) as [[[q|e|why|] lc] c2]; cbn in Ho |- *; try done.
    - unfold on_core. cbn. rewrite lookup_insert_eq. by destruct (apply_pulled q m1) as [[[]?]?].
    - by destruct e. }
  unfold loop_round, Wired_push_pull, attempt, emit, lift, mbind, M_bind.
  destruct (do_push_pull now core w) as [[[[]|e|why|] w1] c1]; try exact Hdo. cbn in *.
  unfold on_core. destruct (w_cores w1 !! core) as [m1|]; [|done].
  by destruct (handle_error (error e) (recovery e) m1) as [[??]?].
Qed.

(** A round of a datatype of another resource. *)
Lemma other_round now core w m : w_cores w !! core = Some m ->
  Attribute_resource_id (m_attr m) <> rid -> lc_separate (w_conn w) ->
  server_of rid (w_conn (loop_round now core w).2) = server_of rid (w_conn w).
Proof.
  intros Hm Hne Hsep. apply (loop_round_conn (fun lc => server_of rid lc = server_of rid (w_conn w)) now core w m);
    [done..|]. intros snap p Hp. apply push_pull_other; [done|congruence].
Qed.

Lemma loop_round_separate now core w m : w_cores w !! core = Some m -> lc_separate (w_conn w) ->
  lc_separate (w_conn (loop_round now core w).2).
Proof. intros Hm Hs. eapply loop_round_conn; [done..|]. intros snap p _. by apply push_pull_separate. Qed.

(** A round depends on the datatypes of its resource only. *)
Lemma do_push_pull_part now core w ws m m' conn' r calls : part_of ws w -> w_cores ws !! core = Some m ->
  (forall sv c k, server_of (Attribute_resource_id (m_attr m)) (w_conn ws) = Some sv ->
     wired_map sv !! c = Some k -> is_Some (w_cores ws !! k)) ->
  do_push_pull now core ws = (r, mkWorld (<[core := m']> (w_cores ws)) conn', calls) ->
  do_push_pull now core w = (r, mkWorld (<[core := m']> (w_cores w)) conn', calls).
Proof.
  intros [Hconn Hpart] Hm Hwired. pose proof (Hpart _ _ Hm) as Hmw.
  pose proof (insert_id (w_cores ws) core m Hm) as Hids. pose proof (insert_id (w_cores w) core m Hmw) as Hidw.
  destruct (create_pack_cases m) as [(p & Hp & _)|Hp].
  - destruct (create_pack_fields m p m [] Hp) as (_ & _ & _ & _ & Hre).
    assert (Hsame : LocalConnectivity_push_pull fk (snapshots now w) p (w_conn w) =
      LocalConnectivity_push_pull fk (snapshots now ws) p (w_conn ws)).
    { rewrite Hconn. apply push_pull_snapshots. rewrite <- Hconn, Hre. intros sv c k Hsv Hk.
      destruct (Hwired sv c k Hsv Hk) as [x Hx]. unfold snapshots. by rewrite Hx, (Hpart _ _ Hx). }
    unfold do_push_pull, on_core, call_push_pull, with_mapping, mbind, M_bind. rewrite Hm, Hmw, Hp.
    cbn -[LocalConnectivity_push_pull snapshots]. rewrite Hids, Hidw.
    replace (mkWorld (w_cores ws) (w_conn ws)) with ws by by destruct ws.
    replace (mkWorld (w_cores w) (w_conn w)) with w by by destruct w. rewrite Hsame.
    destruct (LocalConnectivity_push_pull fk (snapshots now ws) p (w_conn ws)) as [[[q|e|why|] lc] c].
    + cbn. rewrite Hm, Hmw. destruct (apply_pulled q m) as [[rr m1] c1].
      destruct rr; cbn; intros [= <- He <- <-];
        (assert (m1 = m') as -> by (apply (f_equal (lookup core)) in He; rewrite !lookup_insert_eq in He; congruence));
        done.
    + destruct e; cbn; intros [= <- He <- <-]; (assert (m = m') as <- by
        (apply (f_equal (lookup core)) in He; rewrite lookup_insert_eq in He; congruence)); by rewrite insert_id.
    + cbn; intros [= <- He <- <-]; (assert (m = m') as <- by
        (apply (f_equal (lookup core)) in He; rewrite lookup_insert_eq in He; congruence)); by rewrite insert_id.
    + cbn; intros [= <- He <- <-]; (assert (m = m') as <- by
        (apply (f_equal (lookup core)) in He; rewrite lookup_insert_eq in He; congruence)); by rewrite insert_id.
  - unfold do_push_pull, on_core, with_mapping, mbind, M_bind. rewrite Hm, Hmw, Hp. cbn.
    rewrite Hids, Hidw. intros [= <- He <- <-]. assert (m = m') as <- by
        (rewrite He in Hm; rewrite lookup_insert_eq in Hm; congruence). by rewrite insert_id, Hconn.
Qed.

(** The datatypes of the system are of its resource, and alive, leaving or
    disabled. *)
Lemma reachable_core s k m : reachable rid fk s -> cores s !! k = Some m ->
  Attribute_resource_id (m_attr m) = rid /\ (live (m_state m) = true \/ m_state m = Disabled).
Proof.
  intros [_ Hn]%reachable_inv Hm; [|done].
  assert (Hl : forall ph, left_inv rid m ph -> live (m_state m) = true \/ m_state m = Disabled).
  { unfold left_inv. intros ph. destruct (decide _) as [-> |_]; [by left|]. intros [? _]. by right. }
  destruct (server_of rid (w_conn (s_world s))) as [sv|].
  - destruct Hn as [Hn _]. destruct (ni_replica _ _ _ _ Hn k m Hm) as [Hr Hv]. split; [done|].
    destruct (wired_map sv !! cuid_of m); [|by eapply Hl].
    destruct (live (m_state m)); [by left|right; apply Hv].
  - destruct (nn_replica _ _ _ Hn k m Hm) as [Hr Hv]. split; [done|]. by eapply Hl.
Qed.
End resource.
