(* ===== verification/Runs.v ===== *)
(** * Runs of the system

    The transitions of [System] evaluated: one undisturbed round as a function
    of the world with the conditions of its three steps decided, and concrete
    runs with two and three replicas that instantiate its theorems. *)

From Stdlib Require Import Strings.Byte Sorting.Sorted.
From S2P Require Import Prelude Types Errors Operations Crdts PushBuffer Pack Handler Mutable Transactional PullHandler Server Connectivity Wired Replica System.

Section rounds.
Context (rid : string) (fk : gmap Cuid Z -> option Cuid).

#[local] Instance runs_conn : ConnectivityOps LocalConnectivity := local_connectivity fk.

(** ** Executable rounds *)
Definition ok_or {E A} (dflt : A) (r : result E A) : A :=
  match r with Ok a => a | _ => dflt end.

Definition empty_pack : PushPullPack := PushPullPack_new example_attribute Disabled.

(** The three stages of an undisturbed round of the replica at [k]. *)
Definition stage_send (k : Z) (w : World LocalConnectivity) :=
  on_core k (with_mapping create_push_pull_pack) w.
Definition stage_serve (now k : Z) (w : World LocalConnectivity) :=
  let x := stage_send k w in call_push_pull now (ok_or empty_pack (outcome x)) (final x).
Definition stage_receive (now k : Z) (w : World LocalConnectivity) :=
  let y := stage_serve now k w in
  on_core k (receive_answer (ok_or empty_pack (outcome y))) (final y).

Definition run_round (now k : Z) (w : World LocalConnectivity) : World LocalConnectivity :=
  final (stage_receive now k w).

Definition settledb (w : World LocalConnectivity) : bool :=
  match server_of rid (w_conn w) with
  | Some sv =>
      match wired_map sv !! creator sv with
      | Some k =>
          match w_cores w !! k with
          | Some mk => bool_decide (m_state mk = Subscribed) && bool_decide (unacked mk = [])
          | None => true
          end
      | None => true
      end
  | None => true
  end.

(** The conditions of a round, decided. *)
Definition round_ok (now k : Z) (w : World LocalConnectivity) : bool :=
  match w_cores w !! k, server_of rid (w_conn w) with
  | Some m, Some sv =>
      let p := ok_or empty_pack (outcome (stage_send k w)) in
      live (m_state m) && (cp_cseq (m_checkpoint m) <? u64_max) &&
      is_ok (outcome (stage_send k w)) && bool_decide (length (calls (stage_send k w)) = 0%nat) &&
      bool_decide (push_small p sv) &&
      (negb (subscribes (ppp_state p)) || settledb w) &&
      is_ok (outcome (stage_serve now k w)) && is_ok (outcome (stage_receive now k w))
  | _, _ => false
  end.

Lemma outcome_ok {S W E A} (x : result E A * S * list W) dflt :
  is_ok (outcome x) = true -> x = (Ok (ok_or dflt (outcome x)), final x, calls x).
Proof. by destruct x as [[[] ?] ?]. Qed.

Lemma settledb_spec w : settledb w = true -> creator_settled rid w.
Proof.
  unfold settledb. intros H sv k mk Hs _ Hw Hk. rewrite Hs, Hw, Hk in H.
  apply andb_true_iff in H as [H1 H2]. by split; eapply bool_decide_eq_true.
Qed.

Lemma round_reachable now k w ph : reachable rid fk (mkSystem w ph) -> ph !! k = None ->
  round_ok now k w = true -> reachable rid fk (mkSystem (run_round now k w) ph).
Proof.
  intros Hr Hph Hok. unfold round_ok in Hok.
  destruct (w_cores w !! k) as [m|] eqn:Hk; [|done].
  destruct (server_of rid (w_conn w)) as [sv|] eqn:Hs; [|done].
  rewrite !andb_true_iff, orb_true_iff, negb_true_iff in Hok.
  destruct Hok as [[[[[[[Ha Hlt] H1] H2] H3] H4] H5] H6].
  apply Z.ltb_lt in Hlt. apply bool_decide_eq_true, nil_length_inv in H2. apply bool_decide_eq_true in H3.
  pose proof (outcome_ok (stage_send k w) empty_pack H1) as E1. rewrite H2 in E1.
  pose proof (outcome_ok (stage_serve now k w) empty_pack H5) as E2.
  pose proof (outcome_ok (stage_receive now k w) tt H6) as E3.
  set (p := ok_or empty_pack (outcome (stage_send k w))) in *.
  set (q := ok_or empty_pack (outcome (stage_serve now k w))) in *.
  assert (Hw : final (stage_send k w) = w).
  { unfold stage_send in E1 |- *. unfold on_core in *. rewrite Hk in *.
    unfold with_mapping in *. pose proof (create_push_pull_pack_final m) as Hf.
    destruct (create_push_pull_pack m) as [[r m1] c]. cbn in *. subst m1.
    rewrite insert_id by done. by destruct w. }
  unfold reachable. replace ph with (delete k (<[k := Received q]> (<[k := Sent p]> ph)))
    by by rewrite insert_insert_eq, delete_insert_id.
  eapply rtc_r; [eapply rtc_r; [eapply rtc_r; [exact Hr|]|]|].
  - eapply step_send; [done|exact Hk|done|done|exact E1].
  - eapply step_serve; [apply lookup_insert_eq| | |exact E2]; rewrite Hw.
    + intros x Hx. rewrite Hs in Hx. by injection Hx as <-.
    + intros Hsub. destruct H4 as [H4|H4]; [congruence|]. by apply settledb_spec.
  - eapply step_receive; [apply lookup_insert_eq|]. unfold stage_receive in E3.
    unfold run_round. destruct (ok_or tt _). exact E3.
Qed.
End rounds.

(** ** A run with two replicas *)
Abbreviation reach := (reachable "col/key" first_key_of_list).
Abbreviation sync := (run_round first_key_of_list 0).

Definition new_core (core : Z) (cuid : Cuid) (st : DatatypeState) : MutableDatatype :=
  match TransactionalDatatype_new_arc core (lc_attribute cuid) st [] with
  | Ok t => td_mutable t
  | _ => example_mutable
  end.

Definition register (core : Z) (cuid : Cuid) (st : DatatypeState) (w : World LocalConnectivity)
    : World LocalConnectivity :=
  mkWorld (<[core := new_core core cuid st]> (w_cores w))
    (LocalConnectivity_register (lc_attribute cuid) core (w_conn w)).

Definition commit_ops (core : Z) (ops : list Operation) (w : World LocalConnectivity)
    : World LocalConnectivity :=
  match w_cores w !! core with
  | Some m => mkWorld (<[core := after_commit m ops None]> (w_cores w)) (w_conn w)
  | None => w
  end.

Definition commit (core : Z) (d : Z) (w : World LocalConnectivity) : World LocalConnectivity :=
  commit_ops core [Operation_new_counter_increase 0 d] w.

Definition leave (core : Z) (w : World LocalConnectivity) : World LocalConnectivity :=
  final (on_core core (@Mutable_set_state DatatypeError Unsubscribing) w).

(** Client 1 creates and adds 5, client 2 subscribes and subtracts 2, client 1
    adds 7 before it synchronizes again. *)
Definition world0 : World LocalConnectivity := mkWorld ∅ LocalConnectivity_new_arc.
Definition world1 := commit 1 5 (register 1 Uid_new_nil Creating world0).
Definition world2 := register 2 client2 Subscribing (sync 1 world1).
Definition world3 := commit 1 7 (commit 2 (-2) (sync 2 world2)).
Definition world4 := sync 2 (sync 1 (sync 2 world3)).

(** The creator leaves, and client 3 subscribes with the snapshot of client 2. *)
Definition client3 : Uid := mkUid "client0000000003".
Definition world5 := sync 3 (register 3 client3 Subscribing (sync 1 (leave 1 world4))).

(** Everybody leaves, and client 4 creates the resource again. *)
Definition client4 : Uid := mkUid "client0000000004".
Definition world6 := sync 3 (leave 3 (sync 2 (leave 2 world5))).
Definition world7 := sync 4 (register 4 client4 Creating world6).

Lemma fresh_register_reachable core cuid st w : reach (mkSystem w ∅) ->
  initial_state st = true -> w_cores w !! core = None ->
  map_Forall (fun _ m => cuid_of m <> cuid /\ duid_of m <> cuid) (w_cores w) ->
  reach (mkSystem (register core cuid st w) ∅).
Proof.
  intros Hr Hst Hc Hf. unfold reachable. eapply rtc_r; [exact Hr|].
  eapply (step_register _ _ w ∅ core (lc_attribute cuid) st []); done.
Qed.

(** What a commit of a core of the run needs. *)
Definition committable (core : Z) (ops : list Operation) (w : World LocalConnectivity) : Prop :=
  exists m sv, w_cores w !! core = Some m /\ server_of "col/key" (w_conn w) = Some sv /\
    writable (mkTransactionalDatatype m None false false) = true /\
    oid_cseq (m_op_id m) < u64_max /\
    tx_fits (Transaction_set_tag None (built_tx m ops)) /\ has_room m ops None.

Lemma commit_ops_step core ops w : reach (mkSystem w ∅) ->
  ops <> [] -> Forall (fun op => is_counter_op op = true) ops -> committable core ops w ->
  sys_step "col/key" first_key_of_list (mkSystem w ∅) (mkSystem (commit_ops core ops w) ∅).
Proof.
  intros Hr Hne Hops (m & sv & Hm & Hs & Hw & Hc & Hfit & Hroom). unfold commit_ops. rewrite Hm.
  destruct (writable_alive m None false false Hw) as [Ha _].
  destruct (reachable_view _ _ _ sv core m Hr Hs Hm Ha) as [_ Hv].
  eapply step_transaction; [done|done| |left; split_and!; [exact Hroom|done|done]].
  constructor; try done; apply Hv.
Qed.

Lemma commit_ops_reachable core ops w : reach (mkSystem w ∅) ->
  ops <> [] -> Forall (fun op => is_counter_op op = true) ops -> committable core ops w ->
  reach (mkSystem (commit_ops core ops w) ∅).
Proof. intros. unfold reachable. eapply rtc_r; [eassumption|]. by apply commit_ops_step. Qed.

Lemma commit_reachable core d w : reach (mkSystem w ∅) ->
  committable core [Operation_new_counter_increase 0 d] w -> reach (mkSystem (commit core d w) ∅).
Proof. intros. apply commit_ops_reachable; [done|done|by repeat constructor|done]. Qed.

(** Decides the premises of a concrete step. *)
Ltac run_step := vm_compute; first [reflexivity | discriminate | intros; discriminate].

Ltac run_commit := do 2 eexists; do 5 (split; [run_step|]); run_step.

Lemma world1_reachable : reach (mkSystem world1 ∅).
Proof.
  apply commit_reachable; [|run_commit]. apply fresh_register_reachable; run_step.
Qed.

Lemma world2_reachable : reach (mkSystem world2 ∅).
Proof.
  apply fresh_register_reachable; try run_step.
  - apply round_reachable; [apply world1_reachable|done|run_step].
  - eapply bool_decide_eq_true. run_step.
Qed.

Lemma world3_reachable : reach (mkSystem world3 ∅).
Proof.
  apply commit_reachable; [|run_commit]. apply commit_reachable; [|run_commit].
  apply round_reachable; [apply world2_reachable|done|run_step].
Qed.

Lemma world4_reachable : reach (mkSystem world4 ∅).
Proof.
  do 3 (apply round_reachable; [|done|run_step]). apply world3_reachable.
Qed.

Lemma leave_reachable core w m : reach (mkSystem w ∅) -> w_cores w !! core = Some m ->
  m_state m = Subscribed -> reach (mkSystem (leave core w) ∅).
Proof.
  intros Hr Hm Hst. unfold reachable. eapply rtc_r; [exact Hr|].
  eapply step_unsubscribe; [exact Hm|exact Hst|]. unfold leave.
  erewrite on_core_eq; [reflexivity|done|]. unfold Mutable_set_state.
  by rewrite decide_False by by rewrite Hst.
Qed.

Lemma world5_reachable : reach (mkSystem world5 ∅).
Proof.
  apply round_reachable; [|done|run_step]. apply fresh_register_reachable; try run_step.
  - apply round_reachable; [|done|run_step].
    eapply leave_reachable; [apply world4_reachable|run_step|run_step].
  - eapply bool_decide_eq_true. run_step.
Qed.

Lemma world7_reachable : reach (mkSystem world7 ∅).
Proof.
  apply round_reachable; [|done|run_step]. apply fresh_register_reachable; try run_step.
  - do 2 (apply round_reachable; [eapply leave_reachable; [|run_step|run_step]|done|run_step]).
    apply world5_reachable.
  - eapply bool_decide_eq_true. run_step.
Qed.

(** The replica at [k] and the server of the run. *)
Definition replica_at (k : Z) (w : World LocalConnectivity) : MutableDatatype :=
  default example_mutable (w_cores w !! k).
Definition server_at (w : World LocalConnectivity) : LocalDatatypeServer :=
  default (Server_new (lc_attribute Uid_new_nil)) (server_of "col/key" (w_conn w)).

Lemma replicas_track_history_witness :
  crdt_value (m_crdt (replica_at 1 world3)) = i64_wrap (5 + 7).
Proof.
  destruct (replicas_track_history "col/key" first_key_of_list (mkSystem world3 ∅) (server_at world3) 1
    (replica_at 1 world3) world3_reachable) as (H & _); [run_step|run_step|run_step|].
  rewrite H. reflexivity.
Defined.

(** Two replicas that have heard the whole history, and two after their creator left. *)
Lemma caught_up_replicas_converge_witness :
  crdt_value (m_crdt (replica_at 1 world4)) = crdt_value (m_crdt (replica_at 2 world4)) /\
  crdt_value (m_crdt (replica_at 2 world5)) = 10 /\ crdt_value (m_crdt (replica_at 3 world5)) = 10.
Proof.
  destruct (caught_up_replicas_converge "col/key" first_key_of_list (mkSystem world4 ∅) (server_at world4)
    1 2 (replica_at 1 world4) (replica_at 2 world4) world4_reachable) as (H4 & _);
    [run_step|run_step|run_step|run_step|run_step|split; run_step|split; run_step|].
  destruct (caught_up_replicas_converge "col/key" first_key_of_list (mkSystem world5 ∅) (server_at world5)
    2 3 (replica_at 2 world5) (replica_at 3 world5) world5_reachable) as (H1 & H2 & _);
    [run_step|run_step|run_step|run_step|run_step|split; run_step|split; run_step|].
  assert (H3 : crdt_value (m_crdt (replica_at 3 world5)) = 10).
  { etrans; [exact H2|]. run_step. }
  split; [exact H4|]. split; [etrans; [exact H1|exact H3]|exact H3].
Defined.

Lemma round_catches_up_witness :
  exists m' sv' conn' calls,
    @do_push_pull _ (local_connectivity first_key_of_list) 0 1 world3
      = (Ok tt, mkWorld (<[1 := m']> (w_cores world3)) conn', calls) /\
    server_of "col/key" conn' = Some sv' /\ caught_up sv' m'.
Proof.
  destruct (round_catches_up "col/key" first_key_of_list (mkSystem world3 ∅) (server_at world3) 1
    (replica_at 1 world3) 0 world3_reachable) as (m' & sv' & conn' & calls & H & _ & Hs & _ & Hc);
    [run_step|run_step|run_step|run_step|run_step|run_step|run_step|].
  unfold cores in H. cbn [s_world] in H. exists m', sv', conn', calls. split; [exact H|]. by split.
Defined.


(** With its last client the server forgets the resource: client 4 starts anew. *)
Lemma last_client_takes_the_history :
  server_of "col/key" (w_conn world6) = None /\
  history (server_at world7) = [] /\ creator (server_at world7) = client4 /\
  m_state (replica_at 4 world7) = Subscribed /\ crdt_value (m_crdt (replica_at 4 world7)) = 0.
Proof. do 4 (split; [run_step|]). run_step. Qed.
