(* ===== verification/Progress.v ===== *)
(** * Progress of synchronization

    How the push buffer drains: a round sends a prefix of the unacknowledged
    transactions that fits one transmission, so several rounds are needed; the
    event loop repeats them while there is something to push.  With
    [EventLoop.oversized_transaction_starves_event_loop] this is the whole story:
    the buffer drains exactly when each transaction fits one transmission. *)

From Stdlib Require Import Strings.Byte Sorting.Sorted.
From S2P Require Import Prelude Types Errors Operations Crdts PushBuffer Pack Handler Mutable Transactional PullHandler Server Connectivity Wired Replica System Runs.

(** [n] rounds of the replica at [k] in a row. *)
Fixpoint run_rounds {C} `{ConnectivityOps C} (n : nat) (now k : Z)
    : M (World C) WorldCall DatatypeErrorWithAction unit :=
  match n with
  | O => mret tt
  | S n => do_push_pull now k ;; run_rounds n now k
  end.

Definition transmissible (tx : Transaction) : Prop :=
  Transaction_size tx <= DEFAULT_MAX_TRANSMISSION_SIZE.

#[export] Instance transmissible_dec tx : Decision (transmissible tx).
Proof. unfold transmissible. apply _. Defined.

Section progress.
Context (rid : string) (fk : gmap Cuid Z -> option Cuid) `{!FirstKey fk}.

#[local] Instance progress_conn : ConnectivityOps LocalConnectivity := local_connectivity fk.

(** What one more round leaves unacknowledged. *)
Lemma round_shrinks s sv k m now :
  reachable rid fk s -> server_of rid (w_conn (s_world s)) = Some sv ->
  cores s !! k = Some m -> m_state m = Subscribed -> s_phases s !! k = None ->
  Forall transmissible (unacked m) -> Z.of_nat (length (buffered m)) < u64_max ->
  srv_sseq sv + Z.of_nat (length (unacked m)) <= u64_max ->
  exists m' sv' conn' calls,
    let w' := mkWorld (<[k := m']> (cores s)) conn' in
    do_push_pull now k (s_world s) = (Ok tt, w', calls) /\
    reachable rid fk (mkSystem w' (s_phases s)) /\ server_of rid conn' = Some sv' /\
    m_state m' = Subscribed /\ buffered m' = buffered m /\
    cp_sseq (m_checkpoint m') = srv_sseq sv' /\
    (cuid_of m' = cuid_of m /\ pushed_by m sv sv') /\
    Forall transmissible (unacked m') /\
    srv_sseq sv' + Z.of_nat (length (unacked m')) <= srv_sseq sv + Z.of_nat (length (unacked m)) /\
    (length (unacked m') <= length (unacked m) - 1)%nat.
Proof.
  intros Hr Hs Hk Hst Hph Hfit Hlen Hsmall.
  destruct (reachable_view _ _ s sv k m Hr Hs Hk) as [Hsi Hv]; [by rewrite Hst|].
  destruct (view_bounds sv m Hv) as (H0 & H1 & H2).
  destruct (round_applied _ _ s sv k m now Hr Hs Hk Hst Hph) as
    (p & m' & sv' & conn' & calls & Hdo & Hr' & Hs' & Hst' & Hcu & Hb & Hsv & Hsm & Hpv & Hcp & _ & Hsome);
    [lia|done|].
  destruct (view_bounds sv' m) as (_ & _ & Ho').
  { rewrite Hsv. eapply pushed_self_view; [exact Hv|by apply push_pushed_by]. }
  destruct (pushed_length sv m p Hsi Hv Hpv Hsm) as [Hge Heq]. rewrite <- Hsv in Hge, Heq.
  assert (Hun : unacked m' = drop (length (own (cuid_of m) (history sv'))) (buffered m)).
  { unfold unacked. rewrite Hcp, Hb. cbn [cp_cseq]. by rewrite Nat2Z.id. }
  set (o' := length (own (cuid_of m) (history sv'))) in *.
  set (c := Z.to_nat (cp_cseq (m_checkpoint m))) in *.
  assert (Hun0 : unacked m' = drop (o' - c) (unacked m)).
  { rewrite Hun. unfold unacked. fold c. rewrite drop_drop. f_equal. lia. }
  exists m', sv', conn', calls. cbv zeta. do 5 (split; [done|]). split; [by rewrite Hcp|].
  split; [split; [done|rewrite Hsv; by apply push_pushed_by]|].
  split; [rewrite Hun0; by apply Forall_drop|].
  destruct (si_wf _ Hsi) as (_ & Hl & _).
  pose proof (push_server_inv sv m p Hsi Hv Hpv Hsm (rv_created _ _ Hv ltac:(by rewrite Hst))) as Hsi'.
  rewrite <- Hsv in Hsi'. destruct (si_wf _ Hsi') as (_ & Hl' & _).
  assert (Hlu : length (unacked m) = (length (buffered m) - c)%nat) by (unfold unacked; by rewrite length_drop).
  split.
  - rewrite Hl, Hl', Hun, length_drop, Hlu. lia.
  - rewrite Hun0, length_drop. destruct (unacked m) as [|tx txs] eqn:Hu; [simpl; lia|].
    destruct (ppp_transactions p) as [|tx' txs'] eqn:Hptx.
    { exfalso. apply (Hsome tx); [done| |done]. by apply Forall_cons in Hfit as [? _]. }
    simpl in Hge |- *. lia.
Qed.

(** Enough rounds drain the push buffer: when each unacknowledged
    transaction of a subscribed replica fits one transmission, as many
    undisturbed rounds as there are unacknowledged transactions (and at least
    one) all succeed and leave the replica caught up with the server. *)
Theorem rounds_drain_the_buffer n s sv k m now :
  reachable rid fk s -> server_of rid (w_conn (s_world s)) = Some sv ->
  cores s !! k = Some m -> m_state m = Subscribed -> s_phases s !! k = None ->
  Forall transmissible (unacked m) -> Z.of_nat (length (buffered m)) < u64_max ->
  srv_sseq sv + Z.of_nat (length (unacked m)) <= u64_max ->
  (1 <= n)%nat -> (length (unacked m) <= n)%nat ->
  exists m' sv' conn' calls,
    run_rounds n now k (s_world s) = (Ok tt, mkWorld (<[k := m']> (cores s)) conn', calls) /\
    server_of rid conn' = Some sv' /\ m_state m' = Subscribed /\ caught_up sv' m'.
Proof.
  revert s sv m. induction n as [|n IH]; intros s sv m Hr Hs Hk Hst Hph Hfit Hlen Hsmall Hn Hun; [lia|].
  destruct (round_shrinks s sv k m now Hr Hs Hk Hst Hph Hfit Hlen Hsmall) as
    (m1 & sv1 & conn1 & calls1 & Hdo & Hr1 & Hs1 & Hst1 & Hb1 & Hcp1 & _ & Hfit1 & Hsum1 & Hless).
  cbn [run_rounds]. erewrite M_bind_Ok by exact Hdo. destruct n as [|n].
  - exists m1, sv1, conn1. eexists. split; [reflexivity|]. split; [done|]. split; [done|].
    split; [done|]. apply nil_length_inv. lia.
  - destruct (IH (mkSystem (mkWorld (<[k := m1]> (cores s)) conn1) (s_phases s)) sv1 m1) as
      (m' & sv' & conn' & calls & Hrun & Hs' & Hst' & Hcu); try done.
    + unfold cores. cbn [s_world w_cores]. apply lookup_insert_eq.
    + by rewrite Hb1.
    + lia.
    + lia.
    + lia.
    + exists m', sv', conn'. cbn [s_world] in Hrun. rewrite Hrun. unfold cores at 1. cbn [s_world w_cores].
      rewrite insert_insert_eq. eexists. by split.
Qed.
End progress.

(** Client 1 of the run of [System] sends its increment of 7. *)
Lemma rounds_drain_the_buffer_witness :
  exists m' sv' conn' calls,
    @run_rounds _ (local_connectivity first_key_of_list) 2 0 1 world3
      = (Ok tt, mkWorld (<[1 := m']> (w_cores world3)) conn', calls) /\
    server_of "col/key" conn' = Some sv' /\ caught_up sv' m'.
Proof.
  destruct (rounds_drain_the_buffer "col/key" first_key_of_list 2 (mkSystem world3 ∅)
    (server_at world3) 1 (replica_at 1 world3) 0 world3_reachable)
    as (m' & sv' & conn' & calls & H & Hs & _ & Hc);
    [run_step|run_step|run_step|run_step| |run_step|run_step|lia| |].
  - eapply bool_decide_eq_true. run_step.
  - vm_compute. lia.
  - unfold cores in H. cbn [s_world] in H. exists m', sv', conn', calls. split; [exact H|]. by split.
Defined.
