(* ===== verification/Convergence.v ===== *)
(** * Eventual convergence

    [System] and [Progress] speak of one replica at a time.  Here the replicas of
    a resource run their rounds in any order, a schedule: a list of the cores
    whose event loop synchronizes next.  A schedule that gives every replica as
    many rounds as it has transactions to send, and then one more to each, leaves
    all of them with the same counter, the sum of everything that was committed. *)

From Stdlib Require Import Strings.Byte Sorting.Sorted.
From S2P Require Import Prelude Types Errors Operations Crdts PushBuffer Pack Handler Mutable Transactional PullHandler Server Connectivity Wired Replica System Runs Progress.

(** ** Definitions *)

(** One round after the other, in the order of the schedule. *)
Fixpoint run_schedule {C} `{ConnectivityOps C} (ks : list Z) (now : Z)
    : M (World C) WorldCall DatatypeErrorWithAction unit :=
  match ks with
  | [] => mret tt
  | k :: ks => do_push_pull now k ;; run_schedule ks now
  end.

(** The committed transactions of a replica that the server does not have. *)
Definition unrecorded (sv : LocalDatatypeServer) (m : MutableDatatype) : list Transaction :=
  drop (length (own (cuid_of m) (history sv))) (buffered m).

(** What the core at [k] contributes. *)
Definition pending_at (s : System) (k : Z) : nat :=
  match cores s !! k with Some m => length (unacked m) | None => 0 end.
Definition delta_at (sv : LocalDatatypeServer) (s : System) (k : Z) : Z :=
  match cores s !! k with Some m => sumZ tx_delta (unrecorded sv m) | None => 0 end.
Definition seen_at (s : System) (k : Z) : Z :=
  match cores s !! k with Some m => cp_sseq (m_checkpoint m) | None => 0 end.

Definition backlog (s : System) (ids : list Z) : Z := sumZ (fun k => Z.of_nat (pending_at s k)) ids.

(** Everything that was committed: recorded by the server or still local. *)
Definition committed_total (sv : LocalDatatypeServer) (s : System) (ids : list Z) : Z :=
  sumZ tx_delta (history sv) + sumZ (delta_at sv s) ids.

(** A replica that can synchronize: subscribed, no round under way, and each of
    its transactions fits one transmission. *)
Definition syncable (s : System) (k : Z) : Prop :=
  exists m, cores s !! k = Some m /\ m_state m = Subscribed /\ s_phases s !! k = None /\
    Forall transmissible (unacked m) /\ Z.of_nat (length (buffered m)) < u64_max.

Section convergence.
Context (rid : string) (fk : gmap Cuid Z -> option Cuid) `{!FirstKey fk} (now : Z) (ids : list Z).
Context (Hnodup : NoDup ids).

#[local] Instance convergence_conn : ConnectivityOps LocalConnectivity := local_connectivity fk.

Record ready (s : System) (sv : LocalDatatypeServer) : Prop := {
  rd_reachable : reachable rid fk s;
  rd_server : server_of rid (w_conn (s_world s)) = Some sv;
  rd_syncable : forall k, k ∈ ids -> syncable s k;
  rd_room : srv_sseq sv + backlog s ids <= u64_max;
}.

(** ** Lemmas: what a push leaves unrecorded *)
Lemma push_conserves sv sv' m : replica_view sv m -> pushed_by m sv sv' ->
  sumZ tx_delta (history sv') + sumZ tx_delta (unrecorded sv' m) =
  sumZ tx_delta (history sv) + sumZ tx_delta (unrecorded sv m).
Proof.
  intros Hv Hpb. destruct (pb_history _ _ _ Hpb) as (new & Hh & Hnew & Hpre).
  apply prefix_take in Hpre. rewrite length_fmap, <- fmap_take in Hpre.
  fold (unrecorded sv m) in Hpre. unfold unrecorded at 1.
  rewrite Hh, own_app, length_app. unfold own at 2. rewrite (filter_all _ new) by done.
  rewrite <- drop_drop. fold (unrecorded sv m).
  rewrite sumZ_app, (sumZ_take_drop tx_delta (length new) (unrecorded sv m)).
  rewrite <- (sumZ_key new), Hpre, sumZ_key. lia.
Qed.

Lemma push_other_unrecorded sv sv' m d : pushed_by m sv sv' -> cuid_of d <> cuid_of m ->
  unrecorded sv' d = unrecorded sv d.
Proof.
  intros Hpb Hd. destruct (pb_history _ _ _ Hpb) as (new & Hh & Hnew & _).
  unfold unrecorded. rewrite Hh, own_app. unfold own at 2. rewrite filter_none; [by rewrite app_nil_r|].
  eapply Forall_impl; [exact Hnew|]. simpl. congruence.
Qed.

Lemma run_schedule_app {C} `{ConnectivityOps C} ks1 ks2 now' (w : World C) :
  run_schedule (ks1 ++ ks2) now' w = (run_schedule ks1 now' ;; run_schedule ks2 now') w.
Proof.
  revert w. induction ks1 as [|k ks1 IH]; intros w.
  - cbn [app run_schedule]. erewrite M_bind_Ok by reflexivity. by destruct (run_schedule ks2 now' w) as [[??]?].
  - cbn [app run_schedule]. unfold mbind, M_bind. destruct (do_push_pull now' k w) as [[[[]|e|why|] w1] c1]; try done.
    rewrite IH. unfold mbind, M_bind. destruct (run_schedule ks1 now' w1) as [[[[]|e|why|] w2] c2]; try done.
    destruct (run_schedule ks2 now' w2) as [[??]?]. by rewrite app_assoc.
Qed.

(** ** Lemmas: one round *)
Lemma ready_round s sv k : ready s sv -> k ∈ ids ->
  exists s' sv' calls,
    do_push_pull now k (s_world s) = (Ok tt, s_world s', calls) /\
    s_phases s' = s_phases s /\ ready s' sv' /\
    committed_total sv' s' ids = committed_total sv s ids /\
    (forall j, j <> k -> cores s' !! j = cores s !! j) /\
    (pending_at s' k <= pending_at s k - 1)%nat /\
    (pending_at s k = 0%nat -> srv_sseq sv' = srv_sseq sv) /\
    seen_at s' k = srv_sseq sv'.
Proof.
  intros Hrd Hk. pose proof Hrd as [Hr Hs Hsync Hroom].
  destruct (Hsync k Hk) as (m & Hm & Hst & Hph & Hfit & Hlen).
  assert (Hpk : pending_at s k = length (unacked m)) by (unfold pending_at; by rewrite Hm).
  assert (Hle : Z.of_nat (length (unacked m)) <= backlog s ids).
  { rewrite <- Hpk. by apply (sumZ_member_le (fun j => Z.of_nat (pending_at s j))); [lia|]. }
  destruct (round_shrinks rid fk s sv k m now Hr Hs Hm Hst Hph Hfit Hlen) as
    (m' & sv' & conn' & calls & Hdo & Hr' & Hs' & Hst' & Hb & Hcp & [Hcu Hpb] & Hfit' & Hsum & Hless); [lia|].
  set (s' := mkSystem (mkWorld (<[k := m']> (cores s)) conn') (s_phases s)) in *.
  assert (Hk' : cores s' !! k = Some m') by apply lookup_insert_eq.
  assert (Hj' : forall j, j <> k -> cores s' !! j = cores s !! j).
  { intros j Hj. unfold cores at 1. simpl. by rewrite lookup_insert_ne. }
  assert (Hpk' : pending_at s' k = length (unacked m')) by (unfold pending_at; by rewrite Hk').
  assert (Hpj : forall j, j <> k -> pending_at s' j = pending_at s j).
  { intros j Hj. unfold pending_at. by rewrite Hj'. }
  destruct (reachable_view rid fk s sv k m Hr Hs Hm) as [Hsi Hv]; [by rewrite Hst|].
  destruct (reachable_view rid fk s' sv' k m' Hr' Hs' Hk') as [Hsi' _]; [by rewrite Hst'|].
  exists s', sv', calls. split; [exact Hdo|]. split; [done|].
  assert (Hbl : backlog s' ids = backlog s ids - Z.of_nat (length (unacked m)) + Z.of_nat (length (unacked m'))).
  { unfold backlog. rewrite <- Hpk, <- Hpk'.
    apply (sumZ_update (fun j => Z.of_nat (pending_at s j)) (fun j => Z.of_nat (pending_at s' j)) k ids); try done.
    intros j _ Hj. by rewrite Hpj. }
  split_and!; [constructor| |done|lia| |by unfold seen_at; rewrite Hk'].
  - exact Hr'.
  - exact Hs'.
  - intros j Hj. destruct (decide (j = k)) as [->|Hne].
    + exists m'. split_and!; [done..|]. by rewrite Hb.
    + destruct (Hsync j Hj) as (d & Hd & Hrest). exists d. by rewrite Hj'.
  - lia.
  - unfold committed_total.
    rewrite (sumZ_update (delta_at sv s) (delta_at sv' s') k ids Hnodup Hk).
    + pose proof (push_conserves sv sv' m Hv Hpb) as Hc. unfold delta_at at 2 3. rewrite Hk', Hm.
      unfold unrecorded at 2. rewrite Hcu, Hb. fold (unrecorded sv' m). lia.
    + intros j _ Hj. unfold delta_at. rewrite Hj' by done. destruct (cores s !! j) as [d|] eqn:Hd; [|done].
      by rewrite (push_other_unrecorded sv sv' m d Hpb (net_cuid rid sv _ _ j k d m (reachable_net rid fk s sv Hr Hs) Hd Hm Hj)).
  - intros Hz. destruct (si_wf _ Hsi) as (_ & Hl & _), (si_wf _ Hsi') as (_ & Hl' & _).
    destruct (pb_history _ _ _ Hpb) as (new & Hh & _). rewrite Hh, length_app in Hl'. lia.
Qed.

(** ** Lemmas: a schedule *)
Lemma ready_schedule ks s sv : ready s sv -> (forall k, k ∈ ks -> k ∈ ids) ->
  exists s' sv' calls,
    run_schedule ks now (s_world s) = (Ok tt, s_world s', calls) /\
    s_phases s' = s_phases s /\ ready s' sv' /\
    committed_total sv' s' ids = committed_total sv s ids /\
    (forall j, j ∉ ids -> cores s' !! j = cores s !! j) /\
    (forall j, (pending_at s' j <= pending_at s j - count_occ Z.eq_dec ks j)%nat) /\
    ((forall j, j ∈ ids -> pending_at s j = 0%nat) ->
     srv_sseq sv' = srv_sseq sv /\
     forall j, j ∈ ks \/ seen_at s j = srv_sseq sv -> seen_at s' j = srv_sseq sv').
Proof.
  revert s sv. induction ks as [|k ks IH]; intros s sv Hrd Hks.
  { exists s, sv, []. split_and!; try done; [intros; simpl; lia|]. intros _. split; [done|].
    intros j [Hj|Hj]; [by apply not_elem_of_nil in Hj|done]. }
  assert (Hk : k ∈ ids) by (apply Hks; left).
  destruct (ready_round s sv k Hrd Hk) as (s1 & sv1 & c1 & Hdo & Hph1 & Hrd1 & Ht1 & Hj1 & Hp1 & Hz1 & Hseen1).
  destruct (IH s1 sv1 Hrd1) as (s2 & sv2 & c2 & Hrun & Hph2 & Hrd2 & Ht2 & Hj2 & Hp2 & Hz2).
  { intros j Hj. apply Hks. by right. }
  assert (Hpj : forall j, j <> k -> pending_at s1 j = pending_at s j).
  { intros j Hj. unfold pending_at. by rewrite Hj1. }
  exists s2, sv2, (c1 ++ c2). split_and!.
  - cbn [run_schedule]. erewrite M_bind_Ok by exact Hdo. by rewrite Hrun.
  - congruence.
  - done.
  - congruence.
  - intros j Hj. rewrite Hj2, Hj1; [done| |done]. by intros ->.
  - intros j. specialize (Hp2 j). cbn [count_occ]. destruct (Z.eq_dec k j) as [->|Hne]; [lia|].
    rewrite (Hpj j) in Hp2 by done. lia.
  - intros Hz. destruct Hz2 as [Hss2 Hseen2].
    { intros j Hj. destruct (decide (j = k)) as [->|Hne]; [specialize (Hz k Hk); lia|by rewrite Hpj, Hz]. }
    specialize (Hz1 (Hz k Hk)). split; [congruence|]. intros j Hj. apply Hseen2.
    destruct (decide (j = k)) as [->|Hne]; [by right|].
    destruct Hj as [[?|?]%elem_of_cons|Hj]; [done|by left|]. right.
    unfold seen_at in *. rewrite Hj1 by done. congruence.
Qed.

(** ** Properties *)

(** C3.  Eventual convergence.  Take a reachable state and any of its subscribed
    replicas, none of which has a round under way or a transaction that does not
    fit one transmission.  However their event loops take turns, once each of
    them has had as many undisturbed rounds as it has unacknowledged
    transactions, and after that one more, every round has succeeded, all of them are
    caught up with the server, and every counter is the sum of the
    history and of all transactions that were committed but not recorded at the
    start: nothing is lost and nothing counts twice. *)
Theorem replicas_converge first last s sv :
  reachable rid fk s -> server_of rid (w_conn (s_world s)) = Some sv ->
  (forall k, k ∈ ids -> syncable s k) ->
  srv_sseq sv + backlog s ids <= u64_max ->
  (forall k, k ∈ first ++ last -> k ∈ ids) ->
  (forall k, k ∈ ids -> (pending_at s k <= count_occ Z.eq_dec first k)%nat) ->
  (forall k, k ∈ ids -> k ∈ last) ->
  exists s' sv' calls,
    run_schedule (first ++ last) now (s_world s) = (Ok tt, s_world s', calls) /\
    reachable rid fk s' /\ server_of rid (w_conn (s_world s')) = Some sv' /\
    sumZ tx_delta (history sv') = committed_total sv s ids /\
    forall k, k ∈ ids -> exists m', cores s' !! k = Some m' /\ m_state m' = Subscribed /\
      caught_up sv' m' /\ crdt_value (m_crdt m') = i64_wrap (committed_total sv s ids).
Proof.
  intros Hr Hs Hsync Hroom Hin Hfirst Hlast.
  destruct (ready_schedule first s sv) as (s1 & sv1 & c1 & Hrun1 & _ & Hrd1 & Ht1 & _ & Hp1 & _);
    [done|intros; apply Hin; set_solver|].
  destruct (ready_schedule last s1 sv1 Hrd1) as (s2 & sv2 & c2 & Hrun2 & _ & Hrd2 & Ht2 & _ & Hp2 & Hz2);
    [intros; apply Hin; set_solver|].
  assert (Hz1 : forall j, j ∈ ids -> pending_at s1 j = 0%nat).
  { intros j Hj. specialize (Hp1 j). specialize (Hfirst j Hj). lia. }
  destruct (Hz2 Hz1) as [_ Hseen]. destruct Hrd2 as [Hr2 Hs2 Hsync2 _].
  assert (Hall : forall k, k ∈ ids -> exists m', cores s2 !! k = Some m' /\ m_state m' = Subscribed /\
    caught_up sv2 m' /\ server_inv sv2 /\ replica_view sv2 m').
  { intros k Hk. destruct (Hsync2 k Hk) as (m' & Hm' & Hst' & _). exists m'. split; [done|]. split; [done|].
    destruct (reachable_view rid fk s2 sv2 k m' Hr2 Hs2 Hm') as [Hsi Hv]; [by rewrite Hst'|].
    split; [|done]. specialize (Hp2 k). rewrite (Hz1 k Hk) in Hp2.
    specialize (Hseen k (or_introl (Hlast k Hk))). unfold pending_at, seen_at in *. rewrite Hm' in *.
    split; [done|]. apply nil_length_inv. lia. }
  assert (Htot : sumZ tx_delta (history sv2) = committed_total sv s ids).
  { rewrite <- Ht1, <- Ht2. unfold committed_total.
    rewrite (sumZ_zero (delta_at sv2 s2)); [lia|]. intros k Hk. destruct (Hall k Hk) as (m' & Hm' & _ & Hc & Hsi & Hv). unfold delta_at. rewrite Hm'.
    destruct (caught_up_value sv2 m' Hsi Hv Hc) as [_ Hkeys]. apply (f_equal length) in Hkeys.
    rewrite !length_fmap in Hkeys. unfold unrecorded. rewrite Hkeys, drop_all. done. }
  exists s2, sv2, (c1 ++ c2). split_and!; [|done..|].
  - rewrite run_schedule_app. erewrite M_bind_Ok by exact Hrun1. by rewrite Hrun2.
  - intros k Hk. destruct (Hall k Hk) as (m' & Hm' & Hst' & Hc & Hsi & Hv). exists m'.
    split_and!; [done..|]. destruct (caught_up_value sv2 m' Hsi Hv Hc) as [-> _]. by rewrite Htot.
Qed.
End convergence.

(** The two clients of the run of [System], with an unsent increment each. *)
Lemma replicas_converge_witness :
  exists s' sv' calls,
    @run_schedule _ (local_connectivity first_key_of_list) [2; 1; 1; 2] 0 world3 = (Ok tt, s_world s', calls) /\
    server_of "col/key" (w_conn (s_world s')) = Some sv' /\
    forall k, k ∈ [1; 2] -> exists m', cores s' !! k = Some m' /\ caught_up sv' m' /\
      crdt_value (m_crdt m') = 10.
Proof.
  assert (Hsync : forall k, k ∈ [1; 2] -> syncable (mkSystem world3 ∅) k).
  { intros k Hk. exists (replica_at k world3).
    apply elem_of_cons in Hk as [-> |Hk]; [|apply elem_of_cons in Hk as [-> |Hk]; [|by apply not_elem_of_nil in Hk]];
      (split; [run_step|split; [run_step|split; [run_step|split; [|run_step]]]]);
      eapply bool_decide_eq_true; run_step. }
  destruct (replicas_converge "col/key" first_key_of_list 0 [1; 2] ltac:(eapply bool_decide_eq_true; reflexivity)
    [2; 1] [1; 2] (mkSystem world3 ∅) (server_at world3) world3_reachable)
    as (s' & sv' & calls & Hrun & _ & Hs & _ & Hall);
    [run_step|exact Hsync|run_step|set_solver| |set_solver|].
  - intros k Hk. apply elem_of_cons in Hk as [-> |Hk]; [|apply elem_of_cons in Hk as [-> |Hk]; [|by apply not_elem_of_nil in Hk]];
      apply Nat.leb_le; run_step.
  - cbn [s_world app] in Hrun. exists s', sv', calls. split; [exact Hrun|]. split; [exact Hs|].
    intros k Hk. destruct (Hall k Hk) as (m' & Hm & _ & Hc & Hval). exists m'. split; [done|]. split; [done|].
    rewrite Hval. run_step.
Defined.
