(* ===== verification/Leaving.v ===== *)
(** * Unsubscription in the system

    What becomes of the transactions of a replica that unsubscribes.  The round
    that carries the unsubscription also pushes, but only one transmission, and
    the answer disables the replica whatever is left in its push buffer. *)

From Stdlib Require Import Strings.Byte Sorting.Sorted.
From S2P Require Import Prelude Types Errors Operations Crdts PushBuffer Pack Handler Mutable Transactional PullHandler Server Connectivity Wired Replica System Runs.

Section leaving.
Context (rid : string) (fk : gmap Cuid Z -> option Cuid) `{!FirstKey fk}.

#[local] Instance leaving_conn : ConnectivityOps LocalConnectivity := local_connectivity fk.

(** The three steps of a round are transitions. *)
Lemma round_steps now k w ph m p q conn c m' c' :
  reachable rid fk (mkSystem w ph) -> ph !! k = None -> w_cores w !! k = Some m ->
  live (m_state m) = true -> cp_cseq (m_checkpoint m) < u64_max ->
  create_push_pull_pack m = (Ok p, m, []) ->
  (forall sv, server_of rid (w_conn w) = Some sv -> push_small p sv) ->
  (subscribes (ppp_state p) = true -> creator_settled rid w) ->
  LocalConnectivity_push_pull fk (snapshots now w) p (w_conn w) = (Ok q, conn, c) ->
  receive_answer q m = (Ok tt, m', c') ->
  reachable rid fk (mkSystem (mkWorld (<[k := m']> (w_cores w)) conn) ph).
Proof.
  intros Hr Hph Hk Hl Hlt Hc Hsm Hset Hpp Hrec.
  assert (Hsend : on_core k (with_mapping create_push_pull_pack) w = (Ok p, w, [])).
  { erewrite on_core_eq by (done || (unfold with_mapping; rewrite Hc; reflexivity)).
    rewrite insert_id by done. by destruct w. }
  assert (Hphs : ph = delete k (<[k := Received q]> (<[k := Sent p]> ph))).
  { by rewrite insert_insert_eq, delete_insert_id. }
  unfold reachable. eapply rtc_r; [eapply rtc_r; [eapply rtc_r; [exact Hr|]|]|].
  - by eapply step_send.
  - eapply step_serve; [apply lookup_insert_eq|exact Hsm|exact Hset|].
    unfold call_push_pull. cbn [conn_push_pull conn_ops local_connectivity]. by rewrite Hpp.
  - rewrite Hphs at 2. eapply step_receive; [apply lookup_insert_eq|].
    by erewrite on_core_eq by done.
Qed.

Lemma unsubscribe_reachable w ph k m : reachable rid fk (mkSystem w ph) -> w_cores w !! k = Some m ->
  m_state m = Subscribed ->
  exists c, on_core k (@Mutable_set_state DatatypeError Unsubscribing) w =
      (Ok tt, mkWorld (<[k := m_put_state Unsubscribing m]> (w_cores w)) (w_conn w), c) /\
    reachable rid fk (mkSystem (mkWorld (<[k := m_put_state Unsubscribing m]> (w_cores w)) (w_conn w)) ph).
Proof.
  intros Hr Hk Hst. eexists.
  assert (Hon : on_core k (@Mutable_set_state DatatypeError Unsubscribing) w =
    (Ok tt, mkWorld (<[k := m_put_state Unsubscribing m]> (w_cores w)) (w_conn w),
     CoreCall k <$> state_change_calls m Unsubscribing)).
  { erewrite on_core_eq; [done|done|]. unfold Mutable_set_state. by rewrite decide_False by by rewrite Hst. }
  split; [exact Hon|]. unfold reachable. eapply rtc_r; [exact Hr|]. by eapply step_unsubscribe.
Qed.

(** What one transmission leaves out. *)
Lemma transmission_records sv m p : server_inv sv -> replica_view sv m -> push_small p sv ->
  cp_cseq (m_checkpoint m) < u64_max -> create_push_pull_pack m = (Ok p, m, []) ->
  let sv1 := (push_transactions p sv).2 in
  (sumZ Transaction_size (unacked m) <= DEFAULT_MAX_TRANSMISSION_SIZE ->
   key <$> own (cuid_of m) (history sv1) = key <$> buffered m) /\
  (Z.of_nat (length (own (cuid_of m) (history sv))) = cp_cseq (m_checkpoint m) ->
   DEFAULT_MAX_TRANSMISSION_SIZE < sumZ Transaction_size (unacked m) ->
   (length (own (cuid_of m) (history sv1)) < length (buffered m))%nat).
Proof.
  intros Hsi Hv Hsm Hlt Hc sv1. destruct (create_pack_view sv m Hv Hlt) as (p' & Hc' & Hpv & Hall & _).
  rewrite Hc in Hc'. injection Hc' as <-. pose proof (pack_size sv m p m [] Hv Hlt Hc) as Hsize.
  pose proof (push_pushed_by sv m p Hsi Hv Hpv Hsm) as Hpb. fold sv1 in Hpb. split.
  - intros Hfit. rewrite (view_own_take _ m (pushed_self_view m sv _ Hv Hpb)). f_equal. apply take_ge.
    unfold sv1. by rewrite (pushed_all sv m p Hsi Hv Hpv Hsm (Hall Hfit)).
  - intros Heq Hbig. unfold sv1. rewrite (pushed_exact sv m p Hsi Hv Hpv Hsm).
    destruct (view_bounds sv m Hv) as (H0 & H1 & H2).
    assert (Hun : length (unacked m) = (length (buffered m) - Z.to_nat (cp_cseq (m_checkpoint m)))%nat).
    { unfold unacked. by rewrite length_drop. }
    destruct (pv_txs _ _ Hpv) as [j Hj].
    destruct (Nat.le_gt_cases (length (unacked m)) j) as [Hge|Hlt'].
    + rewrite take_ge in Hj by done. rewrite Hj in Hsize. lia.
    + rewrite Hj, length_take. lia.
Qed.

(** The round of a leaving replica. *)
Lemma leaving_round s sv k m now :
  reachable rid fk s -> server_of rid (w_conn (s_world s)) = Some sv ->
  cores s !! k = Some m -> m_state m = Unsubscribing -> s_phases s !! k = None ->
  wired_map sv !! cuid_of m = Some k -> cp_cseq (m_checkpoint m) < u64_max ->
  srv_sseq sv + Z.of_nat (length (unacked m)) <= u64_max ->
  exists p m' conn calls, create_push_pull_pack m = (Ok p, m, []) /\ push_small p sv /\ pack_view m p /\
    let w' := mkWorld (<[k := m']> (cores s)) conn in
    let sv2 := unsubscribed fk (cuid_of m) (push_transactions p sv).2 in
    do_push_pull now k (s_world s) = (Ok tt, w', calls) /\ reachable rid fk (mkSystem w' (s_phases s)) /\
    m_state m' = Disabled /\ buffered m' = buffered m /\
    server_of rid conn = if Server_is_empty sv2 then None else Some sv2.
Proof.
  intros Hr Hs Hk Hst Hph Hw Hlt Hsmall. destruct s as [w ph]. unfold cores in *. cbn [s_world s_phases] in *.
  pose proof (reachable_net _ _ _ sv Hr Hs) as Hn. unfold cores in Hn. cbn [s_world s_phases] in Hn.
  pose proof (ni_server _ _ _ _ Hn) as Hsi. destruct (ni_replica _ _ _ _ Hn k m Hk) as [Hrid Hv].
  rewrite Hw, Hst in Hv. destruct Hv as [Hv _].
  destruct (create_pack_view sv m Hv Hlt) as (p & Hc & Hpv & _).
  assert (Hsm : push_small p sv).
  { unfold push_small. destruct (pv_txs _ _ Hpv) as [j ->]. rewrite length_take. lia. }
  destruct (create_pack_fields m p m [] Hc) as (_ & _ & Hpst & _ & Hprid). rewrite Hst in Hpst.
  destruct (serve_unsubscribing fk sv m p (lc_is_realtime (w_conn w)) Hsi Hv Hpv Hsm) as
    (q & cs & Hpr & He & Hq & Hqv); [by rewrite Hw|].
  set (sv2 := unsubscribed fk (cuid_of m) (push_transactions p sv).2) in *.
  destruct (serve_route rid fk (snapshots now w) p (w_conn w) sv q sv2 cs Hs) as (conn & Hpp & Hs').
  { by rewrite Hprid. }
  { unfold process. by rewrite Hpst. }
  destruct (leaving_answer_applied m q Hst He Hq) as [c' Hap].
  { unfold leaving_answer in Hqv. rewrite He in Hqv. destruct Hqv as [Hx|[_ Hx]]; [congruence|done]. }
  exists p, (m_put_state Disabled (synced q m)), conn. eexists. do 3 (split; [done|]). cbv zeta. split_and!.
  - erewrite do_push_pull_eq by done. rewrite Hap. reflexivity.
  - eapply (round_steps now k w ph m p q conn cs); try done.
    + by rewrite Hst.
    + intros x Hx. rewrite Hs in Hx. by injection Hx as <-.
    + by rewrite Hpst.
    + by apply receive_ok.
  - done.
  - done.
  - rewrite Hs'. unfold after_request. by rewrite Hpst.
Qed.

(** C7.  A subscribed replica without a round under way unsubscribes and then has one undisturbed
    round.  Both succeed, the replica is disabled, and its client is gone from the server, which is
    forgotten with its last client.  Of its transactions the server has those it had
    before and those of this one round: all of them if they fit one
    transmission; if the server had only what it acknowledged and they do not
    fit, the rest is in no history, and the replica never pushes again. *)
Theorem unsubscription_sends_one_transmission s sv k m now :
  reachable rid fk s -> server_of rid (w_conn (s_world s)) = Some sv ->
  cores s !! k = Some m -> m_state m = Subscribed -> s_phases s !! k = None ->
  cp_cseq (m_checkpoint m) < u64_max ->
  srv_sseq sv + Z.of_nat (length (unacked m)) <= u64_max ->
  let c := cuid_of m in
  exists w1 c1 w2 c2 m' sv1 sv2,
    on_core k (@Mutable_set_state DatatypeError Unsubscribing) (s_world s) = (Ok tt, w1, c1) /\
    do_push_pull now k w1 = (Ok tt, w2, c2) /\
    reachable rid fk (mkSystem w2 (s_phases s)) /\
    w_cores w2 = <[k := m']> (cores s) /\ m_state m' = Disabled /\ buffered m' = buffered m /\
    pushed_by m sv sv1 /\ sv2 = unsubscribed fk c sv1 /\ wired_map sv2 = delete c (wired_map sv) /\
    server_of rid (w_conn w2) = (if decide (delete c (wired_map sv) = ∅) then None else Some sv2) /\
    (sumZ Transaction_size (unacked m) <= DEFAULT_MAX_TRANSMISSION_SIZE ->
     key <$> own c (history sv2) = key <$> buffered m) /\
    (Z.of_nat (length (own c (history sv))) = cp_cseq (m_checkpoint m) ->
     DEFAULT_MAX_TRANSMISSION_SIZE < sumZ Transaction_size (unacked m) ->
     (length (own c (history sv2)) < length (buffered m))%nat).
Proof.
  intros Hr Hs Hk Hst Hph Hlt Hsmall c. destruct s as [w ph]. unfold cores in *. cbn [s_world s_phases] in *.
  pose proof (reachable_net _ _ _ sv Hr Hs) as Hn. unfold cores in Hn. cbn [s_world s_phases] in Hn.
  destruct (net_alive rid sv _ ph k m Hn Hk) as (Hw & Hv0 & _); [by rewrite Hst|].
  destruct (unsubscribe_reachable w ph k m Hr Hk Hst) as (c1 & Hon & Hr1).
  set (m1 := m_put_state Unsubscribing m) in *. set (w1 := mkWorld (<[k := m1]> (w_cores w)) (w_conn w)) in *.
  pose proof (leaving_view sv m Hv0 Hst) as Hv. fold m1 in Hv.
  destruct (leaving_round (mkSystem w1 ph) sv k m1 now) as
    (p & m' & conn & c2 & Hc & Hsm & Hpv & Hdo & Hr2 & Hst' & Hb & Hs'); try done.
  { apply lookup_insert_eq. }
  destruct (transmission_records sv m1 p (ni_server _ _ _ _ Hn) Hv Hsm Hlt Hc) as [Hfits Hloses].
  pose proof (push_pushed_by sv m1 p (ni_server _ _ _ _ Hn) Hv Hpv Hsm) as Hpb.
  set (sv1 := (push_transactions p sv).2) in *. change (cuid_of m1) with c in *.
  destruct (unsubscribed_same fk c sv1) as (Hh & _).
  assert (Hwd : wired_map (unsubscribed fk c sv1) = delete c (wired_map sv)).
  { by rewrite unsubscribed_wired, (pb_wired _ _ _ Hpb). }
  exists w1, c1. do 2 eexists. exists m', sv1, (unsubscribed fk c sv1). rewrite Hh.
  split_and!; [exact Hon|exact Hdo|exact Hr2| |done|done|by destruct Hpb|done|exact Hwd| |done|done].
  - unfold cores. cbn [s_world w_cores w1]. by rewrite insert_insert_eq.
  - cbn [w_conn]. rewrite Hs'. unfold Server_is_empty. rewrite Hwd.
    by destruct (decide _); [rewrite bool_decide_true|rewrite bool_decide_false].
Qed.
End leaving.

(** ** A run *)

(** A transaction of [n] increments: [81 + 32 n] bytes. *)
Definition big_ops (n : nat) : list Operation := replicate n (Operation_new_counter_increase 0 1).

Lemma stamp_ops_size l ops : sumZ Operation_size (stamp_ops l ops) = sumZ Operation_size ops.
Proof.
  revert l. induction ops as [|op ops IH]; intros l; [done|]. cbn [stamp_ops]. by rewrite !sumZ_cons, IH.
Qed.

Lemma big_size m n : Z.of_nat n = 70000 ->
  Transaction_size (Transaction_set_tag None (built_tx m (big_ops n))) = 2240081.
Proof.
  intros Hn. unfold Transaction_size, big_ops. cbn [tx_operations tx_tag Transaction_set_tag built_tx].
  rewrite u64_sum_wrap, stamp_ops_size, sumZ_replicate, Hn. reflexivity.
Qed.

Lemma big_counter n : Forall (fun op => is_counter_op op = true) (big_ops n).
Proof. by apply Forall_replicate. Qed.

(** The commit of a big transaction on a core with room for it. *)
Lemma big_commit core n w m sv : Z.of_nat n = 70000 -> reach (mkSystem w ∅) ->
  w_cores w !! core = Some m -> server_of "col/key" (w_conn w) = Some sv ->
  m_state m = Subscribed -> attr_is_readonly (m_attr m) = false -> oid_cseq (m_op_id m) < u64_max ->
  mem_size (m_push_buffer m) + 2240081 <= max_mem_size_of_push_buffer (option_ (m_push_buffer m)) ->
  let m' := after_commit m (big_ops n) None in
  reach (mkSystem (commit_ops core (big_ops n) w) ∅) /\
  commit_ops core (big_ops n) w = mkWorld (<[core := m']> (w_cores w)) (w_conn w) /\
  buffered m' = buffered m ++ [Transaction_set_tag None (built_tx m (big_ops n))] /\
  oid_cseq (m_op_id m') = oid_cseq (m_op_id m) + 1 /\
  mem_size (m_push_buffer m') = mem_size (m_push_buffer m) + 2240081 /\
  option_ (m_push_buffer m') = option_ (m_push_buffer m).
Proof.
  intros Hn Hr Hm Hs Hst Hro Hc Hroom m'. pose proof (big_size m n Hn) as Hsize.
  assert (Hne : big_ops n <> []) by (destruct n; [simpl in Hn; lia|done]).
  assert (Hcm : committable core (big_ops n) w).
  { exists m, sv. split_and!; try done.
    - unfold writable. simpl. by rewrite Hst, Hro.
    - unfold tx_fits. rewrite Hsize. lia.
    - unfold has_room. by rewrite Hsize. }
  destruct (reachable_view _ _ _ sv core m Hr Hs Hm) as [_ Hv]; [by rewrite Hst|].
  assert (Hrd : commit_ready m (big_ops n) None).
  { constructor; try done; [apply Hv|apply Hv|apply big_counter|]. unfold tx_fits. rewrite Hsize. lia. }
  assert (Hrm : has_room m (big_ops n) None) by (unfold has_room; by rewrite Hsize).
  destruct (built_tx_cseq m (big_ops n) None Hrd) as (Hadd & Hcs & Hseq).
  destruct (enqueue_accepts (Transaction_set_tag None (built_tx m (big_ops n))) (m_push_buffer m))
    as (b & He & _ & Hb & _ & Hmem & Hopt); try done; [apply Hrd|apply Hrd|].
  split; [by apply commit_ops_reachable; [..|apply big_counter|]|].
  split; [unfold commit_ops; by rewrite Hm|].
  unfold m', after_commit, buffered. cbn [m_push_buffer m_set_push_buffer]. rewrite He. cbn [snd].
  split_and!; [exact Hb|exact Hadd|by rewrite Hmem, Hsize|exact Hopt].
Qed.

(** Client 1 of the run adds two big transactions and unsubscribes: only the
    first one reaches the server.  Client 2, with one small transaction, leaves
    nothing behind. *)
Definition world_big (n : nat) : World LocalConnectivity :=
  commit_ops 1 (big_ops n) (commit_ops 1 (big_ops n) (sync 1 world1)).

Lemma big_world n : Z.of_nat n = 70000 ->
  reach (mkSystem (world_big n) ∅) /\
  server_of "col/key" (w_conn (world_big n)) = Some (server_at (sync 1 world1)) /\
  exists m, w_cores (world_big n) !! 1 = Some m /\ m_state m = Subscribed /\ cuid_of m = Uid_new_nil /\
    cp_cseq (m_checkpoint m) = 1 /\ length (unacked m) = 2%nat /\
    sumZ Transaction_size (unacked m) = 4480162.
Proof.
  intros Hn. set (m0 := replica_at 1 (sync 1 world1)).
  assert (Hr : reach (mkSystem (sync 1 world1) ∅)).
  { apply round_reachable; [apply world1_reachable|done|run_step]. }
  destruct (big_commit 1 n (sync 1 world1) m0 (server_at (sync 1 world1)) Hn Hr) as
    (Hr1 & Hw1 & Hb1 & Hc1 & Hm1 & Ho1); [run_step..|].
  set (m1 := after_commit m0 (big_ops n) None) in *.
  destruct (big_commit 1 n (commit_ops 1 (big_ops n) (sync 1 world1)) m1 (server_at (sync 1 world1)) Hn Hr1) as
    (Hr2 & Hw2 & Hb2 & _); [rewrite Hw1; apply lookup_insert_eq|rewrite Hw1; run_step|run_step|run_step| | |].
  { rewrite Hc1. run_step. }
  { rewrite Hm1, Ho1. run_step. }
  split; [exact Hr2|]. split; [unfold world_big; rewrite Hw2, Hw1; run_step|].
  exists (after_commit m1 (big_ops n) None).
  split; [unfold world_big; rewrite Hw2; apply lookup_insert_eq|]. split; [run_step|]. split; [run_step|].
  split; [run_step|].
  assert (Hu : unacked (after_commit m1 (big_ops n) None) =
    [Transaction_set_tag None (built_tx m0 (big_ops n)); Transaction_set_tag None (built_tx m1 (big_ops n))]).
  { assert (Hl : length (buffered m0) = 1%nat) by run_step.
    unfold unacked. replace (Z.to_nat (cp_cseq _)) with 1%nat by run_step.
    rewrite Hb2, Hb1. by destruct (buffered m0) as [|x []]. }
  rewrite Hu. split; [done|]. rewrite !sumZ_cons, sumZ_nil, !big_size by done. reflexivity.
Qed.

Lemma unsubscription_sends_one_transmission_witness :
  (exists w1 c1 w2 c2 sv2,
    on_core 2 (@Mutable_set_state DatatypeError Unsubscribing) world3 = (Ok tt, w1, c1) /\
    @do_push_pull _ (local_connectivity first_key_of_list) 0 2 w1 = (Ok tt, w2, c2) /\
    server_of "col/key" (w_conn w2) = Some sv2 /\
    key <$> own client2 (history sv2) = key <$> buffered (replica_at 2 world3)) /\
  (exists n w1 c1 w2 c2 m sv2,
    on_core 1 (@Mutable_set_state DatatypeError Unsubscribing) (world_big n) = (Ok tt, w1, c1) /\
    @do_push_pull _ (local_connectivity first_key_of_list) 0 1 w1 = (Ok tt, w2, c2) /\
    w_cores w2 !! 1 = Some m /\ m_state m = Disabled /\
    (length (own Uid_new_nil (history sv2)) < length (buffered m))%nat).
Proof.
  split.
  - destruct (unsubscription_sends_one_transmission "col/key" first_key_of_list (mkSystem world3 ∅)
      (server_at world3) 2 (replica_at 2 world3) 0 world3_reachable)
      as (w1 & c1 & w2 & c2 & m' & sv1 & sv2 & Hon & Hdo & _ & _ & _ & _ & _ & _ & _ & Hs & Hfits & _);
      [run_step..|].
    cbn [s_world] in Hon. exists w1, c1, w2, c2, sv2. split; [exact Hon|]. split; [exact Hdo|]. split.
    + rewrite Hs, decide_False; [done|]. intros He. apply (f_equal (fun m => m !! Uid_new_nil)) in He.
      revert He. run_step.
    + assert (Hc : cuid_of (replica_at 2 world3) = client2) by run_step. rewrite <- Hc. apply Hfits. run_step.
  - destruct (Z_of_nat_complete 70000) as [n Hn]; [lia|]. symmetry in Hn.
    destruct (big_world n Hn) as (Hr & Hs & m & Hm & Hst & Hcu & Hcp & Hlen & Hsum).
    destruct (unsubscription_sends_one_transmission "col/key" first_key_of_list (mkSystem (world_big n) ∅)
      (server_at (sync 1 world1)) 1 m 0 Hr Hs Hm Hst)
      as (w1 & c1 & w2 & c2 & m' & sv1 & sv2 & Hon & Hdo & Hr2 & Hcs & Hst' & Hb & _ & _ & _ & _ & _ & Hlose).
    + done.
    + rewrite Hcp. run_step.
    + rewrite Hlen. run_step.
    + cbn [s_world] in Hon. exists n, w1, c1, w2, c2, m', sv2. split; [exact Hon|]. split; [exact Hdo|].
      split; [rewrite Hcs; apply lookup_insert_eq|]. split; [done|].
      rewrite Hb, <- Hcu. apply Hlose; [|rewrite Hsum; run_step]. rewrite Hcu, Hcp. run_step.
Defined.
