(* ===== verification/Concurrency.v ===== *)
(** * Several threads on one datatype
    ([src/datatypes/transactional.rs], [src/utils/no_guard_mutex.rs])

    User threads share a [TransactionalDatatype].  Each runs a program of single
    operations and of transactions, whose closures choose their next operation
    from the results of the earlier ones.  A thread proceeds in the atomic steps
    of the code: one per critical section of [tx_ctx] and [mutable], one per lock
    of a [NoGuardMutex], and two per unlock, since [unlock] reads [is_locked] and
    releases separately.  The event loop's own changes of the datatype are the
    matter of [System]; here they stay out.

    [Transactional] gives the same code for one thread; the refinement theorem
    relates the two. *)

From S2P Require Import Prelude Types Errors Operations Crdts PushBuffer Pack Handler Mutable Transactional.

(** ** Programs *)

(** A closure: it returns [Ok] or [Err], or increases the counter and goes on
    with the result. *)
Inductive Body : Type :=
| Return (ok : bool)
| Perform (now delta : Z) (k : result DatatypeError ReturnType -> Body).

Inductive Item : Type :=
| Single (now delta : Z)                     (* [counter.increase_by(delta)] *)
| Transact (tag : string) (b : Body).        (* [counter.transaction(tag, b)] *)

(** The context of the handle that the threads share. *)
Definition default_ctx : TransactionContext := mkTransactionContext 0 None.

(** ** Threads *)

(** Where a thread is.  [ret] is where it goes with the result of an operation;
    [begun]: the operation is a transaction of its own ([BeginTx]). *)
Inductive Pc : Type :=
| Idle
| Panicked
(* execute_local_operation_as_tx *)
| OpTop (c : TransactionContext) (op : Operation) (ret : result DatatypeError ReturnType -> Pc)
| OpWait (c : TransactionContext) (op : Operation) (ret : result DatatypeError ReturnType -> Pc)
| OpWaited (c : TransactionContext) (op : Operation) (ret : result DatatypeError ReturnType -> Pc)
| OpWaitRelease (c : TransactionContext) (op : Operation) (ret : result DatatypeError ReturnType -> Pc)
| OpLock (c : TransactionContext) (begun : bool) (op : Operation) (ret : result DatatypeError ReturnType -> Pc)
| OpExec (c : TransactionContext) (begun : bool) (op : Operation) (ret : result DatatypeError ReturnType -> Pc)
| OpUnlock (c : TransactionContext) (begun : bool) (r : result DatatypeError ReturnType) (ret : result DatatypeError ReturnType -> Pc)
| OpRelease (c : TransactionContext) (begun : bool) (r : result DatatypeError ReturnType) (ret : result DatatypeError ReturnType -> Pc)
(* do_transaction *)
| TxTop (c : TransactionContext) (b : Body)
| TxWait (c : TransactionContext) (b : Body)
| TxWaited (c : TransactionContext) (b : Body)
| TxWaitRelease (c : TransactionContext) (b : Body)
| TxLock (c : TransactionContext) (b : Body)
| TxBody (c : TransactionContext) (b : Body)
(* end_transaction *)
| EndMutable (c : TransactionContext) (committed : bool) (next : Pc)
| EndTake (c : TransactionContext) (next : Pc)
| EndUnlock (next : Pc)
| EndRelease (next : Pc).

(** After the guard unlocked [op_mutex]. *)
Definition after_op (c : TransactionContext) (begun : bool) (r : result DatatypeError ReturnType)
    (ret : result DatatypeError ReturnType -> Pc) : Pc :=
  if begun then EndMutable c (is_ok r) (ret r) else ret r.

(** The next step of a thread; [None] when it waits, is idle or has panicked.
    [fresh] is the address of a context that the step may allocate. *)
Definition thread_step (fresh : Z) (t : TransactionalDatatype) (p : Pc)
    : option (TransactionalDatatype * Pc) :=
  match p with
  | Idle | Panicked => None
  | OpTop c op ret =>
      match @begin_transaction DatatypeError fresh c t with
      | (Ok (BeginTx _), t, _) => Some (t, OpLock (started_ctx fresh c) true op ret)
      | (Ok SameCtx, t, _) => Some (t, OpLock c false op ret)
      | (Ok OtherCtx, t, _) => Some (t, OpWait c op ret)
      | _ => None
      end
  | OpWait c op ret =>
      match @op_mutex_lock DatatypeError t with
      | (Ok _, t, _) => Some (t, OpWaited c op ret)
      | _ => None
      end
  | OpWaited c op ret => Some (t, if td_op_mutex t then OpWaitRelease c op ret else OpTop c op ret)
  | OpWaitRelease c op ret => Some (td_set_op_mutex false t, OpTop c op ret)
  | OpLock c begun op ret =>
      match @op_mutex_lock DatatypeError t with
      | (Ok _, t, _) => Some (t, OpExec c begun op ret)
      | _ => None
      end
  | OpExec c begun op ret =>
      let '(r, m, _) := Mutable_execute_local_operation op (td_mutable t) in
      Some (td_set_mutable m t, OpUnlock c begun r ret)
  | OpUnlock c begun r ret =>
      Some (t, if td_op_mutex t then OpRelease c begun r ret else after_op c begun r ret)
  | OpRelease c begun r ret => Some (td_set_op_mutex false t, after_op c begun r ret)
  | TxTop c b =>
      match @begin_transaction DatatypeError fresh c t with
      | (Ok (BeginTx _), t, _) => Some (t, TxLock (started_ctx fresh c) b)
      | (Ok SameCtx, t, _) => Some (t, Panicked)
      | (Ok OtherCtx, t, _) => Some (t, TxWait c b)
      | _ => None
      end
  | TxWait c b =>
      match @tx_mutex_lock DatatypeError t with
      | (Ok _, t, _) => Some (t, TxWaited c b)
      | _ => None
      end
  | TxWaited c b => Some (t, if td_tx_mutex t then TxWaitRelease c b else TxTop c b)
  | TxWaitRelease c b => Some (td_set_tx_mutex false t, TxTop c b)
  | TxLock c b =>
      match @tx_mutex_lock DatatypeError t with
      | (Ok _, t, _) => Some (t, TxBody c b)
      | _ => None
      end
  | TxBody c (Return ok) => Some (t, EndMutable c ok Idle)
  | TxBody c (Perform now delta k) =>
      match check_writable t with
      | (Ok _, t, _) =>
          Some (t, OpTop c (Operation_new_counter_increase now delta) (fun r => TxBody c (k r)))
      | (Err e, t, _) => Some (t, TxBody c (k (Err e)))
      | _ => None
      end
  | EndMutable c committed next =>
      match @end_mutable DatatypeError (ctx_tag c) committed t with
      | (Ok _, t, _) => Some (t, EndTake c next)
      | (_, t, _) => Some (t, Panicked)
      end
  | EndTake c next => Some (td_set_tx_ctx None t, EndUnlock next)
  | EndUnlock next => Some (t, if td_tx_mutex t then EndRelease next else next)
  | EndRelease next => Some (td_set_tx_mutex false t, next)
  end.

(** The first step of an item: [check_writable], and the context that
    [transaction] allocates. *)
Definition start_item (fresh : Z) (t : TransactionalDatatype) (it : Item) : option Pc :=
  match @check_writable t with
  | (Ok _, _, _) =>
      Some (match it with
            | Single now delta =>
                OpTop default_ctx (Operation_new_counter_increase now delta) (fun _ => Idle)
            | Transact tag b => TxTop (TransactionContext_new fresh tag) b
            end)
  | _ => None
  end.

(** ** The system of threads

    [log] records, for the statements only, the items in the order in which
    their transactions began, and which items were refused. *)
Record Thread : Type := mkThread { todo : list Item; pc : Pc }.

Inductive LogEntry : Type :=
| Began (i : nat) (it : Item)
| Refused (i : nat) (it : Item).

Record Config : Type := mkConfig {
  shared : TransactionalDatatype;
  threads : list Thread;
  next_address : Z;
  log : list LogEntry;
}.

(** The item that a thread has started but whose transaction has not begun. *)
Definition op_delta (op : Operation) : Z :=
  match op_body op with CounterIncrease b => delta b | Snapshot _ => 0 end.

Definition waiting_op (c : TransactionContext) (op : Operation) : option Item :=
  if TransactionContext_has_tag c then None else Some (Single (op_at op) (op_delta op)).

Definition item_of (p : Pc) : option Item :=
  match p with
  | OpTop c op _ | OpWait c op _ | OpWaited c op _ | OpWaitRelease c op _ => waiting_op c op
  | TxTop c b | TxWait c b | TxWaited c b | TxWaitRelease c b =>
      tag ← ctx_tag c; Some (Transact tag b)
  | _ => None
  end.

Definition begins (t t' : TransactionalDatatype) : bool :=
  bool_decide (td_tx_ctx t = None) && negb (bool_decide (td_tx_ctx t' = None)).

Inductive thread_runs : Config -> Config -> Prop :=
| run_start s i th it rest p :
    threads s !! i = Some th -> pc th = Idle -> todo th = it :: rest ->
    start_item (next_address s) (shared s) it = Some p ->
    thread_runs s (mkConfig (shared s) (<[i := mkThread rest p]> (threads s))
                     (next_address s + 1) (log s))
| run_refused s i th it rest :
    threads s !! i = Some th -> pc th = Idle -> todo th = it :: rest ->
    start_item (next_address s) (shared s) it = None ->
    thread_runs s (mkConfig (shared s) (<[i := mkThread rest Idle]> (threads s))
                     (next_address s + 1) (log s ++ [Refused i it]))
| run_thread s i th t p :
    threads s !! i = Some th -> thread_step (next_address s) (shared s) (pc th) = Some (t, p) ->
    thread_runs s (mkConfig t (<[i := mkThread (todo th) p]> (threads s)) (next_address s + 1)
                     (log s ++ if begins (shared s) t
                               then (Began i <$> option_list (item_of (pc th))) else [])).

(** The initial configuration: an idle datatype and a program per thread. *)
Definition init_config (t : TransactionalDatatype) (programs : list (list Item)) : Config :=
  mkConfig t ((fun prog => mkThread prog Idle) <$> programs) 1 [].

(** ** The same items run alone, by the code of [Transactional] *)
Fixpoint closure (ctx : TransactionContext) (b : Body) : TM DatatypeError unit :=
  match b with
  | Return true => mret tt
  | Return false => fail (TransactionFailed "")
  | Perform now delta k =>
      r ← attempt (execute_local_operation_as_tx 1 1 ctx (Operation_new_counter_increase now delta));
      closure ctx (k r)
  end.

Definition run_item (it : Item) : TM DatatypeError unit :=
  match it with
  | Single now delta =>
      execute_checked 1 1 default_ctx (Operation_new_counter_increase now delta) ;; mret tt
  | Transact tag b =>
      let ctx := TransactionContext_new 2 tag in do_transaction 1 1 ctx (closure ctx b)
  end.

(** The begun items of a log, in order. *)
Definition begun (l : list LogEntry) : list Item :=
  omap (fun e => match e with Began _ it => Some it | Refused _ _ => None end) l.

Definition serial_run (l : list LogEntry) (t : TransactionalDatatype) : TransactionalDatatype :=
  foldl (fun t it => final (run_item it t)) t (begun l).

(** The entries of one thread. *)
Definition items_of_thread (i : nat) (l : list LogEntry) : list Item :=
  omap (fun e => match e with
                 | Began j it | Refused j it => if decide (i = j) then Some it else None
                 end) l.

(** ** The datatype that an item leads to *)
Definition executed (op : Operation) (m : MutableDatatype) : result DatatypeError ReturnType * MutableDatatype :=
  let '(r, m, _) := Mutable_execute_local_operation op m in (r, m).

Definition ended (tag : option string) (committed : bool) (m : MutableDatatype) : MutableDatatype :=
  td_mutable (final (@end_mutable DatatypeError tag committed (mkTransactionalDatatype m None false false))).

Definition write_check (m : MutableDatatype) : result DatatypeError unit :=
  outcome (check_writable (mkTransactionalDatatype m None false false)).

(** A closure run on the datatype: what it returns and leaves. *)
Fixpoint body_run (b : Body) (m : MutableDatatype) : bool * MutableDatatype :=
  match b with
  | Return ok => (ok, m)
  | Perform now delta k =>
      match write_check m with
      | Err e => body_run (k (Err e)) m
      | _ => let '(r, m) := executed (Operation_new_counter_increase now delta) m in body_run (k r) m
      end
  end.

Definition tx_run (tag : option string) (b : Body) (m : MutableDatatype) : MutableDatatype :=
  let '(ok, m) := body_run b m in ended tag ok m.

Definition item_run (it : Item) (m : MutableDatatype) : MutableDatatype :=
  match it with
  | Single now delta =>
      let '(r, m) := executed (Operation_new_counter_increase now delta) m in ended None (is_ok r) m
  | Transact tag b => tx_run (Some tag) b m
  end.

(** The datatype after the running transaction, when its thread runs alone. *)
Fixpoint completes (p : Pc) (m : MutableDatatype) : MutableDatatype :=
  match p with
  | OpTop c op ret => let '(r, m) := executed op m in completes (ret r) m
  | OpLock c begun op ret | OpExec c begun op ret =>
      let '(r, m) := executed op m in
      if begun then ended (ctx_tag c) (is_ok r) m else completes (ret r) m
  | OpUnlock c begun r ret | OpRelease c begun r ret =>
      if begun then ended (ctx_tag c) (is_ok r) m else completes (ret r) m
  | TxLock c b | TxBody c b => tx_run (ctx_tag c) b m
  | EndMutable c committed _ => ended (ctx_tag c) committed m
  | _ => m
  end.

(** ** The invariant *)

(** The context that a thread holds, between its [BeginTx] and [take]. *)
Definition owns (p : Pc) : option TransactionContext :=
  match p with
  | OpTop c _ _ | OpWait c _ _ | OpWaited c _ _ | OpWaitRelease c _ _ =>
      if TransactionContext_has_tag c then Some c else None
  | OpLock c _ _ _ | OpExec c _ _ _ | OpUnlock c _ _ _ | OpRelease c _ _ _
  | TxLock c _ | TxBody c _ | EndMutable c _ _ | EndTake c _ => Some c
  | _ => None
  end.

(** The address that a thread has allocated. *)
Definition names (p : Pc) : option Z :=
  match owns p with
  | Some c => Some (ctx_ptr c)
  | None =>
      match p with
      | TxTop c _ | TxWait c _ | TxWaited c _ | TxWaitRelease c _ => Some (ctx_ptr c)
      | _ => None
      end
  end.

Definition ret_ok (c : TransactionContext) (begun : bool) (op : option Operation)
    (ret : result DatatypeError ReturnType -> Pc) : Prop :=
  (match op with
   | Some op => exists now delta, op = Operation_new_counter_increase now delta
   | None => True
   end) /\
  if begun then TransactionContext_has_tag c = false /\ forall r, ret r = Idle
  else TransactionContext_has_tag c = true /\ exists k, forall r, ret r = TxBody c (k r).

Definition pc_ok (p : Pc) : Prop :=
  match p with
  | Idle => True
  | Panicked => False
  | OpTop c op ret =>
      ret_ok c (negb (TransactionContext_has_tag c)) (Some op) ret /\
      (TransactionContext_has_tag c = false -> c = default_ctx)
  | OpWait c op ret | OpWaited c op ret | OpWaitRelease c op ret =>
      ret_ok c true (Some op) ret /\ c = default_ctx
  | OpLock c begun op ret | OpExec c begun op ret => ret_ok c begun (Some op) ret
  | OpUnlock c begun _ ret | OpRelease c begun _ ret => ret_ok c begun None ret
  | TxTop c _ | TxWait c _ | TxWaited c _ | TxWaitRelease c _ | TxLock c _ | TxBody c _ =>
      TransactionContext_has_tag c = true
  | EndMutable _ _ next | EndTake _ next | EndUnlock next | EndRelease next => next = Idle
  end.

(** The threads that hold [op_mutex], and those that will still unlock
    [tx_mutex]. *)
Definition holds_op (p : Pc) : bool :=
  match p with
  | OpWaited _ _ _ | OpWaitRelease _ _ _ | OpExec _ _ _ _ | OpUnlock _ _ _ _ | OpRelease _ _ _ _ => true
  | _ => false
  end.

Definition unlocks_tx (p : Pc) : bool :=
  match p with
  | OpTop c _ _ => TransactionContext_has_tag c
  | OpLock _ _ _ _ | OpExec _ _ _ _ | OpUnlock _ _ _ _ | OpRelease _ _ _ _
  | TxWaited _ _ | TxWaitRelease _ _ | TxBody _ _
  | EndMutable _ _ _ | EndTake _ _ | EndUnlock _ | EndRelease _ => true
  | _ => false
  end.

(** The operations of a pending transaction can be undone. *)
Definition pending_undoable (m : MutableDatatype) : Prop :=
  forall tx, pending (m_tx_record m) = Some tx -> counter_tx tx = true.

(** ** Lemmas: the atomic sections *)
Lemma executed_counter now delta m : pending_undoable m ->
  exists v m', executed (Operation_new_counter_increase now delta) m = (Ok (RetCounter v), m') /\
    Mutable_execute_local_operation (Operation_new_counter_increase now delta) m
      = (Ok (RetCounter v), m', []) /\
    pending_undoable m'.
Proof.
  intros Hp. destruct m as [a [c] o b cp st [pend ro rs] hm]. unfold executed,
    Mutable_execute_local_operation, TxRecord_record_operation. simpl.
  destruct pend as [tx|] eqn:Hpend; simpl; do 2 eexists; (split; [reflexivity|]);
    (split; [reflexivity|]); intros tx' [= <-]; simpl; [|done].
  unfold counter_tx in *. simpl. rewrite forallb_app.
  by rewrite (Hp tx eq_refl : forallb _ _ = true).
Qed.

Lemma write_check_eq t : check_writable t = (write_check (td_mutable t), t, []).
Proof. by destruct t. Qed.

Lemma write_check_cases m : write_check m = Ok tt \/ exists e, write_check m = Err e.
Proof. unfold write_check, check_writable. simpl. repeat case_match; eauto. Qed.

Lemma apply_action_undoable E r m : pending_undoable m ->
  exists m' w, Mutable_apply_action r m = (@Ok E unit tt, m', w) /\ pending_undoable m'.
Proof.
  intros Hp.
  assert (Hreset : forall st, exists m' w,
    (Mutable_reset ;; Mutable_set_state st) m = (@Ok E unit tt, m', w) /\ pending_undoable m').
  { intros st. unfold mbind, M_bind, Mutable_reset, modify, Mutable_set_state.
    cbn -[decide state_change_calls]. case_decide; by do 2 eexists. }
  destruct r; simpl; eauto.
  unfold Mutable_do_rollback. destruct (pending (m_tx_record m)) as [tx|] eqn:Htx; [|eauto].
  destruct (do_rollback_eq E m tx Htx (Hp tx Htx)) as (c & w & _ & He).
  unfold Mutable_do_rollback in He. rewrite Htx in He. rewrite He. by do 2 eexists.
Qed.

Lemma end_mutable_ok tag committed t : pending_undoable (td_mutable t) ->
  let m' := ended tag committed (td_mutable t) in
  pending_undoable m' /\
  exists w, @end_mutable DatatypeError tag committed t = (Ok tt, td_set_mutable m' t, w).
Proof.
  destruct t as [m c om tm]. intros Hp. simpl.
  assert (H : exists m', (forall c om tm, exists w, @end_mutable DatatypeError tag committed
      (mkTransactionalDatatype m c om tm) = (Ok tt, mkTransactionalDatatype m' c om tm, w)) /\
    pending_undoable m').
  { unfold end_mutable. cbn [td_mutable]. simpl in Hp.
    destruct (Mutable_end_transaction tag committed m) as [[r m'] w] eqn:He.
    assert (pending_undoable m' /\ ((exists b, r = Ok b) \/ exists e, r = Err e)) as [Hm' Hr].
    { unfold Mutable_end_transaction in He. destruct committed; simpl in He.
      - destruct (pending (m_tx_record m)) as [tx|] eqn:Htx; [|simplify_eq; eauto].
        case_decide; [|simplify_eq; split; [by intros ?|eauto]].
        assert (counter_tx (Transaction_set_tag tag tx) = true) by (by apply (Hp tx)).
        unfold enqueue in He. repeat case_match; simplify_eq; (split; [|by eauto]);
          intros ? [= <-]; done.
      - destruct (apply_action_undoable DatatypeErrorWithAction RollbackTransaction m Hp)
          as (m2 & w2 & Hr & Hm2).
        simpl in Hr. erewrite M_bind_Ok in He by exact Hr. injection He as <- <- <-. eauto. }
    destruct Hr as [[b ->]|[e ->]].
    - by exists m'; destruct b; (split; [eexists|]).
    - destruct (apply_action_undoable DatatypeError (recovery e) m' Hm') as (m2 & w2 & Ha & Hm2).
      exists m2. split; [|exact Hm2]. intros. eexists. unfold mbind, M_bind, locked.
      cbn [td_mutable td_set_mutable]. rewrite Ha. reflexivity. }
  destruct H as (m' & He & Hm'). unfold ended. destruct (He None false false) as [w ->].
  split; [exact Hm'|]. apply He.
Qed.

(** ** Lemmas: one step of a thread *)

(** What a thread knows of the shared datatype. *)
Record thread_view (t : TransactionalDatatype) (p : Pc) : Prop := {
  view_pc : pc_ok p;
  view_undoable : pending_undoable (td_mutable t);
  view_owns : forall c, owns p = Some c -> td_tx_ctx t = Some c;
  view_names : forall c n, td_tx_ctx t = Some c -> owns p = None -> names p = Some n -> ctx_ptr c <> n;
  view_default : forall c, td_tx_ctx t = Some c -> ctx_ptr c <> 0;
}.

(** What a step does to the transaction: it begins one, works inside its own,
    ends it, or stays outside. *)
Definition step_effect (fresh : Z) (t : TransactionalDatatype) (p : Pc)
    (t' : TransactionalDatatype) (p' : Pc) : Prop :=
  let m := td_mutable t in
  match owns p, owns p' with
  | None, Some c =>
      td_tx_ctx t = None /\ td_tx_ctx t' = Some c /\ td_mutable t' = m /\ item_of p' = None /\
      (exists it, item_of p = Some it /\ completes p' m = item_run it m) /\
      (names p = Some (ctx_ptr c) \/ names p = None /\ ctx_ptr c = fresh)
  | Some c, Some c' =>
      c' = c /\ td_tx_ctx t' = td_tx_ctx t /\ completes p' (td_mutable t') = completes p m /\
      item_of p' = item_of p
  | Some c, None =>
      td_tx_ctx t' = None /\ td_mutable t' = completes p m /\ item_of p' = item_of p /\
      names p' = None
  | None, None =>
      td_tx_ctx t' = td_tx_ctx t /\ td_mutable t' = m /\ item_of p' = item_of p /\
      (names p' = names p \/ names p' = None)
  end.

Lemma begin_other fresh c c' t : td_tx_ctx t = Some c' -> ctx_ptr c' <> ctx_ptr c ->
  @begin_transaction DatatypeError fresh c t = (Ok OtherCtx, t, []).
Proof.
  intros Hc Hne. unfold begin_transaction, TransactionContext_eq. rewrite Hc.
  by rewrite (proj2 (Z.eqb_neq _ _)).
Qed.

Lemma completes_body c now delta k m : write_check m = Ok tt ->
  completes (OpTop c (Operation_new_counter_increase now delta) (fun r => TxBody c (k r))) m
  = tx_run (ctx_tag c) (Perform now delta k) m.
Proof.
  intros Hw. unfold tx_run at 1. cbn [completes body_run]. rewrite Hw.
  by destruct (executed _ m).
Qed.

Definition step_ok (fresh : Z) (t : TransactionalDatatype) (p : Pc)
    (x : option (TransactionalDatatype * Pc)) : Prop :=
  match x with
  | Some (t', p') => pc_ok p' /\ pending_undoable (td_mutable t') /\ step_effect fresh t p t' p'
  | None => True
  end.

Lemma op_top_ok fresh t c op ret : thread_view t (OpTop c op ret) ->
  step_ok fresh t (OpTop c op ret) (thread_step fresh t (OpTop c op ret)).
Proof.
  intros [[[(now & delta & ->) Hret] Hdef] Hu Ho Hn Hd]. unfold step_ok, step_effect, thread_step.
  cbn [owns item_of names] in *. unfold waiting_op.
  destruct (TransactionContext_has_tag c) eqn:Htag; cbn [negb] in *.
  - rewrite begin_same by (by apply Ho). cbn [owns pc_ok]. split; [split; [by do 2 eexists|]; split; [exact Htag|apply Hret]|].
    split; [done|]. splits.
  - rewrite (Hdef eq_refl) in *. destruct (td_tx_ctx t) as [c'|] eqn:Hc.
    + rewrite (begin_other fresh default_ctx c') by (done || by apply Hd).
      cbn [owns pc_ok TransactionContext_has_tag default_ctx ctx_tag item_of waiting_op].
      split; [split; [|done]; split; [by do 2 eexists|done]|]. rewrite Hc. split; [done|]. split; [done|].
      split; [done|]. split; [done|]. by left.
    + rewrite begin_idle by done. cbn [owns pc_ok td_set_tx_ctx td_mutable td_tx_ctx].
      split; [split; [by do 2 eexists|]; by split; [|apply Hret]|]. split; [done|].
      split; [done|]. split; [done|]. split; [done|]. split; [done|]. split; [|right; by split].
      eexists. split; [reflexivity|]. cbn [completes item_run]. by destruct (executed _ _).
Qed.

Lemma op_step_ok fresh t p : thread_view t p ->
  match p with
  | OpWait _ _ _ | OpWaited _ _ _ | OpWaitRelease _ _ _ | OpLock _ _ _ _ | OpExec _ _ _ _ => True
  | _ => False
  end ->
  step_ok fresh t p (thread_step fresh t p).
Proof.
  intros [Hp Hu Ho Hn Hd] Hsort. unfold step_ok, step_effect, thread_step.
  destruct p as [| |c op ret|c op ret|c op ret|c op ret|c b op ret|c b op ret| | | | | | | | | | | |];
    try done.
  - destruct Hp as [Hr ->]. unfold op_mutex_lock, NoGuardMutex_lock. destruct (td_op_mutex t); [done|].
    split; [by split|]. split; [done|]. splits. by left.
  - destruct Hp as [Hr ->]. destruct (td_op_mutex t); (split; [by split|]); (split; [done|]); splits; by left.
  - destruct Hp as [Hr ->]. split; [by split|]. split; [done|]. splits. by left.
  - unfold op_mutex_lock, NoGuardMutex_lock. destruct (td_op_mutex t); [done|]. by splits.
  - destruct Hp as [(now & delta & ->) Hr].
    destruct (executed_counter now delta (td_mutable t) Hu) as (v & m' & He & Hx & Hu').
    rewrite Hx. cbn [owns pc_ok td_mutable td_set_mutable td_tx_ctx completes item_of].
    rewrite He. by splits.
Qed.

Lemma after_op_ok fresh t c begun r ret t' p :
  p = OpUnlock c begun r ret \/ p = OpRelease c begun r ret ->
  thread_view t p -> td_mutable t' = td_mutable t -> td_tx_ctx t' = td_tx_ctx t ->
  step_ok fresh t p (Some (t', after_op c begun r ret)).
Proof.
  intros Heq [Hp Hu Ho Hn Hd] Hm Hc. unfold step_ok, step_effect.
  assert (Hr : ret_ok c begun None ret) by (by destruct Heq as [-> | ->]).
  assert (owns p = Some c /\ item_of p = None /\ completes p (td_mutable t) =
    if begun then ended (ctx_tag c) (is_ok r) (td_mutable t) else completes (ret r) (td_mutable t))
    as (-> & -> & ->) by (by destruct Heq as [-> | ->]).
  rewrite Hm. destruct Hr as [_ Hr]. destruct begun; cbn [after_op].
  - destruct Hr as [_ Hr]. rewrite Hr. by splits.
  - destruct Hr as (Htag & k & Hr). rewrite Hr. by splits.
Qed.

Lemma unlock_op_ok fresh t p : thread_view t p ->
  match p with OpUnlock _ _ _ _ | OpRelease _ _ _ _ => True | _ => False end ->
  step_ok fresh t p (thread_step fresh t p).
Proof.
  intros Hv Hsort. destruct p; try done; cbn [thread_step].
  - destruct (td_op_mutex t); [|apply after_op_ok; auto]. destruct Hv as [Hp Hu _ _ _]. by splits.
  - apply after_op_ok; auto.
Qed.

Lemma tx_step_ok fresh t p : thread_view t p ->
  match p with
  | TxTop _ _ | TxWait _ _ | TxWaited _ _ | TxWaitRelease _ _ | TxLock _ _ => True
  | _ => False
  end ->
  step_ok fresh t p (thread_step fresh t p).
Proof.
  intros [Hp Hu Ho Hn Hd] Hsort. unfold step_ok, step_effect, thread_step.
  destruct p as [| | | | | | | | | |c b|c b|c b|c b|c b| | | | |]; try done; cbn [pc_ok owns] in *.
  - destruct (td_tx_ctx t) as [c'|] eqn:Hc.
    + rewrite (begin_other fresh c c') by (done || by apply Hn). cbn [owns pc_ok]. rewrite Hc.
      splits. by left.
    + rewrite begin_idle by done. unfold started_ctx. rewrite Hp. cbn [owns pc_ok td_set_tx_ctx].
      splits; [|by left]. unfold TransactionContext_has_tag in Hp. cbn [item_of].
      destruct (ctx_tag c) as [tag|] eqn:Htag; [|done]. eexists. split; [reflexivity|].
      cbn [completes item_run]. by rewrite Htag.
  - unfold tx_mutex_lock, NoGuardMutex_lock. destruct (td_tx_mutex t); [done|].
    cbn [owns pc_ok]. splits. by left.
  - destruct (td_tx_mutex t); cbn [owns pc_ok]; splits; by left.
  - cbn [owns pc_ok]. splits. by left.
  - unfold tx_mutex_lock, NoGuardMutex_lock. destruct (td_tx_mutex t); [done|]. by splits.
Qed.

Lemma body_step_ok fresh t c b : thread_view t (TxBody c b) ->
  step_ok fresh t (TxBody c b) (thread_step fresh t (TxBody c b)).
Proof.
  intros [Hp Hu Ho Hn Hd]. unfold step_ok, step_effect, thread_step. cbn [pc_ok] in Hp.
  destruct b as [ok|now delta k]; [by splits|]. rewrite write_check_eq.
  destruct (write_check_cases (td_mutable t)) as [Hw|[e Hw]]; rewrite Hw.
  - cbn [owns pc_ok]. rewrite Hp. cbn [negb].
    split; [split; [|done]; split; [by do 2 eexists|]; split; [done|by exists k]|].
    split; [done|]. split; [done|]. split; [done|]. split; [by apply completes_body|].
    cbn [item_of]. unfold waiting_op. by rewrite Hp.
  - splits. cbn [owns completes]. unfold tx_run. cbn [body_run]. by rewrite Hw.
Qed.

Lemma end_step_ok fresh t p : thread_view t p ->
  match p with
  | EndMutable _ _ _ | EndTake _ _ | EndUnlock _ | EndRelease _ => True
  | _ => False
  end ->
  step_ok fresh t p (thread_step fresh t p).
Proof.
  intros [Hp Hu Ho Hn Hd] Hsort. unfold step_ok, step_effect, thread_step.
  destruct p as [| | | | | | | | | | | | | | | |c cm next|c next|next|next]; try done;
    cbn [pc_ok] in Hp; subst.
  - destruct (end_mutable_ok (ctx_tag c) cm t Hu) as (Hu' & w & ->). by splits.
  - destruct (td_tx_mutex t); cbn [owns pc_ok]; splits; by left.
  - cbn [owns pc_ok]. splits. by left.
Qed.

Lemma thread_step_ok fresh t p : thread_view t p -> step_ok fresh t p (thread_step fresh t p).
Proof.
  intros Hv. destruct p; try done;
    first [by apply op_top_ok | by apply op_step_ok | by apply unlock_op_ok | by apply tx_step_ok
          | by apply body_step_ok | by apply end_step_ok].
Qed.

(** ** The invariant of the system *)
Definition serial_mutable (t0 : TransactionalDatatype) (l : list LogEntry) : MutableDatatype :=
  foldl (fun m it => item_run it m) (td_mutable t0) (begun l).

(** At most one thread is inside a transaction; letting it finish gives what the
    begun items give in their order. *)
Definition owner_inv (t0 : TransactionalDatatype) (s : Config) : Prop :=
  match td_tx_ctx (shared s) with
  | None =>
      (forall i th, threads s !! i = Some th -> owns (pc th) = None) /\
      td_mutable (shared s) = serial_mutable t0 (log s)
  | Some c =>
      exists i th, threads s !! i = Some th /\ owns (pc th) = Some c /\
        completes (pc th) (td_mutable (shared s)) = serial_mutable t0 (log s) /\
        forall j thj, j <> i -> threads s !! j = Some thj -> owns (pc thj) = None
  end.

Record config_inv (t0 : TransactionalDatatype) (programs : list (list Item)) (s : Config) : Prop := {
  inv_pc : forall i th, threads s !! i = Some th -> pc_ok (pc th);
  inv_undoable : pending_undoable (td_mutable (shared s));
  inv_owner : owner_inv t0 s;
  inv_next : 0 < next_address s;
  inv_names : forall i th n, threads s !! i = Some th -> names (pc th) = Some n ->
    0 < n < next_address s;
  inv_distinct : forall i j th thj n, threads s !! i = Some th -> threads s !! j = Some thj ->
    names (pc th) = Some n -> names (pc thj) = Some n -> i = j;
  inv_order : forall i th, threads s !! i = Some th ->
    programs !! i = Some (items_of_thread i (log s) ++ option_list (item_of (pc th)) ++ todo th);
}.

Lemma owner_unique t0 s i th c : owner_inv t0 s -> threads s !! i = Some th ->
  owns (pc th) = Some c ->
  td_tx_ctx (shared s) = Some c /\
  completes (pc th) (td_mutable (shared s)) = serial_mutable t0 (log s) /\
  forall j thj, j <> i -> threads s !! j = Some thj -> owns (pc thj) = None.
Proof.
  unfold owner_inv. intros Hinv Hi Ho. destruct (td_tx_ctx (shared s)) as [c'|].
  - destruct Hinv as (k & thk & Hk & Hok & Hc & Hother).
    destruct (decide (i = k)) as [->|Hne]; [by simplify_eq|]. rewrite (Hother i th) in Ho by done. done.
  - destruct Hinv as [Hn _]. by rewrite (Hn i th) in Ho.
Qed.

Lemma owns_names p c : owns p = Some c -> names p = Some (ctx_ptr c).
Proof. unfold names. by intros ->. Qed.

Lemma inv_thread_view t0 programs s i th : config_inv t0 programs s ->
  threads s !! i = Some th -> thread_view (shared s) (pc th).
Proof.
  intros [Hpc Hu Ho Hnext Hn Hd Hord] Hi.
  assert (Howner : forall c, td_tx_ctx (shared s) = Some c ->
    exists k thk, threads s !! k = Some thk /\ owns (pc thk) = Some c).
  { intros c Hc. unfold owner_inv in Ho. rewrite Hc in Ho.
    destruct Ho as (k & thk & ? & ? & _). eauto. }
  constructor.
  - by eapply Hpc.
  - done.
  - intros c Hc. by apply (owner_unique t0 s i th c).
  - intros c n Hc Hnone Hnm Heq. destruct (Howner c Hc) as (k & thk & Hk & Hok).
    assert (i = k) as -> by (eapply Hd; eauto; rewrite <- Heq; by apply owns_names).
    congruence.
  - intros c Hc. destruct (Howner c Hc) as (k & thk & Hk & Hok%owns_names).
    specialize (Hn k thk _ Hk Hok). lia.
Qed.

Lemma items_of_thread_app i l l' :
  items_of_thread i (l ++ l') = items_of_thread i l ++ items_of_thread i l'.
Proof. apply omap_app. Qed.

Lemma begun_app l l' : begun (l ++ l') = begun l ++ begun l'.
Proof. apply omap_app. Qed.

Lemma serial_mutable_app t0 l it i :
  serial_mutable t0 (l ++ [Began i it]) = item_run it (serial_mutable t0 l).
Proof. unfold serial_mutable. rewrite begun_app, foldl_app. done. Qed.

(** The new log entries of a step, and what they mean. *)
Definition new_entries (i : nat) (t : TransactionalDatatype) (p : Pc) (t' : TransactionalDatatype)
    : list LogEntry :=
  if begins t t' then Began i <$> option_list (item_of p) else [].

Lemma step_entries fresh t p t' p' i : thread_view t p -> step_effect fresh t p t' p' ->
  match owns p, owns p' with
  | None, Some _ => exists it, item_of p = Some it /\ new_entries i t p t' = [Began i it]
  | _, _ => new_entries i t p t' = [] /\ item_of p' = item_of p
  end.
Proof.
  intros Hv He. unfold step_effect in He. unfold new_entries, begins.
  destruct (owns p) as [c|] eqn:Ho.
  - rewrite (view_owns t p Hv c Ho). destruct (owns p'); split; try done; apply He.
  - destruct (owns p') as [c|].
    + destruct He as (Hc & Hc' & _ & _ & (it & Hit & _) & _). rewrite Hc, Hc', Hit. by exists it.
    + destruct He as (Hc & _ & Hit & _). rewrite Hc. split; [|done].
      by destruct (td_tx_ctx t).
Qed.

Section preservation.
Context (t0 : TransactionalDatatype) (programs : list (list Item)).

Implicit Type s : Config.

Lemma step_order s i th t' p' :
  config_inv t0 programs s -> threads s !! i = Some th ->
  step_effect (next_address s) (shared s) (pc th) t' p' ->
  forall j thj, <[i := mkThread (todo th) p']> (threads s) !! j = Some thj ->
  programs !! j = Some (items_of_thread j (log s ++ new_entries i (shared s) (pc th) t')
                        ++ option_list (item_of (pc thj)) ++ todo thj).
Proof.
  intros Hinv Hi He j thj Hj.
  pose proof (step_entries _ _ _ _ _ i (inv_thread_view _ _ _ _ _ Hinv Hi) He) as Hent.
  rewrite items_of_thread_app.
  apply list_lookup_insert_Some in Hj as [(<- & <- & Hlen)|[Hne Hj]].
  - rewrite (inv_order _ _ _ Hinv i th Hi). f_equal. cbn [pc todo].
    unfold step_effect in He. destruct (owns (pc th)), (owns p').
    1,2,4: destruct Hent as [-> ->]; by rewrite app_nil_r.
    destruct Hent as (it & -> & ->). destruct He as (_ & _ & _ & -> & _). simpl.
    by rewrite decide_True, <- app_assoc.
  - rewrite (inv_order _ _ _ Hinv j thj Hj).
    replace (items_of_thread j (new_entries i (shared s) (pc th) t')) with (@nil Item);
      [by rewrite app_nil_r|].
    destruct (owns (pc th)), (owns p').
    1,2,4: by destruct Hent as [-> _].
    destruct Hent as (it & _ & ->). simpl. by rewrite decide_False.
Qed.

Lemma step_owner s i th t' p' :
  config_inv t0 programs s -> threads s !! i = Some th ->
  step_effect (next_address s) (shared s) (pc th) t' p' ->
  owner_inv t0 (mkConfig t' (<[i := mkThread (todo th) p']> (threads s)) (next_address s + 1)
    (log s ++ new_entries i (shared s) (pc th) t')).
Proof.
  intros Hinv Hi He. pose proof (inv_owner _ _ _ Hinv) as Hown.
  pose proof (step_entries _ _ _ _ _ i (inv_thread_view _ _ _ _ _ Hinv Hi) He) as Hent.
  assert (Hlen : (i < length (threads s))%nat) by by eapply lookup_lt_Some.
  unfold step_effect in He. unfold owner_inv. cbn [shared threads log].
  destruct (owns (pc th)) as [c|] eqn:Ho.
  - destruct (owner_unique t0 s i th c Hown Hi Ho) as (Hc & Hcomp & Hother).
    destruct (owns p') as [c'|] eqn:Ho'; destruct Hent as [-> _]; rewrite app_nil_r.
    + destruct He as (-> & -> & Hcomp' & _). rewrite Hc.
      exists i, (mkThread (todo th) p'). cbn [pc]. rewrite list_lookup_insert_eq by done. split; [done|].
      split; [done|]. split; [by rewrite Hcomp'|]. intros j thj Hne.
      rewrite list_lookup_insert_ne by done. by apply Hother.
    + destruct He as (-> & -> & _). split; [|done].
      intros j thj [(<- & <- & _)|[Hne Hj]]%list_lookup_insert_Some; [done|]. by eapply Hother.
  - destruct (owns p') as [c'|] eqn:Ho'.
    + destruct He as (Hc & -> & Hm & _ & (it & Hit & Hcomp) & _).
      destruct Hent as (it' & Hit' & ->). rewrite Hit in Hit'. injection Hit' as <-.
      unfold owner_inv in Hown. rewrite Hc in Hown. destruct Hown as [Hnone Hser].
      exists i, (mkThread (todo th) p'). cbn [pc]. rewrite list_lookup_insert_eq by done. split; [done|].
      split; [done|]. split; [by rewrite serial_mutable_app, Hm, Hcomp, Hser|].
      intros j thj Hne. rewrite list_lookup_insert_ne by done. apply Hnone.
    + destruct He as (Hc & Hm & _). destruct Hent as [-> _]. rewrite app_nil_r, Hc, Hm.
      unfold owner_inv in Hown. destruct (td_tx_ctx (shared s)).
      * destruct Hown as (k & thk & Hk & Hok & Hcomp & Hother).
        assert (i <> k) by congruence.
        exists k, thk. rewrite list_lookup_insert_ne by done. split; [done|]. split; [done|].
        split; [done|]. intros j thj Hne [(<- & <- & _)|[Hne' Hj]]%list_lookup_insert_Some; [done|].
        by eapply Hother.
      * destruct Hown as [Hnone Hser]. split; [|done].
        intros j thj [(<- & <- & _)|[Hne Hj]]%list_lookup_insert_Some; [done|]. by eapply Hnone.
Qed.

(** Replacing the state of one thread, with an address that is its own or new. *)
Lemma update_names s i th th' :
  config_inv t0 programs s -> threads s !! i = Some th ->
  (forall n, names (pc th') = Some n -> names (pc th) = Some n \/ n = next_address s) ->
  (forall j thj n, <[i := th']> (threads s) !! j = Some thj -> names (pc thj) = Some n ->
     0 < n < next_address s + 1) /\
  (forall j k thj thk n, <[i := th']> (threads s) !! j = Some thj ->
     <[i := th']> (threads s) !! k = Some thk ->
     names (pc thj) = Some n -> names (pc thk) = Some n -> j = k).
Proof.
  intros Hinv Hi Hnew. pose proof (inv_names _ _ _ Hinv) as Hn.
  pose proof (inv_next _ _ _ Hinv) as Hnext.
  assert (Hmix : forall k thk n, k <> i -> threads s !! k = Some thk ->
    names (pc th') = Some n -> names (pc thk) = Some n -> False).
  { intros k thk n Hne Hk [Hold| ->]%Hnew Hnk.
    - by apply Hne, (inv_distinct _ _ _ Hinv k i thk th n).
    - specialize (Hn _ _ _ Hk Hnk). lia. }
  split.
  - intros j thj n [(<- & <- & _)|[_ Hj]]%list_lookup_insert_Some Hnm.
    + apply Hnew in Hnm as [Hnm| ->]; [specialize (Hn _ _ _ Hi Hnm)|]; lia.
    + specialize (Hn _ _ _ Hj Hnm). lia.
  - intros j k thj thk n [(<- & <- & _)|[Hnj Hj]]%list_lookup_insert_Some
      [(<- & <- & _)|[Hnk Hk]]%list_lookup_insert_Some Hj' Hk'.
    + done.
    + exfalso. by eapply (Hmix k thk n).
    + exfalso. by eapply (Hmix j thj n).
    + by eapply inv_distinct.
Qed.

Lemma step_names fresh t p t' p' n :
  step_effect fresh t p t' p' -> names p' = Some n -> names p = Some n \/ n = fresh.
Proof.
  unfold step_effect. destruct (owns p) as [c|] eqn:Ho, (owns p') as [c'|] eqn:Ho'.
  - intros (-> & _) Hn. left. rewrite (owns_names _ _ Ho') in Hn. by rewrite (owns_names _ _ Ho).
  - intros (_ & _ & _ & ->). done.
  - intros (_ & _ & _ & _ & _ & Hor) Hn. rewrite (owns_names _ _ Ho') in Hn. injection Hn as <-.
    destruct Hor as [?|[_ ?]]; auto.
  - intros (_ & _ & _ & [-> | ->]); [by left|done].
Qed.

Lemma run_thread_inv s i th t' p' :
  config_inv t0 programs s -> threads s !! i = Some th ->
  thread_step (next_address s) (shared s) (pc th) = Some (t', p') ->
  config_inv t0 programs (mkConfig t' (<[i := mkThread (todo th) p']> (threads s))
    (next_address s + 1) (log s ++ new_entries i (shared s) (pc th) t')).
Proof.
  intros Hinv Hi Hstep.
  pose proof (thread_step_ok (next_address s) _ _ (inv_thread_view _ _ _ _ _ Hinv Hi)) as Hok.
  rewrite Hstep in Hok. destruct Hok as (Hpc & Hu & He).
  destruct (update_names s i th (mkThread (todo th) p') Hinv Hi) as [Hn Hd];
    [intros n; by eapply step_names|].
  constructor; cbn [shared threads next_address log].
  - intros j thj [(<- & <- & _)|[_ Hj]]%list_lookup_insert_Some; [done|]. by eapply inv_pc.
  - done.
  - by eapply step_owner.
  - pose proof (inv_next _ _ _ Hinv). lia.
  - exact Hn.
  - exact Hd.
  - by apply step_order.
Qed.

(** Starting an item, or dropping a refused one, concerns its thread only. *)
Lemma start_inv s i th it rest p entries :
  config_inv t0 programs s -> threads s !! i = Some th -> pc th = Idle -> todo th = it :: rest ->
  pc_ok p -> owns p = None -> begun entries = [] ->
  (forall n, names p = Some n -> n = next_address s) ->
  items_of_thread i entries ++ option_list (item_of p) = [it] ->
  (forall j, j <> i -> items_of_thread j entries = []) ->
  config_inv t0 programs (mkConfig (shared s) (<[i := mkThread rest p]> (threads s))
    (next_address s + 1) (log s ++ entries)).
Proof.
  intros Hinv Hi Hidle Htodo Hpc Ho Hb Hnm Hit Hother.
  destruct (update_names s i th (mkThread rest p) Hinv Hi) as [Hn Hd]; [auto|].
  constructor; cbn [shared threads next_address log].
  - intros j thj [(<- & <- & _)|[_ Hj]]%list_lookup_insert_Some; [done|]. by eapply inv_pc.
  - apply Hinv.
  - pose proof (inv_owner _ _ _ Hinv) as Hown. unfold owner_inv in *. cbn [shared threads log].
    assert (serial_mutable t0 (log s ++ entries) = serial_mutable t0 (log s)) as ->.
    { unfold serial_mutable. by rewrite begun_app, Hb, app_nil_r. }
    destruct (td_tx_ctx (shared s)).
    + destruct Hown as (k & thk & Hk & Hok & Hcomp & Hoth). exists k, thk.
      assert (i <> k) by (intros ->; simplify_eq; by rewrite Hidle in Hok).
      rewrite list_lookup_insert_ne by done. split_and!; [done..|].
      intros j thj Hne [(<- & <- & _)|[_ Hj]]%list_lookup_insert_Some; [done|]. by eapply Hoth.
    + destruct Hown as [Hnone Hser]. split; [|done].
      intros j thj [(<- & <- & _)|[_ Hj]]%list_lookup_insert_Some; [done|]. by eapply Hnone.
  - pose proof (inv_next _ _ _ Hinv). lia.
  - exact Hn.
  - exact Hd.
  - intros j thj [(<- & <- & _)|[Hne Hj]]%list_lookup_insert_Some;
      rewrite items_of_thread_app.
    + rewrite (inv_order _ _ _ Hinv i th Hi), Hidle, Htodo. cbn [pc todo item_of option_list app].
      f_equal. rewrite <- app_assoc. f_equal. by rewrite app_assoc, Hit.
    + rewrite (inv_order _ _ _ Hinv j thj Hj), Hother by done. by rewrite app_nil_r.
Qed.

Lemma start_item_ok fresh t it p : start_item fresh t it = Some p ->
  pc_ok p /\ owns p = None /\ item_of p = Some it /\ forall n, names p = Some n -> n = fresh.
Proof.
  unfold start_item. rewrite write_check_eq.
  destruct (write_check_cases (td_mutable t)) as [->|[e ->]]; [|done].
  intros [= <-]. destruct it as [now delta|tag b].
  - split; [split; [|done]; split; [by do 2 eexists|done]|]. by splits.
  - splits. unfold names. simpl. by intros n [= <-].
Qed.

Lemma thread_runs_inv s s' :
  config_inv t0 programs s -> thread_runs s s' -> config_inv t0 programs s'.
Proof.
  intros Hinv Hrun. revert Hinv.
  destruct Hrun as [s1 i th it rest p Hi Hidle Htodo Hstart|s1 i th it rest Hi Hidle Htodo Hstart
              |s1 i th t p Hi Hstep]; intros Hinv.
  - apply start_item_ok in Hstart as (Hpc & Ho & Hit & Hn).
    rewrite <- (app_nil_r (log s1)). eapply start_inv; eauto. by rewrite Hit.
  - eapply start_inv; eauto; try done.
    + simpl. by rewrite decide_True.
    + intros j Hne. simpl. by rewrite decide_False.
  - by eapply run_thread_inv.
Qed.
End preservation.

(** ** Lemmas: the items run alone *)
Lemma end_alone tag committed m c tm : pending_undoable m ->
  exists w, @td_end_transaction DatatypeError tag committed (mkTransactionalDatatype m c false tm)
    = (Ok tt, mkTransactionalDatatype (ended tag committed m) None false false, w).
Proof.
  intros Hu. destruct (end_mutable_ok tag committed (mkTransactionalDatatype m c false tm) Hu)
    as (_ & w & He).
  eexists. unfold td_end_transaction. erewrite M_bind_Ok by exact He.
  unfold mbind, M_bind, modify, tx_mutex_unlock, NoGuardMutex_unlock. by destruct tm.
Qed.

Lemma writable_check m c om tm :
  writable (mkTransactionalDatatype m c om tm) = is_ok (write_check m).
Proof.
  unfold writable, write_check, check_writable. simpl.
  by destruct (DatatypeState_is_read_writable _), (attr_is_readonly _).
Qed.

Lemma single_alone now delta m : pending_undoable m ->
  final (run_item (Single now delta) (mkTransactionalDatatype m None false false))
  = mkTransactionalDatatype (item_run (Single now delta) m) None false false.
Proof.
  intros Hu. destruct (executed_counter now delta m Hu) as (v & m' & He & Hx & Hu').
  destruct (end_alone None true m' (Some (mkTransactionContext 1 None)) false Hu') as [w Hend].
  cbn [item_run]. rewrite He. cbn [is_ok]. unfold run_item, execute_checked.
  assert (Hx1 : forall f, (begin_loop 1 1 default_ctx ≫= f) (mkTransactionalDatatype m None false false)
    = let '(r, s, w) := f (DeferGuard_add_defer_func (DeferEndTransaction None) DeferGuard_new)
          (mkTransactionalDatatype m (Some (mkTransactionContext 1 None)) false false)
      in (r : result DatatypeError ReturnType, s, w)) by done.
  unfold mbind at 1, M_bind at 1. rewrite Hx1. unfold guarded.
  unfold mbind, M_bind, op_mutex_lock, NoGuardMutex_lock, locked.
  cbn [td_op_mutex td_set_op_mutex td_mutable td_tx_ctx td_tx_mutex]. rewrite Hx.
  cbn -[td_end_transaction]. unfold DeferGuard_drop. cbn -[td_end_transaction].
  erewrite M_bind_Ok by reflexivity. cbn -[td_end_transaction].
  erewrite M_bind_Ok by exact Hend. reflexivity.
Qed.

Lemma closure_alone ctx b m : pending_undoable m ->
  let '(ok, m') := body_run b m in
  pending_undoable m' /\
  exists r w, closure ctx b (mkTransactionalDatatype m (Some ctx) false true)
    = (r, mkTransactionalDatatype m' (Some ctx) false true, w) /\
    r = (if ok then Ok tt else Err (TransactionFailed "")).
Proof.
  revert m. induction b as [ok|now delta k IH]; intros m Hu; cbn [body_run closure].
  { split; [done|]. destruct ok; by do 2 eexists. }
  destruct (executed_counter now delta m Hu) as (v & m' & He & Hx & Hu').
  destruct (write_check_cases m) as [Hw|[e Hw]]; rewrite Hw.
  - rewrite He. specialize (IH (Ok (RetCounter v)) m' Hu').
    destruct (body_run _ m') as [ok m2]. destruct IH as (Hu2 & r & w & Hc & Hr).
    split; [done|]. eexists r, _. split; [|done]. erewrite M_bind_Ok; last first.
    { unfold attempt. rewrite (execute_same_ctx 0 1 ctx _ _ (RetCounter v) m'); [reflexivity|done|done| |done].
      by rewrite writable_check, Hw. }
    unfold td_set_mutable. cbn [td_tx_ctx td_op_mutex td_tx_mutex]. rewrite Hc. reflexivity.
  - specialize (IH (Err e) m Hu). destruct (body_run _ m) as [ok m2].
    destruct IH as (Hu2 & r & w & Hc & Hr). split; [done|]. eexists r, _. split; [|done].
    erewrite M_bind_Ok; last first.
    { unfold attempt, execute_local_operation_as_tx. erewrite M_bind_Err; [reflexivity|].
      rewrite write_check_eq. cbn [td_mutable]. by rewrite Hw. }
    cbv beta. rewrite Hc. reflexivity.
Qed.

Lemma transact_alone tag b m : pending_undoable m ->
  final (run_item (Transact tag b) (mkTransactionalDatatype m None false false))
  = mkTransactionalDatatype (item_run (Transact tag b) m) None false false.
Proof.
  intros Hu. set (ctx := TransactionContext_new 2 tag).
  pose proof (closure_alone ctx b m Hu) as Hc. cbn [item_run]. unfold tx_run.
  destruct (body_run b m) as [ok m'] eqn:Hb. destruct Hc as (Hu' & r & w & Hc & Hr).
  destruct (end_alone (Some tag) ok m' (Some ctx) true Hu') as [w' Hend].
  unfold run_item. fold ctx. cbn [do_transaction].
  erewrite M_bind_Ok by (apply begin_idle; done). change (started_ctx 1 ctx) with ctx.
  unfold guarded. erewrite M_bind_Ok by reflexivity.
  unfold mbind, M_bind, td_set_tx_mutex, td_set_tx_ctx.
  cbn [td_mutable td_tx_ctx td_op_mutex td_tx_mutex]. rewrite Hc, Hr. destruct ok; cbn -[td_end_transaction];
    unfold DeferGuard_drop; cbn -[td_end_transaction]; by erewrite M_bind_Ok by exact Hend.
Qed.

Lemma item_run_undoable it m : pending_undoable m -> pending_undoable (item_run it m).
Proof.
  intros Hu. destruct it as [now delta|tag b]; cbn [item_run].
  - destruct (executed_counter now delta m Hu) as (v & m' & -> & _ & Hu').
    by apply (end_mutable_ok None true (mkTransactionalDatatype m' None false false)).
  - unfold tx_run. pose proof (closure_alone default_ctx b m Hu) as Hc.
    destruct (body_run b m) as [ok m']. destruct Hc as [Hu' _].
    by apply (end_mutable_ok (Some tag) ok (mkTransactionalDatatype m' None false false)).
Qed.

(** The serial run by the code of one thread. *)
Lemma serial_run_eq t0 l : idle t0 -> pending_undoable (td_mutable t0) ->
  serial_run l t0 = mkTransactionalDatatype (serial_mutable t0 l) None false false.
Proof.
  intros (Hc & Ho & Ht) Hu. destruct t0 as [m c om tm]; simpl in *; subst.
  unfold serial_run, serial_mutable. cbn [td_mutable]. revert m Hu.
  induction (begun l) as [|it its IH]; intros m Hu; [done|]. cbn [foldl].
  assert (final (run_item it (mkTransactionalDatatype m None false false))
    = mkTransactionalDatatype (item_run it m) None false false) as ->.
  { destruct it; [by apply single_alone|by apply transact_alone]. }
  by apply IH, item_run_undoable.
Qed.

(** ** Lemmas: the mutexes *)
Record mutex_inv (s : Config) : Prop := {
  inv_op : if td_op_mutex (shared s)
    then exists i th, threads s !! i = Some th /\ holds_op (pc th) = true /\
      forall j thj, j <> i -> threads s !! j = Some thj -> holds_op (pc thj) = false
    else forall i th, threads s !! i = Some th -> holds_op (pc th) = false;
  inv_tx : td_tx_mutex (shared s) = true ->
    exists i th, threads s !! i = Some th /\ unlocks_tx (pc th) = true;
}.

Lemma after_op_mutexes c begun r ret : ret_ok c begun None ret ->
  holds_op (after_op c begun r ret) = false /\ unlocks_tx (after_op c begun r ret) = true.
Proof.
  intros [_ Hr]. unfold after_op. destruct begun; [done|]. destruct Hr as (_ & k & Hr). by rewrite Hr.
Qed.

Lemma begin_mutexes fresh c t r t' w :
  @begin_transaction DatatypeError fresh c t = (Ok r, t', w) ->
  td_op_mutex t' = td_op_mutex t /\ td_tx_mutex t' = td_tx_mutex t.
Proof. unfold begin_transaction. by destruct (td_tx_ctx t); intros [= _ <- _]. Qed.

(** How a step changes the mutexes. *)
Definition mutex_effect (t : TransactionalDatatype) (p : Pc) (t' : TransactionalDatatype) (p' : Pc)
    : Prop :=
  match holds_op p, holds_op p' with
  | false, true => td_op_mutex t = false /\ td_op_mutex t' = true
  | true, false => td_op_mutex t' = false
  | _, _ => td_op_mutex t' = td_op_mutex t
  end /\
  (td_tx_mutex t' = true ->
     unlocks_tx p' = true \/ td_tx_mutex t = true /\ unlocks_tx p = false).

Lemma step_mutexes fresh t p t' p' :
  thread_view t p -> (holds_op p = true -> td_op_mutex t = true) ->
  thread_step fresh t p = Some (t', p') -> mutex_effect t p t' p'.
Proof.
  intros [Hp Hu Ho Hn Hd] Hheld Hstep. unfold mutex_effect.
  destruct p as [| |c op ret|c op ret|c op ret|c op ret|c b op ret|c b op ret|c b r ret|c b r ret
                |c b|c b|c b|c b|c b|c [ok|now delta k]|c cm next|c next|next|next];
    cbn [thread_step] in Hstep; try done.
  - destruct (begin_transaction fresh c t) as [[r t1] w] eqn:Hb. destruct r as [r| | |]; try done.
    destruct (begin_mutexes _ _ _ _ _ _ Hb) as [Hom Htm]. cbn [unlocks_tx holds_op].
    destruct (TransactionContext_has_tag c) eqn:Htag.
    + rewrite begin_same in Hb by (apply Ho; simpl; by rewrite Htag).
      injection Hb as <- <- <-. simplify_eq/=. auto.
    + destruct r; simplify_eq/=; rewrite Htm, Hom; auto.
  - unfold op_mutex_lock, NoGuardMutex_lock in Hstep. destruct (td_op_mutex t) eqn:Hom; simplify_eq/=. auto.
  - rewrite Hheld in Hstep by done. simplify_eq/=. auto.
  - destruct Hp as [_ ->]. simplify_eq/=. auto.
  - unfold op_mutex_lock, NoGuardMutex_lock in Hstep. destruct (td_op_mutex t) eqn:Hom; simplify_eq/=. auto.
  - destruct (Mutable_execute_local_operation op (td_mutable t)) as [[r m] w]. simplify_eq/=. auto.
  - rewrite Hheld in Hstep by done. simplify_eq/=. auto.
  - injection Hstep as <- <-. destruct (after_op_mutexes c b r ret Hp) as [-> ->]. simpl. auto.
  - destruct (begin_transaction fresh c t) as [[r t1] w] eqn:Hb. destruct r as [r| | |]; try done.
    destruct (begin_mutexes _ _ _ _ _ _ Hb) as [Hom Htm].
    destruct r; simplify_eq/=; rewrite Htm, Hom; auto.
  - unfold tx_mutex_lock, NoGuardMutex_lock in Hstep. destruct (td_tx_mutex t) eqn:Htm; simplify_eq/=. auto.
  - destruct (td_tx_mutex t) eqn:Htm; simplify_eq/=; rewrite ?Htm; auto.
  - simplify_eq/=. auto.
  - unfold tx_mutex_lock, NoGuardMutex_lock in Hstep. destruct (td_tx_mutex t) eqn:Htm; simplify_eq/=. auto.
  - simplify_eq/=. auto.
  - rewrite write_check_eq in Hstep.
    destruct (write_check_cases (td_mutable t)) as [Hw|[e Hw]]; rewrite Hw in Hstep; simplify_eq/=;
      rewrite ?Hp; auto.
  - destruct (end_mutable_ok (ctx_tag c) cm t Hu) as (_ & w & He). rewrite He in Hstep.
    simplify_eq/=. auto.
  - simplify_eq/=. auto.
  - simpl in Hp. destruct (td_tx_mutex t) eqn:Htm; simplify_eq/=; rewrite ?Htm; auto.
  - simpl in Hp. simplify_eq/=. auto.
Qed.

Lemma run_thread_mutexes t0 programs s i th t' p' entries :
  config_inv t0 programs s -> mutex_inv s -> threads s !! i = Some th ->
  thread_step (next_address s) (shared s) (pc th) = Some (t', p') ->
  mutex_inv (mkConfig t' (<[i := mkThread (todo th) p']> (threads s)) (next_address s + 1) entries).
Proof.
  intros Hinv [Hop Htx] Hi Hstep.
  assert (Hlen : (i < length (threads s))%nat) by by eapply lookup_lt_Some.
  assert (Hheld : holds_op (pc th) = true -> td_op_mutex (shared s) = true).
  { intros Hh. destruct (td_op_mutex (shared s)); [done|]. by rewrite (Hop i th Hi) in Hh. }
  destruct (step_mutexes _ _ _ _ _ (inv_thread_view _ _ _ _ _ Hinv Hi) Hheld Hstep) as [Ho Ht].
  assert (Halone : holds_op (pc th) = true \/ td_op_mutex (shared s) = false ->
    forall j thj, j <> i -> threads s !! j = Some thj -> holds_op (pc thj) = false).
  { intros Hcase j thj Hne Hj. destruct (td_op_mutex (shared s)); [|by eapply Hop].
    destruct Hcase as [Hh|]; [|done]. destruct Hop as (k & thk & Hk & Hhk & Hoth).
    destruct (decide (i = k)) as [->|Hik]; [by eapply Hoth|]. by rewrite (Hoth i th) in Hh. }
  constructor; cbn [shared threads].
  - destruct (holds_op (pc th)) eqn:Hh, (holds_op p') eqn:Hh'.
    + rewrite Ho, Hheld by done. exists i, (mkThread (todo th) p').
      rewrite list_lookup_insert_eq by done. split; [done|]. split; [done|].
      intros j thj Hne. rewrite list_lookup_insert_ne by done. by apply Halone; [left|].
    + rewrite Ho. intros j thj [(<- & <- & _)|[Hne Hj]]%list_lookup_insert_Some; [done|].
      by eapply Halone; [left| |].
    + destruct Ho as [Hfree ->]. exists i, (mkThread (todo th) p').
      rewrite list_lookup_insert_eq by done. split; [done|]. split; [done|].
      intros j thj Hne. rewrite list_lookup_insert_ne by done. by apply Halone; [right|].
    + rewrite Ho. destruct (td_op_mutex (shared s)).
      * destruct Hop as (k & thk & Hk & Hhk & Hoth). assert (i <> k) by congruence.
        exists k, thk. rewrite list_lookup_insert_ne by done. split; [done|]. split; [done|].
        intros j thj Hne [(<- & <- & _)|[_ Hj]]%list_lookup_insert_Some; [done|]. by eapply Hoth.
      * intros j thj [(<- & <- & _)|[_ Hj]]%list_lookup_insert_Some; [done|]. by eapply Hop.
  - intros Hlocked. destruct (Ht Hlocked) as [Hu|[Hold Hnu]].
    + exists i, (mkThread (todo th) p'). by rewrite list_lookup_insert_eq.
    + destruct (Htx Hold) as (k & thk & Hk & Hu). assert (i <> k) by congruence.
      exists k, thk. by rewrite list_lookup_insert_ne.
Qed.

Lemma start_mutexes s i th rest p entries :
  mutex_inv s -> threads s !! i = Some th -> pc th = Idle ->
  holds_op p = false ->
  mutex_inv (mkConfig (shared s) (<[i := mkThread rest p]> (threads s)) (next_address s + 1) entries).
Proof.
  intros [Hop Htx] Hi Hidle Hp. constructor; cbn [shared threads].
  - destruct (td_op_mutex (shared s)).
    + destruct Hop as (k & thk & Hk & Hhk & Hoth).
      assert (i <> k) by (intros ->; simplify_eq; by rewrite Hidle in Hhk).
      exists k, thk. rewrite list_lookup_insert_ne by done. split; [done|]. split; [done|].
      intros j thj Hne [(<- & <- & _)|[_ Hj]]%list_lookup_insert_Some; [done|]. by eapply Hoth.
    + intros j thj [(<- & <- & _)|[_ Hj]]%list_lookup_insert_Some; [done|]. by eapply Hop.
  - intros Hlocked. destruct (Htx Hlocked) as (k & thk & Hk & Hu).
    assert (i <> k) by (intros ->; simplify_eq; by rewrite Hidle in Hu).
    exists k, thk. by rewrite list_lookup_insert_ne.
Qed.

Lemma start_item_holds fresh t it p : start_item fresh t it = Some p -> holds_op p = false.
Proof.
  unfold start_item. rewrite write_check_eq.
  destruct (write_check_cases (td_mutable t)) as [->|[e ->]]; [|done].
  intros [= <-]. by destruct it.
Qed.

Definition reaches (t0 : TransactionalDatatype) (programs : list (list Item)) (s : Config) : Prop :=
  rtc thread_runs (init_config t0 programs) s.

Lemma reaches_inv t0 programs s :
  idle t0 -> pending_undoable (td_mutable t0) -> reaches t0 programs s ->
  config_inv t0 programs s /\ mutex_inv s.
Proof.
  intros (Hc & Ho & Ht) Hu. unfold reaches. revert s.
  refine (rtc_ind_r (R := thread_runs) _ _ _ _); [|intros s s' _ Hstep [Hinv Hm]].
  - assert (Hinit : forall i th, threads (init_config t0 programs) !! i = Some th ->
      exists prog, programs !! i = Some prog /\ th = mkThread prog Idle).
    { intros i th. simpl. rewrite list_lookup_fmap. destruct (programs !! i); [|done].
      intros [= <-]. eauto. }
    split; constructor; cbn [shared next_address log]; try done.
    + intros i th (prog & _ & ->)%Hinit. done.
    + unfold owner_inv. cbn [init_config shared log]. rewrite Hc. split; [|done].
      intros i th (prog & _ & ->)%Hinit. done.
    + intros i th n (prog & _ & ->)%Hinit. done.
    + intros i j th thj n (prog & _ & ->)%Hinit. done.
    + intros i th (prog & Hp & ->)%Hinit. done.
    + simpl. rewrite Ho. intros i th (prog & _ & ->)%Hinit. done.
    + simpl. by rewrite Ht.
  - split; [by eapply thread_runs_inv|].
    destruct Hstep as [s i th it rest p Hi Hidle _ Hstart|s i th it rest Hi Hidle _ _|s i th t p Hi Hs].
    + eapply start_mutexes; eauto using start_item_holds.
    + by eapply start_mutexes.
    + by eapply run_thread_mutexes.
Qed.

(** ** Properties *)

(** When a thread cannot step. *)
Lemma thread_blocked fresh t p : thread_view t p -> thread_step fresh t p = None ->
  p = Idle \/ (td_op_mutex t = true /\ holds_op p = false) \/
  (td_tx_mutex t = true /\ unlocks_tx p = false).
Proof.
  intros [Hp Hu Ho Hn Hd] Hstep.
  assert (Hbegin : forall c, exists r t' w,
    @begin_transaction DatatypeError fresh c t = (Ok r, t', w)).
  { intros c. unfold begin_transaction. destruct (td_tx_ctx t); eauto. }
  destruct p; cbn [thread_step] in Hstep; try done; auto.
  - destruct (Hbegin c) as (r & t' & w & Hb). rewrite Hb in Hstep. by destruct r.
  - unfold op_mutex_lock, NoGuardMutex_lock in Hstep. destruct (td_op_mutex t) eqn:Hom; [auto|done].
  - unfold op_mutex_lock, NoGuardMutex_lock in Hstep. destruct (td_op_mutex t) eqn:Hom; [auto|done].
  - by destruct (Mutable_execute_local_operation op (td_mutable t)) as [[r m] w].
  - destruct (Hbegin c) as (r & t' & w & Hb). rewrite Hb in Hstep. by destruct r.
  - unfold tx_mutex_lock, NoGuardMutex_lock in Hstep. destruct (td_tx_mutex t) eqn:Htm; [auto|done].
  - unfold tx_mutex_lock, NoGuardMutex_lock in Hstep. destruct (td_tx_mutex t) eqn:Htm; [auto|done].
  - destruct b as [ok|now delta k]; [done|]. rewrite write_check_eq in Hstep.
    by destruct (write_check_cases (td_mutable t)) as [Hw|[e Hw]]; rewrite Hw in Hstep.
  - by destruct (end_mutable (ctx_tag c) committed t) as [[[] ?] ?].
Qed.

Lemma step_runs s i th t p : threads s !! i = Some th ->
  thread_step (next_address s) (shared s) (pc th) = Some (t, p) -> exists s', thread_runs s s'.
Proof. intros Hi Hs. eexists. by eapply run_thread. Qed.

Lemma idle_runs s i th : threads s !! i = Some th -> pc th = Idle -> todo th <> [] ->
  exists s', thread_runs s s'.
Proof.
  intros Hi Hidle Htodo. destruct (todo th) as [|it rest] eqn:Ht; [done|].
  destruct (start_item (next_address s) (shared s) it) eqn:Hs; eexists.
  - by eapply run_start.
  - by eapply run_refused.
Qed.

Definition thread_done (th : Thread) : bool :=
  match pc th, todo th with Idle, [] => true | _, _ => false end.

(** A thread that does not hold back the others can run when nobody holds
    [op_mutex], and the holder of [op_mutex] can always run. *)
Lemma some_thread_runs t0 programs s i th :
  config_inv t0 programs s -> mutex_inv s -> threads s !! i = Some th -> pc th <> Idle ->
  exists s', thread_runs s s'.
Proof.
  intros Hinv [Hop Htx] Hi Hbusy.
  assert (Hrun : forall k thk, threads s !! k = Some thk -> pc thk <> Idle ->
    (td_op_mutex (shared s) = true -> holds_op (pc thk) = true) ->
    (td_tx_mutex (shared s) = true -> unlocks_tx (pc thk) = true) -> exists s', thread_runs s s').
  { intros k thk Hk Hb Ho Ht.
    destruct (thread_step (next_address s) (shared s) (pc thk)) as [[t p]|] eqn:Hs;
      [by eapply (step_runs s k thk)|].
    destruct (thread_blocked _ _ _ (inv_thread_view _ _ _ _ _ Hinv Hk) Hs) as [?|[[H1 H2]|[H1 H2]]];
      [done|rewrite Ho in H2 by done; done|rewrite Ht in H2 by done; done]. }
  destruct (td_op_mutex (shared s)) eqn:Hom.
  - destruct Hop as (k & thk & Hk & Hh & _).
    destruct (thread_step (next_address s) (shared s) (pc thk)) as [[t p]|] eqn:Hs;
      [by eapply (step_runs s k thk)|].
    exfalso. destruct (pc thk); try done; cbn [thread_step] in Hs.
    by destruct (Mutable_execute_local_operation op (td_mutable (shared s))) as [[r m] w].
  - destruct (td_tx_mutex (shared s)) eqn:Htm; [|by eapply Hrun].
    destruct (Htx eq_refl) as (k & thk & Hk & Hu). apply (Hrun k thk); [done| |done|done].
    intros Heq. by rewrite Heq in Hu.
Qed.

(** C11.  Threads that share a datatype behave as if their operations and
    transactions ran one after the other, by the code of one thread, in the order
    in which they began: outside transactions the datatype is the one of that
    serial run.  The order contains the items of each thread, complete and in
    program order, up to the one that it is waiting to begin. *)
Theorem threads_are_serializable t0 programs s :
  idle t0 -> pending_undoable (td_mutable t0) -> reaches t0 programs s ->
  (forall i th, threads s !! i = Some th ->
     programs !! i = Some (items_of_thread i (log s) ++ option_list (item_of (pc th)) ++ todo th)) /\
  (td_tx_ctx (shared s) = None -> td_mutable (shared s) = td_mutable (serial_run (log s) t0)) /\
  ((forall i th, threads s !! i = Some th -> pc th = Idle) ->
     shared s = serial_run (log s) t0).
Proof.
  intros Hidle Hu Hr. destruct (reaches_inv t0 programs s Hidle Hu Hr) as [Hinv [Hop Htx]].
  pose proof (inv_owner _ _ _ Hinv) as Ho. unfold owner_inv in Ho.
  rewrite serial_run_eq by done. cbn [td_mutable].
  split; [apply Hinv|]. split.
  - intros Hc. rewrite Hc in Ho. apply Ho.
  - intros Hdone. destruct (shared s) as [m c om tm]; cbn in *.
    destruct c as [c|].
    { destruct Ho as (i & th & Hi & Hown & _). by rewrite (Hdone i th Hi) in Hown. }
    destruct Ho as [_ ->]. destruct om.
    { destruct Hop as (i & th & Hi & Hh & _). by rewrite (Hdone i th Hi) in Hh. }
    destruct tm; [|done]. destruct (Htx eq_refl) as (i & th & Hi & Hh).
    by rewrite (Hdone i th Hi) in Hh.
Qed.

(** C12.  Threads exclude each other and never deadlock: at most one is inside a
    transaction and at most one holds [op_mutex], exactly when it is locked; none
    hits the [unreachable!] of [do_transaction]; and as long as a thread has work
    left, some thread can run. *)
Theorem threads_exclude_and_progress t0 programs s :
  idle t0 -> pending_undoable (td_mutable t0) -> reaches t0 programs s ->
  (forall i j th thj c c', threads s !! i = Some th -> threads s !! j = Some thj ->
     owns (pc th) = Some c -> owns (pc thj) = Some c' -> i = j) /\
  (forall i j th thj, threads s !! i = Some th -> threads s !! j = Some thj ->
     holds_op (pc th) = true -> holds_op (pc thj) = true ->
     i = j /\ td_op_mutex (shared s) = true) /\
  (forall i th, threads s !! i = Some th -> pc th <> Panicked) /\
  ((forall i th, threads s !! i = Some th -> pc th = Idle /\ todo th = []) \/
   exists s', thread_runs s s').
Proof.
  intros Hidle Hu Hr. destruct (reaches_inv t0 programs s Hidle Hu Hr) as [Hinv Hm].
  split_and!.
  - intros i j th thj c c' Hi Hj Ho Hoj. destruct (decide (j = i)) as [->|Hne]; [done|].
    destruct (owner_unique t0 s i th c (inv_owner _ _ _ Hinv) Hi Ho) as (_ & _ & Hoth).
    by rewrite (Hoth j thj) in Hoj.
  - intros i j th thj Hi Hj Hh Hhj. pose proof (inv_op _ Hm) as Hop.
    destruct (td_op_mutex (shared s)); [|by rewrite (Hop i th) in Hh].
    destruct Hop as (k & thk & Hk & _ & Hoth). split; [|done].
    destruct (decide (i = k)) as [->|Hik]; [|by rewrite (Hoth i th) in Hh].
    destruct (decide (j = k)) as [->|Hjk]; [done|]. by rewrite (Hoth j thj) in Hhj.
  - intros i th Hi Heq. pose proof (inv_pc _ _ _ Hinv i th Hi) as Hp. by rewrite Heq in Hp.
  - destruct (decide (Forall (fun th => thread_done th = true) (threads s))) as [Hall|Hsome].
    + left. intros i th Hi. rewrite Forall_lookup in Hall. specialize (Hall i th Hi).
      unfold thread_done in Hall. by destruct (pc th), (todo th).
    + right. apply not_Forall_Exists in Hsome; [|intros ?; apply _].
      apply Exists_exists in Hsome as (th & [i Hi]%list_elem_of_lookup & Hnd).
      unfold thread_done in Hnd. destruct (pc th) eqn:Hpc.
      { apply (idle_runs s i th); [done..|].
        intros Htd. apply Hnd. by rewrite Hpc, Htd. }
      all: by apply (some_thread_runs t0 programs s i th); [..|rewrite Hpc].
Qed.

(** ** Schedules: executable runs *)
Definition sched_step (s : Config) (i : nat) : option Config :=
  th ← threads s !! i;
  match pc th, todo th with
  | Idle, [] => None
  | Idle, it :: rest =>
      Some (match start_item (next_address s) (shared s) it with
            | Some p => mkConfig (shared s) (<[i := mkThread rest p]> (threads s))
                          (next_address s + 1) (log s)
            | None => mkConfig (shared s) (<[i := mkThread rest Idle]> (threads s))
                        (next_address s + 1) (log s ++ [Refused i it])
            end)
  | _, _ =>
      '(t, p) ← thread_step (next_address s) (shared s) (pc th);
      Some (mkConfig t (<[i := mkThread (todo th) p]> (threads s)) (next_address s + 1)
              (log s ++ new_entries i (shared s) (pc th) t))
  end.

Fixpoint run_schedule (s : Config) (l : list nat) : option Config :=
  match l with
  | [] => Some s
  | i :: l => s ← sched_step s i; run_schedule s l
  end.

Lemma sched_step_runs s i s' : sched_step s i = Some s' -> thread_runs s s'.
Proof.
  unfold sched_step. intros (th & Hi & Hs)%bind_Some.
  assert (Hthread : forall x, thread_step (next_address s) (shared s) (pc th) = x ->
    ('(t, p) ← x; Some (mkConfig t (<[i := mkThread (todo th) p]> (threads s)) (next_address s + 1)
       (log s ++ new_entries i (shared s) (pc th) t))) = Some s' -> thread_runs s s').
  { intros x Hx ([t p] & -> & [= <-])%bind_Some. by apply run_thread. }
  destruct (pc th) eqn:Hpc; try (eapply Hthread; [reflexivity|exact Hs]).
  destruct (todo th) as [|it rest] eqn:Ht; [done|]. injection Hs as <-.
  destruct (start_item _ _ it) eqn:Hst; [by eapply run_start|by eapply run_refused].
Qed.

Lemma run_schedule_reaches t0 programs l s' :
  run_schedule (init_config t0 programs) l = Some s' -> reaches t0 programs s'.
Proof.
  unfold reaches. generalize (init_config t0 programs) as s. induction l as [|i l IH]; intros s Hs.
  - injection Hs as <-. apply rtc_refl.
  - apply bind_Some in Hs as (s1 & H1 & H2). eapply rtc_l; [by eapply sched_step_runs|by apply IH].
Qed.

(** One thread increases the counter, the other runs a transaction that undoes
    itself when the counter is not the one that it expects. *)
Definition example_programs : list (list Item) :=
  [[Single 0 5];
   [Transact "t" (Perform 0 1 (fun r => Return (bool_decide (r = Ok (RetCounter 6)))))]].

(** The first thread up to its [is_locked], the second up to its closure. *)
Definition steal_schedule : list nat := replicate 8 0%nat ++ replicate 3 1%nat.
(** Then either of them reads [is_locked] first and releases. *)
Definition stolen_schedule : list nat := steal_schedule ++ replicate 2 0%nat.
Definition twice_schedule : list nat := steal_schedule ++ [0%nat] ++ replicate 11 1%nat.

Lemma example_undoable : pending_undoable (td_mutable example_td).
Proof. by intros ?. Qed.

Lemma example_idle : idle example_td.
Proof. done. Qed.


Lemma threads_are_serializable_witness :
  exists s, reaches example_td example_programs s /\
    Counter_get_value (serial_run (log s) example_td) = 6 /\ shared s = serial_run (log s) example_td.
Proof.
  destruct (run_schedule (init_config example_td example_programs) (twice_schedule ++ [0%nat]))
    as [s|] eqn:Hs; [|by vm_compute in Hs].
  pose proof (run_schedule_reaches _ _ _ _ Hs) as Hr. exists s. split; [exact Hr|].
  destruct (threads_are_serializable example_td example_programs s example_idle example_undoable Hr)
    as (_ & _ & Hend).
  assert (Hidle : forall i th, threads s !! i = Some th -> pc th = Idle).
  { vm_compute in Hs. injection Hs as <-. intros [|[|i]] th [= <-]; reflexivity. }
  split; [|exact (Hend Hidle)]. rewrite <- (Hend Hidle).
  vm_compute in Hs. injection Hs as <-. reflexivity.
Defined.

Lemma threads_exclude_and_progress_witness :
  exists s s', reaches example_td example_programs s /\ thread_runs s s' /\
    ((fun th => bool_decide (owns (pc th) = None)) <$> threads s) = [true; false].
Proof.
  destruct (run_schedule (init_config example_td example_programs) steal_schedule)
    as [s|] eqn:Hs; [|by vm_compute in Hs].
  pose proof (run_schedule_reaches _ _ _ _ Hs) as Hr. exists s.
  destruct (threads_exclude_and_progress example_td example_programs s example_idle example_undoable Hr)
    as (_ & _ & _ & [Hdone|[s' Hs']]).
  - exfalso. vm_compute in Hs. injection Hs as <-. by destruct (Hdone 0%nat _ eq_refl) as [? _].
  - exists s'. split; [exact Hr|]. split; [exact Hs'|]. vm_compute in Hs. by injection Hs as <-.
Defined.
