(* ===== verification/ThreadConformance.v ===== *)
(** * The repository's tests with several threads
    ([src/datatypes/transactional.rs], [src/datatypes/counter.rs])

    The tests that spawn threads on one datatype, as threads of [Concurrency] that
    also push to the vector that the test shares.  A push is a step of its own:
    it is outside every lock of the datatype. *)

From S2P Require Import Prelude Types Errors Operations Crdts PushBuffer Pack Handler Mutable Transactional Concurrency.

(** ** [check_negatives_contiguous] *)
Fixpoint check_negatives (in_block finished : bool) (nums : list Z) : bool :=
  match nums with
  | [] => true
  | n :: nums =>
      if n <? 0 then if finished then false else check_negatives true finished nums
      else if in_block then check_negatives false true nums
      else check_negatives in_block finished nums
  end.

Definition check_negatives_contiguous (nums : list Z) : bool := check_negatives false false nums.

(** No negative number after a block that has ended. *)
Lemma check_negatives_finished nums :
  check_negatives false true nums = true <-> Forall (fun n => 0 <= n) nums.
Proof.
  induction nums as [|n nums IH]; cbn; [done|]. rewrite Forall_cons.
  destruct (Z.ltb_spec n 0); [split; [done|lia]|]. rewrite IH. naive_solver.
Qed.

Lemma check_negatives_inside nums :
  check_negatives true false nums = true <->
  exists neg post, nums = neg ++ post /\ Forall (fun n => n < 0) neg /\ Forall (fun n => 0 <= n) post.
Proof.
  induction nums as [|n nums IH]; cbn; [by split; [exists [], []|]|].
  destruct (Z.ltb_spec n 0) as [Hn|Hn].
  - rewrite IH. split.
    + intros (neg & post & -> & ? & ?). exists (n :: neg), post. by repeat constructor.
    + intros ([|m neg] & post & Heq & Hneg & Hpost); simplify_eq/=.
      * exists [], nums. subst. apply Forall_cons in Hpost. lia.
      * exists neg, post. by apply Forall_cons in Hneg as [_ ?].
  - rewrite check_negatives_finished. split.
    + intros H. exists [], (n :: nums). by repeat constructor.
    + intros ([|m neg] & post & Heq & Hneg & Hpost); simplify_eq/=.
      * subst. by apply Forall_cons in Hpost as [_ ?].
      * apply Forall_cons in Hneg. lia.
Qed.

(** It accepts exactly the vectors whose negative numbers are one block. *)
Theorem check_negatives_contiguous_spec nums :
  check_negatives_contiguous nums = true <->
  exists pre neg post, nums = pre ++ neg ++ post /\ Forall (fun n => 0 <= n) pre /\
    Forall (fun n => n < 0) neg /\ Forall (fun n => 0 <= n) post.
Proof.
  unfold check_negatives_contiguous.
  induction nums as [|n nums IH]; cbn; [by split; [exists [], [], []|]|].
  destruct (Z.ltb_spec n 0) as [Hn|Hn].
  - rewrite check_negatives_inside. split.
    + intros (neg & post & -> & ? & ?). exists [], (n :: neg), post. by repeat constructor.
    + intros (pre & neg & post & Heq & Hpre & Hneg & Hpost).
      destruct pre as [|m pre]; simplify_eq/=; [|apply Forall_cons in Hpre; lia].
      destruct neg as [|m neg]; simplify_eq/=; [subst; apply Forall_cons in Hpost; lia|].
      exists neg, post. by apply Forall_cons in Hneg as [_ ?].
  - rewrite IH. split.
    + intros (pre & neg & post & -> & ? & ? & ?). exists (n :: pre), neg, post. by repeat constructor.
    + intros (pre & neg & post & Heq & Hpre & Hneg & Hpost).
      destruct pre as [|m pre]; simplify_eq/=.
      * destruct neg as [|m neg]; simplify_eq/=; [|apply Forall_cons in Hneg; lia].
        exists [], [], nums. subst. by apply Forall_cons in Hpost as [_ ?].
      * exists pre, neg, post. by apply Forall_cons in Hpre as [_ ?].
Qed.

(** ** can_execute_the_same_tx_ctx_continuously_with_none_tx_ctx

    Threads 0 to 4 increase the counter and push [i + 1]; thread 5 increases it
    five times in a transaction and pushes [-(i + 1)] after each. *)
Fixpoint increases (n : nat) : Body :=
  match n with
  | O => Return true
  | S n => Perform 0 1 (fun r => if is_ok r then increases n else Return false)
  end.

Definition test_programs : list (list Item) :=
  replicate 5 [Single 0 1] ++ [[Transact "with_tx" (increases 5)]].

(** The shared vector, and what each thread is about to push. *)
Record TestRun : Type := mkTestRun {
  tr_config : Config;
  tr_pending : gmap nat Z;
  tr_executions : list Z;
}.

Definition test_start (td : TransactionalDatatype) : TestRun :=
  mkTestRun (init_config td test_programs) ∅ [].

(** What thread [i] pushes after a step from [p] to [p']: a single operation has
    returned, or the [n]-th of the transaction has. *)
Fixpoint remaining (n : nat) (b : Body) : nat :=
  match n, b with
  | S n, Perform _ _ k => S (remaining n (k (Ok RetNone)))
  | _, _ => O
  end.

Definition pushes (i : nat) (p p' : Pc) : option Z :=
  match p, p' with
  | Idle, _ | _, Panicked => None
  | _, Idle => if (i <? 5)%nat then Some (Z.of_nat i + 1) else None
  | TxLock _ _, _ => None
  | TxBody _ _, _ => None
  | _, TxBody _ b => Some (- Z.of_nat (5 - remaining 5 b))
  | _, _ => None
  end.

(** A step of thread [i]: its pending push, or else its next step. *)
Definition test_step (s : TestRun) (i : nat) : option TestRun :=
  match tr_pending s !! i with
  | Some v => Some (mkTestRun (tr_config s) (delete i (tr_pending s)) (tr_executions s ++ [v]))
  | None =>
      c ← sched_step (tr_config s) i;
      p ← pc <$> threads (tr_config s) !! i;
      p' ← pc <$> threads c !! i;
      Some (mkTestRun c (match pushes i p p' with
                         | Some v => <[i := v]> (tr_pending s)
                         | None => tr_pending s
                         end) (tr_executions s))
  end.

Fixpoint test_run (s : TestRun) (l : list nat) : option TestRun :=
  match l with
  | [] => Some s
  | i :: l => s ← test_step s i; test_run s l
  end.

(** Every run of the test is a run of the threads. *)
Lemma test_run_reaches td l : forall s s',
  rtc thread_runs (init_config td test_programs) (tr_config s) -> test_run s l = Some s' ->
  reaches td test_programs (tr_config s').
Proof.
  induction l as [|i l IH]; intros s s' Hr; cbn [test_run]; [by intros [= <-]|].
  intros (s1 & H1 & H2)%bind_Some. eapply IH; [|exact H2]. unfold test_step in H1.
  destruct (tr_pending s !! i); [by injection H1 as <-|].
  destruct (sched_step (tr_config s) i) as [c|] eqn:Hc; [|done]. cbn [mbind option_bind] in H1.
  apply bind_Some in H1 as (p & _ & H1). apply bind_Some in H1 as (p' & _ & [= <-]).
  cbn. eapply rtc_r; [exact Hr|]. by eapply sched_step_runs.
Qed.

(** Every thread has returned. *)
Definition test_done (s : TestRun) : bool :=
  forallb thread_done (threads (tr_config s)) && bool_decide (tr_pending s = ∅).

(** One thread after the other. *)
Definition serial_schedule : list nat :=
  concat (replicate 10 <$> [0; 1; 2; 3; 4]%nat) ++ replicate 43 5%nat.

(** Thread 0 has returned from [increase] but not pushed when thread 5 has run the
    first operation of its transaction. *)
Definition racy_schedule : list nat :=
  replicate 9 0%nat ++ replicate 10 5%nat ++ [0%nat] ++ replicate 33 5%nat ++
  concat (replicate 10 <$> [1; 2; 3; 4]%nat).

(** The test asserts more than the transaction guarantees: the operations of the
    transaction are contiguous in both runs, but what the threads pushed is not,
    since [increase] has released its locks before the push. *)
Theorem contiguity_test_is_racy :
  (exists s, test_run (test_start example_td) serial_schedule = Some s /\ test_done s = true /\
     Counter_get_value (shared (tr_config s)) = 10 /\
     check_negatives_contiguous (tr_executions s) = true) /\
  (exists s, test_run (test_start example_td) racy_schedule = Some s /\ test_done s = true /\
     Counter_get_value (shared (tr_config s)) = 10 /\
     begun (log (tr_config s)) = Single 0 1 :: Transact "with_tx" (increases 5) :: replicate 4 (Single 0 1) /\
     tr_executions s = [-1; 1; -2; -3; -4; -5; 2; 3; 4; 5] /\
     check_negatives_contiguous (tr_executions s) = false).
Proof.
  split.
  - destruct (test_run (test_start example_td) serial_schedule) as [s|] eqn:Hs; [|by vm_compute in Hs].
    exists s. vm_compute in Hs. injection Hs as <-. by vm_compute.
  - destruct (test_run (test_start example_td) racy_schedule) as [s|] eqn:Hs; [|by vm_compute in Hs].
    exists s. vm_compute in Hs. injection Hs as <-. by vm_compute.
Qed.

(** ** utils/no_guard_mutex.rs: can_lock_and_unlock_in_threads

    Each of [n] tasks locks, sleeps and spawns a task that counts and unlocks. *)
Inductive Task : Type := Locking | Asleep | Counting | Unlocking | Finished.

Record MutexTest : Type := mkMutexTest { mt_locked : bool; mt_cnt : Z; mt_tasks : list Task }.

Definition mutex_test_start (n : nat) : MutexTest := mkMutexTest false 0 (replicate n Locking).

Definition mutex_test_step (s : MutexTest) (i : nat) : option MutexTest :=
  t ← mt_tasks s !! i;
  let moved locked cnt t := Some (mkMutexTest locked cnt (<[i := t]> (mt_tasks s))) in
  match t with
  | Locking => if mt_locked s then None else moved true (mt_cnt s) Asleep
  | Asleep => moved (mt_locked s) (mt_cnt s) Counting
  | Counting => moved (mt_locked s) (mt_cnt s + 1) Unlocking
  | Unlocking => moved (if mt_locked s then false else mt_locked s) (mt_cnt s) Finished
  | Finished => None
  end.

Fixpoint mutex_test_run (s : MutexTest) (l : list nat) : option MutexTest :=
  match l with
  | [] => Some s
  | i :: l => s ← mutex_test_step s i; mutex_test_run s l
  end.

(** Steps left, being inside the lock, having counted. *)
Definition steps_left (t : Task) : Z :=
  match t with Locking => 4 | Asleep => 3 | Counting => 2 | Unlocking => 1 | Finished => 0 end.
Definition inside (t : Task) : Z :=
  match t with Asleep | Counting | Unlocking => 1 | _ => 0 end.
Definition counted (t : Task) : Z :=
  match t with Unlocking | Finished => 1 | _ => 0 end.

Record mutex_test_inv (s : MutexTest) : Prop := {
  mti_lock : sumZ inside (mt_tasks s) = if mt_locked s then 1 else 0;
  mti_count : sumZ counted (mt_tasks s) = mt_cnt s;
}.

Lemma inside_nonneg l : 0 <= sumZ inside l.
Proof. apply sumZ_nonneg. intros [] _; cbn; lia. Qed.

Lemma mutex_test_step_inv s i s' : mutex_test_inv s -> mutex_test_step s i = Some s' ->
  mutex_test_inv s' /\ length (mt_tasks s') = length (mt_tasks s) /\
  sumZ steps_left (mt_tasks s) = sumZ steps_left (mt_tasks s') + 1.
Proof.
  intros [Hl Hc] Hs. unfold mutex_test_step in Hs. apply bind_Some in Hs as (t & Ht & Hs).
  destruct t; [destruct (mt_locked s) eqn:Hlock; [done|]|destruct (mt_locked s) eqn:Hlock..|done];
    injection Hs as <-; cbn [mt_locked mt_cnt mt_tasks];
    (split; [constructor; cbn [mt_locked mt_cnt mt_tasks]|split; [apply length_insert|]]);
    rewrite (sumZ_insert _ _ _ _ _ Ht), ?Hl, ?Hc; cbn; try lia.
  all: pose proof (sumZ_member_le inside _ (mt_tasks s) ltac:(by intros [] _; cbn; lia)
    (list_elem_of_lookup_2 _ _ _ Ht)); cbn in *; lia.
Qed.

Lemma mutex_test_run_inv l : forall s s', mutex_test_inv s -> mutex_test_run s l = Some s' ->
  mutex_test_inv s' /\ length (mt_tasks s') = length (mt_tasks s) /\
  sumZ steps_left (mt_tasks s) = sumZ steps_left (mt_tasks s') + Z.of_nat (length l).
Proof.
  induction l as [|i l IH]; intros s s' Hinv; cbn [mutex_test_run].
  - intros [= <-]. split; [done|]. split; [done|]. cbn. lia.
  - intros (s1 & H1 & H2)%bind_Some.
    destruct (mutex_test_step_inv s i s1 Hinv H1) as (Hinv1 & Hlen1 & Hw1).
    destruct (IH s1 s' Hinv1 H2) as (Hinv' & Hlen & Hw). split; [done|]. split; [congruence|].
    cbn [length]. lia.
Qed.

(** Every run of the test is short, and one that cannot go on has counted every
    task: each lock is handed on by a thread that does not hold it. *)
Theorem mutex_test_counts_all n l s :
  mutex_test_run (mutex_test_start n) l = Some s ->
  Z.of_nat (length l) <= 4 * Z.of_nat n /\
  ((forall i, mutex_test_step s i = None) -> mt_cnt s = Z.of_nat n /\ mt_locked s = false).
Proof.
  intros Hrun.
  destruct (mutex_test_run_inv l (mutex_test_start n) s) as (Hinv & Hlen & Hw); [|exact Hrun|].
  { constructor; cbn; by rewrite sumZ_replicate; cbn; lia. }
  cbn in Hw, Hlen. rewrite sumZ_replicate in Hw. rewrite length_replicate in Hlen. cbn in Hw.
  assert (Hnn : 0 <= sumZ steps_left (mt_tasks s)) by (apply sumZ_nonneg; intros [] _; cbn; lia).
  split; [lia|]. intros Hstuck. destruct Hinv as [Hl Hc].
  assert (Hfin : mt_locked s = true -> False).
  { intros Hlock. rewrite Hlock in Hl.
    destruct (decide (Exists (fun t => inside t = 1) (mt_tasks s))) as [Hsome|Hno].
    - apply Exists_exists in Hsome as (t & Hin & Ht). apply list_elem_of_lookup in Hin as [i Hi]. specialize (Hstuck i).
      unfold mutex_test_step in Hstuck. rewrite Hi in Hstuck. by destruct t.
    - rewrite sumZ_zero in Hl; [done|]. intros t Hin. destruct (decide (inside t = 1)); [|by destruct t].
      exfalso. apply Hno, Exists_exists. by exists t. }
  destruct (mt_locked s) eqn:Hlock; [by destruct Hfin|]. split; [|done]. rewrite <- Hc, <- Hlen.
  rewrite (sumZ_ext counted (fun _ => 1)).
  - clear. induction (mt_tasks s) as [|t l IH]; [done|]. rewrite sumZ_cons, IH. cbn [length]. lia.
  - intros t [i Hi]%list_elem_of_lookup. specialize (Hstuck i). unfold mutex_test_step in Hstuck.
    rewrite Hi, Hlock in Hstuck. by destruct t.
Qed.
