(* ===== verification/Spec.v ===== *)
(** * The replicated counter as one log

    What the replicas and the server promise together, without packs, checkpoints
    or phases: a log of increments, each with its author, and for each live
    replica how much of the log it has seen and the increments it has committed.
    The refinement theorem states that every step of [System] is a step of this
    machine, or none, and that the counters are the values it gives. *)

From Stdlib Require Import Strings.Byte Sorting.Sorted.
From S2P Require Import Prelude Types Errors Operations Crdts PushBuffer Pack Handler Mutable Transactional PullHandler Server Connectivity Wired Replica System Runs.

(** ** The abstract machine *)
Record AReplica : Type := mkAReplica {
  ar_id : Cuid;
  ar_seen : nat;
  ar_local : list Z;
}.

Record ASystem : Type := mkASystem {
  al_log : list (Cuid * Z);
  al_replicas : gmap Z AReplica;
}.

(** The increments of one author in a log. *)
Definition authored (c : Cuid) (l : list (Cuid * Z)) : list (Cuid * Z) :=
  filter (fun e => e.1 = c) l.

(** What a replica's counter is: the seen log, then its own increments that are
    not in it. *)
Definition ar_value (a : ASystem) (r : AReplica) : Z :=
  let seen := take (ar_seen r) (al_log a) in
  i64_wrap (sumZ snd seen + sumZ id (drop (length (authored (ar_id r) seen)) (ar_local r))).

Inductive astep : ASystem -> ASystem -> Prop :=
(** A client with a new identifier makes a replica. *)
| a_join a k c :
    al_replicas a !! k = None -> authored c (al_log a) = [] ->
    astep a (mkASystem (al_log a) (<[k := mkAReplica c 0 []]> (al_replicas a)))
(** A replica commits an increment. *)
| a_commit a k r d :
    al_replicas a !! k = Some r ->
    astep a (mkASystem (al_log a)
      (<[k := mkAReplica (ar_id r) (ar_seen r) (ar_local r ++ [d])]> (al_replicas a)))
(** The next increments of a replica that are not in the log yet are appended. *)
| a_push a k r n :
    al_replicas a !! k = Some r ->
    astep a (mkASystem
      (al_log a ++ (pair (ar_id r) <$>
         take n (drop (length (authored (ar_id r) (al_log a))) (ar_local r))))
      (al_replicas a))
(** A replica sees more of the log. *)
| a_pull a k r n :
    al_replicas a !! k = Some r -> (ar_seen r <= n <= length (al_log a))%nat ->
    astep a (mkASystem (al_log a)
      (<[k := mkAReplica (ar_id r) n (ar_local r)]> (al_replicas a)))
(** A replica that is not in the log starts from a prefix of it. *)
| a_subscribe a k r n :
    al_replicas a !! k = Some r -> ar_seen r = 0%nat -> authored (ar_id r) (al_log a) = [] ->
    (n <= length (al_log a))%nat ->
    astep a (mkASystem (al_log a) (<[k := mkAReplica (ar_id r) n []]> (al_replicas a)))
(** A replica is disabled or unsubscribed; its increments in the log stay. *)
| a_leave a k :
    astep a (mkASystem (al_log a) (delete k (al_replicas a)))
(** The log is forgotten with the last replica. *)
| a_forget a :
    al_replicas a = ∅ -> astep a (mkASystem [] ∅).

(** ** The abstraction *)
Definition entry (tx : Transaction) : Cuid * Z := (tx_cuid tx, tx_delta tx).

(** A replica takes part while it is live and the server knows it. *)
Definition abs_replica (sv : LocalDatatypeServer) (m : MutableDatatype) : option AReplica :=
  if live (m_state m) && bool_decide (wired_map sv !! cuid_of m <> None)
  then Some (mkAReplica (cuid_of m) (Z.to_nat (cp_sseq (m_checkpoint m))) (tx_delta <$> buffered m))
  else None.

Definition abs_net (so : option LocalDatatypeServer) (cs : gmap Z MutableDatatype) : ASystem :=
  match so with
  | Some sv => mkASystem (entry <$> history sv) (omap (abs_replica sv) cs)
  | None => mkASystem [] ∅
  end.

Definition abs_system (rid : string) (s : System) : ASystem :=
  abs_net (server_of rid (w_conn (s_world s))) (cores s).

(** ** Lemmas *)
Lemma authored_own c h : authored c (entry <$> h) = entry <$> own c h.
Proof.
  unfold authored, own. induction h as [|tx h IH]; [done|]. cbn [fmap list_fmap].
  rewrite !filter_cons. simpl. case_decide; simpl; by rewrite IH.
Qed.

Lemma sum_entries h : sumZ snd (entry <$> h) = sumZ tx_delta h.
Proof. by rewrite sumZ_fmap. Qed.

Lemma entries_of c h : Forall (fun tx => tx_cuid tx = c) h -> entry <$> h = pair c <$> (tx_delta <$> h).
Proof. induction 1 as [|tx h <- _ IH]; [done|]. cbn [fmap list_fmap]. by rewrite IH. Qed.

Lemma keys_deltas (h k : list Transaction) : key <$> h = key <$> k -> tx_delta <$> h = tx_delta <$> k.
Proof.
  intros H. apply (f_equal (fmap snd)) in H. by rewrite <- !list_fmap_compose in H.
Qed.

Lemma abs_in sv m : live (m_state m) = true -> wired_map sv !! cuid_of m <> None ->
  abs_replica sv m =
    Some (mkAReplica (cuid_of m) (Z.to_nat (cp_sseq (m_checkpoint m))) (tx_delta <$> buffered m)).
Proof. intros Hl Hw. unfold abs_replica. by rewrite Hl, bool_decide_true. Qed.

Lemma abs_out sv m : live (m_state m) = false \/ wired_map sv !! cuid_of m = None -> abs_replica sv m = None.
Proof.
  unfold abs_replica. intros [->|Hw]; [done|]. rewrite bool_decide_false by tauto. by rewrite andb_false_r.
Qed.

Lemma omap_agree {A B} (f g : A -> option B) (cs : gmap Z A) :
  (forall k x, cs !! k = Some x -> f x = g x) -> omap f cs = omap g cs.
Proof.
  intros H. apply map_eq. intros k. rewrite !lookup_omap. destruct (cs !! k) as [x|] eqn:Hk; [|done]. simpl. by eapply H.
Qed.

Section refinement.
Context (rid : string) (fk : gmap Cuid Z -> option Cuid) `{!FirstKey fk}.

Implicit Types (w : World LocalConnectivity) (ph : gmap Z Phase) (cs : gmap Z MutableDatatype).

(** Replicas that the server does not know do not take part. *)
Lemma abs_net_new attr cs : abs_net None cs = abs_net (Some (Server_new attr)) cs.
Proof.
  unfold abs_net. f_equal. symmetry. apply map_eq. intros k. rewrite lookup_omap, lookup_empty.
  destruct (cs !! k) as [m|]; [|done]. simpl. apply abs_out. right. apply lookup_empty.
Qed.

Lemma abs_net_empty p sv cs : rtc astep (abs_net (Some sv) cs) (abs_net (after_request p sv) cs).
Proof.
  unfold after_request, Server_is_empty. destruct (_ && _) eqn:He; [|apply rtc_refl].
  apply andb_true_iff in He as [_ He]. apply bool_decide_eq_true in He. apply rtc_once, a_forget.
  cbn [abs_net al_replicas]. apply map_eq. intros k. rewrite lookup_omap, lookup_empty.
  destruct (cs !! k) as [m|]; [|done]. simpl. apply abs_out. right. by rewrite He, lookup_empty.
Qed.

Lemma refine_register w ph core attr st handlers t :
  lc_wf (w_conn w) -> net rid (server_of rid (w_conn w)) (w_cores w) ph -> Attribute_resource_id attr = rid ->
  initial_state st = true -> w_cores w !! core = None ->
  (forall k m, w_cores w !! k = Some m -> cuid_of m <> Attribute_get_cuid attr) ->
  TransactionalDatatype_new_arc core attr st handlers = Ok t ->
  rtc astep (abs_system rid (mkSystem w ph))
    (abs_system rid (mkSystem (mkWorld (<[core := td_mutable t]> (w_cores w))
       (LocalConnectivity_register attr core (w_conn w))) ph)).
Proof.
  intros Hlc Hinv Hrid Hst Hc Hfresh Ht. unfold abs_system, cores. cbn [s_world w_cores w_conn].
  rewrite server_of_register by done. set (so := server_of rid (w_conn w)) in *.
  set (sv := default (Server_new attr) so). set (c := Attribute_get_cuid attr) in *.
  replace (abs_net so (w_cores w)) with (abs_net (Some sv) (w_cores w)); last first.
  { unfold sv. destruct so; [done|]. symmetry. apply abs_net_new. }
  assert (Hm : abs_replica (Server_insert_client_item c core sv) (td_mutable t) = Some (mkAReplica c 0 [])).
  { unfold TransactionalDatatype_new_arc, MutableDatatype_new, Crdt_new, mbind, result_bind in Ht.
    cbn [attr_type Attribute_set_transactional] in Ht. destruct (attr_type attr); try done.
    injection Ht as <-. rewrite abs_in; [done|by destruct st|].
    change (cuid_of _) with c. simpl. by rewrite lookup_insert_eq. }
  cbn [abs_net]. rewrite (omap_insert_Some _ _ _ _ _ Hm).
  rewrite (omap_agree (abs_replica (Server_insert_client_item c core sv)) (abs_replica sv)); last first.
  { intros k m Hk. unfold abs_replica. simpl. by rewrite lookup_insert_ne by (intros He; by apply (Hfresh k m Hk)). }
  change (history (Server_insert_client_item _ _ _)) with (history sv).
  apply rtc_once. refine (a_join (mkASystem _ _) core c _ _); cbn [al_log al_replicas].
  - by rewrite lookup_omap, Hc.
  - rewrite authored_own. unfold sv. destruct so as [sv'|]; [|done]. destruct Hinv as [Hn _].
    destruct (ni_clients _ _ _ _ Hn c) as [Hown _]; [|simpl; by rewrite Hown].
    intros k m Hk. by apply (Hfresh k m).
Qed.

Lemma refine_transaction sv cs ph core m ops tag m' calls :
  net_inv rid sv cs ph -> cs !! core = Some m -> alive (m_state m) = true ->
  commit_ready m ops tag -> commit_outcome m ops tag m' calls ->
  rtc astep (abs_net (Some sv) cs) (abs_net (Some sv) (<[core := m']> cs)).
Proof.
  intros Hn Hm Ha Hr Ho. destruct (net_alive _ sv cs ph core m Hn Hm Ha) as (Hw & Hv & _).
  assert (Hl : live (m_state m) = true) by by destruct (m_state m).
  assert (Hin : wired_map sv !! cuid_of m <> None) by by rewrite Hw.
  destruct (commit_fixed sv m ops tag m' calls Hv Hr Ho) as (Hat & Hst & Hcp & _).
  assert (Hc : cuid_of m' = cuid_of m) by (unfold cuid_of; by rewrite Hat).
  cbn [abs_net]. erewrite omap_insert_Some by (apply abs_in; rewrite ?Hst, ?Hc; done).
  rewrite Hc, Hcp.
  assert (Habs : omap (abs_replica sv) cs !! core = Some (mkAReplica (cuid_of m)
    (Z.to_nat (cp_sseq (m_checkpoint m))) (tx_delta <$> buffered m))).
  { rewrite lookup_omap, Hm. by apply abs_in. }
  destruct Ho as [(Hroom & -> & _)|(_ & -> & _)].
  - destruct (commit_room m ops tag Hr Hroom) as (_ & _ & Hb & _).
    unfold buffered. rewrite Hb, fmap_app.
    apply rtc_once. by refine (a_commit (mkASystem _ _) core (mkAReplica _ _ _) _ Habs).
  - change (buffered (rolled_back m)) with (buffered m). rewrite insert_id by done. apply rtc_refl.
Qed.

Lemma refine_push sv sv' cs core m : cs !! core = Some m -> live (m_state m) = true ->
  wired_map sv !! cuid_of m <> None -> pushed_by m sv sv' ->
  rtc astep (abs_net (Some sv) cs) (abs_net (Some sv') cs).
Proof.
  intros Hm Hl Hw Hpb. destruct (pb_history _ _ _ Hpb) as (new & Hh & Hnew & Hpre).
  cbn [abs_net]. rewrite Hh, (omap_agree (abs_replica sv') (abs_replica sv)); last first.
  { intros k x _. unfold abs_replica. by rewrite (pb_wired _ _ _ Hpb). }
  apply rtc_once. rewrite fmap_app, (entries_of (cuid_of m) new Hnew).
  apply prefix_take in Hpre. rewrite <- fmap_take, length_fmap in Hpre. apply keys_deltas in Hpre.
  rewrite Hpre, fmap_take, fmap_drop.
  replace (length (own (cuid_of m) (history sv)))
    with (length (authored (cuid_of m) (entry <$> history sv))) by (by rewrite authored_own, length_fmap).
  refine (a_push (mkASystem (entry <$> history sv) (omap (abs_replica sv) cs)) core
    (mkAReplica (cuid_of m) (Z.to_nat (cp_sseq (m_checkpoint m))) (tx_delta <$> buffered m)) _ _).
  cbn [al_replicas]. rewrite lookup_omap, Hm. by apply abs_in.
Qed.

Lemma refine_leave sv cs core m : (forall k d, cs !! k = Some d -> cuid_of d = cuid_of m -> k = core) ->
  cs !! core = Some m ->
  rtc astep (abs_net (Some sv) cs) (abs_net (Some (unsubscribed fk (cuid_of m) sv)) cs).
Proof.
  intros Hinj Hm. destruct (unsubscribed_same fk (cuid_of m) sv) as (Hh & _).
  cbn [abs_net]. rewrite Hh.
  replace (omap (abs_replica (unsubscribed fk (cuid_of m) sv)) cs)
    with (delete core (omap (abs_replica sv) cs)).
  - apply rtc_once. refine (a_leave (mkASystem _ _) core).
  - apply map_eq. intros k. destruct (decide (k = core)) as [->|Hne].
    + rewrite lookup_delete_eq, lookup_omap, Hm. symmetry. simpl. apply abs_out. right.
      by rewrite unsubscribed_wired, lookup_delete_eq.
    + rewrite lookup_delete_ne, !lookup_omap by done. destruct (cs !! k) as [d|] eqn:Hk; [|done]. simpl.
      unfold abs_replica. rewrite unsubscribed_wired, lookup_delete_ne; [done|].
      intros He. by apply Hne, (Hinj k d).
Qed.

Lemma refine_request sv sv' cs ph p core m : net_inv rid sv cs ph -> cs !! core = Some m ->
  live (m_state m) = true -> served fk m sv sv' ->
  rtc astep (abs_net (Some sv) cs) (abs_net (after_request p sv') cs).
Proof.
  intros Hn Hm Hl Hsd. etrans; [|apply abs_net_empty].
  destruct Hsd as [-> |(Hw & sv1 & Hpb & Hor)]; [apply rtc_refl|].
  etrans; [by eapply refine_push|]. destruct Hor as [-> |[_ ->]]; [apply rtc_refl|].
  apply (refine_leave sv1 cs core m); [|done]. intros k d Hk He. by apply (ni_cuid _ _ _ _ Hn k core d m).
Qed.

Lemma refine_receive sv cs ph core q m m' c : net_inv rid sv cs ph -> cs !! core = Some m ->
  ph !! core = Some (Received q) -> receive_answer q m = (Ok tt, m', c) ->
  rtc astep (abs_net (Some sv) cs) (abs_net (Some sv) (<[core := m']> cs)).
Proof.
  intros Hn Hm Hph Hrec.
  destruct (net_receive rid sv cs ph core m q Hn Hm Hph) as (x & c' & Hrec' & Hn' & Hcu & Hor).
  rewrite Hrec in Hrec'. injection Hrec' as <- _. cbn [abs_net].
  destruct Hor as [Hst|(Hst & Ha & Hle & Hbuf)].
  { rewrite omap_insert_None by (apply abs_out; left; by rewrite Hst).
    apply rtc_once. refine (a_leave (mkASystem _ _) core). }
  destruct (net_alive _ sv cs ph core m Hn Hm Ha) as (Hw & Hv & _).
  destruct (net_alive _ sv _ _ core m' Hn' (lookup_insert_eq _ _ _)) as (_ & Hv' & _); [by rewrite Hst|].
  assert (Hl : live (m_state m) = true) by by destruct (m_state m).
  assert (Hin : wired_map sv !! cuid_of m <> None) by by rewrite Hw.
  assert (Habs : omap (abs_replica sv) cs !! core = Some (mkAReplica (cuid_of m)
    (Z.to_nat (cp_sseq (m_checkpoint m))) (tx_delta <$> buffered m))).
  { rewrite lookup_omap, Hm. by apply abs_in. }
  erewrite omap_insert_Some by (apply abs_in; rewrite ?Hst, ?Hcu; done). rewrite Hcu.
  pose proof (rv_sseq _ _ Hv') as Hss. apply rtc_once. destruct Hbuf as [-> |(-> & Hown & Hcp)].
  - refine (a_pull (mkASystem _ _) core (mkAReplica _ _ _) _ Habs _).
    cbn [ar_seen al_log]. rewrite length_fmap. lia.
  - refine (a_subscribe (mkASystem _ _) core (mkAReplica (cuid_of m)
      (Z.to_nat (cp_sseq (m_checkpoint m))) (tx_delta <$> buffered m)) _ Habs _ _ _).
    + by rewrite Hcp.
    + cbn [ar_id al_log]. by rewrite authored_own, Hown.
    + cbn [al_log]. rewrite length_fmap. lia.
Qed.

(** The machine does not see what the server cannot tell. *)
Lemma abs_net_keep so cs k m m' : cs !! k = Some m -> m_attr m' = m_attr m -> m_state m' = m_state m ->
  (live (m_state m) = true -> same_data m m') -> abs_net so (<[k := m']> cs) = abs_net so cs.
Proof.
  intros Hk Ha Hs Hd. destruct so as [sv|]; [|done]. cbn [abs_net]. f_equal.
  apply map_eq. intros j. rewrite !lookup_omap. destruct (decide (j = k)) as [->|Hne];
    [|by rewrite lookup_insert_ne].
  rewrite lookup_insert_eq, Hk. simpl. unfold abs_replica, cuid_of. rewrite Hs, Ha.
  destruct (live (m_state m)); [|done]. destruct (Hd eq_refl) as (_ & _ & Hb & Hcp & _).
  unfold buffered. by rewrite Hb, Hcp.
Qed.

(** The counter of a replica is the one that the machine gives. *)
Lemma abs_value sv (rs : gmap Z AReplica) m : replica_view sv m ->
  crdt_value (m_crdt m) =
    ar_value (mkASystem (entry <$> history sv) rs)
      (mkAReplica (cuid_of m) (Z.to_nat (cp_sseq (m_checkpoint m))) (tx_delta <$> buffered m)).
Proof.
  intros Hv. rewrite (rv_value _ _ Hv). unfold ar_value. cbn [ar_seen ar_id ar_local al_log].
  rewrite <- fmap_take, sum_entries, authored_own, length_fmap, <- fmap_drop, sumZ_fmap.
  unfold unacked. rewrite (rv_cp _ _ Hv), Nat2Z.id. done.
Qed.

End refinement.

