(* ===== verification/Client.v ===== *)
(** * Clients and the datatypes they manage
    ([src/clients], [src/datatypes/builder.rs], [src/datatypes/datatype_set.rs],
    [src/utils/name_validator.rs], [src/utils/runtime.rs])

    A client owns a manager that maps each key to at most one datatype handle.
    Handles refer to datatype cores by address; the cores and the connectivity
    are the [Heap].  Identifiers made by nanoid ([Cuid::new], [Duid::new]) are
    arguments.  The regex and dyn-fmt crates are the class [ClientDeps]; what the
    code relies on of the regex crate is [regex_documented]. *)

From Stdlib Require Import Strings.Ascii Strings.Byte.
From S2P Require Import Prelude Types Errors Operations Crdts PushBuffer Pack Handler Mutable Transactional PullHandler Server Connectivity.

(** ** utils/name_validator.rs *)
Class ClientDeps : Type := {
  is_match : string -> string -> bool;             (* [Regex::new(pattern).is_match(text)] *)
  dyn_format : string -> list string -> string;    (* [AsStrFormatExt::format] *)
}.

Definition COLLECTION_NAME_PATTERN : string := "^[a-zA-Z_][a-zA-Z0-9._~-]*$".

Definition str_len (s : string) : Z := Z.of_nat (String.length s).

Definition is_valid_collection_name `{ClientDeps} (name : string) : bool :=
  if (str_len name =? 0) || (47 <? str_len name) then false
  else if negb (is_match COLLECTION_NAME_PATTERN name) then false
  else if str_starts_with "system." name || str_contains ".system." name then false
  else true.

Definition NUL : string := String Ascii.zero EmptyString.

Definition is_valid_datatype_key (key : string) : bool :=
  if (str_len key =? 0) || str_contains NUL key || (255 <? str_len key) || str_starts_with "$" key
  then false else true.

(** ** utils/runtime.rs

    The tokio runtime is a parameter: [build] makes one with a number of workers
    and a thread name, [handle] is its handle. *)
Section runtime.
Context {R H : Type} (build : Z -> string -> R) (handle : R -> H).

Definition DEFAULT_THREAD_WORKERS : Z := 5.
Definition THREAD_PREFIX : string := "qortoo-".

(** [available_parallelism] fails ([None]) on some platforms. *)
Definition get_or_init_runtime_handle (available_parallelism : option Z) (group : string)
    (map : gmap string R) : H * gmap string R :=
  match map !! group with
  | Some rt => (handle rt, map)
  | None =>
      let num_of_workers := default DEFAULT_THREAD_WORKERS available_parallelism in
      let rt := build num_of_workers (THREAD_PREFIX +:+ group) in
      (handle rt, <[group := rt]> map)
  end.

(** The runtime that is shut down in the background, if any. *)
Definition reserve_to_shutdown_runtime (group : string) (map : gmap string R)
    : option R * gmap string R :=
  (map !! group, delete group map).
End runtime.

(** ** datatypes/datatype_set.rs

    A [Counter] is the address of its core and its default context. *)
Inductive DatatypeSet : Type := DatatypeSet_Counter (core : Z) (c : CounterHandle).

Record Heap (C : Type) : Type := mkHeap {
  h_cores : gmap Z TransactionalDatatype;
  h_conn : C;
  h_fresh : Z;                                     (* the next free address *)
}.
Arguments mkHeap {C} h_cores h_conn h_fresh.
Arguments h_cores {C} h.
Arguments h_conn {C} h.
Arguments h_fresh {C} h.

Definition DatatypeSet_get_type (ds : DatatypeSet) : DataType :=
  match ds with DatatypeSet_Counter _ _ => Counter end.

Definition DatatypeSet_get_core_id (ds : DatatypeSet) : Z :=
  match ds with DatatypeSet_Counter core _ => core end.

(** datatype.rs: the trait [DatatypeBlanket], and the handle of a counter. *)
Class DatatypeBlanket (T : Type) : Type := get_core : T -> Z.

#[export] Instance counter_blanket : DatatypeBlanket DatatypeSet := DatatypeSet_get_core_id.

(** The core that a handle refers to. *)
Definition DatatypeSet_core {C} (h : Heap C) (ds : DatatypeSet) : option TransactionalDatatype :=
  h_cores h !! DatatypeSet_get_core_id ds.

Definition DatatypeSet_get_state {C} (h : Heap C) (ds : DatatypeSet) : option DatatypeState :=
  td_get_state <$> DatatypeSet_core h ds.

Section client.
Context {C : Type} `{ConnectivityOps C}.

(** [duid] is the identifier that [Attribute::new] makes. *)
Definition DatatypeSet_new {W E} (duid : Duid) (type : DataType) (key : string)
    (state : DatatypeState) (client_common : ClientCommon) (opt : DatatypeOption)
    (is_readonly : bool) (handlers : list (Z * DatatypeHandler)) : M (Heap C) W E DatatypeSet :=
  fun h =>
  let attr := Attribute_new duid key type client_common opt is_readonly in
  let core := h_fresh h in
  match TransactionalDatatype_new_arc core attr state handlers with
  | Ok td =>
      let conn := conn_register (m_attr (td_mutable td)) core (h_conn h) in
      let h := mkHeap (<[core := td]> (h_cores h)) conn (core + 2) in
      match type with
      | Counter => (Ok (DatatypeSet_Counter core (Counter_new (core + 1))), h, [])
      | _ => (Panic "not yet implemented", h, [])
      end
  | Panic why => (Panic why, h, [])
  | Err _ | Blocked => (Blocked, h, [])            (* [new_arc] is infallible *)
  end.

(** ** clients/datatype_manager.rs *)
Record DatatypeManager : Type := mkDatatypeManager {
  dm_common : ClientCommon;
  dm_datatypes : gmap string DatatypeSet;
}.

Definition DatatypeManager_new (common : ClientCommon) : DatatypeManager :=
  mkDatatypeManager common ∅.

Definition DatatypeManager_get_datatype (key : string) (dm : DatatypeManager) : option DatatypeSet :=
  dm_datatypes dm !! key.

Definition remove_if_same_instance (key : string) (core_id : Z) (dm : DatatypeManager)
    : option DatatypeSet * DatatypeManager :=
  match dm_datatypes dm !! key with
  | Some dt =>
      if DatatypeSet_get_core_id dt =? core_id
      then (Some dt, mkDatatypeManager (dm_common dm) (delete key (dm_datatypes dm)))
      else (None, dm)
  | None => (None, dm)
  end.

(** A client: its manager (which holds the client's [common]) and the heap. *)
Record Client : Type := mkClient {
  cl_manager : DatatypeManager;
  cl_heap : Heap C;
}.

Abbreviation CM := (M Client (Z * TdCall)).

(** A call on the heap. *)
Definition on_heap {E A} (f : M (Heap C) (Z * TdCall) E A) : CM E A := fun c =>
  let '(r, h, w) := f (cl_heap c) in (r, mkClient (cl_manager c) h, w).

Definition DatatypeManager_subscribe_or_create_datatype (duid : Duid) (key : string)
    (type : DataType) (state : DatatypeState) (opt : DatatypeOption) (is_readonly : bool)
    (handlers : list (Z * DatatypeHandler)) : CM ClientError DatatypeSet :=
  c ← get;
  match dm_datatypes (cl_manager c) !! key with
  | Some existing =>
      fail (FailedToSubscribeOrCreateDatatype
        (DataType_to_string type +:+ " '" +:+ key +:+ "' was demanded as "
         +:+ DatatypeState_to_string state +:+ ", but the client already has "
         +:+ DataType_to_string (DatatypeSet_get_type existing) +:+ " '" +:+ key +:+ "' as "
         +:+ (if DatatypeSet_get_state (cl_heap c) existing is Some st
              then DatatypeState_to_string st else "")))
  | None =>
      dt ← on_heap (DatatypeSet_new duid type key state (dm_common (cl_manager c)) opt
                      is_readonly handlers);
      modify (fun c => mkClient (mkDatatypeManager (dm_common (cl_manager c))
                                   (<[key := dt]> (dm_datatypes (cl_manager c)))) (cl_heap c)) ;;
      mret dt
  end.

(** ** clients/common.rs: the detach hook; [alive] tells whether the weak
    reference to the manager still upgrades. *)
Definition detach_datatype_if_same_instance (alive : bool) (key : string) (core_id : Z)
    (dm : DatatypeManager) : DatatypeManager :=
  if alive then (remove_if_same_instance key core_id dm).2 else dm.

(** The calls of a datatype that concern the manager. *)
Definition run_detach (alive : bool) (calls : list MutableCall) (dm : DatatypeManager)
    : DatatypeManager :=
  foldl (fun dm c =>
    match c with
    | DetachDatatype key core_id => detach_datatype_if_same_instance alive key core_id dm
    | SpawnTask _ => dm
    end) dm calls.

(** ** clients/client.rs *)
Definition do_subscribe_or_create_datatype := DatatypeManager_subscribe_or_create_datatype.

Definition Client_get_datatype (key : string) (c : Client) : option DatatypeSet :=
  DatatypeManager_get_datatype key (cl_manager c).

(** A method of a handle on its core. *)
Definition on_handle {E A} (core : Z) (f : TM E A) : CM E A := fun c =>
  match h_cores (cl_heap c) !! core with
  | None => (Panic "dangling Arc", c, [])
  | Some td =>
      let '(r, td, w) := f td in
      (r, mkClient (cl_manager c)
            (mkHeap (<[core := td]> (h_cores (cl_heap c))) (h_conn (cl_heap c))
               (h_fresh (cl_heap c))),
       (fun call => (core, call)) <$> w)
  end.

(** datatype.rs: the blanket implementation of [Datatype] for a handle type,
    through the core that [get_core] gives. *)
Section blanket.
Context {T : Type} `{DatatypeBlanket T}.

Definition Datatype_get_key (h : Heap C) (x : T) : option string :=
  get_key <$> h_cores h !! get_core x.
Definition Datatype_get_type (h : Heap C) (x : T) : option DataType :=
  get_type <$> h_cores h !! get_core x.
Definition Datatype_get_state (h : Heap C) (x : T) : option DatatypeState :=
  get_state <$> h_cores h !! get_core x.
Definition Datatype_get_server_version (h : Heap C) (x : T) : option Z :=
  get_server_version <$> h_cores h !! get_core x.
Definition Datatype_get_client_version (h : Heap C) (x : T) : option Z :=
  get_client_version <$> h_cores h !! get_core x.
Definition Datatype_get_synced_client_version (h : Heap C) (x : T) : option Z :=
  get_synced_client_version <$> h_cores h !! get_core x.
Definition Datatype_sync (reply : result DatatypeError unit) (x : T) : CM DatatypeError unit :=
  on_handle (get_core x) (dt_sync reply).
Definition Datatype_unsubscribe (x : T) : CM DatatypeError unit :=
  on_handle (get_core x) dt_unsubscribe.
Definition Datatype_set_handler (id : Z) (handler : DatatypeHandler) (x : T) : CM DatatypeError unit :=
  on_handle (get_core x) (dt_set_handler id handler).
Definition Datatype_unset_handler (shared : bool) (id : Z) (x : T)
    : CM DatatypeError (option DatatypeHandler) :=
  on_handle (get_core x) (dt_unset_handler shared id).
End blanket.

Definition DatatypeSet_unsubscribe (ds : DatatypeSet) : CM DatatypeError unit :=
  Datatype_unsubscribe ds.

Definition unsubscribe_datatype (key : string) : CM DatatypeError DatatypeSet :=
  c ← get;
  match Client_get_datatype key c with
  | None => fail (Disallowed ("Datatype '" +:+ key +:+ "' is not managed by this client"))
  | Some datatype => DatatypeSet_unsubscribe datatype ;; mret datatype
  end.

Definition get_collection (c : Client) : string := cc_collection (dm_common (cl_manager c)).
Definition get_alias (c : Client) : string := cc_alias (dm_common (cl_manager c)).

Record ClientBuilder : Type := mkClientBuilder {
  cb_collection : string;
  cb_alias : string;
}.

Context `{ClientDeps}.

(** [cuid] is made by [ClientCommon::new_arc]; the heap holds the connectivity
    of [with_connectivity]. *)
Definition ClientBuilder_build (cuid : Cuid) (h : Heap C) (b : ClientBuilder)
    : result ClientError Client :=
  if negb (is_valid_collection_name (cb_collection b))
  then Err (InvalidCollectionName (dyn_format CLIENT_ERROR_MSG_COLLECTION_NAME [cb_collection b]))
  else
    let common := ClientCommon_new_arc cuid (cb_collection b) (cb_alias b) in
    Ok (mkClient (DatatypeManager_new common) h).

(** ** datatypes/builder.rs *)
Record DatatypeBuilder : Type := mkDatatypeBuilder {
  db_key : string;
  db_state : DatatypeState;
  db_option : DatatypeOption;
  db_is_readonly : bool;
  db_handlers : list (Z * DatatypeHandler);
}.

Definition DatatypeBuilder_new (key : string) (state : DatatypeState) : DatatypeBuilder :=
  mkDatatypeBuilder key state DatatypeOption_default false [].

Definition subscribe_datatype (key : string) : DatatypeBuilder := DatatypeBuilder_new key Subscribing.
Definition create_datatype (key : string) : DatatypeBuilder := DatatypeBuilder_new key Creating.
Definition subscribe_or_create_datatype (key : string) : DatatypeBuilder :=
  DatatypeBuilder_new key SubscribingOrCreating.

Definition with_max_memory_size_of_push_buffer (size : Z) (b : DatatypeBuilder) : DatatypeBuilder :=
  mkDatatypeBuilder (db_key b) (db_state b) (DatatypeOption_new size) (db_is_readonly b)
    (db_handlers b).
Definition with_readonly (b : DatatypeBuilder) : DatatypeBuilder :=
  mkDatatypeBuilder (db_key b) (db_state b) (db_option b) true (db_handlers b).
Definition with_handler (priority : Z) (h : DatatypeHandler) (b : DatatypeBuilder)
    : DatatypeBuilder :=
  mkDatatypeBuilder (db_key b) (db_state b) (db_option b) (db_is_readonly b)
    (bt_insert priority h (db_handlers b)).

Definition build_counter (duid : Duid) (b : DatatypeBuilder) : CM ClientError DatatypeSet :=
  if negb (is_valid_datatype_key (db_key b))
  then fail (FailedToSubscribeOrCreateDatatype
               (dyn_format CLIENT_ERROR_MSG_DATATYPE_KEY [db_key b]))
  else do_subscribe_or_create_datatype duid (db_key b) Counter (db_state b) (db_option b)
         (db_is_readonly b) (db_handlers b).
End client.

Arguments Client C : clear implicits.

(** ** Well-formed clients

    Every managed handle refers to a live core whose attribute carries its key
    and the client's identity; every live core knows its own address. *)
Definition core_wf (core : Z) (td : TransactionalDatatype) : Prop :=
  attr_weak_transactional (m_attr (td_mutable td)) = Some (mkWeak core true).

Record client_wf {C} (c : Client C) : Prop := {
  wf_managed : forall k ds, dm_datatypes (cl_manager c) !! k = Some ds ->
    exists td, DatatypeSet_core (cl_heap c) ds = Some td /\
      attr_key (m_attr (td_mutable td)) = k /\
      attr_client_common (m_attr (td_mutable td)) = dm_common (cl_manager c);
  wf_cores : forall core td, h_cores (cl_heap c) !! core = Some td -> core_wf core td;
  wf_fresh : forall core, is_Some (h_cores (cl_heap c) !! core) -> core < h_fresh (cl_heap c);
}.

(** The client after [build_counter] made [td] at the next free address. *)
Definition with_new_core {C} `{ConnectivityOps C} (key : string) (td : TransactionalDatatype)
    (c : Client C) : Client C :=
  let h := cl_heap c in
  mkClient
    (mkDatatypeManager (dm_common (cl_manager c))
       (<[key := DatatypeSet_Counter (h_fresh h) (Counter_new (h_fresh h + 1))]>
          (dm_datatypes (cl_manager c))))
    (mkHeap (<[h_fresh h := td]> (h_cores h))
       (conn_register (m_attr (td_mutable td)) (h_fresh h) (h_conn h)) (h_fresh h + 2)).

(** What a counter is right after it was built. *)
Definition built_as (duid : Duid) (b : DatatypeBuilder) (common : ClientCommon)
    (td : TransactionalDatatype) : Prop :=
  let m := td_mutable td in
  attr_key (m_attr m) = db_key b /\ attr_type (m_attr m) = Counter /\
  attr_duid (m_attr m) = duid /\ attr_client_common (m_attr m) = common /\
  attr_option (m_attr m) = db_option b /\ attr_is_readonly (m_attr m) = db_is_readonly b /\
  m_state m = db_state b /\ crdt_value (m_crdt m) = 0 /\
  m_op_id m = OperationId_new_with_cuid (cc_cuid common) /\ pending (m_tx_record m) = None /\
  td_tx_ctx td = None /\ td_op_mutex td = false /\ td_tx_mutex td = false.

Section client_lemmas.
Context {C : Type} `{ConnectivityOps C} `{ClientDeps}.

Lemma build_counter_vacant duid b (c : Client C) :
  is_valid_datatype_key (db_key b) = true ->
  dm_datatypes (cl_manager c) !! db_key b = None ->
  exists td, built_as duid b (dm_common (cl_manager c)) td /\ core_wf (h_fresh (cl_heap c)) td /\
    build_counter duid b c =
      (Ok (DatatypeSet_Counter (h_fresh (cl_heap c)) (Counter_new (h_fresh (cl_heap c) + 1))),
       with_new_core (db_key b) td c, []).
Proof.
  intros Hkey Hfree. eexists; split; [|split]; last first.
  - unfold build_counter. rewrite Hkey. change (negb true) with false. cbv iota.
    unfold do_subscribe_or_create_datatype, DatatypeManager_subscribe_or_create_datatype, mbind,
      M_bind, get. cbn beta iota zeta. rewrite Hfree. reflexivity.
  - reflexivity.
  - by splits.
Qed.

Lemma with_new_core_wf key td (c : Client C) : client_wf c ->
  core_wf (h_fresh (cl_heap c)) td -> attr_key (m_attr (td_mutable td)) = key ->
  attr_client_common (m_attr (td_mutable td)) = dm_common (cl_manager c) ->
  client_wf (with_new_core key td c).
Proof.
  intros [Hm Hc Hf] Htd Hk Hcom. constructor; cbn -[lookup insert].
  - intros k ds [[<- <-]|[Hne Hds]]%lookup_insert_Some.
    + exists td. unfold DatatypeSet_core. cbn -[lookup insert]. by rewrite lookup_insert_eq.
    + destruct (Hm _ _ Hds) as (td' & Hcore & ?). exists td'. split; [|done].
      unfold DatatypeSet_core in *. cbn -[lookup insert]. rewrite lookup_insert_ne; [done|].
      intros Heq. specialize (Hf (DatatypeSet_get_core_id ds)).
      rewrite Hcore in Hf. specialize (Hf ltac:(done)). lia.
  - by intros core td' [[<- <-]|[_ ?%Hc]]%lookup_insert_Some.
  - intros core Hcore. apply lookup_insert_is_Some in Hcore as [<-|[_ ?%Hf]]; lia.
Qed.

(** The manager's entries after a core reports that it became disabled. *)
Lemma run_detach_state_change alive core td st dm k :
  core_wf core td ->
  dm_datatypes (run_detach alive (state_change_calls (td_mutable td) st) dm) !! k =
  if decide (alive = true /\ st = Disabled /\ k = attr_key (m_attr (td_mutable td)) /\
             DatatypeSet_get_core_id <$> dm_datatypes dm !! k = Some core)
  then None else dm_datatypes dm !! k.
Proof.
  intros Hcore. unfold run_detach, state_change_calls. rewrite foldl_app.
  set (dm' := foldl _ dm _). assert (dm' = dm) as -> by (unfold dm'; by case_match).
  case_decide as Hst; [|case_decide; naive_solver].
  unfold Attribute_detach_datatype_if_same_instance, Attribute_upgrade. rewrite Hcore. simpl.
  unfold detach_datatype_if_same_instance, remove_if_same_instance.
  destruct alive; [|case_decide; naive_solver].
  destruct (dm_datatypes dm !! attr_key _) as [ds|] eqn:Hds; simpl.
  - destruct (Z.eqb_spec (DatatypeSet_get_core_id ds) core) as [Heq|Hne]; simpl.
    + destruct (decide (k = attr_key (m_attr (td_mutable td)))) as [->|Hk].
      * rewrite lookup_delete_eq, decide_True; [done|]. by rewrite Hds, <- Heq.
      * rewrite lookup_delete_ne by done. rewrite decide_False; [done|naive_solver].
    + rewrite decide_False; [done|]. intros (_ & _ & -> & Hc). rewrite Hds in Hc. naive_solver.
  - rewrite decide_False; [done|]. intros (_ & _ & -> & Hc). by rewrite Hds in Hc.
Qed.

Lemma run_detach_common alive calls dm : dm_common (run_detach alive calls dm) = dm_common dm.
Proof.
  unfold run_detach. revert dm. induction calls as [|call calls IH]; intros dm; [done|].
  simpl. rewrite IH. destruct call; [done|]. unfold detach_datatype_if_same_instance,
    remove_if_same_instance. by repeat case_match.
Qed.

(** What [set_state] of a live core does to the manager of its client. *)
Abbreviation notified st td := (calls (Mutable_set_state (E := Empty_set) st (td_mutable td))).

Lemma run_detach_lookup alive (c : Client C) core td st :
  client_wf c -> h_cores (cl_heap c) !! core = Some td -> m_state (td_mutable td) <> Disabled ->
  forall k, dm_datatypes (run_detach alive (notified st td) (cl_manager c)) !! k =
    match dm_datatypes (cl_manager c) !! k with
    | Some ds => if decide (alive = true /\ st = Disabled /\ DatatypeSet_get_core_id ds = core)
                 then None else Some ds
    | None => None
    end.
Proof.
  intros Hwf Htd Hst k. unfold Mutable_set_state.
  destruct (decide (m_state (td_mutable td) = st)) as [Heq|Hne]; simpl.
  - destruct (dm_datatypes _ !! k); [|done]. by rewrite decide_False by naive_solver.
  - rewrite (run_detach_state_change alive core) by (by eapply wf_cores).
    destruct (dm_datatypes (cl_manager c) !! k) as [ds|] eqn:Hk; [|by case_decide].
    destruct (wf_managed _ Hwf _ _ Hk) as (td' & Hc & Hkey & _). unfold DatatypeSet_core in Hc.
    apply decide_ext. simpl. split; [naive_solver|].
    intros (-> & -> & Heq). rewrite Heq, Htd in Hc. simplify_eq. by splits.
Qed.

Lemma run_detach_wf alive (c : Client C) core td st :
  client_wf c -> h_cores (cl_heap c) !! core = Some td -> m_state (td_mutable td) <> Disabled ->
  client_wf (mkClient (run_detach alive (notified st td) (cl_manager c)) (cl_heap c)).
Proof.
  intros Hwf Htd Hst. pose proof (run_detach_lookup alive c core td st Hwf Htd Hst) as Hlook.
  destruct Hwf as [Hm Hc Hf]. constructor; [|done|done]. cbn -[lookup]. intros k ds Hk.
  rewrite Hlook in Hk. destruct (dm_datatypes (cl_manager c) !! k) eqn:Hds; [|done].
  case_decide; simplify_eq. destruct (Hm _ _ Hds) as (td' & ? & ? & Hcc). exists td'. splits.
  by rewrite Hcc, run_detach_common.
Qed.

Lemma build_counter_refused duid b (c : Client C) :
  is_valid_datatype_key (db_key b) = false \/ is_Some (dm_datatypes (cl_manager c) !! db_key b) ->
  exists why, build_counter duid b c = (Err (FailedToSubscribeOrCreateDatatype why), c, []).
Proof.
  unfold build_counter. destruct (is_valid_datatype_key (db_key b)); [|eauto].
  intros [?|[ds Hds]]; [done|]. change (negb true) with false. cbv iota.
  unfold do_subscribe_or_create_datatype, DatatypeManager_subscribe_or_create_datatype, mbind,
    M_bind, get. cbn beta iota zeta. rewrite Hds. simpl. eauto.
Qed.

Lemma build_counter_wf duid b (c : Client C) :
  client_wf c -> client_wf (final (build_counter duid b c)).
Proof.
  intros Hwf. destruct (is_valid_datatype_key (db_key b)) eqn:Hkey; last first.
  { destruct (build_counter_refused duid b c) as [why ->]; [by left|done]. }
  destruct (dm_datatypes (cl_manager c) !! db_key b) as [ds|] eqn:Hds.
  { destruct (build_counter_refused duid b c) as [why ->]; [by right|done]. }
  destruct (build_counter_vacant duid b c Hkey Hds) as (td & Hbuilt & Hcore & ->).
  destruct Hbuilt as (? & _ & _ & ? & _). by apply with_new_core_wf.
Qed.
End client_lemmas.

(** ** Collection names, independently of the validator

    The language of the pattern, what the regex crate documents of it, and the
    parts of a name between its dots. *)
Definition is_letter (c : Ascii.ascii) : bool :=
  let n := Ascii.nat_of_ascii c in
  ((65 <=? n) && (n <=? 90) || (97 <=? n) && (n <=? 122))%nat.
Definition is_digit (c : Ascii.ascii) : bool :=
  let n := Ascii.nat_of_ascii c in ((48 <=? n) && (n <=? 57))%nat.
Definition name_start (c : Ascii.ascii) : bool := is_letter c || bool_decide (c = "_"%char).
Definition name_char (c : Ascii.ascii) : bool :=
  is_letter c || is_digit c || bool_decide (c ∈ ["."; "_"; "~"; "-"]%char).

Fixpoint string_forallb (f : Ascii.ascii -> bool) (s : string) : bool :=
  match s with EmptyString => true | String c s => f c && string_forallb f s end.

Definition in_pattern (s : string) : bool :=
  match s with EmptyString => false | String c s => name_start c && string_forallb name_char s end.

Definition regex_documented `{ClientDeps} : Prop :=
  forall s, is_match COLLECTION_NAME_PATTERN s = in_pattern s.

Fixpoint segments (s : string) : list string :=
  match s with
  | EmptyString => [EmptyString]
  | String c s =>
      if decide (c = "."%char) then EmptyString :: segments s
      else match segments s with h :: t => String c h :: t | [] => [] end
  end.

Lemma segments_cons s : exists h t, segments s = h :: t.
Proof.
  induction s as [|c s (h & t & Hs)]; [by do 2 eexists|]. simpl. case_decide; [by do 2 eexists|].
  rewrite Hs. by do 2 eexists.
Qed.

Lemma prefix_segment w s : string_forallb (fun c => negb (bool_decide (c = "."%char))) w = true ->
  String.prefix (w +:+ ".") s = true <-> exists t, t <> [] /\ segments s = w :: t.
Proof.
  revert s. induction w as [|c w IH]; intros s Hw; (destruct s as [|d s]; [split; [done|]|]).
  1,3: by intros (t & ? & ?); simplify_eq/=.
  - destruct (segments_cons s) as (h & t & Hs).
    change (String.prefix ("" +:+ ".") (String d s)) with
      (if Ascii.ascii_dec "." d then String.prefix "" s else false).
    cbn [segments]. rewrite Hs.
    destruct (Ascii.ascii_dec "." d) as [<-|Hne].
    + rewrite decide_True by done. split; [|by destruct s]. intros _. by exists (h :: t).
    + rewrite decide_False by done. split; [done|]. intros (t' & _ & ?). simplify_eq.
  - simpl in Hw. apply andb_true_iff in Hw as [Hc Hw].
    apply negb_true_iff, bool_decide_eq_false in Hc.
    change ((String c w +:+ ".")) with (String c (w +:+ ".")). simpl.
    destruct (segments_cons s) as (h & t & Hs).
    destruct (Ascii.ascii_dec c d) as [<-|Hne].
    + rewrite IH by done. rewrite decide_False, Hs by done. split.
      * intros (t' & ? & ?). simplify_eq. by eexists.
      * intros (t' & ? & ?). simplify_eq. by eexists.
    + split; [done|]. rewrite Hs. case_decide; intros (t' & _ & ?); simplify_eq.
Qed.

Lemma elem_of_removelast_cons (x h : string) t :
  x ∈ removelast (h :: t) <-> (exists t', t' <> [] /\ h :: t = x :: t') \/ x ∈ removelast t.
Proof.
  destruct t as [|h' t].
  - cbn [removelast]. split; [set_solver|]. intros [(t' & Ht & [= _ <-])|H]; [done|set_solver].
  - change (removelast (h :: h' :: t)) with (h :: removelast (h' :: t)). rewrite elem_of_cons.
    split; (intros [H|H]; [left|by right]).
    + subst h. by exists (h' :: t).
    + by destruct H as (t' & _ & [= ? _]).
Qed.

Lemma contains_segment s :
  str_contains ".system." s = true <-> "system"%string ∈ removelast (tail (segments s)).
Proof.
  induction s as [|c s IH]; [simpl; split; [done|by intros ?%elem_of_nil]|].
  change (str_contains ".system." (String c s)) with
    ((if Ascii.ascii_dec "." c then String.prefix ("system" +:+ ".") s else false)
     || str_contains ".system." s).
  rewrite orb_true_iff, IH. destruct (segments_cons s) as (h & t & Hs). cbn [segments].
  destruct (Ascii.ascii_dec "." c) as [<-|Hne].
  - rewrite prefix_segment by reflexivity. rewrite decide_True, Hs by done. cbn [tail].
    by rewrite elem_of_removelast_cons.
  - rewrite decide_False, Hs by done. simpl. naive_solver.
Qed.

Lemma forbidden_segment s :
  str_starts_with "system." s || str_contains ".system." s = true <->
  "system"%string ∈ removelast (segments s).
Proof.
  unfold str_starts_with. change "system."%string with ("system" +:+ ".").
  rewrite orb_true_iff, contains_segment, prefix_segment by reflexivity.
  destruct (segments_cons s) as (h & t & ->). by rewrite elem_of_removelast_cons.
Qed.

Lemma string_app_cancel_at f c s1 s2 t1 t2 : f c = false ->
  string_forallb f s1 = true -> string_forallb f s2 = true ->
  s1 +:+ String c t1 = s2 +:+ String c t2 -> s1 = s2 /\ t1 = t2.
Proof.
  intros Hc. revert s2. induction s1 as [|d s1 IH]; intros [|e s2]; simpl; intros H1 H2 Heq.
  - by simplify_eq.
  - injection Heq as <- _. by rewrite Hc in H2.
  - injection Heq as -> _. by rewrite Hc in H1.
  - apply andb_true_iff in H1 as [_ H1], H2 as [_ H2]. injection Heq as -> Heq.
    by destruct (IH s2 H1 H2 Heq) as [-> ->].
Qed.

(** ** Properties *)
Section client_properties.
Context {C : Type} `{ConnectivityOps C} `{ClientDeps}.

(** C39.  [build_counter] registers at most one datatype per key: it fails, with
    the client unchanged, exactly when the key is not valid or already managed;
    otherwise the counter has a core of its own, made as the builder says and
    registered with the connectivity, and the other keys and cores are the ones
    from before. *)
Theorem build_counter_registers_once duid b (c : Client C) : client_wf c ->
  let '(r, c', w) := build_counter duid b c in
  client_wf c' /\ w = [] /\
  match r with
  | Ok ds =>
      is_valid_datatype_key (db_key b) = true /\
      Client_get_datatype (db_key b) c = None /\
      DatatypeSet_core (cl_heap c) ds = None /\
      exists td, built_as duid b (dm_common (cl_manager c)) td /\
        DatatypeSet_core (cl_heap c') ds = Some td /\
        (forall k, Client_get_datatype k c' =
           if decide (k = db_key b) then Some ds else Client_get_datatype k c) /\
        (forall core, core <> DatatypeSet_get_core_id ds ->
           h_cores (cl_heap c') !! core = h_cores (cl_heap c) !! core) /\
        h_conn (cl_heap c') = conn_register (m_attr (td_mutable td)) (DatatypeSet_get_core_id ds)
                                (h_conn (cl_heap c))
  | Err (FailedToSubscribeOrCreateDatatype _) =>
      c' = c /\
      (is_valid_datatype_key (db_key b) = false \/ is_Some (Client_get_datatype (db_key b) c))
  | _ => False
  end.
Proof.
  intros Hwf. pose proof (build_counter_wf duid b c Hwf) as Hwf'.
  destruct (is_valid_datatype_key (db_key b)) eqn:Hkey; last first.
  { destruct (build_counter_refused duid b c) as [why ->]; [by left|]. splits. by left. }
  destruct (dm_datatypes (cl_manager c) !! db_key b) as [ds|] eqn:Hds.
  { destruct (build_counter_refused duid b c) as [why ->]; [by right|]. splits.
    right. unfold Client_get_datatype, DatatypeManager_get_datatype. by rewrite Hds. }
  destruct (build_counter_vacant duid b c Hkey Hds) as (td & Hbuilt & Hcore & Heq).
  rewrite Heq in Hwf' |- *. split; [exact Hwf'|].
  split; [done|]. split; [done|]. split; [done|].
  split.
  { apply eq_None_not_Some. intros Hx. apply (wf_fresh _ Hwf) in Hx. simpl in Hx. lia. }
  exists td. split; [done|]. unfold DatatypeSet_core, Client_get_datatype,
    DatatypeManager_get_datatype, with_new_core. cbn -[lookup insert].
  split; [by rewrite lookup_insert_eq|]. split; [|split; [|done]].
  - intros k. case_decide as Hk; [by subst; rewrite lookup_insert_eq|]. by rewrite lookup_insert_ne.
  - intros core Hne. by rewrite lookup_insert_ne.
Qed.

(** A managed datatype leaves its client exactly when it becomes
    [Disabled] while the client is alive, and only the entry of that very
    instance leaves: a newer datatype under the same key stays.
    [unsubscribe_datatype] itself never removes an entry. *)
Theorem disabled_datatype_detaches_itself alive (c : Client C) core td st :
  client_wf c -> h_cores (cl_heap c) !! core = Some td ->
  m_state (td_mutable td) <> Disabled ->
  let notified := calls (Mutable_set_state (E := Empty_set) st (td_mutable td)) in
  let dm := run_detach alive notified (cl_manager c) in
  (forall k, DatatypeManager_get_datatype k dm =
     match Client_get_datatype k c with
     | Some ds => if decide (alive = true /\ st = Disabled /\ DatatypeSet_get_core_id ds = core)
                  then None else Some ds
     | None => None
     end) /\
  client_wf (mkClient dm (cl_heap c)) /\
  forall key, cl_manager (final (unsubscribe_datatype key c)) = cl_manager c.
Proof.
  intros Hwf Htd Hst notified dm.
  pose proof (run_detach_lookup alive c core td st Hwf Htd Hst) as Hlook.
  split; [exact Hlook|]. split; [by eapply run_detach_wf|].
  intros key. unfold unsubscribe_datatype, mbind, M_bind, get. cbn beta iota zeta.
  destruct (Client_get_datatype key c) as [ds|]; [|done].
  unfold DatatypeSet_unsubscribe, Datatype_unsubscribe, on_handle.
  destruct (_ !! get_core ds); [|done].
  destruct (dt_unsubscribe _) as [[[] ?] ?]; done.
Qed.
End client_properties.

Lemma name_start_char c : name_start c = true -> name_char c = true.
Proof.
  unfold name_start, name_char. rewrite !orb_true_iff, !bool_decide_eq_true. intros [?| ->]; [auto|].
  right. set_solver.
Qed.

Lemma in_pattern_chars s : in_pattern s = true -> string_forallb name_char s = true.
Proof.
  destruct s as [|c s]; [done|]. simpl. rewrite !andb_true_iff.
  intros [?%name_start_char ?]. done.
Qed.

Section name_properties.
Context `{ClientDeps} {C : Type}.

(** C40.  A client is built exactly for a collection name of 1 to 47 bytes, in the
    language of the pattern, none of whose dot-separated parts but the last is
    [system]; it carries the builder's collection and alias.  Under such names
    two datatypes have the same resource id only when they have the same
    collection and the same key. *)
Theorem collection_names_are_unambiguous : regex_documented ->
  (forall cuid (h : Heap C) b,
     match ClientBuilder_build cuid h b with
     | Ok c => (1 <= str_len (cb_collection b) <= 47 /\ in_pattern (cb_collection b) = true /\
                "system"%string ∉ removelast (segments (cb_collection b))) /\
               get_collection c = cb_collection b /\ get_alias c = cb_alias b /\
               cl_heap c = h /\ forall k, Client_get_datatype k c = None
     | Err e => e = InvalidCollectionName (dyn_format CLIENT_ERROR_MSG_COLLECTION_NAME
                                             [cb_collection b]) /\
                ~ (1 <= str_len (cb_collection b) <= 47 /\ in_pattern (cb_collection b) = true /\
                   "system"%string ∉ removelast (segments (cb_collection b)))
     | _ => False
     end) /\
  (forall a1 a2 : Attribute,
     is_valid_collection_name (cc_collection (attr_client_common a1)) = true ->
     is_valid_collection_name (cc_collection (attr_client_common a2)) = true ->
     Attribute_resource_id a1 = Attribute_resource_id a2 ->
     cc_collection (attr_client_common a1) = cc_collection (attr_client_common a2) /\
     attr_key a1 = attr_key a2).
Proof.
  intros Hre.
  assert (Hvalid : forall s, is_valid_collection_name s = true <->
    1 <= str_len s <= 47 /\ in_pattern s = true /\ "system"%string ∉ removelast (segments s)).
  { intros s. unfold is_valid_collection_name. rewrite Hre, <- forbidden_segment.
    assert (0 <= str_len s) by (unfold str_len; lia).
    destruct (Z.eqb_spec (str_len s) 0), (Z.ltb_spec 47 (str_len s)), (in_pattern s);
      simpl; destruct (_ || str_contains _ _); intuition (discriminate || lia). }
  split.
  - intros cuid h b. unfold ClientBuilder_build.
    destruct (is_valid_collection_name (cb_collection b)) eqn:Hb; simpl.
    + apply Hvalid in Hb. splits; try apply Hb.
    + split; [done|]. intros ?%Hvalid. congruence.
  - intros a1 a2 (_ & H1%in_pattern_chars & _)%Hvalid (_ & H2%in_pattern_chars & _)%Hvalid Heq.
    by apply (string_app_cancel_at name_char "/"%char) in Heq.
Qed.
End name_properties.

(** ** Examples: one client without a server *)
Definition example_deps : ClientDeps := {|
  is_match := fun pattern s => bool_decide (pattern = COLLECTION_NAME_PATTERN) && in_pattern s;
  dyn_format := fun msg _ => msg |}.

Definition example_client : Client NullConnectivity :=
  mkClient (DatatypeManager_new (mkClientCommon "col" Uid_new_nil "alias"))
    (mkHeap ∅ NullConnectivity_new 100).

Definition example_builder : DatatypeBuilder :=
  with_readonly (with_max_memory_size_of_push_buffer 0 (subscribe_datatype "k")).

(** The client after its first counter, and after that counter left and another
    one was built under the same key. *)
Definition example_client1 : Client NullConnectivity :=
  final (build_counter (H0 := example_deps) Uid_new_nil example_builder example_client).

Definition example_core (core : Z) (c : Client NullConnectivity) : TransactionalDatatype :=
  default example_td (h_cores (cl_heap c) !! core).

Definition example_client2 : Client NullConnectivity :=
  final (build_counter (H0 := example_deps) Uid_new_nil (create_datatype "k")
    (mkClient (run_detach true (calls (Mutable_set_state (E := Empty_set) Disabled
                 (td_mutable (example_core 100 example_client1)))) (cl_manager example_client1))
       (cl_heap example_client1))).

Lemma example_client_wf : client_wf example_client.
Proof.
  constructor; simpl.
  - intros k ds. by rewrite lookup_empty.
  - intros core td. by rewrite lookup_empty.
  - intros core. rewrite lookup_empty. by intros [? ?].
Qed.

Lemma build_counter_registers_once_witness :
  client_wf example_client1 /\ is_Some (Client_get_datatype "k" example_client1) /\
  final (build_counter (H0 := example_deps) Uid_new_nil (create_datatype "k") example_client1)
    = example_client1.
Proof.
  pose proof (build_counter_registers_once (H0 := example_deps) Uid_new_nil example_builder
    example_client example_client_wf) as H1.
  assert (Hwf : client_wf example_client1).
  { unfold example_client1. by destruct (build_counter _ _ _) as [[? ?] ?], H1. }
  pose proof (build_counter_registers_once (H0 := example_deps) Uid_new_nil (create_datatype "k")
    example_client1 Hwf) as H2.
  split; [exact Hwf|]. split; [vm_compute; eauto|]. revert H2.
  destruct (build_counter _ (create_datatype "k") example_client1) as [[r c'] w] eqn:Heq.
  intros (_ & _ & H2). destruct r as [ds|[why|why]|why|]; try done.
  apply H2.
Defined.

Lemma example_client2_wf : client_wf example_client2.
Proof.
  apply build_counter_wf, (run_detach_wf true example_client1 100
    (example_core 100 example_client1) Disabled).
  - apply build_counter_wf, example_client_wf.
  - reflexivity.
  - done.
Qed.

(** The first counter becomes disabled once more, when the second one has its
    key: the second one stays until it becomes disabled itself. *)
Lemma disabled_datatype_detaches_itself_witness :
  let disabled core := run_detach true
    (calls (Mutable_set_state (E := Empty_set) Disabled
              (td_mutable (example_core core example_client2)))) (cl_manager example_client2) in
  is_Some (DatatypeManager_get_datatype "k" (disabled 100)) /\
  DatatypeManager_get_datatype "k" (disabled 102) = None.
Proof.
  intros disabled.
  destruct (disabled_datatype_detaches_itself true example_client2 100
    (example_core 100 example_client2) Disabled example_client2_wf
    ltac:(vm_compute; reflexivity) ltac:(by vm_compute)) as [H1 _].
  destruct (disabled_datatype_detaches_itself true example_client2 102
    (example_core 102 example_client2) Disabled example_client2_wf
    ltac:(vm_compute; reflexivity) ltac:(by vm_compute)) as [H2 _].
  split.
  - unfold disabled. rewrite (H1 "k"%string). vm_compute. eauto.
  - unfold disabled. rewrite (H2 "k"%string). vm_compute. reflexivity.
Defined.

Lemma example_deps_documented : regex_documented (H := example_deps).
Proof. intros s. unfold is_match, example_deps. by rewrite bool_decide_true. Qed.

Lemma collection_names_are_unambiguous_witness :
  let H := example_deps in
  regex_documented (H := H) /\
  is_ok (ClientBuilder_build (H0 := H) Uid_new_nil (cl_heap example_client)
           (mkClientBuilder "my.system" "a")) = true /\
  is_ok (ClientBuilder_build (H0 := H) Uid_new_nil (cl_heap example_client)
           (mkClientBuilder "my.system.x" "a")) = false.
Proof.
  split; [exact example_deps_documented|].
  destruct (collection_names_are_unambiguous (H := example_deps) (C := NullConnectivity)
    example_deps_documented) as [Hb _].
  split.
  - pose proof (Hb Uid_new_nil (cl_heap example_client) (mkClientBuilder "my.system" "a")) as H1.
    destruct (ClientBuilder_build _ _ _); try done.
    destruct H1 as [_ []]. vm_compute. split; [by split|]. split; [done|].
    by intros ?%list_elem_of_singleton.
  - pose proof (Hb Uid_new_nil (cl_heap example_client) (mkClientBuilder "my.system.x" "a")) as H2.
    destruct (ClientBuilder_build _ _ _); try done.
    destruct H2 as [(_ & _ & []) _]. by apply (bool_decide_unpack _).
Defined.
