(* ===== verification/App.v ===== *)
(** * The whole program ([src/src] together)

    An [App] is a running process: the heap of datatype cores and their shared
    connectivity, the managers of its clients, one event loop per core, and what
    these have asked of others but is not delivered yet.  A step is a call of the
    user on a handle, the creation of a client or of a datatype, or a turn of one
    event loop; the calls that a step makes on other objects (notifications,
    detachment, handler tasks, wake-ups) are delivered at its end, in order.

    User calls run to completion here ([Concurrency] has their interleavings), and
    so do rounds ([System] interleaves them). *)

From S2P Require Import Prelude Types Errors Operations Crdts PushBuffer Pack Handler Mutable Transactional PullHandler Server Connectivity Wired Interceptor EventLoop Client.

Section app.
Context {C B : Type} `{ConnectivityOps C} `{ClientDeps}.
Context (build : B) (next : B -> option Z * B).

(** The state of an event loop, without the wired datatype it drives. *)
Record Loop : Type := mkLoop {
  lp_bounded : ListChannel;
  lp_unbounded : ListChannel;
  lp_mode : LoopMode;
  lp_backoff : option B;
  lp_status : LoopStatus;
}.

(** Calls of [metrics::emit_sync] and [metrics::emit_backoff]. *)
Inductive Emission : Type :=
| EmittedSync (attr : Attribute) (success : bool)
| EmittedBackoff (attr : Attribute).

Record App : Type := mkApp {
  app_heap : Heap C;
  app_managers : gmap Cuid DatatypeManager;        (* of the clients *)
  app_loops : gmap Z Loop;                         (* by core *)
  app_interceptors : gmap Z WiredInterceptor;      (* in a test build *)
  app_tasks : list HandlerTask;                    (* handed to the runtime *)
  app_undelivered : list WorldCall;
  app_replies : list (Z * option DatatypeError);   (* sent to waiting callers *)
  app_requests : Z;                                (* one-shot channels made so far *)
  app_emitted : list Emission;                     (* given to the metrics recorder *)
}.

Definition App_new (conn : C) : App := mkApp (mkHeap ∅ conn 0) ∅ ∅ ∅ [] [] [] 0 [].

(** Field assignments. *)
Definition app_set_heap x a := mkApp x (app_managers a) (app_loops a) (app_interceptors a) (app_tasks a) (app_undelivered a) (app_replies a) (app_requests a) (app_emitted a).
Definition app_set_managers x a := mkApp (app_heap a) x (app_loops a) (app_interceptors a) (app_tasks a) (app_undelivered a) (app_replies a) (app_requests a) (app_emitted a).
Definition app_set_loops x a := mkApp (app_heap a) (app_managers a) x (app_interceptors a) (app_tasks a) (app_undelivered a) (app_replies a) (app_requests a) (app_emitted a).
Definition app_set_interceptors x a := mkApp (app_heap a) (app_managers a) (app_loops a) x (app_tasks a) (app_undelivered a) (app_replies a) (app_requests a) (app_emitted a).
Definition app_set_tasks x a := mkApp (app_heap a) (app_managers a) (app_loops a) (app_interceptors a) x (app_undelivered a) (app_replies a) (app_requests a) (app_emitted a).
Definition app_set_undelivered x a := mkApp (app_heap a) (app_managers a) (app_loops a) (app_interceptors a) (app_tasks a) x (app_replies a) (app_requests a) (app_emitted a).
Definition app_set_replies x a := mkApp (app_heap a) (app_managers a) (app_loops a) (app_interceptors a) (app_tasks a) (app_undelivered a) x (app_requests a) (app_emitted a).
Definition app_set_requests x a := mkApp (app_heap a) (app_managers a) (app_loops a) (app_interceptors a) (app_tasks a) (app_undelivered a) (app_replies a) x (app_emitted a).
Definition app_set_emitted x a := mkApp (app_heap a) (app_managers a) (app_loops a) (app_interceptors a) (app_tasks a) (app_undelivered a) (app_replies a) (app_requests a) x.

Definition core_of (core : Z) (a : App) : option TransactionalDatatype := h_cores (app_heap a) !! core.

Definition app_set_core (core : Z) (td : TransactionalDatatype) (a : App) : App :=
  app_set_heap (mkHeap (<[core := td]> (h_cores (app_heap a))) (h_conn (app_heap a))
                  (h_fresh (app_heap a))) a.

Definition alter_loop (f : Loop -> Loop) (core : Z) (a : App) : App :=
  app_set_loops (alter f core (app_loops a)) a.

Definition on_bounded (f : ListChannel -> ListChannel) (l : Loop) : Loop :=
  mkLoop (f (lp_bounded l)) (lp_unbounded l) (lp_mode l) (lp_backoff l) (lp_status l).
Definition on_unbounded (f : ListChannel -> ListChannel) (l : Loop) : Loop :=
  mkLoop (lp_bounded l) (f (lp_unbounded l)) (lp_mode l) (lp_backoff l) (lp_status l).

(** The recorder is told about the datatype of [core]. *)
Definition record_emission (core : Z) (e : Attribute -> Emission) (a : App) : App :=
  match core_of core a with
  | Some td => app_set_emitted (app_emitted a ++ [e (m_attr (td_mutable td))]) a
  | None => a
  end.

(** ** Delivery of the calls of a step *)
Definition deliver_mutable (core : Z) (c : MutableCall) (a : App) : App :=
  match c with
  | SpawnTask t => app_set_tasks (app_tasks a ++ [t]) a
  | DetachDatatype key core_id =>
      (* through the [ClientCommon] that the core's attribute refers to *)
      match core_of core a with
      | Some td =>
          app_set_managers
            (alter (detach_datatype_if_same_instance true key core_id)
               (Attribute_get_cuid (m_attr (td_mutable td))) (app_managers a)) a
      | None => a
      end
  end.

Definition deliver (c : WorldCall) (a : App) : App :=
  match c with
  | CoreCall core c => deliver_mutable core c a
  | ConnCall (SendNotify core n) =>
      alter_loop (on_unbounded (fun q => (send_to_unbounded (Notify n) q).2)) core a
  | EmitSync core success => record_emission core (fun attr => EmittedSync attr success) a
  end.

Definition deliver_td (core : Z) (c : TdCall) (a : App) : App :=
  match c with
  | TdMutable c => deliver_mutable core c a
  | PushBestEffort =>
      alter_loop (on_bounded (send_push_transaction_with_best_effort
                                (conn_is_realtime (h_conn (app_heap a))))) core a
  | PushWithGuarantee => a                         (* sent by [app_send_sync] *)
  | SendStop => alter_loop (on_unbounded (send_stop (app_requests a))) core
                  (app_set_requests (app_requests a + 1) a)
  end.

Definition deliver_all (a : App) : App :=
  foldl (fun a c => deliver c a) (app_set_undelivered [] a) (app_undelivered a).

(** ** The user's calls *)

(** A method of a handle on its core. *)
Definition user_call {E A} (core : Z) (f : TM E A) (a : App) : result E A * App :=
  match core_of core a with
  | None => (Panic "dangling Arc", a)
  | Some td =>
      let '(r, td, w) := f td in
      (r, foldl (fun a c => deliver_td core c a) (app_set_core core td a) w)
  end.

Definition app_build_client (cuid : Cuid) (b : ClientBuilder) (a : App) : result ClientError unit * App :=
  match ClientBuilder_build cuid (app_heap a) b with
  | Ok c => (Ok tt, app_set_managers (<[cuid := cl_manager c]> (app_managers a)) a)
  | Err e => (Err e, a)
  | Panic why => (Panic why, a)
  | Blocked => (Blocked, a)
  end.

(** [EventLoop::new_arc] and [run] for a new core. *)
Definition new_loop : Loop := mkLoop bounded_channel unbounded_channel Normal None Running.

Definition app_build_counter (cuid : Cuid) (duid : Duid) (b : DatatypeBuilder) (a : App)
    : result ClientError DatatypeSet * App :=
  match app_managers a !! cuid with
  | None => (Panic "no such client", a)
  | Some dm =>
      let '(r, c, _) := build_counter duid b (mkClient dm (app_heap a)) in
      let a := app_set_heap (cl_heap c)
                 (app_set_managers (<[cuid := cl_manager c]> (app_managers a)) a) in
      (r, match r with
          | Ok ds => app_set_loops (<[DatatypeSet_get_core_id ds := new_loop]> (app_loops a)) a
          | _ => a
          end)
  end.

Definition app_get_datatype (cuid : Cuid) (key : string) (a : App) : option DatatypeSet :=
  dm ← app_managers a !! cuid; DatatypeManager_get_datatype key dm.

Definition app_unsubscribe_datatype (cuid : Cuid) (key : string) (a : App)
    : result DatatypeError DatatypeSet * App :=
  match app_managers a !! cuid with
  | None => (Panic "no such client", a)
  | Some dm =>
      let '(r, c, w) := unsubscribe_datatype key (mkClient dm (app_heap a)) in
      (r, foldl (fun a cw => deliver_td cw.1 cw.2 a) (app_set_heap (cl_heap c) a) w)
  end.

(** ** Turns of the event loops *)
Definition app_world (a : App) : World C :=
  mkWorld (td_mutable <$> h_cores (app_heap a)) (h_conn (app_heap a)).

(** The heap with the cores and the connectivity of [w]. *)
Definition put_world (w : World C) (a : App) : App :=
  app_set_heap (mkHeap
    (map_imap (fun core td => Some (match w_cores w !! core with
                                    | Some m => td_set_mutable m td
                                    | None => td
                                    end)) (h_cores (app_heap a)))
    (w_conn w) (h_fresh (app_heap a))) a.

Definition interceptor_of (core : Z) (a : App) : WiredInterceptor :=
  default WiredInterceptor_new_arc (app_interceptors a !! core).

Definition add_undelivered (w : list WorldCall) (a : App) : App :=
  app_set_undelivered (app_undelivered a ++ w) a.

(** The wired datatype of [core] in the whole program. *)
Definition app_push_pull (now core : Z) (a : App) : result DatatypeErrorWithAction unit * App :=
  let '(r, h, w) := Wired_push_pull_hooked now core (mkHooked (app_world a) (interceptor_of core a)) in
  (r, add_undelivered w
        (app_set_interceptors (<[core := hk_interceptor h]> (app_interceptors a))
           (put_world (hk_world h) a))).

Definition app_handle_error (core : Z) (err : DatatypeError) (rec : RecoveryAction) (a : App) : App :=
  let '(_, w, calls) := on_core core (handle_error err rec) (app_world a) in
  add_undelivered calls (put_world w a).

Definition app_port (now core : Z) : WiredPort App :=
  {| wp_push_if_needed := fun a => push_if_needed core (app_world a);
     wp_push_pull := app_push_pull now core;
     wp_handle_error := app_handle_error core;
     wp_handle_notification := fun n a => with_core core false (handle_notification n) (app_world a) |}.

Definition loop_state (l : Loop) (a : App) : LoopState App ListChannel B :=
  mkLoopState a (lp_bounded l) (lp_unbounded l) (lp_mode l) (lp_backoff l) (lp_status l).

Definition replies_of (out : list LoopOut) : list (Z * option DatatypeError) :=
  omap (fun o => match o with Respond tx err => Some (tx, err) | _ => None end) out.

Definition deliver_out (core : Z) (a : App) (o : LoopOut) : App :=
  match o with EmitBackoff => record_emission core EmittedBackoff a | _ => a end.

(** The program after a turn of [core]'s loop that left [s]. *)
Definition end_turn (core : Z) (s : LoopState App ListChannel B) (out : list LoopOut) : App :=
  let a := ls_wired s in
  let a := app_set_loops (<[core := mkLoop (ls_bounded s) (ls_unbounded s) (ls_mode s) (ls_backoff s)
                                      (ls_status s)]> (app_loops a)) a in
  foldl (deliver_out core) (deliver_all (app_set_replies (app_replies a ++ replies_of out) a)) out.

(** One turn of [core]'s loop that takes [branch]; [None] when it is not ready. *)
Definition app_turn (now core : Z) (branch : Branch) (a : App) : option App :=
  l ← app_loops a !! core;
  '(s, out) ← @loop_turn _ _ _ (app_port now core) _ build next branch (loop_state l a);
  Some (end_turn core s out).

(** ** [sync] *)

(** The check and the event that [sync] sends; the number of its reply. *)
Definition app_send_sync (core : Z) (a : App) : Z * App :=
  let tx := app_requests a in
  (tx, alter_loop (on_unbounded (fun q => (send_to_unbounded (PushTransaction (Some tx)) q).2)) core
         (app_set_requests (tx + 1) a)).

Definition reply_to (tx : Z) (a : App) : option (option DatatypeError) :=
  match list_find (fun r => r.1 = tx) (app_replies a) with
  | Some (_, r) => Some r.2
  | None => None
  end.

(** The loop of [core] until it replies; [None] when it cannot or [fuel] ends. *)
Fixpoint run_until_reply (fuel : nat) (now core tx : Z) (a : App)
    : option (option DatatypeError) * App :=
  match reply_to tx a with
  | Some reply => (Some reply, a)
  | None =>
      match fuel with
      | O => (None, a)
      | S fuel =>
          match app_turn now core RecvUnbounded a with
          | Some a => run_until_reply fuel now core tx a
          | None => (None, a)
          end
      end
  end.

(** [sync] of a handle, while only the loop of its core runs. *)
Definition app_sync (fuel : nat) (now core : Z) (a : App) : result DatatypeError unit * App :=
  match core_of core a with
  | None => (Panic "dangling Arc", a)
  | Some td =>
      match outcome (check_disabled "sync" td) with
      | Ok _ =>
          let '(tx, a) := app_send_sync core a in
          let '(reply, a) := run_until_reply fuel now core tx a in
          let r := (send_push_transaction_with_guarantee tx reply unbounded_channel).1 in
          (outcome (dt_sync r td), a)
      | _ => (outcome (dt_sync (Ok tt) td), a)
      end
  end.

(** ** Letting the event loops run *)
Fixpoint first_some {A R} (f : A -> option R) (l : list A) : option R :=
  match l with
  | [] => None
  | x :: l => match f x with Some r => Some r | None => first_some f l end
  end.

(** A turn of some loop that is ready, timeouts included if [timers]. *)
Definition ready_turn (now : Z) (timers : bool) (a : App) : option App :=
  first_some (fun core =>
    first_some (fun branch => app_turn now core branch a)
      ([RecvUnbounded; RecvBounded] ++ if timers then [DefaultTimeout] else []))
    (map_to_list (app_loops a)).*1.

Fixpoint settle (fuel : nat) (now : Z) (timers : bool) (a : App) : App :=
  match fuel with
  | O => a
  | S fuel =>
      match ready_turn now timers a with
      | Some a => settle fuel now timers a
      | None => a
      end
  end.

(** ** The recorder is only told *)
Lemma record_emission_only core e (a : App) : exists es, record_emission core e a = app_set_emitted es a.
Proof.
  unfold record_emission. destruct (core_of core a); [by eexists|].
  exists (app_emitted a). by destruct a.
Qed.

Lemma deliver_outs_only core out : forall a : App,
  exists es, foldl (deliver_out core) a out = app_set_emitted es a.
Proof.
  induction out as [|o out IH]; intros a; cbn [foldl].
  - exists (app_emitted a). by destruct a.
  - assert (Ho : exists es, deliver_out core a o = app_set_emitted es a).
    { destruct o; cbn; [by exists (app_emitted a); destruct a..|apply record_emission_only]. }
    destruct Ho as [es ->]. destruct (IH (app_set_emitted es a)) as [es' ->]. by exists es'.
Qed.
End app.

Arguments App C B : clear implicits.
Arguments Loop B : clear implicits.
