(* ===== verification/Lifecycle.v ===== *)
(** * Which datatypes a client manages, over the life of the program

    The whole program of [App] as a step relation, and the agreement that its
    components keep without a common lock: a client manages exactly its datatypes
    that are not [Disabled].  The handles are kept by the manager, the states by the
    datatype cores; a core that becomes [Disabled] asks its client to drop it.

    The proof follows one core through a step: [evolves] says what a computation
    does to the identity and the life of a datatype and which requests to detach it
    makes. *)

From S2P Require Import Prelude Types Errors Operations Crdts PushBuffer Pack Handler Mutable Transactional PullHandler Server Connectivity Wired Interceptor EventLoop Client App.

(** ** Relational triples for methods

    [sound R Q f]: [f] takes every state to an [R]-related one, with the calls it
    made, and fails only with errors in [Q]. *)
Definition sound {S W E A} (R : S -> list W -> S -> Prop) (Q : E -> Prop) (f : M S W E A) : Prop :=
  forall s, let '(r, s', w) := f s in R s w s' /\ forall e, r = Err e -> Q e.

Class Composable {S W} (R : S -> list W -> S -> Prop) : Prop := {
  composable_refl : forall s, R s [] s;
  composable_trans : forall s w s' w' s'', R s w s' -> R s' w' s'' -> R s (w ++ w') s'';
}.

Section sound.
Context {S W E : Type} (R : S -> list W -> S -> Prop) (Q : E -> Prop) `{!Composable R}.

Lemma sound_bind {A B} (f : M S W E A) (g : A -> M S W E B) :
  sound R Q f -> (forall a, sound R Q (g a)) -> sound R Q (f ≫= g).
Proof.
  intros Hf Hg s. specialize (Hf s). unfold mbind, M_bind.
  destruct (f s) as [[[a|e|why|] s'] w]; try (split; [apply Hf|]; by intros ? ?; simplify_eq; eauto).
  - specialize (Hg a s'). destruct (g a s') as [[r s''] w']. split; [|apply Hg].
    eapply composable_trans; [apply Hf|apply Hg].
  - split; [apply Hf|]. intros e' [= <-]. by apply Hf.
Qed.

Lemma sound_ret {A} (a : A) : sound R Q (mret a).
Proof. intros s. split; [apply composable_refl|done]. Qed.

Lemma sound_get : sound R Q get.
Proof. intros s. split; [apply composable_refl|done]. Qed.

Lemma sound_gets {A} (f : S -> A) : sound R Q (gets f).
Proof. intros s. split; [apply composable_refl|done]. Qed.

Lemma sound_panic {A} why : sound (A := A) R Q (panic why).
Proof. intros s. split; [apply composable_refl|done]. Qed.

Lemma sound_fail {A} e : Q e -> sound (A := A) R Q (fail e).
Proof. intros HQ s. split; [apply composable_refl|]. by intros ? [= <-]. Qed.

Lemma sound_lift {A} (r : result E A) : (forall e, r = Err e -> Q e) -> sound R Q (lift r).
Proof. intros HQ s. split; [apply composable_refl|done]. Qed.

Lemma sound_modify (f : S -> S) : (forall s, R s [] (f s)) -> sound R Q (modify f).
Proof. intros H s. by split. Qed.

Lemma sound_for_each {A} (f : A -> M S W E unit) l :
  (forall a, sound R Q (f a)) -> sound R Q (for_each f l).
Proof.
  intros Hf. induction l as [|a l IH]; [apply sound_ret|]. by apply sound_bind.
Qed.

Lemma sound_decide {A} (P : Prop) `{Decision P} (f g : M S W E A) :
  sound R Q f -> sound R Q g -> sound R Q (if decide P then f else g).
Proof. by destruct (decide P). Qed.
End sound.

(** The rules, with the relation's laws found by instances. *)
Ltac sound_bind := apply sound_bind; [apply _| |].
Ltac sound_end := first [apply sound_ret|apply sound_get|apply sound_gets|apply sound_panic]; apply _.

(** ** The life of a datatype core *)
Definition same_identity (m m' : MutableDatatype) : Prop :=
  attr_key (m_attr m') = attr_key (m_attr m) /\
  (attr_client_common (m_attr m') = attr_client_common (m_attr m) /\
   attr_type (m_attr m') = attr_type (m_attr m)) /\
  attr_weak_transactional (m_attr m') = attr_weak_transactional (m_attr m).

(** The requests to detach among calls. *)
Definition detaches : list MutableCall -> list (string * Z) :=
  omap (fun c => match c with DetachDatatype key core_id => Some (key, core_id) | SpawnTask _ => None end).

(** The request that a core makes for itself. *)
Definition own_detach (m : MutableDatatype) : list (string * Z) :=
  match Attribute_detach_datatype_if_same_instance (m_attr m) with Some d => [d] | None => [] end.

(** The handler tasks among calls hold the datatype itself. *)
Definition own_tasks (m : MutableDatatype) : list MutableCall -> Prop :=
  Forall (fun c => match c with
                   | SpawnTask t => Attribute_get_datatype_set (m_attr m) = Some (task_datatype t)
                   | DetachDatatype _ _ => True
                   end).

(** No request to detach. *)
Definition quiet (m : MutableDatatype) (w : list MutableCall) : Prop := detaches w = [] /\ own_tasks m w.

(** A computation that leaves the life of the datatype alone. *)
Definition still (m : MutableDatatype) (w : list MutableCall) (m' : MutableDatatype) : Prop :=
  same_identity m m' /\ m_state m' = m_state m /\ quiet m w /\
  (pending (m_tx_record m) = None -> pending (m_tx_record m') = None).

(** A computation, outside a transaction, that may disable the datatype, which is
    final and requested to the client exactly once. *)
Definition evolves (m : MutableDatatype) (w : list MutableCall) (m' : MutableDatatype) : Prop :=
  pending (m_tx_record m) = None ->
  pending (m_tx_record m') = None /\ same_identity m m' /\
  (m_state m = Disabled -> m_state m' = Disabled) /\
  detaches w = (if decide (m_state m <> Disabled /\ m_state m' = Disabled) then own_detach m else []) /\
  own_tasks m w.

Lemma same_identity_refl m : same_identity m m.
Proof. done. Qed.

Lemma same_identity_trans m m' m'' : same_identity m m' -> same_identity m' m'' -> same_identity m m''.
Proof. unfold same_identity. intuition congruence. Qed.

Lemma own_detach_identity m m' : same_identity m m' -> own_detach m' = own_detach m.
Proof.
  intros (Hk & _ & Hw). unfold own_detach, Attribute_detach_datatype_if_same_instance, Attribute_upgrade.
  by rewrite Hk, Hw.
Qed.

Lemma own_tasks_identity m m' w : same_identity m m' -> own_tasks m' w -> own_tasks m w.
Proof.
  intros (_ & [_ Ht] & Hw). unfold own_tasks, Attribute_get_datatype_set, Attribute_upgrade.
  by rewrite Ht, Hw.
Qed.

Lemma own_tasks_app m w w' : own_tasks m w -> own_tasks m w' -> own_tasks m (w ++ w').
Proof. intros. by apply Forall_app. Qed.

Lemma quiet_nil m : quiet m [].
Proof. by split; [|apply Forall_nil]. Qed.

#[local] Hint Resolve quiet_nil : core.

Lemma own_task_of m (o : option HandlerTask) ev hm :
  o = HandlersManager_dispatch (m_attr m) ev hm ->
  own_tasks m (match o with Some t => [SpawnTask t] | None => [] end).
Proof.
  intros ->. unfold HandlersManager_dispatch. destruct (Attribute_get_datatype_set _) as [ds|] eqn:Hds;
    cbn; [|apply Forall_nil; done]. by apply Forall_singleton.
Qed.

Lemma detaches_app w w' : detaches (w ++ w') = detaches w ++ detaches w'.
Proof. apply omap_app. Qed.

#[export] Instance still_composable : Composable still.
Proof.
  split; [intros m; split; [done|]; split; [done|]; split; [apply quiet_nil|done]|].
  intros m w m' w' m'' (Hi & Hs & [Hd Ht] & Hp) (Hi' & Hs' & [Hd' Ht'] & Hp').
  split; [by eapply same_identity_trans|]. split; [congruence|].
  split; [split; [by rewrite detaches_app, Hd, Hd'|]|auto].
  apply own_tasks_app; [done|]. by eapply own_tasks_identity.
Qed.

#[export] Instance evolves_composable : Composable evolves.
Proof.
  split.
  - intros m Hp. split; [done|]. split; [done|]. split; [done|].
    split; [by rewrite decide_False by naive_solver|apply quiet_nil].
  - intros m w m' w' m'' He He' Hp. destruct (He Hp) as (Hp' & Hi & Hs & Hd & Ht).
    destruct (He' Hp') as (Hp'' & Hi' & Hs' & Hd' & Ht'). split; [done|].
    split; [by eapply same_identity_trans|]. split; [auto|].
    split; [|apply own_tasks_app; [done|by eapply own_tasks_identity]].
    rewrite detaches_app, Hd, Hd', (own_detach_identity _ _ Hi).
    repeat case_decide; rewrite ?app_nil_r; try done; naive_solver.
Qed.

Lemma still_evolves m w m' : still m w m' -> evolves m w m'.
Proof.
  intros (Hi & Hs & [Hd Ht] & Hp) Hn. split; [auto|]. split; [done|]. split; [congruence|].
  split; [|done]. rewrite Hd, decide_False; [done|]. rewrite Hs. naive_solver.
Qed.

Lemma sound_still_evolves {E A} Q (f : MM E A) : sound still Q f -> sound evolves Q f.
Proof.
  intros Hf m. specialize (Hf m). destruct (f m) as [[r m'] w]. split; [|apply Hf].
  apply still_evolves, Hf.
Qed.

Lemma set_state_evolves {E} st m : (m_state m = Disabled -> st = Disabled) ->
  evolves m (calls (@Mutable_set_state E st m)) (m_put_state st m).
Proof.
  intros Hst Hp. split; [done|]. split; [done|]. split; [done|].
  rewrite set_state_eq. cbn -[decide].
  assert (Hd : detaches (state_change_calls m st) = if decide (st = Disabled) then own_detach m else []).
  { unfold state_change_calls, own_detach. rewrite detaches_app.
    destruct (HandlersManager_notify_state_change _ _ _ _); case_decide; try done;
      by destruct (Attribute_detach_datatype_if_same_instance _) as [[??]|]. }
  split.
  { repeat case_decide; rewrite ?Hd; try case_decide; try done; naive_solver. }
  destruct (decide (m_state m = st)); [apply quiet_nil|]. unfold state_change_calls. apply own_tasks_app.
  - by eapply own_task_of.
  - destruct (decide (st = Disabled)); [|apply quiet_nil]. destruct (Attribute_detach_datatype_if_same_instance _) as [[??]|];
      [by apply Forall_singleton|apply quiet_nil].
Qed.

(** ** A pulled pack *)

(** The actions that never make a [Disabled] datatype live again. *)
Definition never_resubscribes (e : DatatypeErrorWithAction) : Prop :=
  recovery e <> Resubscribe /\ recovery e <> ResubscribeWithBackOff.

Lemma mapping_never_resubscribes A e d :
  routed (A := A) (DatatypeError_mapping e) = Err d -> never_resubscribes d.
Proof. destruct e; simpl; intros [= <-]; done. Qed.

Lemma with_mapping_sound {S W A} R (f : M S W DatatypeError A) :
  sound R (fun _ => True) f -> sound R never_resubscribes (with_mapping f).
Proof.
  intros Hf s. specialize (Hf s). unfold with_mapping. destruct (f s) as [[r s'] w].
  split; [apply Hf|]. intros e. destruct r; try done. apply mapping_never_resubscribes.
Qed.

(** The handler decides without touching the datatype; a state other than the
    pulled one is [Disabled]. *)
Definition prepares (h : PullHandler) (w : list MutableCall) (h' : PullHandler) : Prop :=
  ph_mutable h' = ph_mutable h /\ ph_pulled h' = ph_pulled h /\ w = [] /\
  (ph_new_state h' = ph_new_state h \/ ph_new_state h' = Disabled \/
   ph_new_state h' = ppp_state (ph_pulled h)).

(** The steps do not change the state, nor the one to come. *)
Definition steps (h : PullHandler) (w : list MutableCall) (h' : PullHandler) : Prop :=
  still (ph_mutable h) w (ph_mutable h') /\ ph_new_state h' = ph_new_state h.

#[export] Instance prepares_composable : Composable prepares.
Proof.
  split; [intros h; unfold prepares; auto|].
  intros h w h' w' h'' (Hm & Hp & -> & Hn) (Hm' & Hp' & -> & Hn').
  unfold prepares. rewrite Hm', Hp', Hm, Hp in *. intuition congruence.
Qed.

#[export] Instance steps_composable : Composable steps.
Proof.
  split; [intros h; split; [apply composable_refl|done]|].
  intros h w h' w' h'' [Hs Hn] [Hs' Hn']. split; [by eapply composable_trans|congruence].
Qed.

Lemma handle_error_and_datatype_state_sound :
  sound prepares never_resubscribes handle_error_and_datatype_state.
Proof.
  assert (Hlift : forall A e, sound (A := A) prepares never_resubscribes
    (lift (routed (DatatypeError_mapping e)))).
  { intros A e. apply sound_lift; [apply _|]. apply mapping_never_resubscribes. }
  assert (Hmod : forall f, (forall h, prepares h [] (f h)) ->
    sound prepares never_resubscribes (modify f)).
  { intros f Hf h. by split. }
  assert (Hexp : forall st, sound prepares never_resubscribes (expect_state st)).
  { intros st. sound_bind; [sound_end|]. intros h.
    apply sound_decide; [|sound_end].
    sound_bind; [ |intros _; apply Hlift]. apply Hmod. intros h'.
    unfold prepares; simpl; intuition auto. }
  sound_bind; [ |].
  { apply Hmod. intros h. unfold prepares; simpl; intuition auto. }
  intros _. sound_bind; [sound_end|]. intros h.
  destruct (ppp_error (ph_pulled h)); [apply Hlift|].
  destruct (ph_old_state h); try apply Hexp; try (sound_end);
    (sound_bind; [apply Hexp|]); intros _; try apply sound_decide;
    apply Hmod; intros h'; unfold prepares; simpl; intuition auto.
Qed.

Lemma apply_snapshot_still tx : sound still (fun _ => True) (Mutable_apply_snapshot_transaction tx).
Proof.
  unfold Mutable_apply_snapshot_transaction.
  destruct (tx_operations tx) as [|op ops]; [by apply sound_fail; [apply _|]|].
  destruct (op_body op); [by apply sound_fail; [apply _|]|].
  sound_bind; [ |intros _; sound_bind; [ |intros _]].
  - intros m. unfold on_crdt. destruct (Crdt_deserialize _ _). by split.
  - by apply sound_modify.
  - by apply sound_modify.
Qed.

Lemma execute_remote_still tx : sound still (fun _ => True) (Mutable_execute_remote_transaction tx).
Proof.
  apply sound_for_each; [apply _|]. intros op. unfold execute_remote_operation.
  sound_bind; [by apply sound_modify|]. intros _.
  sound_bind; [ |intros; sound_end].
  intros m. unfold on_crdt. destruct (Crdt_execute_remote_operation _ _). by split.
Qed.

Lemma on_mutable_sound {E A} Q (f : MM E A) : sound still Q f -> sound steps Q (on_mutable f).
Proof.
  intros Hf h. specialize (Hf (ph_mutable h)). unfold on_mutable.
  destruct (f (ph_mutable h)) as [[r m] w]. split; [|apply Hf]. split; [apply Hf|done].
Qed.

Lemma run_step_sound step : sound steps never_resubscribes (run_step step).
Proof.
  destruct step; simpl.
  - sound_bind; [sound_end|]. intros h.
    sound_bind; [ |intros _; by apply sound_modify].
    destruct (ppp_snapshot_transaction _); [|sound_end].
    sound_bind; [by apply sound_modify|]. intros _.
    apply with_mapping_sound, on_mutable_sound, apply_snapshot_still.
  - apply sound_modify. intros h. cbv zeta. by destruct (_ <? _).
  - sound_bind; [sound_end|]. intros h.
    apply sound_for_each; [apply _|]. intros tx.
    apply with_mapping_sound, on_mutable_sound, execute_remote_still.
  - by apply sound_modify.
Qed.

(** A pulled pack makes the datatype evolve, unless it is the answer of another
    state to a [Disabled] datatype. *)
Lemma apply_pulled_evolves pulled m : (m_state m = Disabled -> ppp_state pulled = Disabled) ->
  evolves m (calls (apply_pulled pulled m)) (final (apply_pulled pulled m)) /\
  forall e, outcome (apply_pulled pulled m) = Err e -> never_resubscribes e.
Proof.
  intros Hst. unfold apply_pulled, PullHandler_apply.
  set (prep := handle_error_and_datatype_state ;; _).
  assert (Hprep : sound prepares never_resubscribes prep).
  { assert (Hq : forall step, sound prepares never_resubscribes (enqueue_step step)).
    { intros step. apply sound_modify. intros h. unfold prepares; simpl; intuition auto. }
    sound_bind; [apply handle_error_and_datatype_state_sound|]. intros _.
    do 2 (sound_bind; [apply Hq|]; intros _). apply Hq. }
  specialize (Hprep (PullHandler_new pulled m)).
  unfold mbind, M_bind, attempt.
  destruct (prep (PullHandler_new pulled m)) as [[r h] w]. destruct Hprep as [(Hm & Hp & -> & Hn) Hr].
  cbn in Hm, Hp, Hn.
  assert (Hcommit : evolves m (calls (PullHandler_commit h)) (ph_mutable (final (PullHandler_commit h))) /\
    forall e, outcome (PullHandler_commit h) = Err e -> never_resubscribes e).
  { rewrite commit_eq.
    pose proof (sound_for_each steps never_resubscribes run_step (ph_pending_steps h) run_step_sound
      (ph_set_pending_steps [] h)) as Hs.
    unfold mbind, M_bind, get, on_mutable.
    destruct (for_each run_step _ _) as [[[[]|e|why|] h'] w]; destruct Hs as [[Hs Hn'] He];
      cbn in Hs, Hn'; rewrite Hm in Hs; cbn [outcome calls final ph_mutable fst snd];
      try (split; [by apply still_evolves|done]).
    rewrite set_state_eq. cbn -[decide]. split; [|done].
    eapply composable_trans; [by apply still_evolves|].
    pose proof (set_state_evolves (E := DatatypeErrorWithAction) (ph_new_state h') (ph_mutable h'))
      as Hset. rewrite set_state_eq in Hset. apply Hset.
    destruct Hs as (_ & Hst' & _). rewrite Hst', Hn'. intros Hd.
    destruct Hn as [Hn|[Hn|Hn]]; rewrite Hn; auto. }
  destruct r as [[]|e|why|]; cbn [app calls final outcome fst snd ph_mutable];
    try (split; [rewrite Hm; apply composable_refl|done]);
    destruct (PullHandler_commit h) as [[[[]|e'|why'|] h'] w']; cbn in *; rewrite ?app_nil_r;
    (split; [apply Hcommit|]); try done; intros ? [= <-]; try by apply Hr. all: by apply Hcommit.
Qed.

(** The action routed for an error, as the event loop runs it. *)
Lemma handle_error_evolves err rec :
  never_resubscribes (DatatypeErrorWithAction_new err rec) ->
  sound evolves (fun _ => True) (handle_error err rec).
Proof.
  intros [Hn1 Hn2]. sound_bind; [ |intros _].
  - destruct rec; try done; try (sound_end).
    + intros m. unfold Mutable_apply_action, Mutable_do_rollback.
      destruct (pending (m_tx_record m)) eqn:Hp; [|split; [apply composable_refl|done]].
      match goal with |- let '_ := ?x in _ => destruct x as [[??]?] end.
      split; [|done]. intros Hp'. congruence.
    + sound_bind; [ |intros _].
      * apply sound_modify. intros m. by apply still_evolves.
      * intros m. pose proof (set_state_evolves (E := DatatypeError) Disabled m (fun _ => eq_refl)) as H.
        rewrite set_state_eq in *. by split.
  - intros m. split; [|done]. apply still_evolves. split; [done|]. split; [done|]. split; [|done].
    split; [by destruct (HandlersManager_notify_error _ _ _)|]. by eapply own_task_of.
Qed.

(** ** A synchronization round *)

(** A connectivity never brings a [Disabled] datatype back. *)
Class RefusesDisabled (C : Type) `{ConnectivityOps C} : Prop :=
  refuses_disabled : forall snap p c q, ppp_state p = Disabled ->
    outcome (conn_push_pull snap p c) = Ok q -> ppp_state q = Disabled.

#[export] Instance local_refuses_disabled fk :
  RefusesDisabled LocalConnectivity (H := local_connectivity fk).
Proof.
  intros snap p c q Hp. simpl. unfold LocalConnectivity_push_pull, mbind, M_bind, get, modify, mret,
    M_ret. destruct (get_local_datatype_server _ _) as [arc|]; [|by intros [= <-]].
  unfold push_pull_process. destruct (lc_arcs c !! arc); [|done].
  unfold process. rewrite Hp. simpl. by intros [= <-].
Qed.

#[export] Instance null_refuses_disabled : RefusesDisabled NullConnectivity.
Proof. intros snap p c q Hp. simpl. unfold NullConnectivity_push_pull. by rewrite Hp. Qed.

(** The requests to detach among the calls of a round, with the core that made them. *)
Definition world_detaches : list WorldCall -> list (Z * (string * Z)) :=
  omap (fun c => match c with
                 | CoreCall core (DetachDatatype key core_id) => Some (core, (key, core_id))
                 | _ => None
                 end).

Lemma world_detaches_core core w :
  world_detaches (CoreCall core <$> w) = (fun d => (core, d)) <$> detaches w.
Proof. induction w as [|[t|k i] w IH]; [done|exact IH|]. cbn. f_equal. exact IH. Qed.

Lemma world_detaches_conn w : world_detaches (ConnCall <$> w) = [].
Proof. by induction w. Qed.

Lemma world_detaches_app w w' : world_detaches (w ++ w') = world_detaches w ++ world_detaches w'.
Proof. apply omap_app. Qed.

(** The requests of a core among the calls of a round, as the core made them. *)
Definition world_calls (core : Z) (mc : list MutableCall) (cs : list WorldCall) : Prop :=
  world_detaches cs = (fun d => (core, d)) <$> detaches mc /\
  forall c t, CoreCall c (SpawnTask t) ∈ cs -> c = core /\ SpawnTask t ∈ mc.

Lemma world_calls_nil core : world_calls core [] [].
Proof. split; [done|]. by intros c t ?%not_elem_of_nil. Qed.

Lemma world_calls_app core mc mc' cs cs' :
  world_calls core mc cs -> world_calls core mc' cs' -> world_calls core (mc ++ mc') (cs ++ cs').
Proof.
  intros [Hd Ht] [Hd' Ht']. split; [by rewrite world_detaches_app, Hd, Hd', detaches_app, fmap_app|].
  intros c t [[-> ?]%Ht|[-> ?]%Ht']%elem_of_app; (split; [done|]); apply elem_of_app; auto.
Qed.

Lemma world_calls_core core w : world_calls core w (CoreCall core <$> w).
Proof.
  split; [apply world_detaches_core|]. by intros c t (x & [= -> ->] & ?)%list_elem_of_fmap.
Qed.

Lemma world_calls_conn core w : world_calls core [] (ConnCall <$> w).
Proof. split; [apply world_detaches_conn|]. by intros c t (x & ? & _)%list_elem_of_fmap. Qed.

Lemma world_calls_emit core c b : world_calls core [] [EmitSync c b].
Proof. split; [done|]. by intros c' t ?%list_elem_of_singleton. Qed.

Section rounds.
Context {C : Type} `{RefusesDisabled C}.

Lemma create_push_pull_pack_state m :
  create_push_pull_pack m = (outcome (create_push_pull_pack m), m, []) /\
  forall p, outcome (create_push_pull_pack m) = Ok p -> ppp_state p = m_state m.
Proof.
  unfold create_push_pull_pack. destruct (get_pushing_transactions _ _ _) as [[txs sz]| | |]; try done.
  split; [done|]. by intros p [= <-].
Qed.

(** What a round does to the core it is for, and to nothing else. *)
Definition round_of (core : Z) (w : World C) (r : result DatatypeErrorWithAction unit) (w' : World C)
    (cs : list WorldCall) : Prop :=
  forall m, w_cores w !! core = Some m ->
  (exists m' mc, w_cores w' = <[core := m']> (w_cores w) /\ evolves m mc m' /\
     world_calls core mc cs) /\
  forall e, r = Err e -> never_resubscribes e.

Lemma do_push_pull_round now core w :
  let '(r, w', cs) := do_push_pull now core w in round_of core w r w' cs.
Proof.
  destruct (do_push_pull now core w) as [[r w'] cs] eqn:Hdo. intros m Hm.
  destruct (create_push_pull_pack_state m) as [Hc Hst].
  unfold do_push_pull, mbind, M_bind, on_core at 1 in Hdo. rewrite Hm in Hdo.
  unfold with_mapping in Hdo. rewrite Hc in Hdo.
  assert (Hid : <[core := m]> (w_cores w) = w_cores w) by by apply insert_id.
  assert (Hsame : forall cs0, world_calls core [] cs0 -> exists m' mc,
    w_cores w = <[core := m']> (w_cores w) /\ evolves m mc m' /\ world_calls core mc cs0).
  { intros cs0 Hcs. exists m, []. split; [done|]. split; [apply composable_refl|exact Hcs]. }
  destruct (outcome (create_push_pull_pack m)) as [p|e|why|] eqn:Hp; cbn in Hdo; last 2 first.
  1,2: simplify_eq; cbn; rewrite Hid; split; [apply Hsame, world_calls_nil|by intros ? ?].
  2:{ destruct (routed (DatatypeError_mapping e)) as [q|d|why|] eqn:Hr in Hdo; [by destruct e| |..];
        simplify_eq; cbn; rewrite Hid; (split; [apply Hsame, world_calls_nil|]); intros ? [= <-].
      by eapply mapping_never_resubscribes. }
  unfold call_push_pull in Hdo. cbn [w_cores w_conn] in Hdo. rewrite Hid in Hdo.
  set (snap := snapshots now _) in Hdo.
  destruct (conn_push_pull snap p (w_conn w)) as [[rq conn] cc] eqn:Hq.
  destruct rq as [q|e|why|]; cbn in Hdo; last 2 first.
  1,2: simplify_eq; cbn; rewrite ?app_nil_r; split; [apply Hsame, world_calls_conn|by intros ? ?].
  2:{ destruct (routed _) as [q|d|why|] eqn:Hr in Hdo; [by destruct e| |..];
        simplify_eq; cbn; rewrite ?app_nil_r; (split; [apply Hsame, world_calls_conn|]); intros ? [= <-].
      by eapply mapping_never_resubscribes. }
  unfold on_core in Hdo. cbn [w_cores w_conn] in Hdo. rewrite Hm in Hdo.
  destruct (apply_pulled_evolves q m) as [He Herr].
  { intros Hd. eapply refuses_disabled; [|by rewrite Hq]. by rewrite (Hst p). }
  destruct (apply_pulled q m) as [[r1 m1] mc] eqn:Hap. cbn in *. simplify_eq. cbn.
  split; [|done]. exists m1, mc. split; [done|]. split; [done|].
  apply (world_calls_app core [] mc); [apply world_calls_conn|apply world_calls_core].
Qed.

Lemma push_pull_round now core w :
  let '(r, w', cs) := Wired_push_pull now core w in round_of core w r w' cs.
Proof.
  pose proof (do_push_pull_round now core w) as Hdo.
  unfold Wired_push_pull, attempt, mbind, M_bind.
  destruct (do_push_pull now core w) as [[[[]|e|why|] w'] cs]; try exact Hdo; cbn;
    intros m Hm; destruct (Hdo m Hm) as [(m' & mc & Hw & He & Hd) Hr]; (split; [|done]);
    exists m', mc; (split; [done|]); (split; [done|]);
    try (rewrite <- (app_nil_r mc); apply world_calls_app; [done|apply world_calls_emit]); exact Hd.
Qed.
End rounds.

(** ** Calls of the user *)

(** [m] inside a transaction that began at [m0]: the state to roll back to is the
    one it has. *)
Definition within (m0 m : MutableDatatype) : Prop :=
  m_attr m = m_attr m0 /\ m_state m = m_state m0 /\
  forall tx, pending (m_tx_record m) = Some tx ->
    counter_tx tx = true /\ rollback_state (m_tx_record m) = m_state m0.

Definition at_rest (t : TransactionalDatatype) : Prop :=
  idle t /\ pending (m_tx_record (td_mutable t)) = None.

(** The requests to detach among the calls of a method of the user. *)
Definition mutable_calls : list TdCall -> list MutableCall :=
  omap (fun c => match c with TdMutable c => Some c | _ => None end).

Definition td_detaches (w : list TdCall) : list (string * Z) := detaches (mutable_calls w).

Definition td_quiet (m : MutableDatatype) (w : list TdCall) : Prop := quiet m (mutable_calls w).

#[local] Hint Extern 0 (td_quiet _ _) => exact (quiet_nil _) : core.
#[local] Hint Extern 0 (own_tasks _ _) => exact (proj2 (quiet_nil _)) : core.

Lemma mutable_calls_mutable w : mutable_calls (TdMutable <$> w) = w.
Proof. induction w as [|c w IH]; [done|]. cbn. f_equal. exact IH. Qed.

Lemma within_refl m : pending (m_tx_record m) = None -> within m m.
Proof. intros Hp. split_and!; [done..|congruence]. Qed.

Lemma execute_within m0 m op : within m0 m -> is_counter_op op = true ->
  exists v m', Mutable_execute_local_operation op m = (Ok (RetCounter v), m', []) /\ within m0 m'.
Proof.
  intros (Ha & Hs & Hp) Hop. unfold Mutable_execute_local_operation.
  rewrite local_lamport, Crdt_execute_local_counter by done.
  unfold TxRecord_record_operation. destruct (pending (m_tx_record _)) as [tx|] eqn:Htx;
    cbn in Htx; do 2 eexists; (split; [reflexivity|]); split_and!; try done; intros tx' [= <-]; cbn.
  - destruct (Hp tx eq_refl) as [Hc Hr]. split; [|done].
    unfold counter_tx in *. cbn. rewrite forallb_app, Hc. cbn. by rewrite andb_true_r.
  - unfold counter_tx. cbn. by rewrite andb_true_r.
Qed.

Lemma undo_counter_ops {E} ops m : forallb is_counter_op ops = true ->
  exists c, for_each (@undo_operation E) ops m = (Ok tt, m_set_crdt c m, []).
Proof.
  revert m. induction ops as [|op ops IH]; intros m Hops.
  - exists (m_crdt m). by destruct m.
  - cbn in Hops. apply andb_true_iff in Hops as [Hop Hops]. cbn [for_each].
    assert (exists c, @undo_operation E op m = (Ok tt, m_set_crdt c m, [])) as [c Hc].
    { unfold undo_operation, Crdt_execute_inverse_operation, CounterCrdt_execute_inverse_operation.
      unfold is_counter_op in Hop. destruct (m_crdt m), (op_body op); try done. by eexists. }
    destruct (IH (m_set_crdt c m) Hops) as [c' Hc']. exists c'.
    by erewrite M_bind_Ok, Hc' by exact Hc.
Qed.

Lemma rollback_within {E} m0 m : within m0 m ->
  exists m', @Mutable_do_rollback E m = (Ok tt, m', []) /\ within m0 m' /\
    pending (m_tx_record m') = None.
Proof.
  intros Hw. unfold Mutable_do_rollback.
  destruct (pending (m_tx_record m)) as [tx|] eqn:Htx; [|by exists m].
  destruct Hw as (Ha & Hs & Hp). destruct (Hp tx Htx) as [Hc Hr].
  destruct (@undo_counter_ops E (rev (tx_operations tx)) (set_pending None m)) as [c Hundo].
  { unfold counter_tx in Hc. rewrite forallb_forall in *. intros op Hin%in_rev. auto. }
  eexists. split; [|split].
  - erewrite M_bind_Ok by exact Hundo. erewrite M_bind_Ok by reflexivity.
    erewrite M_bind_Ok by reflexivity. rewrite set_state_eq.
    cbn -[decide state_change_calls]. rewrite decide_True by congruence. reflexivity.
  - by split_and!.
  - done.
Qed.

(** The end of a transaction, on every path. *)
Lemma end_within {E} m0 m tag b c tm : within m0 m ->
  exists m' w, td_end_transaction tag b (mkTransactionalDatatype m c false tm) =
    (@Ok E unit tt, mkTransactionalDatatype m' None false false, w) /\
    within m0 m' /\ pending (m_tx_record m') = None /\ td_quiet m0 w.
Proof.
  intros Hw.
  enough (exists m' w, @end_mutable E tag b (mkTransactionalDatatype m c false tm) =
    (Ok tt, mkTransactionalDatatype m' c false tm, w) /\
    within m0 m' /\ pending (m_tx_record m') = None /\ td_quiet m0 w) as (m' & w & Hend & Hrest).
  { exists m', (w ++ []). split.
    - unfold td_end_transaction. erewrite M_bind_Ok by exact Hend.
      unfold mbind, M_bind, modify, tx_mutex_unlock, NoGuardMutex_unlock. by destruct tm.
    - by rewrite app_nil_r. }
  destruct (rollback_within (E := DatatypeErrorWithAction) m0 m Hw) as (m1 & Hroll & Hw1 & Hp1).
  unfold end_mutable, Mutable_end_transaction. cbn [td_mutable]. destruct b; cbn [negb].
  2:{ exists m1, []. erewrite M_bind_Ok by exact Hroll. done. }
  destruct (pending (m_tx_record m)) as [tx|] eqn:Htx; last first.
  { exists m, [PushBestEffort]. done. }
  destruct Hw as (Ha & Hs & Hp). destruct (Hp tx Htx) as [Hc Hr].
  case_decide; last first.
  { eexists _, [PushBestEffort]. by split_and!. }
  assert (Henq : (enqueue (Transaction_set_tag tag tx) (m_push_buffer m)).1 = Ok tt \/
    exists e, (enqueue (Transaction_set_tag tag tx) (m_push_buffer m)).1 = Err e /\
      recovery e = RollbackTransaction).
  { unfold enqueue. destruct (_ && _); [right; by eexists|].
    destruct (_ <? _); [right; by eexists|by left]. }
  cbn -[enqueue decide]. destruct (enqueue _ (m_push_buffer m)) as [r buf].
  destruct Henq as [Hr'|(e & Hr' & Hrec)]; cbn in Hr'; subst r; cbn.
  { eexists _, [PushBestEffort]. by split_and!. }
  set (m2 := set_pending _ _).
  destruct (rollback_within (E := E) m0 m2) as (m3 & Hroll3 & Hw3 & Hp3).
  { split_and!; [done|done|]. intros tx' [= <-]. by split. }
  rewrite Hrec. unfold mbind, M_bind, locked. cbn [Mutable_apply_action td_set_mutable td_mutable].
  rewrite Hroll3. cbn -[fmap]. do 2 eexists. split; [reflexivity|]. split; [exact Hw3|]. split; [exact Hp3|].
  destruct Hw3 as (Ha3 & _). rewrite Ha3. unfold td_quiet, quiet, own_tasks.
  destruct (HandlersManager_notify_error _ _ _) as [t|] eqn:Ht; cbn; [|apply quiet_nil].
  split; [done|]. apply Forall_singleton. symmetry in Ht. pose proof (own_task_of m0 _ _ _ Ht) as Hown.
  apply (proj1 (Forall_singleton _ _) Hown).
Qed.

(** What a call of the user leaves: the datatype at rest, in the same life. *)
Definition rests {A} (t : TransactionalDatatype)
    (x : result DatatypeError A * TransactionalDatatype * list TdCall) : Prop :=
  at_rest (final x) /\ still (td_mutable t) [] (td_mutable (final x)) /\ td_quiet (td_mutable t) (calls x).

Lemma within_still m0 m : within m0 m -> pending (m_tx_record m) = None -> still m0 [] m.
Proof. intros (Ha & Hs & _) Hp. unfold still, same_identity. by rewrite Ha. Qed.

Lemma rests_same {A} t (r : result DatatypeError A) : at_rest t -> rests t (r, t, []).
Proof. intros Ht. split; [done|]. split; [apply composable_refl|done]. Qed.

Lemma check_writable_refuses t : writable t = false ->
  exists e, check_writable t = (Err e, t, []).
Proof. intros Hw. rewrite check_writable_eq, Hw. destruct (DatatypeState_is_read_writable _); eauto. Qed.

Lemma increase_rests fuel fresh now d h t : at_rest t -> rests t (Counter_increase_by fuel fresh now d h t).
Proof.
  intros Ht. unfold Counter_increase_by, execute_local_operation_as_tx.
  destruct (writable t) eqn:Hw; last first.
  { destruct (check_writable_refuses t Hw) as [e He].
    erewrite M_bind_Err by (erewrite M_bind_Err by exact He; reflexivity). by apply rests_same. }
  destruct fuel as [|fuel]; [|].
  { erewrite M_bind_Blocked; [by apply rests_same|].
    erewrite M_bind_Ok by (rewrite check_writable_eq, Hw; reflexivity). reflexivity. }
  destruct Ht as [(Hc & Ho & Htm) Hp]. destruct t as [m c om tm]; cbn in *. subst.
  set (op := Operation_new_counter_increase now d).
  destruct (execute_within m m op (within_refl m Hp) eq_refl) as (v & m1 & Hex & Hw1).
  destruct (end_within (E := DatatypeError) m m1 (ctx_tag (started_ctx fresh (ch_tx_ctx h))) true
    (Some (started_ctx fresh (ch_tx_ctx h))) false Hw1) as (m2 & w & Hend & Hw2 & Hp2 & Hd).
  erewrite M_bind_Ok; last first.
  { erewrite M_bind_Ok by (rewrite check_writable_eq, Hw; reflexivity).
    unfold execute_checked. erewrite M_bind_Ok; last first.
    { cbn [begin_loop]. erewrite M_bind_Ok by by apply begin_idle. reflexivity. }
    unfold guarded. erewrite M_bind_Ok by reflexivity.
    erewrite M_bind_Ok; last first.
    { unfold locked. cbn [td_mutable td_set_tx_ctx td_set_op_mutex]. rewrite Hex. reflexivity. }
    cbn -[td_end_transaction]. unfold DeferGuard_drop. cbn -[td_end_transaction].
    erewrite M_bind_Ok by reflexivity. cbn -[td_end_transaction].
    erewrite M_bind_Ok by exact Hend. cbn. reflexivity. }
  cbn. rewrite !app_nil_r. split_and!; try done; by apply within_still.
Qed.

(** The closures of users: increments through the handle that the transaction
    gives them, and how they end; [show] makes their errors. *)
Inductive TxEnding : Type := TxReturns | TxFails (e : string) | TxPanics (why : string).

Definition tx_increases (fresh now : Z) (show : DatatypeError -> string) (deltas : list Z)
    (ending : TxEnding) (h : CounterHandle) : TM string unit :=
  for_each (fun d => with_err show (Counter_increase_by 1 fresh now d h) ;; mret tt) deltas ;;
  match ending with
  | TxReturns => mret tt
  | TxFails e => fail e
  | TxPanics why => panic why
  end.

(** A transaction [ctx] that began at [m0], between two operations. *)
Definition in_progress (m0 : MutableDatatype) (ctx : TransactionContext) (t : TransactionalDatatype) : Prop :=
  td_tx_ctx t = Some ctx /\ td_op_mutex t = false /\ td_tx_mutex t = true /\ within m0 (td_mutable t).

(** A method that keeps the transaction in progress, and returns. *)
Definition progresses {E A} m0 ctx (f : TM E A) : Prop :=
  forall t, in_progress m0 ctx t ->
    outcome (f t) <> Blocked /\ in_progress m0 ctx (final (f t)) /\ calls (f t) = [].

Lemma progresses_bind {E A B} m0 ctx (f : TM E A) (g : A -> TM E B) :
  progresses m0 ctx f -> (forall a, progresses m0 ctx (g a)) -> progresses m0 ctx (f ≫= g).
Proof.
  intros Hf Hg t Ht. destruct (Hf t Ht) as (Hb & Hp & Hw). unfold mbind, M_bind.
  destruct (f t) as [[[a|e|why|] t'] w]; cbn in *; subst; try done.
  destruct (Hg a t' Hp) as (Hb' & Hp' & Hw'). by destruct (g a t') as [[??]?].
Qed.

Lemma progresses_end {E A} m0 ctx (r : result E A) : r <> Blocked -> progresses m0 ctx (lift r).
Proof. by intros Hr t. Qed.

Lemma increase_progresses m0 fresh now d h :
  progresses m0 (ch_tx_ctx h) (Counter_increase_by 1 fresh now d h).
Proof.
  intros [m c om tm] (Hc & Ho & Htm & Hw). cbn in *. subst. unfold Counter_increase_by.
  set (t := mkTransactionalDatatype _ _ _ _).
  destruct (writable t) eqn:Hwr; last first.
  { destruct (check_writable_refuses t Hwr) as [e He]. unfold execute_local_operation_as_tx.
    erewrite M_bind_Err by (erewrite M_bind_Err by exact He; reflexivity). split; [done|]. by split. }
  destruct (execute_within m0 m (Operation_new_counter_increase now d) Hw eq_refl)
    as (v & m1 & Hex & Hw1).
  erewrite M_bind_Ok; last first.
  { apply execute_same_ctx; [done|done|exact Hwr|exact Hex]. }
  split; [done|]. by split.
Qed.

Lemma tx_increases_progress m0 fresh now show deltas ending h :
  progresses m0 (ch_tx_ctx h) (tx_increases fresh now show deltas ending h).
Proof.
  apply progresses_bind; [|intros _; by destruct ending; apply (progresses_end m0 _ _)].
  induction deltas as [|d deltas IH]; [by apply (progresses_end m0 _ (Ok tt))|].
  apply progresses_bind; [|by intros _]. apply progresses_bind;
    [|intros _; by apply (progresses_end m0 _ (Ok tt))].
  intros t Ht. destruct (increase_progresses m0 fresh now d h t Ht) as (Hb & Hp & Hw).
  unfold with_err. destruct (Counter_increase_by _ _ _ _ _ _) as [[r t'] w]. cbn in *.
  split; [by destruct r|done].
Qed.

Lemma transaction_rests fuel fresh ptr tag now show deltas ending h t : at_rest t ->
  rests t (Counter_transaction fuel fresh ptr tag (tx_increases fresh now show deltas ending) h t).
Proof.
  intros Ht. unfold Counter_transaction.
  destruct (writable t) eqn:Hw; last first.
  { destruct (check_writable_refuses t Hw) as [e He].
    erewrite M_bind_Err by exact He. by apply rests_same. }
  erewrite M_bind_Ok by (rewrite check_writable_eq, Hw; reflexivity).
  destruct fuel as [|fuel]; [by apply rests_same|].
  destruct Ht as [(Hc & Ho & Htm) Hp]. destruct t as [m c om tm]; cbn in *. subst.
  set (ctx := TransactionContext_new ptr tag).
  set (body := with_err _ _).
  set (t1 := mkTransactionalDatatype m (Some ctx) false true).
  destruct (tx_increases_progress m fresh now show deltas ending (mkCounterHandle ctx) t1)
    as (Hb & Hprog & Hw1); [split_and!; try done; by apply within_refl|].
  assert (Hbody : exists r t2, body t1 = (r, t2, []) /\ r <> Blocked /\ in_progress m ctx t2).
  { unfold body, with_err. destruct (tx_increases _ _ _ _ _ _ t1) as [[r t2] w]. cbn in *. subst.
    do 2 eexists. split; [reflexivity|]. split; [by destruct r|done]. }
  destruct Hbody as (r & [m2 c2 om2 tm2] & Hbody & Hr & (Hc2 & Ho2 & Htm2 & Hw2)). cbn in *. subst.
  assert (Hend : forall b, exists m' w, @td_end_transaction DatatypeError (Some tag) b
      (mkTransactionalDatatype m2 (Some ctx) false true) =
      (Ok tt, mkTransactionalDatatype m' None false false, w) /\
      within m m' /\ pending (m_tx_record m') = None /\ td_quiet m w).
  { intros b. by apply end_within. }
  erewrite M_bind_Ok by by apply begin_idle. cbv beta iota.
  unfold guarded. erewrite M_bind_Ok by reflexivity.
  cbn [td_set_tx_mutex td_mutable td_tx_ctx td_op_mutex td_set_tx_ctx].
  change (started_ctx fresh ctx) with ctx. fold t1.
  destruct r as [[]|e|why|]; [destruct (Hend true) as (m' & w & Hd & Hw' & Hp' & Hw0)
    |destruct (Hend false) as (m' & w & Hd & Hw' & Hp' & Hw0)..|done].
  1: erewrite M_bind_Ok by exact Hbody.
  2: erewrite M_bind_Err by exact Hbody.
  3: erewrite M_bind_Panic by exact Hbody.
  all: cbn -[td_end_transaction]; unfold DeferGuard_drop; cbn -[td_end_transaction];
    erewrite M_bind_Ok by exact Hd; cbn; rewrite ?app_nil_r;
    split_and!; try done; by apply within_still.
Qed.

(** The methods of a handle that users call. *)
Inductive UserOp : Type :=
| UIncrease (d : Z)
| UTransaction (tag : string) (show : DatatypeError -> string) (deltas : list Z) (ending : TxEnding)
| UUnsubscribe
| USetHandler (id : Z) (handler : DatatypeHandler)
| UUnsetHandler (shared : bool) (id : Z).

Definition run_user (fuel : nat) (fresh ptr now : Z) (h : CounterHandle) (op : UserOp)
    : TM DatatypeError unit :=
  match op with
  | UIncrease d => Counter_increase_by fuel fresh now d h ;; mret tt
  | UTransaction tag show deltas ending =>
      Counter_transaction fuel fresh ptr tag (tx_increases fresh now show deltas ending) h
  | UUnsubscribe => dt_unsubscribe
  | USetHandler id handler => dt_set_handler id handler
  | UUnsetHandler shared id => dt_unset_handler shared id ;; mret tt
  end.

(** A call of the user leaves the datatype at rest; it never disables it. *)
Lemma run_user_evolves fuel fresh ptr now h op t : at_rest t ->
  let '(r, t', w) := run_user fuel fresh ptr now h op t in
  at_rest t' /\ evolves (td_mutable t) (mutable_calls w) (td_mutable t').
Proof.
  intros Ht.
  assert (Hrests : forall A (x : result DatatypeError A * TransactionalDatatype * list TdCall),
    rests t x -> at_rest (final x) /\
      evolves (td_mutable t) (mutable_calls (calls x)) (td_mutable (final x))).
  { intros A [[r t'] w] (Hr & (Hi & Hs & _ & Hp) & Hd). split; [done|]. apply still_evolves.
    by split; [|split; [|split]]. }
  destruct op as [d|tag show deltas ending| |id handler|shared id]; cbn [run_user].
  - pose proof (Hrests _ _ (increase_rests fuel fresh now d h t Ht)) as Hx.
    unfold mbind, M_bind, mret, M_ret.
    by destruct (Counter_increase_by _ _ _ _ _ _) as [[[]?]?]; cbn in *; rewrite ?app_nil_r.
  - pose proof (Hrests _ _ (transaction_rests fuel fresh ptr tag now show deltas ending h t Ht)) as Hx.
    by destruct (Counter_transaction _ _ _ _ _ _ _) as [[??]?].
  - unfold dt_unsubscribe, transactional_datatype, td_unsubscribe.
    unfold check_subscribed, locked, emit, mbind, M_bind.
    case_decide as Hst; [split; [done|apply composable_refl]|].
    rewrite set_state_eq. cbn -[decide state_change_calls]. split; [exact Ht|].
    pose proof (set_state_evolves (E := DatatypeError) Unsubscribing (td_mutable t)) as He.
    rewrite set_state_eq in He. cbn -[decide state_change_calls] in He.
    unfold mutable_calls. rewrite omap_app. fold mutable_calls. cbn -[mutable_calls fmap].
    rewrite app_nil_r, mutable_calls_mutable. apply He. intros Hd. rewrite Hd in Hst. naive_solver.
  - split; [exact Ht|]. by apply still_evolves.
  - unfold dt_unset_handler, transactional_datatype, td_unset_handler, Mutable_unset_handler, mbind, M_bind.
    destruct (HandlersManager_unset_handler _ _ _) as [old hm]. cbn.
    split; [exact Ht|]. by apply still_evolves.
Qed.

(** ** The agreement of managers and cores *)
Definition cuid_of (td : TransactionalDatatype) : Cuid := Attribute_get_cuid (m_attr (td_mutable td)).

(** The managers after requests of cores of the client [cuid] to detach. *)
Definition run_detaches (cuid : Cuid) (ds : list (string * Z)) (ms : gmap Cuid DatatypeManager)
    : gmap Cuid DatatypeManager :=
  foldl (fun ms d => alter (detach_datatype_if_same_instance true d.1 d.2) cuid ms) ms ds.

(** The attribute refers to its own core, and its reference is dead only when the
    datatype is [Disabled]. *)
Definition core_ref (core : Z) (td : TransactionalDatatype) : Prop :=
  exists alive, attr_weak_transactional (m_attr (td_mutable td)) = Some (mkWeak core alive) /\
    (alive = true \/ td_get_state td = Disabled).

Lemma core_wf_ref core td : core_wf core td -> core_ref core td.
Proof. intros H. exists true. by split; [|left]. Qed.

Section whole.
Context {C B : Type} `{RefusesDisabled C} `{ClientDeps}.
Context (build : B) (next : B -> option Z * B).
Implicit Types (a : App C B).

Record app_inv a : Prop := {
  inv_delivered : app_undelivered a = [];
  inv_hooks : forall core, interceptor_of core a = WiredInterceptor_new_arc;
  inv_core : forall core td, core_of core a = Some td ->
    core_ref core td /\ at_rest td /\ core < h_fresh (app_heap a);
  inv_loops : forall core, is_Some (app_loops a !! core) -> is_Some (core_of core a);
  inv_common : forall cuid dm, app_managers a !! cuid = Some dm -> cc_cuid (dm_common dm) = cuid;
  inv_managed : forall cuid key ds, app_get_datatype cuid key a = Some ds ->
    exists td, core_of (DatatypeSet_get_core_id ds) a = Some td /\ td_get_key td = key /\
      cuid_of td = cuid /\ td_get_state td <> Disabled;
  inv_enabled : forall core td, core_of core a = Some td -> td_get_state td <> Disabled ->
    exists ds, app_get_datatype (cuid_of td) (td_get_key td) a = Some ds /\
      DatatypeSet_get_core_id ds = core;
}.

Lemma emitted_inv es a : app_inv a -> app_inv (app_set_emitted es a).
Proof. by intros []. Qed.

Lemma detach_common key id dm :
  dm_common (detach_datatype_if_same_instance true key id dm) = dm_common dm.
Proof. unfold detach_datatype_if_same_instance, remove_if_same_instance. by repeat case_match. Qed.

(** An entry leaves exactly when its own core asks for it. *)
Lemma detach_lookup cuid key core a a' ds : app_get_datatype cuid key a = Some ds ->
  DatatypeSet_get_core_id ds = core ->
  app_managers a' = run_detaches cuid [(key, core)] (app_managers a) ->
  forall cuid' key', app_get_datatype cuid' key' a' =
    if decide (cuid' = cuid /\ key' = key) then None else app_get_datatype cuid' key' a.
Proof.
  unfold app_get_datatype, DatatypeManager_get_datatype. intros Hds Hid Hms cuid' key'. rewrite Hms.
  unfold run_detaches. cbn [foldl fst snd].
  destruct (app_managers a !! cuid) as [dm|] eqn:Hdm; cbn in Hds; [|done].
  destruct (decide (cuid' = cuid)) as [->|Hc].
  - rewrite lookup_alter_eq, Hdm. cbn.
    unfold detach_datatype_if_same_instance, remove_if_same_instance. rewrite Hds, Hid, Z.eqb_refl. cbn.
    destruct (decide (key' = key)) as [->|Hk].
    + by rewrite lookup_delete_eq, decide_True.
    + by rewrite lookup_delete_ne, decide_False by naive_solver.
  - by rewrite lookup_alter_ne, decide_False by naive_solver.
Qed.

(** One core evolves, and what it requests is delivered. *)
Lemma inv_after a a' core td m' mc :
  app_inv a -> core_of core a = Some td -> evolves (td_mutable td) mc m' ->
  forall td', td_mutable td' = m' -> at_rest td' ->
  h_cores (app_heap a') = <[core := td']> (h_cores (app_heap a)) ->
  h_fresh (app_heap a') = h_fresh (app_heap a) ->
  app_undelivered a' = [] -> (forall c, interceptor_of c a' = WiredInterceptor_new_arc) ->
  (forall c, is_Some (app_loops a' !! c) -> is_Some (app_loops a !! c)) ->
  app_managers a' = run_detaches (cuid_of td) (detaches mc) (app_managers a) ->
  app_inv a'.
Proof.
  intros Hinv Htd Hev td' <- Hrest Hcores Hfresh Hund Hhooks Hloops Hms.
  destruct (inv_core _ Hinv _ _ Htd) as ((alive & Hwf & Halive) & [_ Hpend] & Hlt).
  destruct (Hev Hpend) as (_ & (Hkey & [Hcom _] & Hweak) & Hstay & Hdet & _).
  assert (Hcuid : cuid_of td' = cuid_of td) by (unfold cuid_of, Attribute_get_cuid; by rewrite Hcom).
  assert (Hown : td_get_state td <> Disabled -> own_detach (td_mutable td) = [(td_get_key td, core)]).
  { intros Hs. unfold own_detach, Attribute_detach_datatype_if_same_instance, Attribute_upgrade.
    rewrite Hwf. by destruct Halive as [-> |]. }
  set (leaves := td_get_state td <> Disabled /\ td_get_state td' = Disabled).
  assert (Hms' : leaves /\ app_managers a' = run_detaches (cuid_of td) [(td_get_key td, core)] (app_managers a)
    \/ ~ leaves /\ app_managers a' = app_managers a).
  { rewrite Hdet in Hms. destruct (decide _) as [Hl|Hl]; [left|by right].
    rewrite Hown in Hms by apply Hl. done. }
  clear Hdet Hms Hown.
  assert (Hlook : forall c, core_of c a' = if decide (c = core) then Some td' else core_of c a).
  { intros c. unfold core_of. rewrite Hcores. case_decide as Hc.
    - rewrite Hc. apply lookup_insert_eq.
    - by rewrite lookup_insert_ne. }
  assert (Hget : forall cuid key, app_get_datatype cuid key a' =
    if decide (cuid = cuid_of td /\ key = td_get_key td /\ leaves) then None
    else app_get_datatype cuid key a).
  { intros cuid key. destruct Hms' as [[Hl Hms]|[Hl Hms]].
    - destruct (inv_enabled _ Hinv _ _ Htd) as (ds & Hds & Hid); [apply Hl|].
      rewrite (detach_lookup _ _ _ _ _ ds Hds Hid Hms). apply decide_ext. tauto.
    - rewrite decide_False by tauto. unfold app_get_datatype. by rewrite Hms. }
  constructor; [done|done|..].
  - intros c td0. rewrite Hlook, Hfresh. destruct (decide (c = core)) as [Hc|Hc]; [|apply (inv_core _ Hinv)].
    intros [= <-]. subst c. split; [|done]. exists alive. split; [by rewrite Hweak|].
    destruct Halive as [->|Hdis]; [by left|right]. by apply Hstay.
  - intros c Hc%Hloops%(inv_loops _ Hinv). rewrite Hlook. by destruct (decide (c = core)).
  - intros cuid dm. destruct Hms' as [[_ Hms]|[_ Hms]]; rewrite Hms; [|apply (inv_common _ Hinv)].
    cbn [run_detaches foldl].
    intros [(<- & dm0 & Hdm0%(inv_common _ Hinv) & ->)|[_ Hdm]]%lookup_alter_Some;
      [by rewrite detach_common|by apply (inv_common _ Hinv)].
  - intros cuid key ds. rewrite Hget.
    destruct (decide (cuid = cuid_of td /\ key = td_get_key td /\ leaves)) as [Hd|Hd]; [done|]. intros Hds.
    destruct (inv_managed _ Hinv _ _ _ Hds) as (td0 & Htd0 & Hk0 & Hc0 & Hs0).
    rewrite Hlook. destruct (decide (_ = core)) as [Hid|Hid]; [|by exists td0].
    rewrite Hid, Htd in Htd0. injection Htd0 as <-. exists td'. split; [done|].
    split; [by unfold td_get_key; rewrite Hkey|]. split; [congruence|].
    intros Hs'. apply Hd. split; [done|]. split; [done|]. by split.
  - intros c td0. rewrite Hlook. destruct (decide (c = core)) as [Hc|Hc].
    + intros [= <-] Hs. subst c. rewrite Hcuid, Hget.
      replace (td_get_key td') with (td_get_key td) by (unfold td_get_key; by rewrite Hkey).
      rewrite decide_False by (unfold leaves; tauto).
      apply (inv_enabled _ Hinv); [done|]. intros Hd. by apply Hs, Hstay.
    + intros Htd0 Hs. destruct (inv_enabled _ Hinv _ _ Htd0 Hs) as (ds & Hds & Hid).
      exists ds. split; [|done]. rewrite Hget, decide_False; [done|].
      intros (Hc0 & Hk0 & Hs0 & _). destruct (inv_enabled _ Hinv _ _ Htd Hs0) as (ds' & Hds' & Hid').
      rewrite Hc0, Hk0, Hds' in Hds. injection Hds as <-. congruence.
Qed.
(** ** Delivery of calls *)

(** What delivering the requests [ds] of a core of the client [cuid] does. *)
Definition delivered (cuid : Cuid) (ds : list (string * Z)) a a' : Prop :=
  app_heap a' = app_heap a /\ app_interceptors a' = app_interceptors a /\
  app_undelivered a' = app_undelivered a /\
  (forall c, is_Some (app_loops a' !! c) -> is_Some (app_loops a !! c)) /\
  app_managers a' = run_detaches cuid ds (app_managers a).

Lemma delivered_refl cuid a : delivered cuid [] a a.
Proof. by split_and!. Qed.

Lemma delivered_trans cuid ds ds' a a' a'' :
  delivered cuid ds a a' -> delivered cuid ds' a' a'' -> delivered cuid (ds ++ ds') a a''.
Proof.
  intros (Hh & Hi & Hu & Hl & Hm) (Hh' & Hi' & Hu' & Hl' & Hm'). split_and!; try congruence.
  - intros c Hc. by apply Hl, Hl'.
  - rewrite Hm', Hm. unfold run_detaches. by rewrite foldl_app.
Qed.

Lemma delivered_loops cuid f core a : delivered cuid [] a (alter_loop f core a).
Proof. split_and!; try done. intros c. cbn. by rewrite lookup_alter_is_Some. Qed.

Lemma deliver_mutable_delivered core td c a : core_of core a = Some td ->
  delivered (cuid_of td) (detaches [c]) a (deliver_mutable core c a).
Proof.
  intros Htd. destruct c as [t|key id]; cbn; [by split_and!|]. rewrite Htd. by split_and!.
Qed.

Lemma deliver_delivered core td c a ds : core_of core a = Some td ->
  world_detaches [c] = (fun d => (core, d)) <$> ds -> delivered (cuid_of td) ds a (deliver c a).
Proof.
  intros Htd. destruct c as [core' c|[core' n]|core' b]; cbn.
  - intros Hds. assert (Hd : ds = detaches [c] /\ (detaches [c] = [] \/ core' = core)).
    { destruct c as [t|key id]; cbn in *; [by destruct ds; [split; [|left]|]|].
      destruct ds as [|d [|]]; cbn in *; simplify_eq. by split; [|right]. }
    destruct Hd as [-> [Hnil| ->]]; [|by apply deliver_mutable_delivered].
    destruct c; [by split_and!|done].
  - destruct ds; [|done]. intros _. apply delivered_loops.
  - destruct ds; [|done]. intros _. destruct (record_emission_only core' (fun attr => EmittedSync attr b) a)
      as [es ->]. by split_and!.
Qed.

Lemma deliver_fold core td w : forall a ds, core_of core a = Some td ->
  world_detaches w = (fun d => (core, d)) <$> ds ->
  delivered (cuid_of td) ds a (foldl (fun a c => deliver c a) a w).
Proof.
  induction w as [|c w IH]; intros a ds Htd Hds.
  - destruct ds; [apply delivered_refl|done].
  - change (c :: w) with ([c] ++ w) in Hds. rewrite world_detaches_app in Hds.
    symmetry in Hds. apply fmap_app_inv in Hds as (d1 & d2 & Hd1 & Hd2 & ->).
    pose proof (deliver_delivered core td c a d1 Htd Hd1) as Hd. cbn [foldl].
    eapply delivered_trans; [exact Hd|]. apply IH; [|done].
    destruct Hd as [Hh _]. unfold core_of. by rewrite Hh.
Qed.

Lemma deliver_td_fold core td w : forall a, core_of core a = Some td ->
  delivered (cuid_of td) (td_detaches w) a (foldl (fun a c => deliver_td core c a) a w).
Proof.
  induction w as [|c w IH]; intros a Htd; [apply delivered_refl|]. cbn [foldl].
  assert (Hd : delivered (cuid_of td) (td_detaches [c]) a (deliver_td core c a)).
  { destruct c as [c| | |]; cbn [deliver_td]; [by apply deliver_mutable_delivered|..].
    - apply delivered_loops.
    - apply delivered_refl.
    - destruct (delivered_loops (cuid_of td) (on_unbounded (send_stop (app_requests a))) core
        (app_set_requests (app_requests a + 1) a)) as (? & ? & ? & ? & ?). by split_and!. }
  assert (td_detaches (c :: w) = td_detaches [c] ++ td_detaches w) as ->.
  { unfold td_detaches, mutable_calls. rewrite <- detaches_app, <- omap_app. done. }
  eapply delivered_trans; [exact Hd|]. apply IH.
  destruct Hd as [Hh _]. unfold core_of. by rewrite Hh.
Qed.

(** ** Turns of an event loop *)

(** What the wired datatype of [core] does to the program in a turn. *)
Definition turned (core : Z) a a' : Prop :=
  exists td m' mc w, core_of core a = Some td /\ evolves (td_mutable td) mc m' /\
    h_cores (app_heap a') = <[core := td_set_mutable m' td]> (h_cores (app_heap a)) /\
    h_fresh (app_heap a') = h_fresh (app_heap a) /\
    app_managers a' = app_managers a /\ app_loops a' = app_loops a /\ app_tasks a' = app_tasks a /\
    (forall c, interceptor_of c a' = WiredInterceptor_new_arc) /\
    app_undelivered a' = app_undelivered a ++ w /\ world_calls core mc w.

Lemma turned_refl core a td : core_of core a = Some td ->
  (forall c, interceptor_of c a = WiredInterceptor_new_arc) -> turned core a a.
Proof.
  intros Htd Hhooks. exists td, (td_mutable td), [], []. split_and!; try done; try apply world_calls_nil.
  - apply composable_refl.
  - assert (td_set_mutable (td_mutable td) td = td) as -> by by destruct td. by rewrite insert_id.
  - by rewrite app_nil_r.
Qed.

Lemma turned_trans core a a' a'' : turned core a a' -> turned core a' a'' -> turned core a a''.
Proof.
  intros (td & m1 & mc1 & w1 & Htd & He & Hc & Hf & Hm & Hl & Ht & Hi & Hu & Hd)
    (td' & m2 & mc2 & w2 & Htd' & He' & Hc' & Hf' & Hm' & Hl' & Ht' & Hi' & Hu' & Hd').
  unfold core_of in Htd'. rewrite Hc, lookup_insert_eq in Htd'. injection Htd' as <-. cbn in *.
  exists td, m2, (mc1 ++ mc2), (w1 ++ w2). split_and!; try congruence.
  - by eapply composable_trans.
  - rewrite Hc', Hc, insert_insert_eq. done.
  - by rewrite Hu', Hu, app_assoc.
  - by apply world_calls_app.
Qed.

(** The cores of the program, with the one of [core] replaced. *)
Lemma put_world_cores core m' (w : World C) a td : core_of core a = Some td ->
  w_cores w = <[core := m']> (td_mutable <$> h_cores (app_heap a)) ->
  h_cores (app_heap (put_world w a)) = <[core := td_set_mutable m' td]> (h_cores (app_heap a)).
Proof.
  intros Htd Hw. apply map_eq. intros c. cbn. rewrite map_lookup_imap, Hw.
  destruct (decide (c = core)) as [->|Hc].
  - unfold core_of in Htd. rewrite Htd. cbn. by rewrite !lookup_insert_eq.
  - rewrite !lookup_insert_ne by done. destruct (h_cores (app_heap a) !! c) as [td0|] eqn:Hc0; [|done].
    cbn. rewrite lookup_fmap, Hc0. cbn. by destruct td0.
Qed.

Lemma app_push_pull_turned now core a td : core_of core a = Some td ->
  (forall c, interceptor_of c a = WiredInterceptor_new_arc) ->
  turned core a (app_push_pull now core a).2 /\
  forall e, (app_push_pull now core a).1 = Err e -> never_resubscribes e.
Proof.
  intros Htd Hhooks. unfold app_push_pull. rewrite Hhooks, default_interceptor_is_transparent.
  unfold on_world. cbn [hk_world hk_interceptor].
  pose proof (push_pull_round now core (app_world a)) as Hround.
  destruct (Wired_push_pull now core (app_world a)) as [[r w'] cs]. cbn [fst snd hk_world hk_interceptor].
  destruct (Hround (td_mutable td)) as [(m' & mc & Hcores & He & Hd) Hr].
  { cbn. rewrite lookup_fmap. unfold core_of in Htd. by rewrite Htd. }
  split; [|done]. exists td, m', mc, cs. split_and!; try done.
  - by apply (put_world_cores core m' w' a td).
  - intros c. unfold interceptor_of. cbn. destruct (decide (c = core)) as [->|Hc].
    + by rewrite lookup_insert_eq.
    + rewrite lookup_insert_ne by done. apply Hhooks.
Qed.

Lemma app_handle_error_turned core a td err rec : core_of core a = Some td ->
  (forall c, interceptor_of c a = WiredInterceptor_new_arc) ->
  never_resubscribes (DatatypeErrorWithAction_new err rec) ->
  turned core a (app_handle_error core err rec a).
Proof.
  intros Htd Hhooks Hrec. unfold app_handle_error, on_core.
  cbn [app_world w_cores w_conn]. rewrite lookup_fmap. unfold core_of in Htd. rewrite Htd. cbn.
  pose proof (handle_error_evolves err rec Hrec (td_mutable td)) as He.
  destruct (handle_error err rec (td_mutable td)) as [[r m'] mc]. destruct He as [He _].
  exists td, m', mc, (CoreCall core <$> mc). split_and!; try done.
  - by apply put_world_cores.
  - apply world_calls_core.
Qed.

(** The program that a loop leaves. *)
Lemma handle_event_turned now core ev (s : LoopState (App C B) ListChannel B) td :
  core_of core (ls_wired s) = Some td ->
  (forall c, interceptor_of c (ls_wired s) = WiredInterceptor_new_arc) ->
  turned core (ls_wired s) (ls_wired (@handle_event _ _ _ (app_port now core) _ ev s).1).
Proof.
  intros Htd Hhooks. pose proof (turned_refl core _ td Htd Hhooks) as Hid.
  destruct ev as [[tx|resp| |n]|err|why|]; cbn [handle_event]; try exact Hid.
  - unfold handle_push. destruct (ls_mode s); try exact Hid; cbn [wp_push_pull app_port];
      destruct (app_push_pull_turned now core (ls_wired s) td Htd Hhooks) as [Hturn Herr];
      destruct (app_push_pull now core (ls_wired s)) as [[[]|e|why|] a1]; try exact Hturn;
      cbn [fst snd] in *; destruct Hturn as (td0 & m' & mc & w & Hrest);
      (eapply turned_trans; [by exists td0, m', mc, w|]);
      destruct Hrest as (_ & _ & Hc & _ & _ & _ & _ & Hi & _);
      assert (Hturn : turned core a1 (app_handle_error core (error e) (recovery e) a1)) by
        (eapply app_handle_error_turned; [unfold core_of; by rewrite Hc, lookup_insert_eq|done|];
         destruct e; by apply Herr);
      destruct (decide (LoopMode_from (recovery e) = BackOffMode)); exact Hturn.
  - destruct (wp_handle_notification _ _); exact Hid.
  - by eapply app_handle_error_turned.
Qed.

(** ** Every step keeps the agreement *)
Lemma receive_event_wired S Q `{WiredPort S, Channel Q} branch (s s' : LoopState S Q B) ev :
  receive_event build next branch s = Some (ev, s') -> ls_wired s' = ls_wired s.
Proof.
  assert (Hrecv : forall ch q set, (forall q, ls_wired (set q s) = ls_wired s) ->
    recv_branch ch q set s = Some (ev, s') -> ls_wired s' = ls_wired s).
  { intros ch q set Hset. unfold recv_branch. destruct (q_recv q); intros [= <- <-]; [apply Hset|done]. }
  unfold receive_event, receive_mode. destruct (ls_mode s); cbn.
  - destruct (wp_push_if_needed _); [by intros [= <- <-]|].
    destruct branch; [by apply Hrecv|by apply Hrecv|done].
  - destruct (next _) as [d b]. destruct branch; [|done|by intros [= <- <-]].
    unfold recv_branch. destruct (q_recv _); by intros [= <- <-].
  - destruct branch; [by apply Hrecv|by apply Hrecv|done].
Qed.

Lemma turn_inv now core branch a a' :
  app_inv a -> app_turn build next now core branch a = Some a' -> app_inv a'.
Proof.
  intros Hinv. unfold app_turn.
  destruct (app_loops a !! core) as [l|] eqn:Hl; [|done]. cbn [mbind option_bind].
  destruct (inv_loops _ Hinv core) as [td Htd]; [by rewrite Hl|].
  unfold loop_turn. cbn [ls_status loop_state]. destruct (lp_status l); try done.
  destruct (receive_event build next branch (loop_state l a)) as [[ev s]|] eqn:Hev; [|done].
  pose proof (receive_event_wired _ _ _ _ _ _ Hev) as Hw. cbn in Hw. cbn [mbind option_bind].
  pose proof (handle_event_turned now core ev s td) as Hturn. rewrite Hw in Hturn.
  specialize (Hturn Htd (inv_hooks _ Hinv)).
  destruct (handle_event ev s) as [s1 out]. cbn [fst] in Hturn. intros [= <-].
  destruct Hturn as (td0 & m' & mc & w & Htd0 & He & Hc & Hf & Hm & Hlo & _ & Hi & Hu & [Hd _]).
  rewrite Htd in Htd0. injection Htd0 as <-.
  destruct (inv_core _ Hinv _ _ Htd) as (_ & [Hidle Hpend] & _).
  destruct (He Hpend) as (Hpend' & (_ & [Hcom _] & _) & _).
  unfold end_turn. set (a0 := deliver_all _).
  destruct (deliver_outs_only core out a0) as [es ->]. apply emitted_inv. unfold a0.
  unfold deliver_all. cbn [app_undelivered app_set_undelivered app_set_replies app_set_loops].
  rewrite Hu, (inv_delivered _ Hinv). cbn [app].
  set (a1 := app_set_undelivered [] _).
  destruct (deliver_fold core (td_set_mutable m' td) w a1 (detaches mc)) as (Hh' & Hi' & Hu' & Hl' & Hm').
  { unfold core_of. cbn. by rewrite Hc, lookup_insert_eq. }
  { done. }
  eapply (inv_after a _ core td m' mc Hinv Htd He (td_set_mutable m' td)); try done.
  - by rewrite Hh'.
  - by rewrite Hh'.
  - intros c. unfold interceptor_of. rewrite Hi'. apply Hi.
  - intros c Hc'%Hl'. cbn in Hc'. rewrite Hlo in Hc'.
    apply lookup_insert_is_Some in Hc' as [<-|[_ ?]]; [by rewrite Hl|done].
  - rewrite Hm'. cbn. rewrite Hm. f_equal. unfold cuid_of, Attribute_get_cuid. cbn. by rewrite Hcom.
Qed.

Lemma call_inv core td td' w a :
  app_inv a -> core_of core a = Some td -> at_rest td' ->
  evolves (td_mutable td) (mutable_calls w) (td_mutable td') ->
  app_inv (foldl (fun a c => deliver_td core c a) (app_set_core core td' a) w).
Proof.
  intros Hinv Htd Hrest He. destruct (inv_core _ Hinv _ _ Htd) as (_ & [_ Hpend] & _).
  destruct (He Hpend) as (_ & (_ & [Hcom _] & _) & _).
  destruct (deliver_td_fold core td' w (app_set_core core td' a)) as (Hh & Hi & Hu & Hl & Hm).
  { unfold core_of. cbn. apply lookup_insert_eq. }
  eapply (inv_after a _ core td (td_mutable td') (mutable_calls w) Hinv Htd He td'); try done.
  - by rewrite Hh.
  - by rewrite Hh.
  - rewrite Hu. apply Hinv.
  - intros c. unfold interceptor_of. rewrite Hi. apply (inv_hooks _ Hinv).
  - rewrite Hm. unfold cuid_of, Attribute_get_cuid. by rewrite Hcom.
Qed.

Lemma user_call_inv core fuel fresh ptr now h op a :
  app_inv a -> app_inv (user_call core (run_user fuel fresh ptr now h op) a).2.
Proof.
  intros Hinv. unfold user_call. destruct (core_of core a) as [td|] eqn:Htd; [|done].
  pose proof (run_user_evolves fuel fresh ptr now h op td) as He.
  destruct (run_user fuel fresh ptr now h op td) as [[r td'] w]. cbn.
  destruct He; [apply (inv_core _ Hinv _ _ Htd)|]. by eapply call_inv.
Qed.

Lemma unsubscribe_inv cuid key a :
  app_inv a -> app_inv (app_unsubscribe_datatype cuid key a).2.
Proof.
  intros Hinv. unfold app_unsubscribe_datatype.
  destruct (app_managers a !! cuid) as [dm|] eqn:Hdm; [|done].
  assert (Hid : app_set_heap (app_heap a) a = a) by by destruct a.
  unfold unsubscribe_datatype, mbind, M_bind, get, Client_get_datatype. cbn beta iota zeta.
  destruct (DatatypeManager_get_datatype key (cl_manager _)) as [ds|] eqn:Hds; [|cbn; by rewrite Hid].
  unfold DatatypeSet_unsubscribe, Datatype_unsubscribe, on_handle. cbn [cl_heap].
  destruct (inv_managed _ Hinv cuid key ds) as (td & Htd & _).
  { unfold app_get_datatype. by rewrite Hdm. }
  unfold core_of in Htd. change (get_core ds) with (DatatypeSet_get_core_id ds). rewrite Htd.
  pose proof (run_user_evolves 1 0 0 0 (Counter_new 0) UUnsubscribe td) as He. cbn [run_user] in He.
  destruct (dt_unsubscribe td) as [[r td'] w].
  destruct He as [Hrest He]; [apply (inv_core _ Hinv _ _ Htd)|].
  pose proof (call_inv _ td td' w a Hinv Htd Hrest He) as Hcall.
  destruct r as [[]|e|why|]; cbn -[deliver_td fmap]; rewrite ?app_nil_r, foldl_fmap; exact Hcall.
Qed.

Lemma build_client_inv cuid b a : app_managers a !! cuid = None ->
  app_inv a -> app_inv (app_build_client cuid b a).2.
Proof.
  intros Hfree Hinv. unfold app_build_client, ClientBuilder_build.
  destruct (negb _); [done|]. cbn.
  assert (Hget : forall cuid' key, app_get_datatype cuid' key (app_set_managers
    (<[cuid := DatatypeManager_new (ClientCommon_new_arc cuid (cb_collection b) (cb_alias b))]>
       (app_managers a)) a) = app_get_datatype cuid' key a).
  { intros cuid' key. unfold app_get_datatype. cbn. destruct (decide (cuid' = cuid)) as [->|Hne].
    - by rewrite lookup_insert_eq, Hfree.
    - by rewrite lookup_insert_ne. }
  destruct Hinv as [Hund Hhooks Hcore Hloops Hcommon Hmanaged Henabled]. constructor; try done.
  - intros cuid' dm. cbn. intros [[<- <-]|[_ Hdm]]%lookup_insert_Some; [done|by apply Hcommon].
  - intros cuid' key ds. rewrite Hget. apply Hmanaged.
  - intros core td. rewrite Hget. apply Henabled.
Qed.

(** The builders that clients give start in one of these states. *)
Definition fresh_builder (b : DatatypeBuilder) : Prop :=
  db_state b = Creating \/ db_state b = Subscribing \/ db_state b = SubscribingOrCreating.

Lemma build_counter_inv cuid duid b a : fresh_builder b ->
  app_inv a -> app_inv (app_build_counter cuid duid b a).2.
Proof.
  intros Hb Hinv. unfold app_build_counter.
  destruct (app_managers a !! cuid) as [dm|] eqn:Hdm; [|done].
  set (c := mkClient dm (app_heap a)).
  destruct (decide (is_valid_datatype_key (db_key b) = false \/ is_Some (dm_datatypes dm !! db_key b)))
    as [Hno|Hyes].
  { destruct (build_counter_refused duid b c Hno) as [why ->]. cbn.
    rewrite insert_id by done. by destruct a. }
  destruct (build_counter_vacant duid b c) as (td & Hbuilt & Hwf & ->).
  { destruct (is_valid_datatype_key _); tauto. }
  { cbn. apply eq_None_not_Some. tauto. }
  destruct Hbuilt as (Hkey & _ & _ & Hcom & _ & _ & Hst & _ & _ & Hpend & Hidle).
  cbn -[lookup insert with_new_core]. set (core := h_fresh (app_heap a)).
  set (ds := DatatypeSet_Counter core (Counter_new (core + 1))). set (a' := app_set_loops _ _).
  assert (Hcuid : cuid_of td = cuid).
  { unfold cuid_of, Attribute_get_cuid. rewrite Hcom. by apply (inv_common _ Hinv). }
  assert (Hnew : core_of core a = None).
  { apply eq_None_not_Some. intros [td0 Htd0]. apply (inv_core _ Hinv) in Htd0 as (_ & _ & ?). lia. }
  assert (Hlook : forall c, core_of c a' = if decide (c = core) then Some td else core_of c a).
  { intros c0. unfold core_of. cbn -[lookup insert]. case_decide as Hc; [subst c0; apply lookup_insert_eq|].
    by rewrite lookup_insert_ne. }
  assert (Hget : forall cuid' key, app_get_datatype cuid' key a' =
    if decide (cuid' = cuid /\ key = db_key b) then Some ds else app_get_datatype cuid' key a).
  { intros cuid' key. unfold app_get_datatype, DatatypeManager_get_datatype. cbn -[lookup insert].
    destruct (decide (cuid' = cuid)) as [->|Hne].
    - rewrite lookup_insert_eq, Hdm. cbn -[lookup insert]. destruct (decide (key = db_key b)) as [->|Hk].
      + by rewrite lookup_insert_eq, decide_True.
      + by rewrite lookup_insert_ne, decide_False by naive_solver.
    - by rewrite lookup_insert_ne, decide_False by naive_solver. }
  constructor; try apply Hinv.
  - intros c0 td0. rewrite Hlook. cbn -[lookup insert]. destruct (decide (c0 = core)) as [Hc|Hc].
    + intros [= <-]. subst c0. split; [by apply core_wf_ref|]. split; [by split|lia].
    + intros (? & ? & ?)%(inv_core _ Hinv). split; [done|]. split; [done|]. unfold core in *. lia.
  - intros c0. rewrite Hlook. cbn -[lookup insert]. destruct (decide (c0 = core)) as [Hc|Hc]; [done|].
    rewrite lookup_insert_ne by done. apply (inv_loops _ Hinv).
  - intros cuid' dm'. cbn -[lookup insert].
    intros [[<- <-]|[_ Hdm']]%lookup_insert_Some; [exact (inv_common _ Hinv _ _ Hdm)|].
    by apply (inv_common _ Hinv).
  - intros cuid' key ds'. rewrite Hget. destruct (decide (cuid' = cuid /\ key = db_key b)) as [[-> ->]|Hne].
    + intros [= <-]. exists td. rewrite Hlook. cbn. rewrite decide_True by done. split_and!; try done.
      unfold td_get_state. rewrite Hst. by destruct Hb as [-> |[-> | ->]].
    + intros (td0 & Htd0 & Hrest)%(inv_managed _ Hinv). exists td0. split; [|done].
      rewrite Hlook, decide_False; [done|]. intros Heq. rewrite Heq in Htd0. congruence.
  - intros c0 td0. rewrite Hlook. destruct (decide (c0 = core)) as [Hc|Hc].
    + intros [= <-] _. exists ds. by rewrite Hget, Hcuid, decide_True.
    + intros Htd0 Hs0. destruct (inv_enabled _ Hinv _ _ Htd0 Hs0) as (ds0 & Hds0 & Hid0).
      exists ds0. split; [|done]. rewrite Hget, decide_False; [done|]. intros [Hc0 Hk0].
      rewrite Hc0, Hk0 in Hds0. unfold app_get_datatype in Hds0. rewrite Hdm in Hds0. cbn in Hds0.
      apply Hyes. right. unfold DatatypeManager_get_datatype in Hds0. by rewrite Hds0.
Qed.

(** ** The program as a step relation

    Clients have distinct identifiers.  A branch of a loop that is not ready
    changes nothing. *)
Inductive app_step : relation (App C B) :=
| StepClient cuid b a : app_managers a !! cuid = None -> app_step a (app_build_client cuid b a).2
| StepCounter cuid duid b a : fresh_builder b -> app_step a (app_build_counter cuid duid b a).2
| StepUser core fuel fresh ptr now h op a :
    app_step a (user_call core (run_user fuel fresh ptr now h op) a).2
| StepUnsubscribe cuid key a : app_step a (app_unsubscribe_datatype cuid key a).2
| StepSync core a : app_step a (app_send_sync core a).2
| StepTurn now core branch a : app_step a (default a (app_turn build next now core branch a)).

Lemma app_inv_init conn : app_inv (App_new conn : App C B).
Proof.
  constructor; try done; cbn.
  - intros core. by rewrite lookup_empty; intros [? ?].
Qed.

Lemma app_step_inv a a' : app_step a a' -> app_inv a -> app_inv a'.
Proof.
  destruct 1 as [cuid b a Hfree|cuid duid b a Hb|core fuel fresh ptr now h op a|cuid key a|core a
    |now core branch a]; intros Hinv.
  - by apply build_client_inv.
  - by apply build_counter_inv.
  - by apply user_call_inv.
  - by apply unsubscribe_inv.
  - destruct Hinv as [Hund Hhooks Hcore Hloops Hcommon Hmanaged Henabled]. constructor; try done.
    intros c. cbn. rewrite lookup_alter_is_Some. apply Hloops.
  - destruct (app_turn build next now core branch a) as [a'|] eqn:Ht; [by eapply turn_inv|done].
Qed.

End whole.

(** ** Unsubscribing while a round is in flight *)
Lemma process_subscribed_clients p rt sv : wired_map (final (process_subscribed p rt sv)) = wired_map sv.
Proof.
  unfold process_subscribed, process_client_push, do_push_transactions, push_transactions, notify_pushed,
    mbind, M_bind, get, mret, M_ret.
  destruct (bool_decide _); [done|]. destruct (negb _); [done|]. destruct (ppp_is_readonly _ && _); [done|].
  destruct (push_loop _ _ _ _ _) as [[[? ?] ?] any]. by destruct (rt && any).
Qed.

Section in_flight.
Context (fk : gmap Cuid Z -> option Cuid).

#[local] Instance in_flight_conn : ConnectivityOps LocalConnectivity := local_connectivity fk.

(** The server's answer to a push of a registered client in state [Subscribed]. *)
Lemma subscribed_push_answer snap p lc arc sv :
  ppp_state p = Subscribed -> datatype_servers lc !! PushPullPack_resource_id p = Some arc ->
  lc_arcs lc !! arc = Some sv -> wired_map sv !! ppp_cuid p <> None -> srv_type sv = ppp_type p ->
  ppp_is_readonly p = false ->
  exists q lc' cs sv', conn_push_pull snap p lc = (Ok q, lc', cs) /\
    ppp_error q = None /\ ppp_state q = Subscribed /\
    datatype_servers lc' = datatype_servers lc /\ lc_arcs lc' !! arc = Some sv' /\
    wired_map sv' = wired_map sv.
Proof.
  intros Hst Harc Hsv Hreg Hty Hro.
  pose proof (process_subscribed_clients p (lc_is_realtime lc) sv) as Hclients.
  assert (exists q sv' cs, process_subscribed p (lc_is_realtime lc) sv = (Ok q, sv', cs) /\
    ppp_error q = None /\ ppp_state q = Subscribed) as (q & sv' & cs & Hq & He & Hs).
  { unfold process_subscribed, process_client_push, do_push_transactions, mbind, M_bind, get, mret, M_ret.
    rewrite bool_decide_false by done. rewrite bool_decide_true by done. cbn -[push_transactions].
    rewrite Hro. cbn -[push_transactions]. destruct (push_transactions p sv) as [[cseq any] sv1].
    destruct (_ && any); by do 3 eexists. }
  rewrite Hq in Hclients. cbn in Hclients. cbn. unfold LocalConnectivity_push_pull, mbind, M_bind, get.
  unfold get_local_datatype_server. rewrite Harc. unfold push_pull_process, process. rewrite Hsv, Hst, Hq.
  cbn. do 4 eexists. split; [reflexivity|]. split_and!; try done. cbn. apply lookup_insert_eq.
Qed.

(** C14.  [unsubscribe] during a round of a subscribed datatype: the user's call
    succeeds, but the answer to the round, which was sent in state [Subscribed],
    is taken for a protocol violation.  The datatype becomes [Disabled] without
    applying the answer and its unacknowledged transactions are dropped; no later
    [sync] is possible and the loop stops, so the server is never told and keeps
    the client. *)
Theorem unsubscribe_during_round_is_lost now core (w : World LocalConnectivity) td pushing arc sv :
  let m := td_mutable td in
  w_cores w !! core = Some m -> m_state m = Subscribed -> attr_is_readonly (m_attr m) = false ->
  outcome (create_push_pull_pack m) = Ok pushing ->
  datatype_servers (w_conn w) !! Attribute_resource_id (m_attr m) = Some arc ->
  lc_arcs (w_conn w) !! arc = Some sv ->
  wired_map sv !! Attribute_get_cuid (m_attr m) = Some core -> srv_type sv = attr_type (m_attr m) ->
  exists td' q lc' cs e,
    td_unsubscribe td = (Ok tt, td', calls (td_unsubscribe td)) /\ td_get_state td' = Unsubscribing /\
    conn_push_pull (snapshots now w) pushing (w_conn w) = (Ok q, lc', cs) /\
    outcome (apply_pulled q (td_mutable td')) =
      Err (DatatypeErrorWithAction_new (ServerRejected (Rej_ProtocolViolation e)) Disable) /\
    final (apply_pulled q (td_mutable td')) = m_put_state Disabled m /\
    let m' := final (handle_error (ServerRejected (Rej_ProtocolViolation e)) Disable (m_put_state Disabled m)) in
    m_state m' = Disabled /\ m_checkpoint m' = m_checkpoint m /\ m_crdt m' = m_crdt m /\
    transaction (m_push_buffer m') = [] /\
    (forall reply, exists why, outcome (td_sync reply (td_set_mutable m' td')) = Err (NotWritable why)) /\
    LoopMode_from Disable = Stopped /\
    datatype_servers lc' !! Attribute_resource_id (m_attr m) = Some arc /\
    exists sv', lc_arcs lc' !! arc = Some sv' /\ wired_map sv' !! Attribute_get_cuid (m_attr m) = Some core.
Proof.
  intros m Hm Hst Hro Hpush Harc Hsv Hreg Hty.
  assert (Hpack : ppp_state pushing = Subscribed /\
    PushPullPack_resource_id pushing = Attribute_resource_id (m_attr m) /\
    ppp_cuid pushing = Attribute_get_cuid (m_attr m) /\ ppp_type pushing = attr_type (m_attr m) /\
    ppp_is_readonly pushing = false).
  { unfold create_push_pull_pack in Hpush. destruct (get_pushing_transactions _ _ _) as [[txs sz]| | |]; try done.
    injection Hpush as <-. cbn. by rewrite Hst. }
  destruct Hpack as (Hps & Hpr & Hpc & Hpt & Hpro).
  destruct (subscribed_push_answer (snapshots now w) pushing (w_conn w) arc sv)
    as (q & lc' & cs & sv' & Hq & Hqe & Hqs & Hserv & Hsv' & Hwired);
    [done|by rewrite Hpr|done|by rewrite Hpc, Hreg|by rewrite Hpt|done|].
  assert (Hunsub : exists cs', td_unsubscribe td =
    (Ok tt, td_set_mutable (m_put_state Unsubscribing m) td, cs')).
  { unfold td_unsubscribe, check_subscribed, locked, emit, mbind, M_bind.
    rewrite decide_False by (intros Hne; by apply Hne). rewrite set_state_eq. by eexists. }
  destruct Hunsub as [cs' Hunsub].
  set (e := "illegal state from push-pull: received " +:+ DatatypeState_to_string Subscribed
            +:+ " for " +:+ DatatypeState_to_string Unsubscribing).
  exists (td_set_mutable (m_put_state Unsubscribing m) td), q, lc', cs, e.
  split; [by rewrite Hunsub|]. split; [done|]. split; [done|].
  assert (Happly : apply_pulled q (m_put_state Unsubscribing m) =
    (Err (DatatypeErrorWithAction_new (ServerRejected (Rej_ProtocolViolation e)) Disable),
     m_put_state Disabled m, state_change_calls (m_put_state Unsubscribing m) Disabled)).
  { rewrite (apply_pulled_refused q _ (DatatypeErrorWithAction_new
      (ServerRejected (Rej_ProtocolViolation e)) Disable) Disabled); [reflexivity|].
    unfold handle_error_and_datatype_state, expect_state, process_illegal_state_response, mbind,
      M_bind, modify, get, lift, PullHandler_new; cbn -[decide]. rewrite Hqe, Hqs. cbn -[decide].
    rewrite decide_True by (cbn; by rewrite Hqs). cbn. by rewrite Hqs. }
  cbn [td_mutable td_set_mutable]. rewrite Happly. split; [done|]. split; [done|].
  unfold handle_error, Mutable_apply_action, Mutable_disable. cbn.
  split_and!; try done.
  - intros reply. eexists. reflexivity.
  - by rewrite Hserv.
  - exists sv'. split; [done|]. by rewrite Hwired.
Qed.
End in_flight.

(** ** Examples: one client of a null connectivity *)
Definition example_next (b : nat) : option Z * nat := (Some BACKOFF_MIN_DELAY, S b).

Definition turn_of (core : Z) (a : App NullConnectivity nat) : App NullConnectivity nat :=
  default a (app_turn 0%nat example_next 0 core RecvUnbounded a).

(** The counter [k] is created, counts, is synchronized and unsubscribed. *)
Definition example_app1 : App NullConnectivity nat :=
  let a := (app_build_client (H0 := example_deps) client2 (mkClientBuilder "col" "a") (App_new NullConnectivity_new)).2 in
  let a := (app_build_counter (H0 := example_deps) client2 Uid_new_nil (create_datatype "k") a).2 in
  let a := (user_call 0 (run_user 1 9 9 0 (Counter_new 1) (UIncrease 5)) a).2 in
  let a := turn_of 0 a in
  (app_unsubscribe_datatype client2 "k" a).2.

(** Its loop has confirmed it; then another counter [k] is created. *)
Definition example_app2 : App NullConnectivity nat := turn_of 0 example_app1.
Definition example_app3 : App NullConnectivity nat :=
  (app_build_counter (H0 := example_deps) client2 Uid_new_nil (create_datatype "k") example_app2).2.

Abbreviation example_steps := (rtc (app_step (H1 := example_deps) 0%nat example_next) (App_new NullConnectivity_new)).

Lemma example_app2_reachable : example_steps example_app2.
Proof.
  eapply rtc_l; [by apply (StepClient _ _ client2 (mkClientBuilder "col" "a"))|].
  eapply rtc_l; [apply (StepCounter _ _ client2 Uid_new_nil (create_datatype "k")); by left|].
  eapply rtc_l; [apply (StepUser _ _ 0 1 9 9 0 (Counter_new 1) (UIncrease 5))|].
  eapply rtc_l; [apply (StepTurn _ _ 0 0 RecvUnbounded)|].
  eapply rtc_l; [apply (StepUnsubscribe _ _ client2 "k")|].
  eapply rtc_l; [apply (StepTurn _ _ 0 0 RecvUnbounded)|]. apply rtc_refl.
Qed.

Definition state_in (core : Z) (a : App NullConnectivity nat) : option DatatypeState :=
  td_get_state <$> core_of core a.


(** A subscribed counter unsubscribes while its push is on the way. *)
Definition subscribed_td : TransactionalDatatype :=
  mkTransactionalDatatype (m_put_state Subscribed example_mutable) None false false.

Lemma unsubscribe_during_round_is_lost_witness :
  exists td' q lc' cs,
    td_unsubscribe subscribed_td = (Ok tt, td', calls (td_unsubscribe subscribed_td)) /\
    conn_push_pull (ConnectivityOps := local_connectivity first_key_of_list)
      (fun _ => get_subscribe_snapshot 0 (td_mutable subscribed_td))
      (PushPullPack_checkpointing CheckPoint_default 0 (PushPullPack_new example_attribute Subscribed)) example_lc
      = (Ok q, lc', cs) /\
    final (apply_pulled q (td_mutable td')) = m_put_state Disabled example_mutable.
Proof.
  edestruct (unsubscribe_during_round_is_lost first_key_of_list 0 1
    (mkWorld {[ 1 := td_mutable subscribed_td ]} example_lc) subscribed_td
    (PushPullPack_checkpointing CheckPoint_default 0 (PushPullPack_new example_attribute Subscribed)) 0)
    as (td' & q & lc' & cs & e & Hu & _ & Hq & _ & Hf & _); [reflexivity..|].
  exists td', q, lc', cs. split; [exact Hu|]. split; [|exact Hf].
  revert Hq. vm_compute. auto.
Defined.
