(* ===== verification/Program.v ===== *)
(** * The whole program refines the system of replicas

    [App] runs whole programs: users, clients, event loops and the calls between
    them; [System] has the replicas of one resource, with rounds in three steps.
    This file shows that the datatypes of any resource, as they are found in a
    program with any number of clients and resources, form a [System]: each step of
    the program is a sequence of its steps ([project]).  So what [System] proves
    holds of the values that handles return.

    A program is orderly when it does not do what [System] excludes: a client does
    not make a datatype of a resource again after it left, no datatype subscribes
    while the creator has transactions that are not acknowledged, and the counters
    of 64 bits do not end. *)

From Stdlib Require Import Strings.Byte Sorting.Sorted.
From S2P Require Import Prelude Types Errors Operations Crdts PushBuffer Pack Handler Mutable Transactional PullHandler Server Connectivity Wired Interceptor EventLoop Replica System Resources Rounds Client App Lifecycle.

(** ** Definitions *)

(** The resource of a datatype. *)
Definition resource (td : TransactionalDatatype) : string := Attribute_resource_id (m_attr (td_mutable td)).

Section program.
Context (fk : gmap Cuid Z -> option Cuid).
#[local] Instance program_conn : ConnectivityOps LocalConnectivity := local_connectivity fk.
Context {B : Type} `{ClientDeps}.
Context (build : B) (next : B -> option Z * B).
Implicit Types (a : App LocalConnectivity B).

(** The datatypes of the resource [rid], and the connectivity. *)
Definition on_resource (rid : string) (cs : gmap Z MutableDatatype) : gmap Z MutableDatatype :=
  filter (fun kv => Attribute_resource_id (m_attr kv.2) = rid) cs.

Definition resource_cores (rid : string) a : gmap Z MutableDatatype :=
  on_resource rid (td_mutable <$> h_cores (app_heap a)).

Definition project (rid : string) a : System :=
  mkSystem (mkWorld (resource_cores rid a) (h_conn (app_heap a))) ∅.

(** The operations of a user's closure. *)
Definition increases (now : Z) (deltas : list Z) : list Operation :=
  Operation_new_counter_increase now <$> deltas.

(** The numbers of the datatype and the size of the transaction do not overflow. *)
Definition user_room (now : Z) (h : CounterHandle) (op : UserOp) (m : MutableDatatype) : Prop :=
  let fits tag deltas :=
    oid_cseq (m_op_id m) < u64_max /\ tx_fits (Transaction_set_tag tag (built_tx m (increases now deltas))) in
  match op with
  | UIncrease d => fits (ctx_tag (ch_tx_ctx h)) [d]
  | UTransaction tag _ deltas _ => fits (Some tag) deltas
  | _ => True
  end.

(** A client makes a datatype of a resource once, with a fresh identifier. *)
Definition first_time (cuid : Cuid) (duid : Duid) (key : string) a : Prop :=
  forall dm core td, app_managers a !! cuid = Some dm -> core_of core a = Some td ->
    duid_of (td_mutable td) <> duid /\
    (Lifecycle.cuid_of td = cuid -> resource td <> cc_collection (dm_common dm) +:+ "/" +:+ key).

(** A round of [td] does not overflow the server's numbers, and does not subscribe
    before the creator is settled. *)
Definition round_room (td : TransactionalDatatype) a : Prop :=
  let m := td_mutable td in
  cp_cseq (m_checkpoint m) < u64_max /\
  (forall sv, server_of (resource td) (h_conn (app_heap a)) = Some sv ->
     srv_sseq sv + Z.of_nat (length (buffered m)) <= u64_max) /\
  (subscribes (m_state m) = true -> creator_settled (resource td) (app_world a)).

Inductive orderly_step : relation (App LocalConnectivity B) :=
| OrderlyClient cuid b a : app_managers a !! cuid = None -> orderly_step a (app_build_client cuid b a).2
| OrderlyCounter cuid duid b a :
    fresh_builder b -> first_time cuid duid (db_key b) a ->
    max_mem_size_of_push_buffer (db_option b) <= UPPER_MAX_MEM_SIZE_OF_PUSH_BUFFER ->
    orderly_step a (app_build_counter cuid duid b a).2
| OrderlyUser core fuel fresh ptr now h op a :
    (forall td, core_of core a = Some td -> user_room now h op (td_mutable td)) ->
    orderly_step a (user_call core (run_user fuel fresh ptr now h op) a).2
| OrderlyUnsubscribe cuid key a : orderly_step a (app_unsubscribe_datatype cuid key a).2
| OrderlySync core a : orderly_step a (app_send_sync core a).2
| OrderlyTurn now core branch a :
    (forall td, core_of core a = Some td -> round_room td a) ->
    orderly_step a (default a (app_turn build next now core branch a)).

(** ** Lemmas: the projection *)
Lemma resource_cores_lookup rid a core m : resource_cores rid a !! core = Some m <->
  exists td, core_of core a = Some td /\ td_mutable td = m /\ resource td = rid.
Proof.
  clear build next. unfold resource_cores, on_resource, core_of, resource. rewrite map_lookup_filter_Some, lookup_fmap. cbn.
  destruct (h_cores (app_heap a) !! core) as [td|]; cbn; naive_solver.
Qed.

Lemma project_heap rid a a' : app_heap a' = app_heap a -> project rid a' = project rid a.
Proof. unfold project, resource_cores. by intros ->. Qed.

(** The projection after a change of one core. *)
Lemma on_resource_update rid cs core m m' : cs !! core = Some m ->
  Attribute_resource_id (m_attr m') = Attribute_resource_id (m_attr m) ->
  on_resource rid (<[core := m']> cs) =
    if decide (Attribute_resource_id (m_attr m) = rid) then <[core := m']> (on_resource rid cs)
    else on_resource rid cs.
Proof.
  intros Hm Hr. unfold on_resource. destruct (decide _) as [He|Hne].
  - by rewrite map_filter_insert_True by (cbn; congruence).
  - rewrite map_filter_insert_False by (cbn; congruence).
    apply map_filter_delete_not. cbn. intros x. rewrite Hm. by intros [= <-].
Qed.

Lemma resource_cores_update rid a a' core td td' :
  core_of core a = Some td -> resource td' = resource td ->
  h_cores (app_heap a') = <[core := td']> (h_cores (app_heap a)) ->
  resource_cores rid a' =
    if decide (resource td = rid) then <[core := td_mutable td']> (resource_cores rid a)
    else resource_cores rid a.
Proof.
  intros Htd Hr Hc. unfold resource_cores. rewrite Hc, fmap_insert.
  apply on_resource_update; [|exact Hr]. unfold core_of in Htd. by rewrite lookup_fmap, Htd.
Qed.

(** ** Lemmas: what a call of the user does to its datatype *)

(** The cases of [System]'s steps for a user. *)
Definition user_effect (m m' : MutableDatatype) : Prop :=
  m' = m \/
  (writable (mkTransactionalDatatype m None false false) = true /\
   (m' = rolled_back m \/
    exists ops tag w, commit_ready m ops tag /\ commit_outcome m ops tag m' w)) \/
  (m_state m = Subscribed /\ m' = m_put_state Unsubscribing m) \/
  exists hm, m' = m_set_handlers hm m.

(** [m] after the operations of a transaction, if any. *)
Definition after_ops (m : MutableDatatype) (ops : list Operation) : MutableDatatype :=
  match ops with [] => m | _ => in_tx m ops end.

Lemma increases_counter now deltas : Forall (fun op => is_counter_op op = true) (increases now deltas).
Proof. unfold increases. by induction deltas as [|d deltas IH]; constructor. Qed.

Lemma increases_ready now deltas tag m : mutable_wf m -> pending (m_tx_record m) = None ->
  deltas <> [] -> oid_cseq (m_op_id m) < u64_max ->
  tx_fits (Transaction_set_tag tag (built_tx m (increases now deltas))) ->
  commit_ready m (increases now deltas) tag.
Proof.
  intros Hwf Hp Hne Hc Hf. constructor; try done; [by destruct deltas|apply increases_counter].
Qed.

Lemma end_effect tag b now deltas c tm m : let ops := increases now deltas in
  writable (mkTransactionalDatatype m None false false) = true ->
  mutable_wf m -> pending (m_tx_record m) = None -> oid_cseq (m_op_id m) < u64_max ->
  tx_fits (Transaction_set_tag tag (built_tx m ops)) ->
  exists m' w, @td_end_transaction DatatypeError tag b (mkTransactionalDatatype (after_ops m ops) c false tm) =
    (Ok tt, mkTransactionalDatatype m' None false false, w) /\ user_effect m m'.
Proof.
  intros ops Hw Hwf Hp Hc Hf. destruct deltas as [|d deltas].
  - exists m. destruct b.
    + eexists. split; [|by left]. change (after_ops m ops) with m. unfold td_end_transaction.
      erewrite M_bind_Ok; last first.
      { unfold end_mutable, Mutable_end_transaction. cbn [td_mutable negb]. rewrite Hp. reflexivity. }
      unfold mbind, M_bind, modify, tx_mutex_unlock, NoGuardMutex_unlock. by destruct tm.
    + eexists. split; [by apply td_end_abort_empty|by left].
  - pose proof (increases_ready now (d :: deltas) tag m Hwf Hp ltac:(done) Hc Hf) as Hr. fold ops in Hr.
    change (after_ops m ops) with (in_tx m ops). destruct b.
    + destruct (td_end_commit DatatypeError m ops tag c tm Hr) as (m' & w & Ho & He).
      exists m', w. split; [exact He|]. right. left. split; [done|]. right. by exists ops, tag, w.
    + exists (rolled_back m), []. split; [|by right; left; split; [|left]].
      apply td_end_abort; [done|]. apply counter_ops_ok, increases_counter.
Qed.

Lemma increase_effect fuel fresh now d h td : at_rest td ->
  (writable td = true -> mutable_wf (td_mutable td)) -> user_room now h (UIncrease d) (td_mutable td) ->
  user_effect (td_mutable td) (td_mutable (final (Counter_increase_by fuel fresh now d h td))).
Proof.
  intros [(Hc & Ho & Htm) Hp] Hwf [Hcs Hfit]. destruct td as [m c om tm]; cbn in *. subst.
  set (td := mkTransactionalDatatype m None false false) in *.
  unfold Counter_increase_by, execute_local_operation_as_tx. destruct (writable td) eqn:Hw; last first.
  { destruct (check_writable_refuses td Hw) as [e He].
    erewrite M_bind_Err by (erewrite M_bind_Err by exact He; reflexivity). by left. }
  destruct fuel as [|fuel].
  { erewrite M_bind_Blocked; last first.
    { erewrite M_bind_Ok by (rewrite check_writable_eq, Hw; reflexivity). reflexivity. }
    by left. }
  set (op := Operation_new_counter_increase now d).
  assert (Htag : ctx_tag (started_ctx fresh (ch_tx_ctx h)) = ctx_tag (ch_tx_ctx h)).
  { unfold started_ctx, TransactionContext_has_tag. by destruct (ctx_tag (ch_tx_ctx h)) eqn:Hx. }
  destruct (end_effect (ctx_tag (ch_tx_ctx h)) true now [d] (Some (started_ctx fresh (ch_tx_ctx h))) false m)
    as (m' & w & Hend & He); [done|by apply Hwf|done..|].
  change (after_ops m (increases now [d])) with (in_tx m [op]) in Hend.
  erewrite M_bind_Ok; last first.
  { erewrite M_bind_Ok by (rewrite check_writable_eq, Hw; reflexivity).
    unfold execute_checked. erewrite M_bind_Ok; last first.
    { cbn [begin_loop]. erewrite M_bind_Ok by by apply begin_idle. reflexivity. }
    unfold guarded. erewrite M_bind_Ok by reflexivity.
    erewrite M_bind_Ok; last first.
    { unfold locked, td. cbn [td_mutable td_set_tx_ctx td_set_op_mutex].
      rewrite (execute_first m op (RetCounter (i64_add (crdt_value (m_crdt m)) d))
        (CrdtCounter (mkCounterCrdt (i64_add (crdt_value (m_crdt m)) d))))
        by (done || by rewrite Crdt_execute_local_counter). reflexivity. }
    cbn -[td_end_transaction]. unfold DeferGuard_drop. cbn -[td_end_transaction].
    erewrite M_bind_Ok by reflexivity. cbn -[td_end_transaction]. rewrite Htag.
    erewrite M_bind_Ok by exact Hend. cbn. reflexivity. }
  exact He.
Qed.
(** The increments of a closure, in the transaction. *)
Lemma increases_run ctx fresh now show deltas m :
  writable (mkTransactionalDatatype m None false false) = true -> pending (m_tx_record m) = None ->
  for_each (E := string) (fun d => with_err show (Counter_increase_by 1 fresh now d (mkCounterHandle ctx)) ;; mret tt) deltas
    (mkTransactionalDatatype m (Some ctx) false true) =
  (Ok tt, mkTransactionalDatatype (after_ops m (increases now deltas)) (Some ctx) false true, []).
Proof.
  intros Hw Hp. induction deltas as [|d deltas IH] using rev_ind; [done|]. rewrite for_each_app.
  erewrite M_bind_Ok by exact IH. cbn [for_each]. unfold increases in *. rewrite fmap_app.
  set (ops := Operation_new_counter_increase now <$> deltas) in *. set (op := Operation_new_counter_increase now d).
  assert (Hex : exists v, Mutable_execute_local_operation op (after_ops m ops) =
    (Ok (RetCounter v), after_ops m (ops ++ [op]), [])).
  { destruct ops as [|o ops'].
    - eexists. apply execute_first with (c' := CrdtCounter (mkCounterCrdt (i64_add (crdt_value (m_crdt m)) d)));
        [done|]. by rewrite Crdt_execute_local_counter.
    - eexists. change (after_ops m ((o :: ops') ++ [op])) with (in_tx m ((o :: ops') ++ [op])).
      eapply execute_next; [done|]. by rewrite Crdt_execute_local_counter. }
  destruct Hex as [v Hex].
  erewrite M_bind_Ok; last first.
  { erewrite M_bind_Ok; [reflexivity|]. unfold with_err, Counter_increase_by.
    erewrite M_bind_Ok by (apply execute_same_ctx; [done|done|by destruct ops|exact Hex]). reflexivity. }
  reflexivity.
Qed.

Lemma transaction_effect fuel fresh ptr now h tag show deltas ending td : at_rest td ->
  (writable td = true -> mutable_wf (td_mutable td)) ->
  user_room now h (UTransaction tag show deltas ending) (td_mutable td) ->
  user_effect (td_mutable td) (td_mutable (final
    (Counter_transaction fuel fresh ptr tag (tx_increases fresh now show deltas ending) h td))).
Proof.
  intros [(Hc & Ho & Htm) Hp] Hwf [Hcs Hfit]. destruct td as [m c om tm]; cbn in *. subst.
  unfold Counter_transaction. destruct (writable (mkTransactionalDatatype m None false false)) eqn:Hw; last first.
  { destruct (check_writable_refuses _ Hw) as [e He]. erewrite M_bind_Err by exact He. by left. }
  erewrite M_bind_Ok by (rewrite check_writable_eq, Hw; reflexivity).
  destruct fuel as [|fuel]; [by left|].
  set (ctx := TransactionContext_new ptr tag).
  assert (Hbody : exists r, r <> Blocked /\ with_err TransactionFailed
      (tx_increases fresh now show deltas ending (mkCounterHandle ctx))
      (mkTransactionalDatatype m (Some ctx) false true) =
    (r, mkTransactionalDatatype (after_ops m (increases now deltas)) (Some ctx) false true, [])).
  { unfold with_err, tx_increases. destruct ending; erewrite M_bind_Ok by (apply increases_run; [exact Hw|exact Hp]);
      eexists; (split; [|reflexivity]); done. }
  destruct Hbody as (r & Hr & Hbody).
  assert (Hend : forall b, exists m' w, @td_end_transaction DatatypeError (Some tag) b
      (mkTransactionalDatatype (after_ops m (increases now deltas)) (Some ctx) false true) =
      (Ok tt, mkTransactionalDatatype m' None false false, w) /\ user_effect m m').
  { intros b. apply end_effect; try done. by apply Hwf. }
  cbn [do_transaction]. erewrite M_bind_Ok by by apply begin_idle. cbv beta iota.
  unfold guarded. erewrite M_bind_Ok by reflexivity.
  cbn [td_set_tx_mutex td_mutable td_tx_ctx td_op_mutex td_set_tx_ctx].
  change (started_ctx fresh ctx) with ctx.
  destruct r as [[]|e|why|]; [destruct (Hend true) as (m' & w & Hd & He)
    |destruct (Hend false) as (m' & w & Hd & He)..|done].
  1: erewrite M_bind_Ok by exact Hbody.
  2: erewrite M_bind_Err by exact Hbody.
  3: erewrite M_bind_Panic by exact Hbody.
  all: cbn -[td_end_transaction]; unfold DeferGuard_drop; cbn -[td_end_transaction];
    erewrite M_bind_Ok by exact Hd; exact He.
Qed.

Lemma unsubscribe_effect td : user_effect (td_mutable td) (td_mutable (final (dt_unsubscribe td))).
Proof.
  unfold dt_unsubscribe, transactional_datatype, td_unsubscribe, check_subscribed, locked, emit, mbind, M_bind.
  destruct (decide (m_state (td_mutable td) <> Subscribed)) as [Hst|Hst]; [by left|].
  apply dec_stable in Hst. rewrite set_state_eq. right. right. by left.
Qed.

Lemma run_user_effect fuel fresh ptr now h op td : at_rest td ->
  (writable td = true -> mutable_wf (td_mutable td)) -> user_room now h op (td_mutable td) ->
  user_effect (td_mutable td) (td_mutable (final (run_user fuel fresh ptr now h op td))).
Proof.
  intros Ht Hwf Hroom. destruct op as [d|tag show deltas ending| |id handler|shared id]; cbn [run_user].
  - pose proof (increase_effect fuel fresh now d h td Ht Hwf Hroom) as He.
    unfold mbind, M_bind, mret, M_ret. by destruct (Counter_increase_by _ _ _ _ _ _) as [[[]?]?].
  - by apply transaction_effect.
  - apply unsubscribe_effect.
  - do 3 right. by eexists.
  - unfold dt_unset_handler, transactional_datatype, td_unset_handler, Mutable_unset_handler, mbind, M_bind.
    destruct (HandlersManager_unset_handler _ _ _) as [old hm]. do 3 right. by exists hm.
Qed.
(** ** Lemmas: delivery and the channels *)

(** A loop whose channels have senders, and that runs or was stopped. *)
Definition loop_open (l : Loop B) : Prop :=
  lq_disconnected (lp_bounded l) = false /\
  (lq_disconnected (lp_unbounded l) = false /\ lq_capacity (lp_unbounded l) = None) /\
  (lp_status l = Running \/ lp_status l = Finished).

Definition loops_open a : Prop := forall core l, app_loops a !! core = Some l -> loop_open l.

(** [a'] is [a] but for what is delivered to managers, loops and the recorder. *)
Definition delivers a a' : Prop := app_heap a' = app_heap a /\ (loops_open a -> loops_open a').

Lemma delivers_refl a : delivers a a.
Proof. by split. Qed.

Lemma delivers_trans a a' a'' : delivers a a' -> delivers a' a'' -> delivers a a''.
Proof. intros [H1 H2] [H3 H4]. split; [congruence|auto]. Qed.

Lemma delivers_fold {X} (f : App LocalConnectivity B -> X -> App LocalConnectivity B) xs :
  (forall a x, delivers a (f a x)) -> forall a, delivers a (foldl f a xs).
Proof.
  intros Hf. induction xs as [|x xs IH]; intros a; [apply delivers_refl|]. eapply delivers_trans; [apply Hf|apply IH].
Qed.

Lemma alter_loop_delivers f core a : (forall l, loop_open l -> loop_open (f l)) -> delivers a (alter_loop f core a).
Proof.
  intros Hf. split; [done|]. intros Ho c l. cbn. intros [(-> & l0 & Hl0 & ->)|[_ Hl]]%lookup_alter_Some;
    [eapply Hf, Ho, Hl0|by eapply Ho].
Qed.

Lemma try_send_connected e q : lq_disconnected (lq_try_send e q).2 = lq_disconnected q /\
  lq_capacity (lq_try_send e q).2 = lq_capacity q.
Proof. unfold lq_try_send. by destruct (lq_full q). Qed.

Lemma on_unbounded_open e l : loop_open l -> loop_open (on_unbounded (fun q => (lq_try_send e q).2) l).
Proof.
  intros (Hb & [Hu Hc] & Hs). destruct (try_send_connected e (lp_unbounded l)) as [H1 H2].
  split_and!; [done|exact (eq_trans H1 Hu)|exact (eq_trans H2 Hc)|done].
Qed.

Lemma deliver_mutable_delivers core c a : delivers a (deliver_mutable core c a).
Proof. destruct c; cbn; [done|]. by destruct (core_of core a). Qed.

Lemma record_delivers core e a : delivers a (record_emission core e a).
Proof. by destruct (record_emission_only core e a) as [es ->]. Qed.

Lemma deliver_delivers c a : delivers a (deliver c a).
Proof.
  destruct c as [core c|[core n]|core b]; cbn [deliver];
    [apply deliver_mutable_delivers| |apply record_delivers].
  apply alter_loop_delivers. intros l. apply on_unbounded_open.
Qed.

Lemma deliver_td_delivers core c a : delivers a (deliver_td core c a).
Proof.
  destruct c as [c| | |]; cbn [deliver_td]; [apply deliver_mutable_delivers| |done|].
  - apply alter_loop_delivers. intros l (Hb & Hu & Hs). split; [|by split]. cbn.
    unfold send_push_transaction_with_best_effort. destruct (negb _); [done|].
    exact (eq_trans (proj1 (try_send_connected _ _)) Hb).
  - refine (delivers_trans _ (app_set_requests _ a) _ _ _); [done|].
    apply alter_loop_delivers. intros l. apply on_unbounded_open.
Qed.

Lemma deliver_out_delivers core a o : delivers a (deliver_out core a o).
Proof. destruct o; try done. apply record_delivers. Qed.

(** ** Lemmas: a round in the program *)
Lemma world_put (w : World LocalConnectivity) a :
  (forall c, w_cores w !! c = None <-> h_cores (app_heap a) !! c = None) -> app_world (put_world w a) = w.
Proof.
  intros Hd. unfold app_world, put_world. cbn. destruct w as [cs conn]. cbn in *. f_equal.
  apply map_eq. intros c. rewrite lookup_fmap, map_lookup_imap. specialize (Hd c).
  destruct (h_cores (app_heap a) !! c) as [td|] eqn:Hc; cbn.
  - destruct (cs !! c) as [m|]; [done|]. by destruct Hd as [Hd _]; specialize (Hd eq_refl).
  - symmetry. by apply Hd.
Qed.

Lemma app_world_lookup core a td : core_of core a = Some td -> w_cores (app_world a) !! core = Some (td_mutable td).
Proof. unfold core_of. intros Htd. cbn. by rewrite lookup_fmap, Htd. Qed.

(** The round of the wired datatype, and the handling of its error. *)
Lemma app_round now core a td : core_of core a = Some td ->
  (forall c, interceptor_of c a = WiredInterceptor_new_arc) ->
  let '(r, a1) := app_push_pull now core a in
  let a2 := match r with Err e => app_handle_error core (error e) (recovery e) a1 | _ => a1 end in
  loop_round now core (app_world a) = (r, app_world a2) /\ app_loops a1 = app_loops a /\ app_loops a2 = app_loops a.
Proof.
  intros Htd Hhooks. unfold app_push_pull. rewrite Hhooks, default_interceptor_is_transparent.
  unfold on_world. cbn [hk_world hk_interceptor].
  pose proof (push_pull_round now core (app_world a)) as Hround. unfold loop_round.
  destruct (Wired_push_pull now core (app_world a)) as [[r w'] cs]. cbn [fst snd hk_world hk_interceptor].
  destruct (Hround (td_mutable td)) as [(m' & mc & Hcores & _) _]; [by apply app_world_lookup|].
  assert (Hput : forall a', app_heap a' = app_heap a -> app_world (put_world w' a') = w').
  { intros a' Ha. apply world_put. rewrite Ha, Hcores. intros c. unfold core_of in Htd.
    rewrite lookup_insert_None. cbn [app_world w_cores]. rewrite lookup_fmap, fmap_None. split; [by intros [? _]|].
    intros Hc. split; [done|]. intros ->. congruence. }
  set (a1 := add_undelivered _ _).
  assert (Ha1 : app_world a1 = w') by (apply (Hput a); done).
  assert (Hl : forall err rec a', app_loops (app_handle_error core err rec a') = app_loops a').
  { intros err rec a'. unfold app_handle_error. by destruct (on_core _ _ _) as [[??]?]. }
  destruct r as [[]|e|why|]; rewrite ?Hl; (split; [|done]); rewrite ?Ha1; try done.
  f_equal. unfold app_handle_error. rewrite Ha1. unfold on_core.
  destruct (w_cores w' !! core) as [m1|] eqn:Hm1; [|by rewrite Hcores, lookup_insert_eq in Hm1].
  destruct (handle_error (error e) (recovery e) m1) as [[r2 m2] c2]. cbn [final fst snd].
  symmetry. apply (world_put (mkWorld _ _) a1). intros c.
  change (<[core := m2]> (w_cores w') !! c = None <-> h_cores (app_heap a1) !! c = None).
  assert (Hd : h_cores (app_heap a1) !! c = None <-> w_cores (app_world a1) !! c = None).
  { cbn [app_world w_cores]. by rewrite lookup_fmap, fmap_None. }
  rewrite Hd, Ha1, lookup_insert_None. split; [by intros [? _]|]. intros Hc. split; [done|]. intros ->. congruence.
Qed.
(** ** Lemmas: a turn of an event loop *)
Abbreviation LS := (LoopState (App LocalConnectivity B) ListChannel B).

Definition loop_of (s : LS) : Loop B :=
  mkLoop (ls_bounded s) (ls_unbounded s) (ls_mode s) (ls_backoff s) (ls_status s).

Lemma end_turn_effect core (s : LS) out :
  app_heap (end_turn core s out) = app_heap (ls_wired s) /\
  (loops_open (ls_wired s) -> loop_open (loop_of s) -> loops_open (end_turn core s out)).
Proof.
  unfold end_turn, deliver_all. set (a1 := app_set_replies _ _).
  destruct (delivers_fold (deliver_out core) out (deliver_out_delivers core)
    (foldl (fun a c => deliver c a) (app_set_undelivered [] a1) (app_undelivered a1))) as [Hh1 Ho1].
  destruct (delivers_fold (fun a c => deliver c a) (app_undelivered a1) (fun a c => deliver_delivers c a)
    (app_set_undelivered [] a1)) as [Hh2 Ho2].
  split; [by rewrite Hh1, Hh2|]. intros Ho Hl. apply Ho1, Ho2.
  intros c l. cbn. intros [[<- <-]|[_ Hc]]%lookup_insert_Some; [exact Hl|by eapply Ho].
Qed.

(** While its senders are alive, a loop receives events and no errors. *)
Lemma receive_open now core branch l a ev (s : LS) : loop_open l ->
  @receive_event _ _ _ (app_port now core) _ build next branch (loop_state l a) = Some (ev, s) ->
  ls_wired s = a /\ (exists e, ev = Ok e) /\ ls_status s = lp_status l /\
  lq_disconnected (ls_bounded s) = false /\
  lq_disconnected (ls_unbounded s) = false /\ lq_capacity (ls_unbounded s) = None.
Proof.
  intros (Hb & [Hu Hc] & _) Hrec. split; [by eapply receive_event_wired in Hrec|].
  assert (Hq : forall q e q', lq_recv q = EventLoop.Received e q' ->
    lq_disconnected q' = lq_disconnected q /\ lq_capacity q' = lq_capacity q).
  { intros q e q'. unfold lq_recv. destruct (lq_events q); [by destruct (lq_disconnected q)|]. by intros [= <- <-]. }
  assert (Hd : forall q, lq_disconnected q = false -> lq_recv q <> Disconnected).
  { intros q Hf. unfold lq_recv. rewrite Hf. by destruct (lq_events q). }
  unfold receive_event, receive_mode, recv_branch in Hrec. cbn -[lq_recv push_if_needed] in Hrec.
  destruct (lp_mode l); cbn -[lq_recv push_if_needed] in Hrec.
  - destruct (push_if_needed _ _); [injection Hrec as <- <-; by split; [eexists|]|].
    destruct branch; [| |done]; match type of Hrec with context [lq_recv ?q] => destruct (lq_recv q) as [e q'| |] eqn:Hr end;
      try done; try (by destruct (Hd _ Hb Hr)); try (by destruct (Hd _ Hu Hr));
      injection Hrec as <- <-; apply Hq in Hr as [? ?]; cbn; (split; [by eexists|]); split_and!; congruence.
  - destruct (next _) as [d b]. destruct branch; cbn -[lq_recv] in Hrec; [|done|injection Hrec as <- <-; by split; [eexists|]].
    destruct (lq_recv (lp_unbounded l)) as [e q'| |] eqn:Hr; try done; [|by destruct (Hd _ Hu Hr)].
    injection Hrec as <- <-; apply Hq in Hr as [? ?]; cbn; (split; [by eexists|]); split_and!; congruence.
  - destruct branch; [| |done]; match type of Hrec with context [lq_recv ?q] => destruct (lq_recv q) as [e q'| |] eqn:Hr end;
      try done; try (by destruct (Hd _ Hb Hr)); try (by destruct (Hd _ Hu Hr));
      injection Hrec as <- <-; apply Hq in Hr as [? ?]; cbn; (split; [by eexists|]); split_and!; congruence.
Qed.

(** A turn leaves the datatypes alone or runs one round; the loop goes on unless
    the round panics. *)
Lemma turn_effect now core branch a a' td : core_of core a = Some td -> app_inv a -> loops_open a ->
  app_turn build next now core branch a = Some a' ->
  (app_heap a' = app_heap a /\ loops_open a') \/
  (exists r, loop_round now core (app_world a) = (r, app_world a') /\ (survives r -> loops_open a')).
Proof.
  intros Htd Hinv Hopen. unfold app_turn. destruct (app_loops a !! core) as [l|] eqn:Hl; [|done].
  cbn [mbind option_bind]. unfold loop_turn. cbn [ls_status loop_state].
  destruct (lp_status l) eqn:Hrun; try done.
  destruct (receive_event build next branch (loop_state l a)) as [[ev s]|] eqn:Hev; [|done].
  destruct (receive_open now core branch l a ev s (Hopen _ _ Hl) Hev) as (Hw & [e ->] & Hs & Hb & Hu & Hcap).
  rewrite Hrun in Hs. cbn [mbind option_bind].
  assert (Hstill : forall s' out, ls_wired s' = a -> loop_open (loop_of s') ->
    app_heap (end_turn core s' out) = app_heap a /\ loops_open (end_turn core s' out)).
  { intros s' out Hw' Hlo. destruct (end_turn_effect core s' out) as [Hh Ho]. rewrite Hw' in *. auto. }
  destruct (@handle_event _ _ _ (app_port now core) _ (Ok e) s) as [s' out] eqn:Hh. intros [= <-].
  assert (Hok : loop_open (loop_of s)) by (split_and!; [done..|by left]).
  destruct e as [tx|resp| |n]; cbn [handle_event] in Hh.
  - injection Hh as <- <-. left. apply Hstill; [done|]. by split_and!; [..|right].
  - unfold handle_push in Hh. destruct (ls_mode s) eqn:Hm; last first.
    { injection Hh as <- <-. left. by apply Hstill. }
    all: right; cbn [wp_push_pull app_port] in Hh; rewrite Hw in Hh;
      pose proof (app_round now core a td Htd (inv_hooks _ Hinv)) as Hround;
      destruct (app_push_pull now core a) as [[[]|err|why|] a1];
      destruct Hround as (Hround & Hl1 & Hl2);
      [ |destruct (decide (LoopMode_from (recovery err) = BackOffMode)); cbn in Hh| | ];
      injection Hh as <- <-;
      match goal with |- context [end_turn ?c ?s ?out] => destruct (end_turn_effect c s out) as [He Ho] end;
      (eexists; split; [rewrite Hround; f_equal; unfold app_world; rewrite He; reflexivity|]);
      intros Hsv; try done; apply Ho;
      try (intros c l0; cbn [ls_wired ls_set_wired ls_set_mode ls_set_backoff]; rewrite ?Hl1, ?Hl2; apply Hopen);
      by split_and!; [..|left].
  - injection Hh as <- <-. left. by apply Hstill.
  - destruct (wp_handle_notification n (ls_wired s)); injection Hh as <- <-; left; apply Hstill; try done.
    split_and!; [exact (eq_trans (proj1 (try_send_connected _ _)) Hb)|done..|by left].
Qed.
(** ** The invariant of an orderly program *)
Context `{!FirstKey fk}.

(** The part of the program at a resource is a system that its steps reach. *)
Definition part_inv (rid : string) a : Prop := reachable rid fk (project rid a) /\ registered rid (project rid a).

Record program_inv a : Prop := {
  pi_app : app_inv a;
  pi_open : loops_open a;
  pi_conn : lc_wf (h_conn (app_heap a)) /\ lc_separate (h_conn (app_heap a));
  pi_part : forall rid, part_inv rid a;
}.

(** What a step does at every resource. *)
Definition moves rid a a' : Prop := rtc (sys_step rid fk) (project rid a) (project rid a') /\ registered rid (project rid a').

Lemma user_effect_attr m m' : user_effect m m' -> m_attr m' = m_attr m.
Proof.
  intros [-> |[(_ & [-> |(ops & tag & w & _ & [(_ & -> & _)|(_ & -> & _)])])|[[_ ->]|[hm ->]]]]; done.
Qed.

Lemma user_effect_moves rid ws core m m' : reachable rid fk (mkSystem ws ∅) -> registered rid (mkSystem ws ∅) ->
  w_cores ws !! core = Some m -> user_effect m m' ->
  let s' := mkSystem (mkWorld (<[core := m']> (w_cores ws)) (w_conn ws)) ∅ in
  rtc (sys_step rid fk) (mkSystem ws ∅) s' /\ registered rid s'.
Proof.
  intros Hr Hreg Hm He s'.
  assert (Hkeep : (m_state m' = Unsubscribing -> m_state m = Unsubscribing \/ m_state m = Subscribed) ->
    registered rid s').
  { intros Hst k mk. unfold cores. cbn. intros [[<- <-]|[_ Hk]]%lookup_insert_Some Hu; [|by eapply Hreg].
    replace (Replica.cuid_of m') with (Replica.cuid_of m) by (unfold Replica.cuid_of; by rewrite (user_effect_attr m m' He)).
    destruct (Hst Hu) as [Hs|Hs]; [by eapply (Hreg core)|].
    destruct (live_registered rid ws core m (reachable_inv _ _ _ Hr) Hreg Hm) as (sv & Hsv & _ & _ & Hw & _);
      [by rewrite Hs|by exists sv]. }
  destruct ws as [cs conn]. cbn in *. unfold s' in *.
  destruct He as [-> |[(Hw & [-> |(ops & tag & w & Hready & Hout)])|[[Hst ->]|[hm ->]]]].
  - rewrite insert_id in * by done. split; [apply rtc_refl|done].
  - split; [apply rtc_once; by apply step_abort|]. apply Hkeep. by left.
  - split; [apply rtc_once; by eapply step_transaction|]. apply Hkeep. intros Hu. left.
    by destruct Hout as [(_ & -> & _)|(_ & -> & _)].
  - split; [|apply Hkeep; by right]. apply rtc_once.
    eapply (step_unsubscribe rid fk (mkWorld cs conn)); [done..|].
    erewrite on_core_eq; [reflexivity|done|]. unfold Mutable_set_state. by rewrite decide_False by by rewrite Hst.
  - split; [apply rtc_once; by apply step_handlers|]. apply Hkeep. by left.
Qed.

(** A change of one core, at every resource. *)
Lemma core_moves rid a a' core td td' : part_inv rid a -> core_of core a = Some td ->
  user_effect (td_mutable td) (td_mutable td') ->
  app_heap a' = app_heap (app_set_core core td' a) -> moves rid a a'.
Proof.
  intros [Hr Hreg] Htd He Hh. unfold moves.
  assert (Hp : project rid a' = mkSystem (mkWorld
    (if decide (resource td = rid) then <[core := td_mutable td']> (resource_cores rid a) else resource_cores rid a)
    (h_conn (app_heap a))) ∅).
  { unfold project. rewrite Hh. f_equal. f_equal. apply (resource_cores_update rid a a' core td td' Htd); [|by rewrite Hh].
    unfold resource. by rewrite (user_effect_attr _ _ He). }
  rewrite Hp. destruct (decide _) as [Hrid|_]; [|split; [apply rtc_refl|done]].
  apply (user_effect_moves rid (s_world (project rid a)) core (td_mutable td) (td_mutable td')); try done.
  apply resource_cores_lookup. by exists td.
Qed.

(** A writable datatype is well formed. *)
Lemma writable_wf a core td : (forall rid, part_inv rid a) -> core_of core a = Some td ->
  writable td = true -> mutable_wf (td_mutable td).
Proof.
  intros Hpart Htd Hw. destruct (Hpart (resource td)) as [Hr Hreg].
  assert (Ha : alive (m_state (td_mutable td)) = true).
  { destruct td as [m c om tm]. by destruct (writable_alive m None false false Hw). }
  destruct (live_registered (resource td) (s_world (project (resource td) a)) core (td_mutable td)
    (reachable_inv _ _ _ Hr) Hreg) as (sv & _ & _ & _ & _ & _ & Hv); [| |apply Hv].
  - apply resource_cores_lookup. by exists td.
  - by destruct (m_state (td_mutable td)).
Qed.

(** A method of a handle whose effect is one of the user's. *)
Lemma call_moves {E A} core (f : TM E A) a : program_inv a ->
  (forall td, core_of core a = Some td -> user_effect (td_mutable td) (td_mutable (final (f td)))) ->
  loops_open (user_call core f a).2 /\ h_conn (app_heap (user_call core f a).2) = h_conn (app_heap a) /\
  forall rid, moves rid a (user_call core f a).2.
Proof.
  intros Hinv He. unfold user_call. destruct (core_of core a) as [td|] eqn:Htd; last first.
  { split; [apply Hinv|]. split; [done|]. intros rid. split; [apply rtc_refl|apply (pi_part _ Hinv)]. }
  specialize (He td eq_refl). destruct (f td) as [[r td'] w]. cbn [snd final fst] in *.
  destruct (delivers_fold (fun a c => deliver_td core c a) w (fun a c => deliver_td_delivers core c a) (app_set_core core td' a)) as [Hh Ho].
  split; [apply Ho; intros c l; apply (pi_open _ Hinv)|]. split; [by rewrite Hh|].
  intros rid. eapply core_moves; try done. apply (pi_part _ Hinv).
Qed.
(** A round, at every resource. *)
Lemma round_moves now core a a' td r : program_inv a -> core_of core a = Some td -> round_room td a ->
  loop_round now core (app_world a) = (r, app_world a') ->
  survives r /\ (lc_wf (h_conn (app_heap a')) /\ lc_separate (h_conn (app_heap a'))) /\ forall rid, moves rid a a'.
Proof.
  intros Hinv Htd (Hlt & Hsmall & Hset) Hround. set (m := td_mutable td) in *. set (w := app_world a) in *.
  destruct (pi_conn _ Hinv) as [Hlc Hsep].
  destruct (pi_part _ Hinv (resource td)) as [Hr Hreg]. set (ws := s_world (project (resource td) a)) in *.
  assert (Hm : w_cores w !! core = Some m) by by apply app_world_lookup.
  assert (Hms : w_cores ws !! core = Some m) by (apply resource_cores_lookup; by exists td).
  assert (Hpart : part_of ws w).
  { split; [done|]. intros k x (tdx & Hk & <- & _)%resource_cores_lookup. by apply app_world_lookup. }
  assert (Hown : exists m', app_world a' = mkWorld (<[core := m']> (w_cores w)) (w_conn (app_world a')) /\
    survives r /\ Attribute_resource_id (m_attr m') = resource td /\ lc_wf (w_conn (app_world a')) /\
    let s' := mkSystem (mkWorld (<[core := m']> (w_cores ws)) (w_conn (app_world a'))) ∅ in
    rtc (sys_step (resource td) fk) (mkSystem ws ∅) s' /\ registered (resource td) s').
  { destruct (reachable_core _ _ _ core m Hr Hms) as [Hrid [Hl|Hd]].
    - destruct (live_registered _ ws core m (reachable_inv _ _ _ Hr) Hreg Hms Hl) as (sv & Hsv & _).
      assert (Hset' : subscribes (m_state m) = true -> creator_settled (resource td) ws).
      { intros Hsub x k mk Hx Hcr Hk Hmk. apply (Hset Hsub x k mk); try done. by apply Hpart. }
      destruct (live_round (resource td) fk now core w ws m sv Hpart Hr Hreg Hms Hl Hlt Hsv (Hsmall _ Hsv) Hset')
        as (r' & m' & conn' & Hround' & Hsurv & _ & _ & Hsteps & Hreg').
      pose proof (eq_trans (eq_sym Hround) Hround') as He.
      pose proof (f_equal fst He) as Hrr. pose proof (f_equal snd He) as Hw'. cbn [fst snd] in Hrr, Hw'. subst r'. exists m'. rewrite Hw'. cbn [w_conn].
      assert (Hr' : reachable (resource td) fk (mkSystem (mkWorld (<[core := m']> (w_cores ws)) conn') ∅))
        by (unfold reachable; etrans; [exact Hr|exact Hsteps]).
      split_and!; try done; [|apply (reachable_inv _ _ _ Hr')].
      apply (reachable_core _ _ _ core m' Hr'). apply lookup_insert_eq.
    - destruct (disabled_round fk now core w m Hm Hd Hlc) as (r' & m' & Hround' & Hsurv & Hat & Hst').
      pose proof (eq_trans (eq_sym Hround) Hround') as He.
      pose proof (f_equal fst He) as Hrr. pose proof (f_equal snd He) as Hw'. cbn [fst snd] in Hrr, Hw'. subst r'. exists m'. rewrite Hw'. cbn [w_conn].
      split_and!; try done; [by rewrite Hat| |].
      + apply rtc_once. by apply (step_disabled _ fk ws ∅ core m m').
      + intros k mk. unfold cores. cbn. intros [[<- <-]|[_ Hk]]%lookup_insert_Some Hu; [congruence|by eapply Hreg]. }
  destruct Hown as (m' & Hw' & Hsurv & Hres & Hlc' & Hmoves). split; [done|].
  assert (Hsep' : lc_separate (w_conn (app_world a'))).
  { pose proof (loop_round_separate fk now core w m Hm Hsep) as Hs.
    change program_conn with (rounds_conn fk) in Hround. by rewrite Hround in Hs. }
  split; [done|]. intros rid.
  assert (Hp : project rid a' = mkSystem (mkWorld
    (if decide (resource td = rid) then <[core := m']> (resource_cores rid a) else resource_cores rid a)
    (w_conn (app_world a'))) ∅).
  { change (project rid a') with (mkSystem (mkWorld (on_resource rid (w_cores (app_world a'))) (w_conn (app_world a'))) ∅).
    rewrite Hw' at 1. cbn [w_cores]. f_equal. f_equal. by apply on_resource_update. }
  unfold moves. rewrite Hp. destruct (decide (resource td = rid)) as [<-|Hne]; [exact Hmoves|].
  pose proof (other_round rid fk now core w m Hm Hne Hsep) as Ho.
  change program_conn with (rounds_conn fk) in Hround. rewrite Hround in Ho. cbn [snd] in Ho.
  split.
  - apply rtc_once. by apply (step_others rid fk (s_world (project rid a)) ∅).
  - intros k mk Hk Hu. destruct (pi_part _ Hinv rid) as [_ Hreg']. destruct (Hreg' k mk Hk Hu) as (sv & Hsv & Hwk).
    exists sv. split; [|done]. cbn [s_world w_conn]. rewrite Ho. exact Hsv.
Qed.
(** ** Lemmas: the other steps *)
Lemma same_world_moves a a' : program_inv a -> app_heap a' = app_heap a -> forall rid, moves rid a a'.
Proof.
  intros Hinv Hh rid. unfold moves. rewrite (project_heap rid a a' Hh). split; [apply rtc_refl|].
  apply (pi_part _ Hinv).
Qed.

Lemma build_counter_made duid b dm (h : Heap LocalConnectivity) :
  is_valid_datatype_key (db_key b) = true -> dm_datatypes dm !! db_key b = None ->
  exists td, TransactionalDatatype_new_arc (h_fresh h)
      (Attribute_new duid (db_key b) Counter (dm_common dm) (db_option b) (db_is_readonly b))
      (db_state b) (db_handlers b) = Ok td /\
    build_counter duid b (mkClient dm h) =
      (Ok (DatatypeSet_Counter (h_fresh h) (Counter_new (h_fresh h + 1))),
       with_new_core (db_key b) td (mkClient dm h), []).
Proof.
  intros Hkey Hfree. eexists; split; [reflexivity|].
  unfold build_counter. rewrite Hkey. change (negb true) with false. cbv iota.
  unfold do_subscribe_or_create_datatype, DatatypeManager_subscribe_or_create_datatype, mbind,
    M_bind, get. cbn beta iota zeta. cbn [cl_manager]. rewrite Hfree. reflexivity.
Qed.

(** What is registered is the attribute that refers to the new core. *)
Lemma register_attr core attr st hs td lc : TransactionalDatatype_new_arc core attr st hs = Ok td ->
  m_attr (td_mutable td) = Attribute_set_transactional (mkWeak core true) attr /\ m_state (td_mutable td) = st /\
  LocalConnectivity_register (m_attr (td_mutable td)) core lc = LocalConnectivity_register attr core lc.
Proof.
  unfold TransactionalDatatype_new_arc, MutableDatatype_new, Crdt_new, mbind, result_bind.
  cbn [attr_type Attribute_set_transactional]. destruct (attr_type attr); try done.
  intros [= <-]. split_and!; done.
Qed.

Lemma counter_moves cuid duid b a : program_inv a -> fresh_builder b -> first_time cuid duid (db_key b) a ->
  max_mem_size_of_push_buffer (db_option b) <= UPPER_MAX_MEM_SIZE_OF_PUSH_BUFFER ->
  let a' := (app_build_counter cuid duid b a).2 in
  loops_open a' /\ (lc_wf (h_conn (app_heap a')) /\ lc_separate (h_conn (app_heap a'))) /\
  forall rid, moves rid a a'.
Proof.
  intros Hinv Hb Hfirst Hmax. cbv zeta. unfold app_build_counter.
  assert (Hid : loops_open a /\ (lc_wf (h_conn (app_heap a)) /\ lc_separate (h_conn (app_heap a))) /\
    forall rid, moves rid a a).
  { split; [apply Hinv|]. split; [apply Hinv|]. by apply same_world_moves. }
  destruct (app_managers a !! cuid) as [dm|] eqn:Hdm; [|exact Hid].
  destruct (decide (is_valid_datatype_key (db_key b) = false \/ is_Some (dm_datatypes dm !! db_key b))) as [Hno|Hyes].
  { destruct (build_counter_refused duid b (mkClient dm (app_heap a)) Hno) as [why ->]. cbn.
    rewrite insert_id by done. by destruct a. }
  destruct (build_counter_made duid b dm (app_heap a)) as (td & Hnew & ->).
  { destruct (is_valid_datatype_key _); tauto. }
  { apply eq_None_not_Some. tauto. }
  set (attr := Attribute_new _ _ _ _ _ _) in *. set (core := h_fresh (app_heap a)) in *.
  destruct (register_attr core attr _ _ td (h_conn (app_heap a)) Hnew) as (Hattr & Hst & Hreg).
  cbn -[lookup insert with_new_core]. set (a' := app_set_loops _ _).
  assert (Hnone : core_of core a = None).
  { apply eq_None_not_Some. intros [td0 Htd0]. apply (inv_core _ (pi_app _ Hinv)) in Htd0 as (_ & _ & ?). lia. }
  assert (Hw : app_world a' = mkWorld (<[core := td_mutable td]> (w_cores (app_world a)))
    (LocalConnectivity_register attr core (h_conn (app_heap a)))).
  { unfold a', app_world. cbn -[lookup insert LocalConnectivity_register]. rewrite fmap_insert.
    f_equal. exact Hreg. }
  destruct (pi_conn _ Hinv) as [Hlc Hsep].
  assert (Hlc' : lc_wf (LocalConnectivity_register attr core (h_conn (app_heap a))))
    by apply (@conn_register_wf _ _ _ (local_connectivity_laws fk) attr core _ Hlc).
  split; [|split].
  - intros c l. cbn -[lookup insert]. intros [[<- <-]|[_ Hl]]%lookup_insert_Some; [by split_and!; [..|left]|].
    by apply (pi_open _ Hinv c l).
  - assert (Hconn : h_conn (app_heap a') = LocalConnectivity_register attr core (h_conn (app_heap a)))
      by exact (f_equal w_conn Hw).
    change (lc_wf (h_conn (app_heap a')) /\ lc_separate (h_conn (app_heap a'))).
    rewrite Hconn. split; [done|]. by apply register_separate.
  - intros rid. destruct (pi_part _ Hinv rid) as [Hr Hrg]. unfold moves.
    assert (Hp : project rid a' = mkSystem (mkWorld
      (if decide (Attribute_resource_id attr = rid) then <[core := td_mutable td]> (resource_cores rid a) else resource_cores rid a)
      (LocalConnectivity_register attr core (h_conn (app_heap a)))) ∅).
    { change (project rid a') with (mkSystem (mkWorld (on_resource rid (w_cores (app_world a'))) (w_conn (app_world a'))) ∅).
      rewrite Hw. cbn [w_cores w_conn]. f_equal. f_equal. unfold on_resource.
      assert (Hres : Attribute_resource_id (m_attr (td_mutable td)) = Attribute_resource_id attr) by by rewrite Hattr.
      destruct (decide _) as [He|Hne].
      - rewrite map_filter_insert_True by (cbn; congruence). done.
      - rewrite map_filter_insert_False by (cbn; congruence). apply map_filter_delete_not. intros y.
        change (w_cores (app_world a) !! core) with ((td_mutable <$> h_cores (app_heap a)) !! core).
        rewrite lookup_fmap. unfold core_of in Hnone. by rewrite Hnone. }
    rewrite Hp. destruct (decide (Attribute_resource_id attr = rid)) as [Hrid|Hne].
    + assert (Hother : forall k m, resource_cores rid a !! k = Some m ->
        Replica.cuid_of m <> Attribute_get_cuid attr /\ duid_of m <> Attribute_get_duid attr).
      { intros k m (td0 & Htd0 & <- & Hr0)%resource_cores_lookup. destruct (Hfirst dm k td0 Hdm Htd0) as [Hd Hc].
        split; [|exact Hd]. intros He. apply Hc; [|by rewrite Hr0, <- Hrid].
        etrans; [exact He|]. by apply (inv_common _ (pi_app _ Hinv)). }
      assert (Hstep : sys_step rid fk (project rid a) (mkSystem (mkWorld (<[core := td_mutable td]> (resource_cores rid a))
        (LocalConnectivity_register attr core (h_conn (app_heap a)))) ∅)).
      { apply (step_register rid fk (s_world (project rid a)) ∅ core attr (db_state b) (db_handlers b)); try done.
        - by destruct Hb as [-> |[-> | ->]].
        - apply eq_None_not_Some. intros [m (td0 & Htd0 & _)%resource_cores_lookup]. congruence. }
      split; [by apply rtc_once|]. intros k mk. unfold cores. cbn -[lookup insert LocalConnectivity_register].
      rewrite server_of_register by done.
      intros [[<- <-]|[Hk Hmk]]%lookup_insert_Some Hu; [rewrite Hst in Hu; by destruct Hb as [Hs|[Hs|Hs]]; rewrite Hs in Hu|].
      destruct (Hrg k mk Hmk Hu) as (sv & Hsv & Hwk). cbn in Hsv. rewrite Hsv. eexists. split; [done|].
      cbn. by intros [? _]%lookup_insert_None.
    + pose proof (server_of_register_other rid attr core _ Hlc Hsep Hne) as Ho. split.
      * apply rtc_once. by apply (step_others rid fk (s_world (project rid a)) ∅).
      * intros k mk Hk Hu. destruct (Hrg k mk Hk Hu) as (sv & Hsv & Hwk). exists sv. split; [|done].
        cbn [s_world w_conn]. by rewrite Ho.
Qed.
Lemma turn_moves now core branch a : program_inv a -> (forall td, core_of core a = Some td -> round_room td a) ->
  let a' := default a (app_turn build next now core branch a) in
  loops_open a' /\ (lc_wf (h_conn (app_heap a')) /\ lc_separate (h_conn (app_heap a'))) /\
  forall rid, moves rid a a'.
Proof.
  intros Hinv Hroom a'.
  assert (Hid : loops_open a /\ (lc_wf (h_conn (app_heap a)) /\ lc_separate (h_conn (app_heap a))) /\
    forall rid, moves rid a a).
  { split; [apply Hinv|]. split; [apply Hinv|]. by apply same_world_moves. }
  unfold a'. destruct (app_turn build next now core branch a) as [a1|] eqn:Hturn; cbn [from_option id]; [|exact Hid].
  assert (Hcore : is_Some (core_of core a)).
  { apply (inv_loops _ (pi_app _ Hinv)). unfold app_turn in Hturn. by destruct (app_loops a !! core). }
  destruct Hcore as [td Htd].
  destruct (turn_effect now core branch a a1 td Htd (pi_app _ Hinv) (pi_open _ Hinv) Hturn)
    as [[Hh Ho]|(r & Hround & Ho)].
  - split; [done|]. split; [rewrite Hh; apply Hinv|]. by apply same_world_moves.
  - destruct (round_moves now core a a1 td r Hinv Htd (Hroom td Htd) Hround) as (Hsv & Hc & Hm).
    split; [by apply Ho|]. by split.
Qed.

Lemma orderly_app_step a a' : orderly_step a a' -> app_step build next a a'.
Proof. destruct 1; by constructor. Qed.

Lemma orderly_step_moves a a' : orderly_step a a' -> program_inv a ->
  loops_open a' /\ (lc_wf (h_conn (app_heap a')) /\ lc_separate (h_conn (app_heap a'))) /\
  forall rid, moves rid a a'.
Proof.
  intros Hstep Hinv.
  assert (Hcall : forall E A core (f : TM E A),
    (forall td, core_of core a = Some td -> user_effect (td_mutable td) (td_mutable (final (f td)))) ->
    loops_open (user_call core f a).2 /\
    (lc_wf (h_conn (app_heap (user_call core f a).2)) /\ lc_separate (h_conn (app_heap (user_call core f a).2))) /\
    forall rid, moves rid a (user_call core f a).2).
  { intros E A core f He. destruct (call_moves core f a Hinv He) as (Ho & Hc & Hm).
    split; [done|]. split; [rewrite Hc; apply Hinv|done]. }
  assert (Hsame : forall a1, app_heap a1 = app_heap a -> loops_open a1 ->
    loops_open a1 /\ (lc_wf (h_conn (app_heap a1)) /\ lc_separate (h_conn (app_heap a1))) /\ forall rid, moves rid a a1).
  { intros a1 Hh Ho. split; [done|]. split; [rewrite Hh; apply Hinv|]. by apply same_world_moves. }
  destruct Hstep as [cuid b a Hfree|cuid duid b a Hb Hf Hmax|core fuel fresh ptr now h op a Hroom|cuid key a|core a
    |now core branch a Hroom].
  - apply Hsame; unfold app_build_client; destruct (ClientBuilder_build _ _ _); try done; apply Hinv.
  - by apply counter_moves.
  - apply Hcall. intros td Htd. apply run_user_effect; [apply (inv_core _ (pi_app _ Hinv) _ _ Htd)| |by apply Hroom].
    by apply (writable_wf a core td (pi_part _ Hinv)).
  - unfold app_unsubscribe_datatype. destruct (app_managers a !! cuid) as [dm|] eqn:Hdm; [|by apply Hsame; [|apply Hinv]].
    assert (Hid : app_set_heap (app_heap a) a = a) by by destruct a.
    unfold unsubscribe_datatype, mbind, M_bind, get, Client_get_datatype. cbn beta iota zeta.
    destruct (DatatypeManager_get_datatype key (cl_manager _)) as [ds|]; [|cbn; rewrite Hid; by apply Hsame; [|apply Hinv]].
    unfold DatatypeSet_unsubscribe, Datatype_unsubscribe, on_handle. cbn [cl_heap].
    pose proof (Hcall _ _ (get_core ds) dt_unsubscribe (fun td _ => unsubscribe_effect td)) as Hc.
    unfold user_call, core_of in Hc.
    destruct (h_cores (app_heap a) !! get_core ds) as [td|] eqn:Htd; [|cbn; rewrite Hid; by apply Hsame; [|apply Hinv]].
    destruct (dt_unsubscribe td) as [[r td'] w]. cbn [snd] in Hc.
    destruct r as [[]|e|why|]; cbn -[deliver_td fmap]; rewrite ?app_nil_r, foldl_fmap; exact Hc.
  - apply Hsame; [done|]. refine (proj2 (delivers_trans _ (app_set_requests _ a) _ _ _) (pi_open _ Hinv)); [done|].
    apply alter_loop_delivers. intros l. apply on_unbounded_open.
  - by apply turn_moves.
Qed.

Lemma orderly_step_inv a a' : orderly_step a a' -> program_inv a -> program_inv a'.
Proof.
  intros Hstep Hinv. destruct (orderly_step_moves a a' Hstep Hinv) as (Ho & Hc & Hm). constructor; try done.
  - apply (app_step_inv build next a); [by apply orderly_app_step|apply Hinv].
  - intros rid. destruct (Hm rid) as [Hs Hreg]. split; [|done]. unfold reachable. etrans; [apply (pi_part _ Hinv)|done].
Qed.

(** A program starts without clients; its connectivity may be manual. *)
Definition initial_app (realtime : bool) : App LocalConnectivity B :=
  App_new (LocalConnectivity_set_realtime realtime LocalConnectivity_new_arc).

Definition orderly_program a : Prop := exists realtime, rtc orderly_step (initial_app realtime) a.

Lemma initial_program_inv realtime : program_inv (initial_app realtime).
Proof.
  constructor.
  - apply app_inv_init.
  - by intros c l Hl.
  - split; [by split|]. by intros r1 r2 arc.
  - intros rid. split; [|by intros k m]. apply rtc_once.
    change (project rid (initial_app realtime)) with (mkSystem (mkWorld (on_resource rid ∅)
      (LocalConnectivity_set_realtime realtime LocalConnectivity_new_arc)) ∅).
    unfold on_resource. rewrite map_filter_empty. by apply (step_others rid fk (mkWorld ∅ LocalConnectivity_new_arc) ∅).
Qed.

Lemma orderly_program_inv a : orderly_program a -> program_inv a.
Proof.
  intros [realtime Hrun]. pose proof (initial_program_inv realtime) as Hinv.
  induction Hrun as [|x y z Hstep _ IH]; [done|]. by eapply IH, orderly_step_inv.
Qed.
(** ** Properties *)

(** C5.  The whole program refines the system of replicas: in an orderly program,
    whatever its users, clients, resources and event loops do, the datatypes of each
    resource are in a state that [System] reaches; each step of the program is a
    sequence of steps of that system, for every resource at once; and no event loop
    dies of a panic. *)
Theorem program_refines_system a : orderly_program a ->
  (forall rid, reachable rid fk (project rid a)) /\
  (forall a' rid, orderly_step a a' -> rtc (sys_step rid fk) (project rid a) (project rid a')) /\
  (forall core l, app_loops a !! core = Some l -> lp_status l = Running \/ lp_status l = Finished).
Proof.
  intros Hinv%orderly_program_inv. split_and!.
  - intros rid. apply (pi_part _ Hinv).
  - intros a' rid Hstep. destruct (orderly_step_moves a a' Hstep Hinv) as (_ & _ & Hm). apply Hm.
  - intros core l Hl. apply (pi_open _ Hinv core l Hl).
Qed.

(** C2.  What handles return, in an orderly program: the value of a live counter is
    the sum of the history of its resource up to its server version, plus its own
    transactions after its synced client version, modulo 2^64.  So two handles, of
    any clients, that have nothing to push and report the same server version return
    the same value. *)
Theorem synced_handles_agree a : orderly_program a ->
  (forall core td, core_of core a = Some td -> alive (td_get_state td) = true ->
     exists sv, server_of (resource td) (h_conn (app_heap a)) = Some sv /\
       td_get_server_version td <= srv_sseq sv /\
       Counter_get_value td =
         i64_wrap (sumZ tx_delta (take (Z.to_nat (td_get_server_version td)) (history sv)) +
                   sumZ tx_delta (drop (Z.to_nat (td_get_synced_client_version td)) (buffered (td_mutable td))))) /\
  (forall core1 core2 td1 td2, core_of core1 a = Some td1 -> core_of core2 a = Some td2 ->
     resource td1 = resource td2 -> alive (td_get_state td1) = true -> alive (td_get_state td2) = true ->
     td_get_client_version td1 = td_get_synced_client_version td1 ->
     td_get_client_version td2 = td_get_synced_client_version td2 ->
     td_get_server_version td1 = td_get_server_version td2 ->
     Counter_get_value td1 = Counter_get_value td2).
Proof.
  intros Hinv%orderly_program_inv.
  assert (Hview : forall core td, core_of core a = Some td -> alive (td_get_state td) = true ->
    exists sv, server_of (resource td) (h_conn (app_heap a)) = Some sv /\ server_inv sv /\
      replica_view sv (td_mutable td)).
  { intros core td Htd Ha. destruct (pi_part _ Hinv (resource td)) as [Hr _].
    assert (Hm : cores (project (resource td) a) !! core = Some (td_mutable td))
      by (apply resource_cores_lookup; by exists td).
    destruct (net_none_core _ _ _ _ _ _ (proj2 (reachable_inv _ _ _ Hr)) Hm Ha) as [sv Hsv].
    exists sv. split; [exact Hsv|]. by apply (reachable_view _ fk _ sv core _ Hr Hsv Hm). }
  split.
  - intros core td Htd Ha. destruct (Hview core td Htd Ha) as (sv & Hsv & Hsi & Hv). exists sv.
    split_and!; [done| |apply Hv]. destruct (si_wf _ Hsi) as (_ & -> & _). apply (rv_sseq _ _ Hv).
  - intros core1 core2 td1 td2 Htd1 Htd2 Hr Ha1 Ha2 Hc1 Hc2 Hs.
    destruct (Hview core1 td1 Htd1 Ha1) as (sv1 & Hsv1 & _ & Hv1).
    destruct (Hview core2 td2 Htd2 Ha2) as (sv2 & Hsv2 & _ & Hv2).
    rewrite <- Hr, Hsv1 in Hsv2. injection Hsv2 as <-.
    assert (Hnil : forall td, replica_view sv1 (td_mutable td) ->
      td_get_client_version td = td_get_synced_client_version td -> unacked (td_mutable td) = []).
    { unfold td_get_client_version, td_get_synced_client_version. intros td Hv Hc.
      unfold unacked. apply drop_ge. rewrite <- Hc, (rv_cseq _ _ Hv). lia. }
    unfold Counter_get_value. rewrite (rv_value _ _ Hv1), (rv_value _ _ Hv2), !Hnil by done.
    unfold seen. unfold td_get_server_version in Hs. by rewrite Hs.
Qed.
End program.

(** ** Example: two clients of one resource *)
Definition program_next (b : nat) : option Z * nat := (Some BACKOFF_MIN_DELAY, S b).
Definition program_client (n : Z) : Cuid := if n =? 1 then mkUid "program-client-1" else mkUid "program-client-2".
Definition program_duid (n : Z) : Duid := if n =? 1 then mkUid "program-counter1" else mkUid "program-counter2".
#[local] Instance example_program_conn : ConnectivityOps LocalConnectivity := local_connectivity first_key_of_list.
#[local] Instance example_program_deps : ClientDeps := example_deps.

Abbreviation XApp := (App LocalConnectivity nat).
Definition program1 : XApp :=
  (app_build_client (program_client 1) (mkClientBuilder "col" "a") (initial_app true)).2.
Definition program2 : XApp := (app_build_client (program_client 2) (mkClientBuilder "col" "b") program1).2.
Definition program3 : XApp :=
  (app_build_counter (program_client 1) (program_duid 1) (create_datatype "k") program2).2.
Definition program4 : XApp := (user_call 0 (run_user 1 9 9 0 (Counter_new 1) (UIncrease 5)) program3).2.
Definition program5 : XApp := default program4 (app_turn 0%nat program_next 0 0 RecvBounded program4).
Definition program6 : XApp :=
  (app_build_counter (program_client 2) (program_duid 2) (subscribe_datatype "k") program5).2.
Definition program7 : XApp := default program6 (app_turn 0%nat program_next 0 2 RecvBounded program6).

Abbreviation program_step := (orderly_step first_key_of_list 0%nat program_next).

(** The guards, decided. *)
Lemma program_first_time cuid duid key (a : XApp) :
  match app_managers a !! cuid with
  | None => true
  | Some dm => forallb (fun kv => negb (bool_decide (duid_of (td_mutable kv.2) = duid)) &&
      negb (bool_decide (Lifecycle.cuid_of kv.2 = cuid) &&
            bool_decide (resource kv.2 = cc_collection (dm_common dm) +:+ "/" +:+ key)))
      (map_to_list (h_cores (app_heap a)))
  end = true -> first_time cuid duid key a.
Proof.
  intros H dm core td Hdm Htd. rewrite Hdm, forallb_forall in H. unfold core_of in Htd.
  specialize (H (core, td)). rewrite andb_true_iff, !negb_true_iff, andb_false_iff, !bool_decide_eq_false in H.
  destruct H as [Hd Hc]; [by apply list_elem_of_In, elem_of_map_to_list|]. split; [done|]. tauto.
Qed.

Definition room_ok (td : TransactionalDatatype) (a : XApp) : bool :=
  let m := td_mutable td in
  (cp_cseq (m_checkpoint m) <? u64_max) &&
  match server_of (resource td) (h_conn (app_heap a)) with
  | None => true
  | Some sv =>
      (srv_sseq sv + Z.of_nat (length (buffered m)) <=? u64_max) &&
      (negb (subscribes (m_state m)) ||
       match wired_map sv !! creator sv with
       | Some k => match w_cores (app_world a) !! k with
                   | Some mk => bool_decide (m_state mk = Subscribed) && bool_decide (length (unacked mk) = 0%nat)
                   | None => true
                   end
       | None => true
       end)
  end.

Lemma room_ok_round td a : room_ok td a = true -> round_room td a.
Proof.
  unfold room_ok, round_room. rewrite andb_true_iff, Z.ltb_lt. intros [Hc Hs]. split; [done|].
  unfold creator_settled. destruct (server_of _ _) as [sv|]; [|by split; intros].
  rewrite andb_true_iff, Z.leb_le in Hs. destruct Hs as [Hl Hs]. split; [by intros x [= <-]|].
  intros Hsub x k mk [= <-] _ Hk Hmk. rewrite Hsub, Hk, Hmk in Hs. cbn in Hs.
  apply andb_true_iff in Hs as [H1%bool_decide_eq_true H2%bool_decide_eq_true]. split; [done|].
  by apply nil_length_inv.
Qed.

Lemma program_turn branch core (a : XApp) :
  match core_of core a with Some td => room_ok td a | None => true end = true ->
  program_step a (default a (app_turn 0%nat program_next 0 core branch a)).
Proof.
  intros H. apply OrderlyTurn. intros td Htd. rewrite Htd in H. by apply room_ok_round.
Qed.

Lemma program6_orderly : orderly_program first_key_of_list 0%nat program_next program6.
Proof.
  exists true.
  eapply rtc_l; [by apply (OrderlyClient _ _ _ (program_client 1) (mkClientBuilder "col" "a"))|].
  eapply rtc_l; [by apply (OrderlyClient _ _ _ (program_client 2) (mkClientBuilder "col" "b"))|].
  eapply rtc_l.
  { apply (OrderlyCounter _ _ _ (program_client 1) (program_duid 1) (create_datatype "k")); [by left| |by vm_compute].
    apply program_first_time. by vm_compute. }
  eapply rtc_l.
  { apply (OrderlyUser _ _ _ 0 1 9 9 0 (Counter_new 1) (UIncrease 5)). intros td Htd. vm_compute in Htd.
    injection Htd as <-. by vm_compute. }
  eapply rtc_l; [apply (program_turn RecvBounded 0); by vm_compute|].
  eapply rtc_l.
  { apply (OrderlyCounter _ _ _ (program_client 2) (program_duid 2) (subscribe_datatype "k")); [by right; left| |by vm_compute].
    apply program_first_time. by vm_compute. }
  apply rtc_refl.
Qed.

Lemma program7_step : program_step program6 program7.
Proof. apply (program_turn RecvBounded 2). by vm_compute. Qed.

Lemma program7_orderly : orderly_program first_key_of_list 0%nat program_next program7.
Proof. destruct program6_orderly as [rt H]. exists rt. eapply rtc_r; [exact H|exact program7_step]. Qed.

(** The subscription of the second client, as steps of the system. *)
Lemma program_refines_system_witness :
  rtc (sys_step "col/k" first_key_of_list) (project "col/k" program6) (project "col/k" program7) /\
  reachable "col/k" first_key_of_list (project "col/k" program7) /\
  map_size (resource_cores "col/k" program7) = 2%nat.
Proof.
  destruct (program_refines_system first_key_of_list 0%nat program_next program6 program6_orderly) as (_ & Hs & _).
  destruct (program_refines_system first_key_of_list 0%nat program_next program7 program7_orderly) as (Hr & _ & _).
  split; [apply Hs, program7_step|]. split; [apply Hr|by vm_compute].
Defined.

(** Both clients have the increment of the first. *)
Definition program_core (core : Z) : TransactionalDatatype := default example_td (core_of core program7).

Lemma synced_handles_agree_witness :
  Counter_get_value (program_core 0) = 5 /\ Counter_get_value (program_core 2) = Counter_get_value (program_core 0).
Proof.
  destruct (synced_handles_agree first_key_of_list 0%nat program_next program7 program7_orderly) as [_ H].
  split; [by vm_compute|]. apply (H 2 0); by vm_compute.
Defined.
