(* ===== verification/Ownership.v ===== *)
(** * Who keeps a datatype alive
    ([TransactionalDatatype]'s [Arc]s: [src/datatypes/transactional.rs],
    [src/datatypes/common.rs], [src/clients/datatype_manager.rs])

    A datatype core is shared by the manager of its client, the handles of users
    and the handler tasks that the runtime has not finished; its attribute refers
    to it weakly, and its event loop keeps only the parts that a round needs.  When
    the last of these references goes, the core is dropped, and its [drop] stops
    the event loop.  An [Owned] is a program of [App] with these references counted;
    after each step the cores that lost their last one are dropped. *)

From S2P Require Import Prelude Types Errors Operations Crdts PushBuffer Pack Handler Mutable Transactional PullHandler Server Connectivity Wired Interceptor EventLoop Client App Lifecycle.

Definition task_core (t : HandlerTask) : Z := let '(DS_Counter core) := task_datatype t in core.

Section owned.
Context {C B : Type} `{RefusesDisabled C} `{ClientDeps}.
Context (build : B) (next : B -> option Z * B).
Implicit Types (a : App C B).

Record Owned : Type := mkOwned {
  ow_app : App C B;
  ow_handles : gmap Z nat;            (* handles of users, by core *)
  ow_running : list HandlerTask;      (* spawned and not finished *)
  ow_freed : list Z;                  (* the cores that were dropped, in order *)
}.

Definition Owned_new (conn : C) : Owned := mkOwned (App_new conn) ∅ [] [].

(** Some manager keeps the core. *)
Definition manages (core : Z) a : bool :=
  existsb (fun dm => existsb (fun e => DatatypeSet_get_core_id e.2 =? core)
                       (map_to_list (dm_datatypes dm.2)))
    (map_to_list (app_managers a)).

Definition handles (core : Z) (o : Owned) : nat := default 0%nat (ow_handles o !! core).

Definition referenced (core : Z) (o : Owned) : bool :=
  manages core (ow_app o) || (0 <? handles core o)%nat
  || existsb (fun t => task_core t =? core) (ow_running o).

(** The weak reference of the attribute can be upgraded. *)
Definition is_alive (core : Z) a : bool :=
  match core_of core a with
  | Some td => bool_decide (is_Some (Attribute_upgrade (m_attr (td_mutable td))))
  | None => false
  end.

(** [Drop for TransactionalDatatype], once no strong reference is left. *)
Definition kill_weak (core : Z) (td : TransactionalDatatype) : TransactionalDatatype :=
  let m := td_mutable td in
  td_set_mutable (m_set_attr (Attribute_set_transactional (mkWeak core false) (m_attr m)) m) td.

Definition app_free (core : Z) a : App C B :=
  match core_of core a with
  | Some td =>
      let '(_, td, w) := @td_drop DatatypeError (kill_weak core td) in
      foldl (fun a c => deliver_td core c a) (app_set_core core td a) w
  | None => a
  end.

Definition free_if_last (o : Owned) (core : Z) : Owned :=
  if is_alive core (ow_app o) && negb (referenced core o)
  then mkOwned (app_free core (ow_app o)) (ow_handles o) (ow_running o) (ow_freed o ++ [core])
  else o.

Definition cores (a : App C B) : list Z := (map_to_list (h_cores (app_heap a))).*1.

Definition reclaim (o : Owned) : Owned := foldl free_if_last o (cores (ow_app o)).

(** The program after a step to [a'] that leaves the users with [hs]. *)
Definition after (o : Owned) (a' : App C B) (hs : gmap Z nat) : Owned :=
  reclaim (mkOwned a' hs (ow_running o ++ drop (length (app_tasks (ow_app o))) (app_tasks a')) (ow_freed o)).

Definition add_handle (core : Z) (hs : gmap Z nat) : gmap Z nat :=
  <[core := S (default 0%nat (hs !! core))]> hs.
Definition drop_handle (core : Z) (hs : gmap Z nat) : gmap Z nat :=
  <[core := pred (default 0%nat (hs !! core))]> hs.
Definition add_result {E} (r : result E DatatypeSet) (hs : gmap Z nat) : gmap Z nat :=
  match r with Ok ds => add_handle (DatatypeSet_get_core_id ds) hs | _ => hs end.

(** The steps of [app_step], users acting through handles that they have; and what
    users and the runtime do with references. *)
Inductive owned_step : relation Owned :=
| OwnClient cuid b o : app_managers (ow_app o) !! cuid = None ->
    owned_step o (after o (app_build_client cuid b (ow_app o)).2 (ow_handles o))
| OwnCounter cuid duid b o : fresh_builder b ->
    owned_step o (let '(r, a') := app_build_counter cuid duid b (ow_app o) in
                  after o a' (add_result r (ow_handles o)))
| OwnUser core fuel fresh ptr now h op o : (0 < handles core o)%nat ->
    owned_step o (after o (user_call core (run_user fuel fresh ptr now h op) (ow_app o)).2 (ow_handles o))
| OwnUnsubscribe cuid key o :
    owned_step o (let '(r, a') := app_unsubscribe_datatype cuid key (ow_app o) in
                  after o a' (add_result r (ow_handles o)))
| OwnSync core o : (0 < handles core o)%nat ->
    owned_step o (after o (app_send_sync core (ow_app o)).2 (ow_handles o))
| OwnTurn now core branch o :
    owned_step o (after o (default (ow_app o) (app_turn build next now core branch (ow_app o))) (ow_handles o))
| OwnGet cuid key ds o : app_get_datatype cuid key (ow_app o) = Some ds ->
    owned_step o (after o (ow_app o) (add_handle (DatatypeSet_get_core_id ds) (ow_handles o)))
| OwnClone core o : (0 < handles core o)%nat ->
    owned_step o (after o (ow_app o) (add_handle core (ow_handles o)))
| OwnKeep t o : t ∈ ow_running o ->           (* a handler clones what it is given *)
    owned_step o (after o (ow_app o) (add_handle (task_core t) (ow_handles o)))
| OwnDrop core o : (0 < handles core o)%nat ->
    owned_step o (after o (ow_app o) (drop_handle core (ow_handles o)))
| OwnTaskEnd i o : (i < length (ow_running o))%nat ->
    owned_step o (reclaim (mkOwned (ow_app o) (ow_handles o) (delete i (ow_running o)) (ow_freed o))).

(** ** References *)
Lemma manages_spec core a : manages core a = true <->
  exists cuid key ds, app_get_datatype cuid key a = Some ds /\ DatatypeSet_get_core_id ds = core.
Proof.
  unfold manages, app_get_datatype, DatatypeManager_get_datatype. rewrite existsb_exists. split.
  - intros ([cuid dm] & Hdm%list_elem_of_In%elem_of_map_to_list & He).
    apply existsb_exists in He as ([key ds] & Hds%list_elem_of_In%elem_of_map_to_list & Hid%Z.eqb_eq).
    exists cuid, key, ds. cbn in *. by rewrite Hdm.
  - intros (cuid & key & ds & Hds & <-). apply bind_Some in Hds as (dm & Hdm & Hds).
    exists (cuid, dm). split; [by apply list_elem_of_In, elem_of_map_to_list|].
    apply existsb_exists. exists (key, ds).
    split; [by apply list_elem_of_In, elem_of_map_to_list|]. apply Z.eqb_refl.
Qed.

Lemma manages_managers core a a' : app_managers a' = app_managers a -> manages core a' = manages core a.
Proof. unfold manages. by intros ->. Qed.

Lemma referenced_true core o : referenced core o = true <->
  manages core (ow_app o) = true \/ (0 < handles core o)%nat \/
  exists t, t ∈ ow_running o /\ task_core t = core.
Proof.
  unfold referenced. rewrite !orb_true_iff, Nat.ltb_lt, existsb_exists.
  enough ((exists t, In t (ow_running o) /\ (task_core t =? core) = true) <->
          (exists t, t ∈ ow_running o /\ task_core t = core)) by tauto.
  split; intros (t & Ht & Hc); exists t; [rewrite list_elem_of_In|rewrite <- list_elem_of_In];
    (split; [done|]); by apply Z.eqb_eq.
Qed.

(** The core of a sound program is alive unless its reference was killed. *)
Lemma is_alive_ref core a td : core_of core a = Some td -> core_ref core td ->
  is_alive core a = true /\ Attribute_upgrade (m_attr (td_mutable td)) = Some core \/
  is_alive core a = false /\ td_get_state td = Disabled.
Proof.
  intros Htd (alive & Hw & Hs). unfold is_alive, Attribute_upgrade. rewrite Htd, Hw. cbn.
  destruct alive; [by left|]. right. split; [done|]. by destruct Hs.
Qed.

(** ** Dropping a core *)
Lemma app_free_heap core a td : core_of core a = Some td ->
  app_heap (app_free core a) = app_heap (app_set_core core (kill_weak core td) a) /\
  app_managers (app_free core a) = app_managers a /\ app_tasks (app_free core a) = app_tasks a /\
  app_undelivered (app_free core a) = app_undelivered a /\
  app_interceptors (app_free core a) = app_interceptors a /\
  forall c, is_Some (app_loops (app_free core a) !! c) <-> is_Some (app_loops a !! c).
Proof.
  intros Htd. unfold app_free. rewrite Htd. cbn. split_and!; try done.
  intros c. by rewrite lookup_alter_is_Some.
Qed.

Lemma app_free_core core a td c : core_of core a = Some td ->
  core_of c (app_free core a) = if decide (c = core) then Some (kill_weak core td) else core_of c a.
Proof.
  intros Htd. unfold core_of. destruct (app_free_heap core a td Htd) as [-> _]. cbn.
  destruct (decide (c = core)) as [->|Hne]; [apply lookup_insert_eq|by rewrite lookup_insert_ne].
Qed.

Lemma app_free_inv core a td : core_of core a = Some td -> td_get_state td = Disabled ->
  app_inv a -> app_inv (app_free core a).
Proof.
  intros Htd Hst Hinv. destruct (app_free_heap core a td Htd) as (Hh & Hm & _ & Hu & Hi & Hl).
  assert (Hget : forall cuid key, app_get_datatype cuid key (app_free core a) = app_get_datatype cuid key a)
    by (intros; unfold app_get_datatype; by rewrite Hm).
  constructor.
  - by rewrite Hu, (inv_delivered _ Hinv).
  - intros c. unfold interceptor_of. rewrite Hi. apply (inv_hooks _ Hinv).
  - intros c td'. rewrite (app_free_core core a td c Htd), Hh. cbn.
    destruct (decide (c = core)) as [->|]; [|apply (inv_core _ Hinv)].
    intros [= <-]. destruct (inv_core _ Hinv _ _ Htd) as (_ & Hrest & Hlt). split; [|done].
    exists false. split; [done|by right].
  - intros c Hc%Hl%(inv_loops _ Hinv). rewrite (app_free_core core a td c Htd).
    by destruct (decide (c = core)).
  - rewrite Hm. apply (inv_common _ Hinv).
  - intros cuid key ds. rewrite Hget. intros (td' & Htd' & Hrest)%(inv_managed _ Hinv).
    rewrite (app_free_core core a td _ Htd). destruct (decide (_ = core)) as [Hc|]; [|by exists td'].
    rewrite Hc, Htd in Htd'. injection Htd' as <-. by destruct Hrest as (_ & _ & ?).
  - intros c td'. rewrite (app_free_core core a td c Htd).
    destruct (decide (c = core)) as [->|]; [intros [= <-] Hs; by destruct Hs|].
    rewrite Hget. apply (inv_enabled _ Hinv).
Qed.

(** What holds after a step, before the cores that lost their last reference are
    dropped. *)
Record ow_sound (o : Owned) : Prop := {
  os_app : app_inv (ow_app o);
  os_alive : forall core, referenced core o = true -> is_alive core (ow_app o) = true;
  os_once : NoDup (ow_freed o);
  os_freed : forall core, core ∈ ow_freed o <->
    is_Some (core_of core (ow_app o)) /\ is_alive core (ow_app o) = false;
}.

Lemma is_alive_core core a : is_alive core a = true -> is_Some (core_of core a).
Proof. unfold is_alive. by destruct (core_of core a). Qed.

Lemma kill_weak_dead core td : Attribute_upgrade (m_attr (td_mutable (kill_weak core td))) = None.
Proof. done. Qed.

(** A core that no manager keeps is [Disabled]. *)
Lemma unmanaged_disabled core a td : app_inv a -> core_of core a = Some td -> manages core a = false ->
  td_get_state td = Disabled.
Proof.
  intros Hinv Htd Hm. destruct (decide (td_get_state td = Disabled)) as [|Hne]; [done|].
  destruct (inv_enabled _ Hinv _ _ Htd Hne) as (ds & Hds & Hid).
  assert (manages core a = true) by (apply manages_spec; by exists (cuid_of td), (td_get_key td), ds).
  congruence.
Qed.

Lemma free_if_last_sound o c : ow_sound o ->
  let o' := free_if_last o c in
  ow_sound o' /\ (forall d, referenced d o' = referenced d o) /\
  forall d, is_alive d (ow_app o') = is_alive d (ow_app o) && (negb (d =? c) || referenced d o).
Proof.
  intros [Happ Halive Honce Hfreed]. cbn zeta. unfold free_if_last.
  destruct (is_alive c (ow_app o)) eqn:Ha; cbn [andb]; last first.
  { split; [by split|]. split; [done|]. intros d. destruct (Z.eqb_spec d c) as [->|]; cbn;
      [by rewrite Ha|by rewrite andb_true_r]. }
  destruct (referenced c o) eqn:Hr; cbn [negb].
  { split; [by split|]. split; [done|]. intros d. destruct (Z.eqb_spec d c) as [->|]; cbn;
      [by rewrite Ha, Hr|by rewrite andb_true_r]. }
  destruct (is_alive_core _ _ Ha) as [td Htd].
  assert (Hman : manages c (ow_app o) = false).
  { unfold referenced in Hr. by destruct (manages c (ow_app o)). }
  pose proof (unmanaged_disabled c _ td Happ Htd Hman) as Hdis.
  destruct (app_free_heap c (ow_app o) td Htd) as (_ & Hms & _).
  assert (Href : forall d, referenced d (mkOwned (app_free c (ow_app o)) (ow_handles o) (ow_running o)
    (ow_freed o ++ [c])) = referenced d o).
  { intros d. unfold referenced, handles. cbn. by rewrite (manages_managers _ _ _ Hms). }
  assert (Hal : forall d, is_alive d (app_free c (ow_app o)) = is_alive d (ow_app o) && negb (d =? c)).
  { intros d. unfold is_alive at 1. rewrite (app_free_core c _ td d Htd).
    destruct (decide (d = c)) as [->|Hne].
    - rewrite kill_weak_dead, Z.eqb_refl. cbn. by rewrite andb_false_r.
    - rewrite (proj2 (Z.eqb_neq _ _) Hne), andb_true_r. done. }
  split; [split; cbn [ow_app ow_freed]|split; [exact Href|]].
  - by eapply app_free_inv.
  - intros d. rewrite Href, Hal. intros Hd. rewrite (Halive d Hd).
    destruct (Z.eqb_spec d c) as [->|]; [congruence|done].
  - apply NoDup_app. split; [done|]. split; [|apply NoDup_singleton].
    intros d Hd ->%list_elem_of_singleton. apply Hfreed in Hd as [_ Hd]. congruence.
  - intros d. rewrite elem_of_app, Hfreed, list_elem_of_singleton, Hal, (app_free_core c _ td d Htd).
    destruct (decide (d = c)) as [->|Hne].
    + rewrite Z.eqb_refl, andb_false_r. split; [by split|]. by right.
    + rewrite (proj2 (Z.eqb_neq _ _) Hne), andb_true_r. tauto.
  - intros d. cbn. rewrite Hal. destruct (Z.eqb_spec d c) as [->|]; cbn; [by rewrite Hr|].
    by rewrite andb_true_r.
Qed.

Lemma free_all_sound l : forall o, ow_sound o ->
  let o' := foldl free_if_last o l in
  ow_sound o' /\ (forall d, referenced d o' = referenced d o) /\
  forall d, is_alive d (ow_app o') = is_alive d (ow_app o) && (negb (existsb (Z.eqb d) l) || referenced d o).
Proof.
  induction l as [|c l IH]; intros o Ho; cbn [foldl existsb].
  - split; [done|]. split; [done|]. intros d. cbn. by rewrite andb_true_r.
  - destruct (free_if_last_sound o c Ho) as (Ho1 & Hr1 & Ha1). cbn zeta in *.
    destruct (IH _ Ho1) as (Ho' & Hr' & Ha'). split; [done|]. split; [by intros d; rewrite Hr'|].
    intros d. rewrite Ha', Ha1, Hr1. destruct (is_alive d (ow_app o)), (d =? c), (existsb (Z.eqb d) l),
      (referenced d o); done.
Qed.

(** What holds between steps: exactly the referenced cores are alive. *)
Record owned_inv (o : Owned) : Prop := {
  oi_sound : ow_sound o;
  oi_last : forall core, is_alive core (ow_app o) = true -> referenced core o = true;
}.

Lemma reclaim_inv o : ow_sound o -> owned_inv (reclaim o).
Proof.
  intros Ho. unfold reclaim. destruct (free_all_sound (cores (ow_app o)) o Ho) as (Ho' & Hr & Ha).
  cbn zeta in *. split; [done|]. intros d. rewrite Ha, Hr.
  destruct (is_alive d (ow_app o)) eqn:Hd; cbn; [|done].
  destruct (is_alive_core _ _ Hd) as [td Htd].
  assert (existsb (Z.eqb d) (cores (ow_app o)) = true) as ->; [|done].
  apply existsb_exists. exists d. split; [|apply Z.eqb_refl].
  apply list_elem_of_In. unfold cores. apply list_elem_of_fmap. exists (d, td).
  split; [done|]. by apply elem_of_map_to_list.
Qed.

(** ** Steps of the program *)

(** A step keeps every core and its reference, makes only live cores, and spawns
    tasks for live cores only. *)
Record frame a a' : Prop := {
  fr_keep : forall core td, core_of core a = Some td -> exists td', core_of core a' = Some td' /\
    Attribute_upgrade (m_attr (td_mutable td')) = Attribute_upgrade (m_attr (td_mutable td));
  fr_new : forall core, core_of core a = None -> is_Some (core_of core a') -> is_alive core a' = true;
  fr_tasks : exists ts, app_tasks a' = app_tasks a ++ ts /\
    forall t, t ∈ ts -> is_alive (task_core t) a' = true;
}.

Lemma frame_alive a a' core : frame a a' -> is_Some (core_of core a) -> is_alive core a' = is_alive core a.
Proof.
  intros Hf [td Htd]. destruct (fr_keep _ _ Hf core td Htd) as (td' & Htd' & Hu).
  unfold is_alive. by rewrite Htd, Htd', Hu.
Qed.

Lemma frame_same a a' : app_heap a' = app_heap a -> app_tasks a' = app_tasks a -> frame a a'.
Proof.
  intros Hh Ht. split.
  - intros core td Htd. exists td. split; [|done]. unfold core_of. by rewrite Hh.
  - unfold core_of. rewrite Hh. by intros core -> [? ?].
  - exists []. rewrite app_nil_r. split; [done|]. by intros t ?%not_elem_of_nil.
Qed.

Lemma after_inv o a' hs : owned_inv o -> frame (ow_app o) a' -> app_inv a' ->
  (forall core, (0 < default 0%nat (hs !! core))%nat -> is_alive core a' = true) ->
  owned_inv (after o a' hs).
Proof.
  intros [[Happ Halive Honce Hfreed] _] Hf Happ' Hhs. apply reclaim_inv.
  assert (Hkeep : forall core, is_alive core (ow_app o) = true -> is_alive core a' = true).
  { intros core Hc. by rewrite (frame_alive _ _ _ Hf (is_alive_core _ _ Hc)). }
  split; cbn [ow_app ow_freed]; [done| |done|].
  - intros core Href. apply referenced_true in Href as [Hm|[Hh|(t & Ht & <-)]]; cbn [ow_app ow_running] in *.
    + apply manages_spec in Hm as (cuid & key & ds & Hds & <-).
      destruct (inv_managed _ Happ' _ _ _ Hds) as (td & Htd & _ & _ & Hs).
      destruct (inv_core _ Happ' _ _ Htd) as (Hr & _).
      by destruct (is_alive_ref _ _ _ Htd Hr) as [[? _]|[_ ?]].
    + by apply Hhs.
    + destruct (fr_tasks _ _ Hf) as (ts & Hts & Hal). rewrite Hts, drop_app_length in Ht.
      apply elem_of_app in Ht as [Ht|Ht]; [|by apply Hal].
      apply Hkeep, Halive, referenced_true. right. right. by exists t.
  - intros core. rewrite Hfreed. destruct (core_of core (ow_app o)) as [td|] eqn:Htd.
    + destruct (fr_keep _ _ Hf core td Htd) as (td' & Htd' & _).
      rewrite Htd', (frame_alive _ _ _ Hf) by by rewrite Htd. split; intros [_ ?]; by split.
    + split; [by intros [[? ?] _]|]. intros [Hs Hd]. rewrite (fr_new _ _ Hf core Htd Hs) in Hd. done.
Qed.

(** *** Tasks that calls hand to the runtime *)
Definition mutable_task (c : MutableCall) : option HandlerTask :=
  match c with SpawnTask t => Some t | DetachDatatype _ _ => None end.
Definition world_task (c : WorldCall) : option HandlerTask :=
  match c with CoreCall _ c => mutable_task c | _ => None end.

Lemma deliver_mutable_tasks core c a :
  app_tasks (deliver_mutable core c a) = app_tasks a ++ option_list (mutable_task c) /\
  app_heap (deliver_mutable core c a) = app_heap a.
Proof. destruct c; cbn; rewrite ?app_nil_r; [done|]. by destruct (core_of core a). Qed.

Lemma deliver_td_tasks core w : forall a,
  app_tasks (foldl (fun a c => deliver_td core c a) a w) = app_tasks a ++ omap mutable_task (mutable_calls w) /\
  app_heap (foldl (fun a c => deliver_td core c a) a w) = app_heap a.
Proof.
  induction w as [|c w IH]; intros a; cbn [foldl]; [by rewrite app_nil_r|].
  destruct (IH (deliver_td core c a)) as [-> ->]. destruct c as [c| | |]; cbn [deliver_td]; try done.
  destruct (deliver_mutable_tasks core c a) as [-> ->]. split; [|done].
  rewrite <- app_assoc. f_equal. cbn. by destruct (mutable_task c).
Qed.

Lemma deliver_tasks w : forall a,
  app_tasks (foldl (fun a c => deliver c a) a w) = app_tasks a ++ omap world_task w /\
  app_heap (foldl (fun a c => deliver c a) a w) = app_heap a.
Proof.
  induction w as [|c w IH]; intros a; cbn [foldl]; [by rewrite app_nil_r|].
  destruct (IH (deliver c a)) as [-> ->]. destruct c as [core c|[core n]|core b]; cbn [deliver].
  - destruct (deliver_mutable_tasks core c a) as [-> ->]. split; [|done].
    rewrite <- app_assoc. f_equal. cbn. by destruct (mutable_task c).
  - done.
  - by destruct (record_emission_only core (fun attr => EmittedSync attr b) a) as [es ->].
Qed.

(** A task that holds the datatype of [td] holds a live core. *)
Lemma own_task_alive core a td m t : core_of core a = Some td -> core_ref core td ->
  same_identity m (td_mutable td) -> Attribute_get_datatype_set (m_attr m) = Some (task_datatype t) ->
  is_alive (task_core t) a = true.
Proof.
  intros Htd Href (_ & [_ Hty] & Hw) Ht. unfold Attribute_get_datatype_set in Ht.
  assert (Hu : Attribute_upgrade (m_attr m) = Attribute_upgrade (m_attr (td_mutable td)))
    by (unfold Attribute_upgrade; by rewrite Hw).
  rewrite Hu in Ht. apply bind_Some in Ht as (c & Hc & Ht). destruct (attr_type (m_attr m)); try done.
  injection Ht as Ht. unfold task_core. rewrite <- Ht. unfold is_alive.
  destruct (is_alive_ref core a td Htd Href) as [[Hal Hup]|[Hd _]].
  - rewrite Hup in Hc. injection Hc as <-. by rewrite Htd, Hup.
  - unfold is_alive in Hd. rewrite Htd, Hc in Hd. by rewrite bool_decide_true in Hd.
Qed.

(** One core evolves, and its tasks are handed to the runtime. *)
Lemma frame_evolves a a' core td m' mc tasks :
  app_inv a -> app_inv a' -> core_of core a = Some td -> evolves (td_mutable td) mc m' ->
  forall td', td_mutable td' = m' ->
  h_cores (app_heap a') = <[core := td']> (h_cores (app_heap a)) ->
  app_tasks a' = app_tasks a ++ tasks -> (forall t, t ∈ tasks -> SpawnTask t ∈ mc) -> frame a a'.
Proof.
  intros Hinv Hinv' Htd He td' <- Hcores Htasks Hmc.
  destruct (inv_core _ Hinv _ _ Htd) as (_ & [_ Hpend] & _).
  destruct (He Hpend) as (_ & Hid & _ & _ & Hown).
  assert (Hlook : forall c, core_of c a' = if decide (c = core) then Some td' else core_of c a).
  { intros c. unfold core_of. rewrite Hcores. case_decide as Hc.
    - rewrite Hc. apply lookup_insert_eq.
    - by rewrite lookup_insert_ne. }
  split.
  - intros c td0 Htd0. rewrite Hlook. destruct (decide (c = core)) as [->|]; [|by exists td0].
    exists td'. split; [done|]. rewrite Htd in Htd0. injection Htd0 as <-.
    destruct Hid as (_ & _ & Hw). unfold Attribute_upgrade. by rewrite Hw.
  - intros c Hc. rewrite Hlook. destruct (decide (c = core)) as [->|]; [congruence|].
    rewrite Hc. by intros [? ?].
  - exists tasks. split; [done|]. intros t Ht%Hmc.
    assert (Htd' : core_of core a' = Some td') by by rewrite Hlook, decide_True.
    destruct (inv_core _ Hinv' _ _ Htd') as (Href & _).
    eapply own_task_alive; [exact Htd'|exact Href|exact Hid|].
    unfold own_tasks in Hown. rewrite Forall_forall in Hown. by apply (Hown (SpawnTask t)).
Qed.

Lemma frame_client cuid b a : frame a (app_build_client cuid b a).2.
Proof.
  apply frame_same; unfold app_build_client; by destruct (ClientBuilder_build _ _ _) as [?|?|?|].
Qed.

Lemma frame_sync core a : frame a (app_send_sync core a).2.
Proof. by apply frame_same. Qed.

(** A managed core is alive. *)
Lemma managed_alive cuid key ds a : app_inv a -> app_get_datatype cuid key a = Some ds ->
  is_alive (DatatypeSet_get_core_id ds) a = true.
Proof.
  intros Hinv Hds. destruct (inv_managed _ Hinv _ _ _ Hds) as (td & Htd & _ & _ & Hs).
  destruct (inv_core _ Hinv _ _ Htd) as (Hr & _).
  by destruct (is_alive_ref _ _ _ Htd Hr) as [[? _]|[_ ?]].
Qed.

Lemma frame_counter cuid duid b a : fresh_builder b -> app_inv a ->
  let '(r, a') := app_build_counter cuid duid b a in
  frame a a' /\ forall ds, r = Ok ds -> is_alive (DatatypeSet_get_core_id ds) a' = true.
Proof.
  intros Hb Hinv. unfold app_build_counter.
  destruct (app_managers a !! cuid) as [dm|] eqn:Hdm; [|by split; [apply frame_same|]].
  set (c := mkClient dm (app_heap a)).
  destruct (decide (is_valid_datatype_key (db_key b) = false \/ is_Some (dm_datatypes dm !! db_key b)))
    as [Hno|Hyes].
  { destruct (build_counter_refused duid b c Hno) as [why ->]. by split; [apply frame_same|]. }
  destruct (build_counter_vacant duid b c) as (td & Hbuilt & Hwf & ->).
  { destruct (is_valid_datatype_key _); tauto. }
  { cbn. apply eq_None_not_Some. tauto. }
  cbn -[lookup insert with_new_core]. set (core := h_fresh (app_heap a)) in *. set (a' := app_set_loops _ _).
  assert (Hnew : core_of core a = None).
  { apply eq_None_not_Some. intros [td0 Htd0]. apply (inv_core _ Hinv) in Htd0 as (_ & _ & ?).
    unfold core in *. lia. }
  assert (Hlook : forall c0, core_of c0 a' = if decide (c0 = core) then Some td else core_of c0 a).
  { intros c0. unfold core_of. cbn -[lookup insert]. case_decide as Hc; [subst c0; apply lookup_insert_eq|].
    by rewrite lookup_insert_ne. }
  assert (Hal : is_alive core a' = true).
  { unfold is_alive. rewrite Hlook, decide_True by done. unfold Attribute_upgrade.
    cbn in Hwf. by rewrite Hwf. }
  split; [split|].
  - intros c0 td0 Htd0. rewrite Hlook. destruct (decide (c0 = core)) as [->|]; [congruence|by exists td0].
  - intros c0 Hc0. rewrite Hlook. destruct (decide (c0 = core)) as [->|]; [done|].
    rewrite Hc0. by intros [? ?].
  - exists []. split; [by rewrite app_nil_r|]. by intros t ?%not_elem_of_nil.
  - by intros ds [= <-].
Qed.

(** A method of a handle, called on its core. *)
Lemma frame_call core td td' w a :
  app_inv a -> core_of core a = Some td -> at_rest td' ->
  evolves (td_mutable td) (mutable_calls w) (td_mutable td') ->
  frame a (foldl (fun a c => deliver_td core c a) (app_set_core core td' a) w).
Proof.
  intros Hinv Htd Hrest He.
  destruct (deliver_td_tasks core w (app_set_core core td' a)) as [Ht Hh].
  eapply (frame_evolves a _ core td _ (mutable_calls w) _ Hinv); [by eapply call_inv|done|exact He|done|..].
  - by rewrite Hh.
  - exact Ht.
  - intros t (c & Hc & Hct)%list_elem_of_omap. destruct c; [|done]. by injection Hct as ->.
Qed.

Lemma frame_user core fuel fresh ptr now h op a : app_inv a ->
  frame a (user_call core (run_user fuel fresh ptr now h op) a).2.
Proof.
  intros Hinv. unfold user_call. destruct (core_of core a) as [td|] eqn:Htd; [|by apply frame_same].
  pose proof (run_user_evolves fuel fresh ptr now h op td) as He.
  destruct (run_user fuel fresh ptr now h op td) as [[r td'] w].
  destruct He; [apply (inv_core _ Hinv _ _ Htd)|]. by eapply frame_call.
Qed.

Lemma frame_unsubscribe cuid key a : app_inv a ->
  let '(r, a') := app_unsubscribe_datatype cuid key a in
  frame a a' /\ forall ds, r = Ok ds -> is_alive (DatatypeSet_get_core_id ds) a' = true.
Proof.
  intros Hinv. unfold app_unsubscribe_datatype.
  destruct (app_managers a !! cuid) as [dm|] eqn:Hdm; [|by split; [apply frame_same|]].
  unfold unsubscribe_datatype, mbind, M_bind, get, Client_get_datatype. cbn beta iota zeta.
  destruct (DatatypeManager_get_datatype key (cl_manager _)) as [ds|] eqn:Hds;
    [|by split; [apply frame_same|]].
  unfold DatatypeSet_unsubscribe, Datatype_unsubscribe, on_handle. cbn [cl_heap].
  assert (Hget : app_get_datatype cuid key a = Some ds).
  { unfold app_get_datatype. by rewrite Hdm. }
  destruct (inv_managed _ Hinv cuid key ds Hget) as (td & Htd & _).
  pose proof (managed_alive _ _ _ _ Hinv Hget) as Hal.
  assert (Hcore := Htd). unfold core_of in Htd. change (get_core ds) with (DatatypeSet_get_core_id ds).
  rewrite Htd.
  pose proof (run_user_evolves 1 0 0 0 (Counter_new 0) UUnsubscribe td) as He. cbn [run_user] in He.
  destruct (dt_unsubscribe td) as [[r td'] w].
  destruct He as [Hrest He]; [apply (inv_core _ Hinv _ _ Hcore)|].
  pose proof (frame_call _ td td' w a Hinv Hcore Hrest He) as Hcall.
  pose proof (frame_alive _ _ (DatatypeSet_get_core_id ds) Hcall) as Halive.
  rewrite Hcore, Hal in Halive. specialize (Halive (ltac:(by eexists))).
  destruct r as [[]|e|why|]; cbn -[deliver_td fmap]; rewrite ?app_nil_r, foldl_fmap;
    (split; [exact Hcall|]); try done. by intros ds' [= <-].
Qed.

Lemma frame_turn now core branch a a' : app_inv a ->
  app_turn build next now core branch a = Some a' -> frame a a'.
Proof.
  intros Hinv Hturn. pose proof (turn_inv build next now core branch a a' Hinv Hturn) as Hinv'.
  unfold app_turn in Hturn. destruct (app_loops a !! core) as [l|] eqn:Hl; [|done].
  cbn [mbind option_bind] in Hturn. destruct (inv_loops _ Hinv core) as [td Htd]; [by rewrite Hl|].
  unfold loop_turn in Hturn. cbn [ls_status loop_state] in Hturn. destruct (lp_status l); try done.
  destruct (receive_event build next branch (loop_state l a)) as [[ev s]|] eqn:Hev; [|done].
  assert (Hw : ls_wired s = a) by (by eapply receive_event_wired in Hev).
  cbn [mbind option_bind] in Hturn.
  pose proof (handle_event_turned now core ev s td) as Hturned. rewrite Hw in Hturned.
  specialize (Hturned Htd (inv_hooks _ Hinv)).
  destruct (handle_event ev s) as [s1 out]. cbn [fst] in Hturned. injection Hturn as <-.
  destruct Hturned as (td0 & m' & mc & w & Htd0 & He & Hc & Hf & Hm & Hlo & Ht & Hi & Hu & [_ Htasks]).
  rewrite Htd in Htd0. injection Htd0 as <-.
  unfold end_turn in *. set (a0 := deliver_all _) in *.
  destruct (deliver_outs_only core out a0) as [es Hes]. rewrite Hes in *. clear Hes.
  unfold deliver_all in a0. cbn [app_undelivered app_set_undelivered app_set_replies app_set_loops] in a0.
  subst a0. rewrite Hu, (inv_delivered _ Hinv) in *. cbn [app] in *. set (a1 := app_set_undelivered [] _) in *.
  destruct (deliver_tasks w a1) as [Ht1 Hh1].
  eapply (frame_evolves a _ core td m' mc (omap world_task w) Hinv Hinv' Htd He
    (td_set_mutable m' td)); [done|..].
  - cbn. rewrite Hh1. exact Hc.
  - cbn. rewrite Ht1. by rewrite <- Ht.
  - intros t (c & Hcw & Hct)%list_elem_of_omap. destruct c as [c x| |]; try done.
    destruct x; [|done]. injection Hct as ->. by destruct (Htasks c t Hcw).
Qed.

(** The event loop is told to stop behind what it has still to do. *)
Lemma app_free_stops core a td l : core_of core a = Some td -> app_loops a !! core = Some l ->
  lq_full (lp_unbounded l) = false -> lq_disconnected (lp_unbounded l) = false ->
  exists l', app_loops (app_free core a) !! core = Some l' /\
    lq_events (lp_unbounded l') = lq_events (lp_unbounded l) ++ [Stop (app_requests a)].
Proof.
  intros Htd Hl Hfull Hdis. unfold app_free. rewrite Htd. cbn. rewrite lookup_alter_eq, Hl. cbn.
  eexists. split; [reflexivity|]. unfold on_unbounded, send_stop, send_to_unbounded, q_try_send,
    list_channel, lq_try_send. cbn. by rewrite Hfull, Hdis.
Qed.

Lemma owned_init conn : owned_inv (Owned_new conn).
Proof.
  split; [split|]; cbn.
  - apply app_inv_init.
  - intros core Href. unfold referenced, handles in Href. cbn in Href. by rewrite lookup_empty in Href.
  - constructor.
  - intros core. rewrite elem_of_nil. split; [done|]. by intros [[td Htd] _].
  - intros core Hal. by destruct (is_alive_core _ _ Hal).
Qed.

Lemma handles_alive o core : owned_inv o -> (0 < handles core o)%nat -> is_alive core (ow_app o) = true.
Proof. intros Ho Hh. apply (os_alive _ (oi_sound _ Ho)), referenced_true. auto. Qed.

Lemma add_handle_alive core o a' : owned_inv o -> frame (ow_app o) a' -> is_alive core a' = true ->
  forall c, (0 < default 0%nat (add_handle core (ow_handles o) !! c))%nat -> is_alive c a' = true.
Proof.
  intros Ho Hf Hal c. unfold add_handle. destruct (decide (c = core)) as [->|Hne]; [done|].
  rewrite lookup_insert_ne by done. intros Hh.
  pose proof (handles_alive o c Ho Hh) as Hc. by rewrite (frame_alive _ _ _ Hf (is_alive_core _ _ Hc)).
Qed.

Lemma same_handles_alive o a' : owned_inv o -> frame (ow_app o) a' ->
  forall c, (0 < default 0%nat (ow_handles o !! c))%nat -> is_alive c a' = true.
Proof.
  intros Ho Hf c Hh. pose proof (handles_alive o c Ho Hh) as Hc.
  by rewrite (frame_alive _ _ _ Hf (is_alive_core _ _ Hc)).
Qed.

Lemma add_result_alive {E} (r : result E DatatypeSet) o a' : owned_inv o -> frame (ow_app o) a' ->
  (forall ds, r = Ok ds -> is_alive (DatatypeSet_get_core_id ds) a' = true) ->
  forall c, (0 < default 0%nat (add_result r (ow_handles o) !! c))%nat -> is_alive c a' = true.
Proof.
  intros Ho Hf Hr. destruct r as [ds|e|why|]; cbn [add_result]; try by apply same_handles_alive.
  apply add_handle_alive; [done|done|by apply Hr].
Qed.

Lemma owned_step_inv o o' : owned_step o o' -> owned_inv o -> owned_inv o'.
Proof.
  intros Hstep Ho. pose proof (os_app _ (oi_sound _ Ho)) as Happ.
  assert (Hid : frame (ow_app o) (ow_app o)) by by apply frame_same.
  destruct Hstep as [cuid b o Hfree|cuid duid b o Hb|core fuel fresh ptr now h op o Hh|cuid key o|core o Hh
    |now core branch o|cuid key ds o Hds|core o Hh|t o Ht|core o Hh|i o Hi].
  - pose proof (frame_client cuid b (ow_app o)) as Hf.
    apply after_inv; [done|done|by apply build_client_inv|by apply same_handles_alive].
  - pose proof (frame_counter cuid duid b (ow_app o) Hb Happ) as Hf.
    pose proof (build_counter_inv build next cuid duid b (ow_app o) Hb Happ) as Hinv.
    destruct (app_build_counter _ _ _ _) as [r a']. destruct Hf as [Hf Hr].
    apply after_inv; [done|done|done|by apply add_result_alive].
  - pose proof (frame_user core fuel fresh ptr now h op (ow_app o) Happ) as Hf.
    apply after_inv; [done|done|by apply user_call_inv|by apply same_handles_alive].
  - pose proof (frame_unsubscribe cuid key (ow_app o) Happ) as Hf.
    pose proof (unsubscribe_inv build next cuid key (ow_app o) Happ) as Hinv.
    destruct (app_unsubscribe_datatype _ _ _) as [r a']. destruct Hf as [Hf Hr].
    apply after_inv; [done|done|done|by apply add_result_alive].
  - pose proof (frame_sync core (ow_app o)) as Hf.
    apply after_inv; [done|done| |by apply same_handles_alive].
    exact (app_step_inv build next _ _ (StepSync build next core (ow_app o)) Happ).
  - destruct (app_turn build next now core branch (ow_app o)) as [a'|] eqn:Hturn; cbn [default].
    + pose proof (frame_turn now core branch _ _ Happ Hturn) as Hf.
      apply after_inv; [done|done|by eapply turn_inv|by apply same_handles_alive].
    + apply after_inv; [done..|by apply same_handles_alive].
  - apply after_inv; [done..|]. apply add_handle_alive; [done..|by eapply managed_alive].
  - apply after_inv; [done..|]. apply add_handle_alive; [done..|by apply handles_alive].
  - apply after_inv; [done..|]. apply add_handle_alive; [done..|].
    apply (os_alive _ (oi_sound _ Ho)), referenced_true. right. right. by exists t.
  - apply after_inv; [done..|]. intros c. unfold drop_handle.
    destruct (decide (c = core)) as [->|Hne].
    + intros _. by apply handles_alive.
    + rewrite lookup_insert_ne by done. by apply same_handles_alive.
  - apply reclaim_inv. destruct (oi_sound _ Ho) as [_ Halive Honce Hfreed].
    split; cbn [ow_app ow_freed]; try done. intros c Href. apply Halive.
    apply referenced_true in Href as [Hm|[Hh|(t & Ht & Hc)]]; apply referenced_true; cbn in *; auto.
    right. right. exists t. split; [|done].
    apply list_elem_of_lookup in Ht as [j Hj]. destruct (decide (j < i)%nat).
    + rewrite list_lookup_delete_lt in Hj by done. by eapply list_elem_of_lookup_2.
    + rewrite list_lookup_delete_ge in Hj by lia. by eapply list_elem_of_lookup_2.
Qed.

End owned.

(** ** Example: a counter of a null connectivity leaves and is dropped *)
Abbreviation example_owned_steps :=
  (rtc (owned_step (H1 := example_deps) 0%nat example_next) (Owned_new NullConnectivity_new)).

Definition own_turn (o : Owned (C := NullConnectivity) (B := nat)) : Owned :=
  after o (default (ow_app o) (app_turn 0%nat example_next 0 0 RecvUnbounded (ow_app o))) (ow_handles o).

Definition own_task_end (o : Owned (C := NullConnectivity) (B := nat)) : Owned :=
  reclaim (mkOwned (ow_app o) (ow_handles o) (delete 0%nat (ow_running o)) (ow_freed o)).

(** It is built, subscribed and unsubscribed; then the user drops the handle. *)
Definition example_owned1 : Owned (C := NullConnectivity) (B := nat) :=
  let o := Owned_new NullConnectivity_new in
  let o := after o (app_build_client (H0 := example_deps) client2 (mkClientBuilder "col" "a") (ow_app o)).2
             (ow_handles o) in
  let o := let '(r, a) := app_build_counter (H0 := example_deps) client2 Uid_new_nil (create_datatype "k")
                            (ow_app o) in
           after o a (add_result r (ow_handles o)) in
  let o := own_turn o in
  let o := after o (user_call 0 (run_user 1 9 9 0 (Counter_new 1) UUnsubscribe) (ow_app o)).2 (ow_handles o) in
  after o (ow_app o) (drop_handle 0 (ow_handles o)).

(** The loop confirms it, and the handler tasks end. *)
Definition example_owned2 : Owned (C := NullConnectivity) (B := nat) := own_turn example_owned1.
Definition example_owned3 : Owned (C := NullConnectivity) (B := nat) :=
  own_task_end (own_task_end (own_task_end example_owned2)).

Lemma example_owned1_reachable : example_owned_steps example_owned1.
Proof.
  eapply rtc_l; [by apply (OwnClient _ _ client2 (mkClientBuilder "col" "a"))|].
  eapply rtc_l; [apply (OwnCounter _ _ client2 Uid_new_nil (create_datatype "k")); by left|].
  eapply rtc_l; [apply (OwnTurn _ _ 0 0 RecvUnbounded)|].
  eapply rtc_l; [apply (OwnUser _ _ 0 1 9 9 0 (Counter_new 1) UUnsubscribe); apply Nat.ltb_lt; by vm_compute|].
  eapply rtc_l; [apply (OwnDrop _ _ 0); apply Nat.ltb_lt; by vm_compute|]. apply rtc_refl.
Qed.

Lemma example_owned3_reachable : example_owned_steps example_owned3.
Proof.
  eapply rtc_trans; [exact example_owned1_reachable|].
  eapply rtc_l; [apply (OwnTurn _ _ 0 0 RecvUnbounded)|].
  eapply rtc_l; [apply (OwnTaskEnd _ _ 0%nat); apply Nat.ltb_lt; by vm_compute|].
  eapply rtc_l; [apply (OwnTaskEnd _ _ 0%nat); apply Nat.ltb_lt; by vm_compute|].
  eapply rtc_l; [apply (OwnTaskEnd _ _ 0%nat); apply Nat.ltb_lt; by vm_compute|]. apply rtc_refl.
Qed.

