(* ===== verification/Waiting.v ===== *)
(** * Waiting for [sync]

    [sync] blocks its caller until the event loop of the datatype answers.  Here is
    why this ends with a manual connectivity: the events before the request are
    finitely many, each costs the loop one turn, and nothing keeps the loop from
    receiving the next one.  With a realtime connectivity the loop may prefer to
    push, for ever ([EventLoop.oversized_transaction_starves_event_loop]). *)

From S2P Require Import Prelude Types Errors Operations Crdts PushBuffer Pack Handler Mutable Transactional PullHandler Server Connectivity Wired Interceptor EventLoop Client App.

Section waiting.
Context {B : Type} `{ClientDeps} (fk : gmap Cuid Z -> option Cuid).
Context (build : B) (next : B -> option Z * B).

#[local] Instance waiting_conn : ConnectivityOps LocalConnectivity := local_connectivity fk.

Implicit Types (a : App LocalConnectivity B) (l : Loop B).

Definition manual a : Prop := lc_is_realtime (h_conn (app_heap a)) = false.

(** Two loops that differ by events that arrived at the unbounded channel. *)
Definition arrived (es : list Event) l l' : Prop :=
  l' = on_unbounded (fun q => mkListChannel (lq_events q ++ es) (lq_capacity q) (lq_disconnected q)) l.

Lemma arrived_nil l : arrived [] l l.
Proof. destruct l as [b [es cap d] m k s]. unfold arrived, on_unbounded. cbn. by rewrite app_nil_r. Qed.

Lemma arrived_app es es' l l' l'' : arrived es l l' -> arrived es' l' l'' -> arrived (es ++ es') l l''.
Proof. unfold arrived, on_unbounded. intros -> ->. cbn. by rewrite app_assoc. Qed.

Lemma local_push_pull_realtime snap p lc :
  lc_is_realtime (final (LocalConnectivity_push_pull fk snap p lc)) = lc_is_realtime lc.
Proof.
  unfold LocalConnectivity_push_pull, mbind, M_bind, get, modify, mret, M_ret.
  destruct (get_local_datatype_server _ _) as [arc|]; [|done].
  unfold push_pull_process. destruct (lc_arcs lc !! arc); [|done].
  destruct (process _ _ _ _ _) as [[[q|e|why|] sv] w]; try done. cbn.
  unfold push_pull_remove. by destruct (_ && _ && _).
Qed.

(** What a step keeps for the loop of [core], up to arriving events. *)
Definition keeps core l a a' : Prop :=
  (exists es l', app_loops a' !! core = Some l' /\ arrived es l l') /\ (manual a -> manual a').

Lemma deliver_keeps core l c a : app_loops a !! core = Some l -> keeps core l a (deliver c a).
Proof.
  intros Hl. assert (Hsame : keeps core l a a) by (split; [exists [], l; split; [done|apply arrived_nil]|done]).
  destruct c as [core' [t|key id]|[core' n]|core' b]; cbn; [done| |split; [|done]|].
  - destruct (core_of core' a); [|done]. destruct Hsame as [(es & l' & Hl' & Ha) Hm].
    split; [by exists es, l'|done].
  - cbn. destruct (decide (core' = core)) as [->|Hne].
    + rewrite lookup_alter_eq, Hl. cbn. unfold send_to_unbounded, q_try_send, list_channel, lq_try_send.
      destruct (lq_full (lp_unbounded l)) eqn:Hf.
      * exists [], l. split; [|apply arrived_nil]. f_equal. destruct l. cbn. unfold on_unbounded. cbn.
        cbn in Hf. by rewrite Hf.
      * eexists [Notify n], _. split; [reflexivity|]. unfold arrived, on_unbounded. by rewrite Hf.
    + rewrite lookup_alter_ne by done. destruct Hsame as [Hs _]. exact Hs.
  - by destruct (record_emission_only core' (fun attr => EmittedSync attr b) a) as [es ->].
Qed.

Lemma deliver_all_keeps core w : forall l a, app_loops a !! core = Some l ->
  keeps core l a (foldl (fun a c => deliver c a) a w).
Proof.
  induction w as [|c w IH]; intros l a Hl; cbn [foldl].
  - split; [|done]. exists [], l. split; [done|apply arrived_nil].
  - destruct (deliver_keeps core l c a Hl) as [(es & l' & Hl' & Ha) Hm].
    destruct (IH l' (deliver c a) Hl') as [(es' & l'' & Hl'' & Ha') Hm'].
    split; [|auto]. exists (es ++ es'), l''. split; [done|]. by eapply arrived_app.
Qed.

Lemma deliver_replies c a : app_replies (deliver c a) = app_replies a.
Proof.
  destruct c as [core [t|key id]|[core n]|core b]; try done; cbn; [by destruct (core_of core a)|].
  by destruct (record_emission_only core (fun attr => EmittedSync attr b) a) as [es ->].
Qed.

Lemma deliver_all_replies w : forall a,
  app_replies (foldl (fun a c => deliver c a) a w) = app_replies a.
Proof. induction w as [|c w IH]; intros a; [done|]. cbn. by rewrite IH, deliver_replies. Qed.

(** A round leaves the connectivity manual. *)
Lemma app_push_pull_manual now core a : manual a -> manual (app_push_pull now core a).2.
Proof.
  unfold manual, app_push_pull, Wired_push_pull_hooked, do_push_pull_hooked, attempt, on_world, on_core,
    before_push, after_pull, emit, lift, mbind, M_bind.
  intros Hm. cbn [hk_world hk_interceptor app_world w_cores w_conn].
  destruct (_ !! core) as [m|] eqn:Hcore; [|done].
  destruct (with_mapping create_push_pull_pack m) as [[[p|e|why|] m'] w]; try done.
  cbn [hk_world hk_interceptor w_cores w_conn].
  destruct (wi_before_push _ _ p) as [p' cell]. cbn [hk_world hk_interceptor w_cores w_conn].
  unfold call_push_pull. cbn [w_cores w_conn].
  set (snap := snapshots _ _).
  pose proof (local_push_pull_realtime snap p' (h_conn (app_heap a))) as Hrt.
  cbn [conn_push_pull waiting_conn local_connectivity].
  destruct (LocalConnectivity_push_pull fk snap p' (h_conn (app_heap a))) as [[[q|e|why|] lc] cs];
    cbn in Hrt; rewrite Hm in Hrt; try done; [|by destruct e].
  cbn [hk_world hk_interceptor w_cores w_conn].
  destruct (wi_after_pull _ _ q) as [[[[]|e|why|] q'] cell']; try done.
  cbn [mbind result_bind hk_world hk_interceptor w_cores w_conn].
  rewrite lookup_insert_eq. by destruct (apply_pulled q' m') as [[[[]|e|why|] m3] w3].
Qed.

Lemma app_handle_error_manual core err rec a : manual a -> manual (app_handle_error core err rec a).
Proof.
  unfold manual, app_handle_error, on_core. cbn [app_world w_cores w_conn].
  destruct (_ !! core); [|done]. by destruct (handle_error err rec _) as [[??]?].
Qed.

(** ** One turn *)

(** How the loop leaves an event: it runs on, having answered a request, or it
    ends. *)
Definition handled (ev : Event) (s : LoopState (App LocalConnectivity B) ListChannel B)
    (out : list LoopOut) : Prop :=
  (ls_status s = Running /\
   forall tx, ev = PushTransaction (Some tx) -> exists err, Respond tx err ∈ out) \/
  (ls_status s = Finished /\ exists tx, ev = Stop tx) \/
  (exists why, ls_status s = Unwinding why) \/ ls_status s = Hung.

Lemma handle_event_handled now core ev (s : LoopState (App LocalConnectivity B) ListChannel B) :
  manual (ls_wired s) -> ls_status s = Running ->
  let '(s', out) := @handle_event _ _ _ (app_port now core) _ (Ok ev) s in
  manual (ls_wired s') /\ ls_unbounded s' = ls_unbounded s /\ handled ev s' out.
Proof.
  intros Hm Hrun.
  assert (Hresp : forall resp err tx, resp = Some tx -> exists err', Respond tx err' ∈ process_blocking_resp resp err).
  { intros resp err tx ->. exists err. by left. }
  destruct ev as [tx|resp| |n]; cbn [handle_event].
  - split_and!; try done. right. left. by split; [|exists tx].
  - unfold handle_push. destruct (ls_mode s) eqn:Hmode.
    3:{ split_and!; try done. left. split; [done|]. intros tx [= ->]. by apply Hresp. }
    all: cbn [wp_push_pull app_port]; pose proof (app_push_pull_manual now core (ls_wired s) Hm) as Hm';
      destruct (app_push_pull now core (ls_wired s)) as [[[]|e|why|] a']; cbn [snd] in Hm';
      [ | |split_and!; try done; right; right; left; by exists why|split_and!; try done; by right; right; right].
    all: try (split_and!; try done; left; split; [done|]; intros tx [= ->]; by apply Hresp).
    all: pose proof (app_handle_error_manual core (error e) (recovery e) a' Hm') as Hm'';
      destruct (decide (LoopMode_from (recovery e) = BackOffMode));
      (split_and!; try done); left; (split; [done|]); intros tx [= ->]; eexists;
      apply elem_of_app; right; by left.
  - split_and!; try done. left. by split.
  - destruct (wp_handle_notification _ _); (split_and!; try done); left; by split.
Qed.

(** A loop with a manual connectivity receives what is first in its unbounded channel. *)
Lemma manual_receive now core a l e es : manual a -> lq_events (lp_unbounded l) = e :: es ->
  exists s, @receive_event _ _ _ (app_port now core) _ build next RecvUnbounded (loop_state l a) = Some (Ok e, s) /\
    ls_wired s = a /\ ls_bounded s = lp_bounded l /\
    ls_unbounded s = mkListChannel es (lq_capacity (lp_unbounded l)) (lq_disconnected (lp_unbounded l)) /\
    ls_mode s = lp_mode l /\ ls_status s = lp_status l.
Proof.
  intros Hm Hq. set (q' := mkListChannel es _ _).
  assert (Hb : forall set (s : LoopState (App LocalConnectivity B) ListChannel B),
    recv_branch "unbounded" (lp_unbounded l) set s = Some (Ok e, set q' s)).
  { intros set s. unfold recv_branch. cbn. unfold lq_recv. by rewrite Hq. }
  assert (Hp : push_if_needed core (app_world a) = false).
  { unfold push_if_needed.
    change (conn_is_realtime (w_conn (app_world a))) with (lc_is_realtime (h_conn (app_heap a))).
    unfold manual in Hm. rewrite Hm. by destruct (w_cores (app_world a) !! core). }
  unfold receive_event, receive_mode. cbn [ls_mode loop_state]. destruct (lp_mode l) eqn:Hmode.
  - cbn [wp_push_if_needed app_port ls_wired loop_state andb]. rewrite Hp.
    cbn [ls_unbounded loop_state]. rewrite Hb. eexists. by split_and!.
  - destruct (next _) as [d b]. cbn [andb ls_unbounded ls_set_backoff loop_state]. rewrite Hb. eexists. by split_and!.
  - cbn [andb ls_unbounded loop_state]. rewrite Hb. eexists. by split_and!.
Qed.

(** A loop with a manual connectivity is always ready to receive a request. *)
Lemma manual_turn now core a l e es :
  app_loops a !! core = Some l -> lp_status l = Running -> manual a ->
  lq_events (lp_unbounded l) = e :: es ->
  exists a' l', app_turn build next now core RecvUnbounded a = Some a' /\
    app_loops a' !! core = Some l' /\ manual a' /\
    (exists es', lq_events (lp_unbounded l') = es ++ es') /\
    ((lp_status l' = Running /\ forall tx, e = PushTransaction (Some tx) -> is_Some (reply_to tx a')) \/
     (lp_status l' = Finished /\ exists tx, e = Stop tx) \/
     (exists why, lp_status l' = Unwinding why) \/ lp_status l' = Hung).
Proof.
  intros Hl Hrun Hm Hq.
  destruct (manual_receive now core a l e es Hm Hq) as (s & Hrecv & Hw & _ & Hu & _ & Hs). rewrite Hrun in Hs.
  pose proof (handle_event_handled now core e s) as Hh. rewrite Hw in Hh. specialize (Hh Hm Hs).
  unfold app_turn. rewrite Hl. cbn [mbind option_bind]. unfold loop_turn.
  cbn [ls_status loop_state]. rewrite Hrun, Hrecv. cbn [mbind option_bind].
  destruct (handle_event (Ok e) s) as [s' out]. destruct Hh as (Hm' & Hu' & Hhand).
  unfold end_turn, deliver_all.
  set (l1 := mkLoop (ls_bounded s') (ls_unbounded s') (ls_mode s') (ls_backoff s') (ls_status s')).
  set (a1 := app_set_undelivered [] _). set (w := app_undelivered _).
  destruct (deliver_all_keeps core w l1 a1) as [(es' & l' & Hl' & Ha) Hmm].
  { cbn. apply lookup_insert_eq. }
  destruct (deliver_outs_only core out (foldl (fun a c => deliver c a) a1 w)) as [es0 ->].
  exists (app_set_emitted es0 (foldl (fun a c => deliver c a) a1 w)), l'. split; [done|]. split; [done|]. split; [by apply Hmm|].
  rewrite Ha. cbn. split; [exists es'; by rewrite Hu', Hu|].
  destruct Hhand as [[Hst Hresp]|[Hst|[Hst|Hst]]]; [left|by right; left|by right; right; left|by right; right; right].
  split; [done|]. intros tx Htx. destruct (Hresp tx Htx) as [err Hin].
  unfold reply_to. cbn [app_set_emitted app_replies]. rewrite deliver_all_replies. cbn.
  destruct (list_find _ _) as [[i r]|] eqn:Hfind; [done|]. exfalso.
  apply list_find_None in Hfind. rewrite Forall_forall in Hfind.
  apply (Hfind (tx, err)); [|done]. apply elem_of_app. right. unfold replies_of.
  apply list_elem_of_omap. by exists (Respond tx err).
Qed.

(** A loop that ended answers no more. *)
Lemma run_until_reply_ended fuel now core tx a l :
  app_loops a !! core = Some l -> lp_status l <> Running ->
  (run_until_reply build next fuel now core tx a).2 = a.
Proof.
  intros Hl Hst. destruct fuel as [|fuel]; cbn [run_until_reply]; destruct (reply_to tx a); try done.
  unfold app_turn. rewrite Hl. cbn [mbind option_bind]. unfold loop_turn. cbn [ls_status loop_state].
  by destruct (lp_status l).
Qed.

(** The loop reaches the request, or ends before. *)
Lemma run_until_reply_manual now core tx es : forall a l rest,
  app_loops a !! core = Some l -> lp_status l = Running -> manual a ->
  lq_events (lp_unbounded l) = es ++ PushTransaction (Some tx) :: rest ->
  Forall (fun e => forall tx, e <> Stop tx) es ->
  let '(reply, a') := run_until_reply build next (S (length es)) now core tx a in
  is_Some reply \/ exists l', app_loops a' !! core = Some l' /\
    ((exists why, lp_status l' = Unwinding why) \/ lp_status l' = Hung).
Proof.
  induction es as [|e es IH]; intros a l rest Hl Hrun Hm Hq Hes.
  - cbn -[app_turn]. destruct (reply_to tx a); [by left|].
    destruct (manual_turn now core a l _ _ Hl Hrun Hm Hq) as (a' & l' & -> & Hl' & _ & _ & Hcase).
    destruct Hcase as [[_ Hr]|[[_ [tx' [=]]]|Hend]]; [|by destruct (reply_to tx a'); [left|right; exists l']].
    destruct (Hr tx eq_refl) as [r ->]. by left.
  - apply Forall_cons in Hes as [He Hes'].
    cbn [length]. set (n := S (length es)) in *. cbn [run_until_reply].
    destruct (reply_to tx a); [by left|].
    destruct (manual_turn now core a l _ _ Hl Hrun Hm Hq) as (a' & l' & -> & Hl' & Hm' & (es' & Hq') & Hcase).
    destruct Hcase as [[Hrun' _]|[[_ [tx' Hstop]]|Hend]]; [|exfalso; exact (He tx' Hstop)|].
    + rewrite <- app_assoc in Hq'. exact (IH a' l' _ Hl' Hrun' Hm' Hq' Hes').
    + pose proof (run_until_reply_ended n now core tx a' l' Hl') as Hended.
      destruct (run_until_reply _ _ _ _ _ _ a') as [reply a2]. cbn in Hended. right.
      rewrite Hended; [by exists l'|]. by destruct Hend as [[why Hw]|Hw]; rewrite Hw.
Qed.

(** C15.  With a manual connectivity, [sync] on a datatype whose loop runs returns,
    with the answer of the loop, after at most one turn for each event that was
    before it, whatever the loop's mode is and whatever else happens meanwhile in
    the turns; unless the loop itself dies.  A stop request before it is the
    exception: then the loop is gone. *)
Theorem manual_sync_returns now core a td l :
  core_of core a = Some td -> td_get_state td <> Disabled ->
  app_loops a !! core = Some l -> lp_status l = Running -> lq_capacity (lp_unbounded l) = None ->
  manual a -> Forall (fun e => forall tx, e <> Stop tx) (lq_events (lp_unbounded l)) ->
  let n := length (lq_events (lp_unbounded l)) in
  let '(tx, a1) := app_send_sync core a in
  let '(reply, a2) := run_until_reply build next (S n) now core tx a1 in
  (exists answer, reply = Some answer /\
     app_sync build next (S n) now core a =
       (match answer with Some e => Err e | None => Ok tt end, a2)) \/
  (exists l', app_loops a2 !! core = Some l' /\
     ((exists why, lp_status l' = Unwinding why) \/ lp_status l' = Hung)).
Proof.
  intros Htd Hst Hl Hrun Hcap Hm Hes n. destruct (app_send_sync core a) as [tx a1] eqn:Hsend.
  pose proof Hsend as Hsend'. unfold app_send_sync in Hsend'. injection Hsend' as <- <-.
  set (a1 := alter_loop _ core _) in *.
  set (q := mkListChannel (lq_events (lp_unbounded l) ++ [PushTransaction (Some (app_requests a))])
    None (lq_disconnected (lp_unbounded l))).
  pose proof (run_until_reply_manual now core (app_requests a) (lq_events (lp_unbounded l)) a1
    (mkLoop (lp_bounded l) q (lp_mode l) (lp_backoff l) (lp_status l)) []) as Hrunning.
  destruct (run_until_reply build next (S n) now core (app_requests a) a1) as [reply a2] eqn:Hreply.
  unfold n in Hreply. rewrite Hreply in Hrunning.
  destruct Hrunning as [[answer ->]|Hend]; try done.
  - unfold a1, alter_loop. cbn [app_loops app_set_loops app_set_requests].
    rewrite lookup_alter_eq, Hl. destruct l as [b [es cap d] m k s]. cbn in *. by subst.
  - left. exists answer. split; [done|]. unfold app_sync. rewrite Htd. unfold check_disabled.
    rewrite decide_False by done. cbn [outcome fst]. rewrite Hsend. unfold n. rewrite Hreply.
    cbn. unfold td_sync, check_disabled, emit, lift, mbind, M_bind. rewrite decide_False by done.
    by destruct answer.
  - by right.
Qed.
End waiting.

(** ** Example: a second request behind a first one *)
#[local] Instance example_waiting_conn : ConnectivityOps LocalConnectivity := local_connectivity first_key_of_list.

Definition example_waiting : App LocalConnectivity nat :=
  let a := App_new (LocalConnectivity_set_realtime false LocalConnectivity_new_arc) in
  let a := (app_build_client (H0 := example_deps) client2 (mkClientBuilder "col" "a") a).2 in
  let a := (app_build_counter (H0 := example_deps) client2 Uid_new_nil (create_datatype "k") a).2 in
  (app_send_sync 0 a).2.

Definition waiting_next (b : nat) : option Z * nat := (Some BACKOFF_MIN_DELAY, S b).

Definition example_core0 : TransactionalDatatype := default example_td (core_of 0 example_waiting).
Definition example_loop0 : Loop nat := default new_loop (app_loops example_waiting !! 0).

Lemma manual_sync_returns_witness :
  length (lq_events (lp_unbounded example_loop0)) = 1%nat /\
  let '(tx, a1) := app_send_sync 0 example_waiting in
  let '(reply, a2) := run_until_reply 0%nat waiting_next 2 0 0 tx a1 in
  reply = Some None /\ app_sync 0%nat waiting_next 2 0 0 example_waiting = (Ok tt, a2).
Proof.
  split; [reflexivity|].
  assert (Hcore : core_of 0 example_waiting = Some example_core0) by (vm_compute; reflexivity).
  assert (Hst : td_get_state example_core0 <> Disabled) by (by vm_compute).
  assert (Hloop : app_loops example_waiting !! 0 = Some example_loop0) by (vm_compute; reflexivity).
  pose proof (manual_sync_returns first_key_of_list 0%nat waiting_next 0 0 example_waiting
    example_core0 example_loop0 Hcore Hst Hloop eq_refl eq_refl eq_refl) as H.
  assert (Hstop : Forall (fun e => forall tx, e <> Stop tx) (lq_events (lp_unbounded example_loop0))).
  { assert (lq_events (lp_unbounded example_loop0) = [PushTransaction (Some 0)]) as -> by (vm_compute; reflexivity).
    by repeat constructor. }
  specialize (H Hstop). change (waiting_conn first_key_of_list) with example_waiting_conn in H.
  replace (length (lq_events (lp_unbounded example_loop0))) with 1%nat in H by reflexivity.
  assert (Hr : let x := app_send_sync 0 example_waiting in
    let y := run_until_reply 0%nat waiting_next 2 0 0 x.1 x.2 in
    y.1 = Some None /\ lp_status <$> app_loops y.2 !! 0 = Some Running) by (vm_compute; by split).
  cbv zeta in Hr, H. destruct (app_send_sync 0 example_waiting) as [tx a1]. cbn [fst snd] in Hr.
  destruct (run_until_reply 0%nat waiting_next 2 0 0 tx a1) as [reply a2]. cbn [fst snd] in Hr.
  destruct Hr as [-> Hrunning]. destruct H as [(answer & [= <-] & Hs)|(l' & Hl' & Hdead)].
  - by split.
  - rewrite Hl' in Hrunning. cbn in Hrunning. destruct Hdead as [[why Hd]|Hd]; by rewrite Hd in Hrunning.
Defined.
