(* ===== verification/Sync.v ===== *)
(** * What a [sync] leaves

    The composition of the layers on one call: with a manual connectivity, [sync] on
    a subscribed datatype of an orderly program sends a request to the event loop,
    the loop runs a round through the server, and the caller gets the answer.  The
    requests carry numbers that stand for their one-shot channels; [numbered] says
    that a new number is new. *)

From Stdlib Require Import Strings.Byte Sorting.Sorted.
From S2P Require Import Prelude Types Errors Operations Crdts PushBuffer Pack Handler Mutable Transactional PullHandler Server Connectivity Wired Interceptor EventLoop Replica System Resources Rounds Client App Lifecycle Program Waiting.

(** The one-shot channel of an event. *)
Definition event_number (e : Event) : option Z :=
  match e with
  | Stop tx => Some tx
  | PushTransaction resp_tx => resp_tx
  | _ => None
  end.

Section sync.
Context (fk : gmap Cuid Z -> option Cuid) `{!FirstKey fk}.
#[local] Instance sync_conn : ConnectivityOps LocalConnectivity := local_connectivity fk.
Context {B : Type} `{ClientDeps}.
Context (build : B) (next : B -> option Z * B).
Implicit Types (a : App LocalConnectivity B) (l : Loop B).

Definition below (n : Z) (e : Event) : Prop := forall tx, event_number e = Some tx -> tx < n.

Definition loop_numbered (n : Z) l : Prop :=
  Forall (below n) (lq_events (lp_bounded l)) /\ Forall (below n) (lq_events (lp_unbounded l)).

(** The channels in use have numbers below the next one. *)
Definition numbered a : Prop :=
  Forall (fun r => r.1 < app_requests a) (app_replies a) /\
  forall core l, app_loops a !! core = Some l -> loop_numbered (app_requests a) l.

(** ** Lemmas: the numbers *)
Lemma below_mono n n' e : n <= n' -> below n e -> below n' e.
Proof. intros Hn Hb tx Htx. specialize (Hb tx Htx). lia. Qed.

Lemma loop_numbered_mono n n' l : n <= n' -> loop_numbered n l -> loop_numbered n' l.
Proof. intros Hn [H1 H2]. split; (eapply Forall_impl; [done|]); intros e; by apply below_mono. Qed.

Lemma try_send_below n e q : below n e -> Forall (below n) (lq_events q) -> Forall (below n) (lq_events (lq_try_send e q).2).
Proof.
  intros He Hq. unfold lq_try_send. destruct (lq_full q); [done|]. cbn. apply Forall_app. split; [done|].
  by apply Forall_singleton.
Qed.

Lemma alter_loop_numbered f core a : (forall l, loop_numbered (app_requests a) l -> loop_numbered (app_requests a) (f l)) ->
  numbered a -> numbered (alter_loop f core a).
Proof.
  intros Hf [Hr Hl]. split; [done|]. intros c l. cbn.
  intros [(-> & l0 & Hl0 & ->)|[_ Hc]]%lookup_alter_Some; [by eapply Hf, Hl|by eapply Hl].
Qed.

Lemma new_request_numbered a : numbered a -> numbered (app_set_requests (app_requests a + 1) a).
Proof.
  intros [Hr Hl]. split; cbn.
  - eapply Forall_impl; [exact Hr|]. cbn. lia.
  - intros c l Hc. eapply loop_numbered_mono; [|by eapply Hl]. lia.
Qed.

Lemma send_numbered e core a : below (app_requests a) e -> numbered a ->
  numbered (alter_loop (on_unbounded (fun q => (lq_try_send e q).2)) core a).
Proof. intros He. apply alter_loop_numbered. intros l [Hb Hu]. split; [done|]. by apply try_send_below. Qed.

Lemma numbered_same a a' : app_replies a' = app_replies a -> app_requests a' = app_requests a ->
  app_loops a' = app_loops a -> numbered a -> numbered a'.
Proof. unfold numbered. by intros -> -> ->. Qed.

Lemma deliver_mutable_numbered core c a : numbered a -> numbered (deliver_mutable core c a).
Proof. destruct c; cbn; [done|]. by destruct (core_of core a). Qed.

Lemma record_numbered core e a : numbered a -> numbered (record_emission core e a).
Proof. by destruct (record_emission_only core e a) as [es ->]. Qed.

Lemma deliver_numbered c a : numbered a -> numbered (deliver c a).
Proof.
  destruct c as [core c|[core n]|core b]; cbn [deliver];
    [apply deliver_mutable_numbered| |apply record_numbered]. by apply send_numbered.
Qed.

Lemma deliver_td_numbered core c a : numbered a -> numbered (deliver_td core c a).
Proof.
  destruct c as [c| | |]; cbn [deliver_td]; [apply deliver_mutable_numbered| |done|].
  - apply alter_loop_numbered. intros l [Hb Hu]. split; [|done]. cbn.
    unfold send_push_transaction_with_best_effort. destruct (negb _); [done|]. by apply try_send_below.
  - intros Hn. apply send_numbered; [|by apply new_request_numbered]. intros tx [= <-]. cbn. lia.
Qed.

Lemma foldl_keeps {X Y} (P : X -> Prop) (f : X -> Y -> X) ys : (forall x y, P x -> P (f x y)) ->
  forall x, P x -> P (foldl f x ys).
Proof. intros Hf. induction ys as [|y ys IH]; intros x Hx; [done|]. by apply IH, Hf. Qed.

Lemma send_sync_numbered core a : numbered a -> numbered (app_send_sync core a).2.
Proof.
  intros Hn. apply send_numbered; [|by apply new_request_numbered]. intros tx [= <-]. cbn. lia.
Qed.

(** ** Lemmas: the numbers in a turn *)

(** The channels' side of a program. *)
Definition same_channels a a' : Prop :=
  app_replies a' = app_replies a /\ app_requests a' = app_requests a /\ app_loops a' = app_loops a.

Lemma same_channels_numbered a a' : same_channels a a' -> numbered a -> numbered a'.
Proof. intros (H1 & H2 & H3). by apply numbered_same. Qed.

Lemma push_pull_channels now core a : same_channels a (app_push_pull now core a).2.
Proof. unfold app_push_pull. by destruct (Wired_push_pull_hooked _ _ _) as [[??]?]. Qed.

Lemma handle_error_channels core err rec a : same_channels a (app_handle_error core err rec a).
Proof. unfold app_handle_error. by destruct (on_core _ _ _) as [[??]?]. Qed.

Lemma same_channels_trans a a' a'' : same_channels a a' -> same_channels a' a'' -> same_channels a a''.
Proof. intros (H1 & H2 & H3) (H4 & H5 & H6). unfold same_channels. by rewrite H4, H5, H6. Qed.

Definition event_below (n : Z) (ev : result DatatypeError Event) : Prop :=
  match ev with Ok e => below n e | _ => True end.

Lemma recv_numbered n q e q' : Forall (below n) (lq_events q) -> lq_recv q = EventLoop.Received e q' ->
  below n e /\ Forall (below n) (lq_events q').
Proof.
  unfold lq_recv. destruct (lq_events q) as [|e0 es]; [by destruct (lq_disconnected q)|].
  intros [H1 H2]%Forall_cons [= <- <-]. done.
Qed.

Lemma receive_numbered n now core branch l a ev (s : LoopState (App LocalConnectivity B) ListChannel B) :
  loop_numbered n l ->
  @receive_event _ _ _ (app_port now core) _ build next branch (loop_state l a) = Some (ev, s) ->
  ls_wired s = a /\ event_below n ev /\ loop_numbered n (loop_of s).
Proof.
  intros [Hb Hu] Hrec. split; [by eapply receive_event_wired in Hrec|].
  unfold receive_event, receive_mode, recv_branch in Hrec. cbn -[lq_recv push_if_needed] in Hrec.
  destruct (lp_mode l); [destruct (push_if_needed _ _); [by injection Hrec as <- <-|]|destruct (next _) as [d b]|];
    destruct branch; cbn -[lq_recv] in Hrec; try done; try (by injection Hrec as <- <-);
    match type of Hrec with context [lq_recv ?q] => destruct (lq_recv q) as [e q'| |] eqn:Hr end;
    try done; injection Hrec as <- <-; try done;
    eapply recv_numbered in Hr as [? ?]; try done.
Qed.

Lemma resp_below n resp err : below n (PushTransaction resp) ->
  Forall (fun r : Z * option DatatypeError => r.1 < n) (replies_of (process_blocking_resp resp err)).
Proof. intros Hb. destruct resp as [tx|]; [|done]. constructor; [by apply Hb|done]. Qed.

Lemma handle_numbered n now core ev (s s' : LoopState (App LocalConnectivity B) ListChannel B) out :
  event_below n ev -> loop_numbered n (loop_of s) ->
  @handle_event _ _ _ (app_port now core) _ ev s = (s', out) ->
  same_channels (ls_wired s) (ls_wired s') /\ loop_numbered n (loop_of s') /\
  Forall (fun r => r.1 < n) (replies_of out).
Proof.
  intros He Hn. destruct ev as [[tx|resp| |nt]|e|why|]; cbn [handle_event]; try (by intros [= <- <-]).
  - unfold handle_push. destruct (ls_mode s); cbn [wp_push_pull app_port].
    3: intros [= <- <-]; split_and!; [done..|by apply resp_below].
    all: pose proof (push_pull_channels now core (ls_wired s)) as Hp;
      destruct (app_push_pull now core (ls_wired s)) as [[[]|err|why|] a1]; cbn [snd] in Hp;
      [intros [= <- <-]; split_and!; [done..|by apply resp_below]| |by intros [= <- <-]..];
      pose proof (same_channels_trans _ _ _ Hp (handle_error_channels core (error err) (recovery err) a1)) as Hh;
      destruct (decide _); intros [= <- <-]; (split; [done|]); split; [done|by apply resp_below|done|by apply resp_below].
  - destruct (wp_handle_notification _ _); intros [= <- <-]; [|done]. split_and!; [done| |done].
    destruct Hn as [Hb Hu]. split; [|done]. by apply try_send_below.
  - intros [= <- <-]. split_and!; [apply handle_error_channels|done..].
Qed.

Lemma end_turn_numbered n core (s : LoopState (App LocalConnectivity B) ListChannel B) out :
  n = app_requests (ls_wired s) -> numbered (ls_wired s) -> loop_numbered n (loop_of s) ->
  Forall (fun r => r.1 < n) (replies_of out) -> numbered (end_turn core s out).
Proof.
  intros -> [Hr Hl] Hs Ho. unfold end_turn. apply foldl_keeps.
  { intros x [| |]; cbn [deliver_out]; try done. apply record_numbered. }
  unfold deliver_all. apply foldl_keeps; [intros x c; apply deliver_numbered|]. split.
  - by apply Forall_app.
  - intros c l. cbn. intros [[<- <-]|[_ Hc]]%lookup_insert_Some; [exact Hs|by eapply Hl].
Qed.

Lemma turn_numbered now core branch a a' : app_turn build next now core branch a = Some a' ->
  numbered a -> numbered a'.
Proof.
  intros Hturn Hn. unfold app_turn in Hturn. destruct (app_loops a !! core) as [l|] eqn:Hl; [|done].
  cbn [mbind option_bind] in Hturn. unfold loop_turn in Hturn. cbn [ls_status loop_state] in Hturn.
  destruct (lp_status l); try done.
  destruct (receive_event build next branch (loop_state l a)) as [[ev s]|] eqn:Hev; [|done]. cbn [mbind option_bind] in Hturn.
  destruct (receive_numbered (app_requests a) now core branch l a ev s (proj2 Hn _ _ Hl) Hev) as (Hw & He & Hs).
  destruct (handle_event ev s) as [s' out] eqn:Hh. injection Hturn as <-.
  destruct (handle_numbered (app_requests a) now core ev s s' out He Hs Hh) as (Hsame & Hs' & Ho). rewrite Hw in Hsame.
  eapply end_turn_numbered; [symmetry; apply Hsame|by eapply same_channels_numbered|done..].
Qed.

Lemma deliver_tds_numbered core w a : numbered a -> numbered (foldl (fun a c => deliver_td core c a) a w).
Proof. apply foldl_keeps. intros x c. apply deliver_td_numbered. Qed.

Lemma user_call_numbered {E A} core (f : TM E A) a : numbered a -> numbered (user_call core f a).2.
Proof.
  unfold user_call. destruct (core_of core a) as [td|]; [|done]. destruct (f td) as [[r td'] w].
  intros Hn. by apply deliver_tds_numbered.
Qed.

Lemma orderly_step_numbered a a' : orderly_step fk build next a a' -> numbered a -> numbered a'.
Proof.
  destruct 1 as [cuid b a _|cuid duid b a _ _ _|core fuel fresh ptr now h op a _|cuid key a|core a|now core branch a _]; intros Hn.
  - unfold app_build_client. by destruct (ClientBuilder_build _ _ _).
  - unfold app_build_counter. destruct (app_managers a !! cuid); [|done].
    destruct (build_counter _ _ _) as [[r c] w]. destruct r as [ds|e|why|]; try done.
    destruct Hn as [Hr Hl]. split; [done|]. intros k l. cbn -[lookup insert].
    intros [[_ <-]|[_ Hk]]%lookup_insert_Some; [by split; constructor|by eapply Hl].
  - by apply user_call_numbered.
  - unfold app_unsubscribe_datatype. destruct (app_managers a !! cuid); [|done].
    destruct (unsubscribe_datatype _ _) as [[r c] w]. cbn [snd]. apply foldl_keeps; [|done].
    intros x cw. apply deliver_td_numbered.
  - by apply send_sync_numbered.
  - destruct (app_turn build next now core branch a) as [a1|] eqn:Hturn; [|done]. by eapply turn_numbered.
Qed.

Lemma orderly_program_numbered a : orderly_program fk build next a -> numbered a.
Proof.
  intros [realtime Hrun]. assert (Hn : numbered (initial_app realtime)) by (split; [done|]; by intros c l Hl).
  revert Hn. induction Hrun as [|x y z Hstep _ IH]; [done|]. intros Hn. by eapply IH, orderly_step_numbered.
Qed.

(** ** Lemmas: one undisturbed [sync] *)

(** A round of a subscribed datatype of the program. *)
Lemma program_round now core a td : program_inv fk a -> core_of core a = Some td ->
  td_get_state td = Subscribed -> round_room td a ->
  sumZ Transaction_size (unacked (td_mutable td)) <= DEFAULT_MAX_TRANSMISSION_SIZE ->
  exists m' sv' conn',
    loop_round now core (app_world a) = (Ok tt, mkWorld (<[core := m']> (w_cores (app_world a))) conn') /\
    server_of (resource td) conn' = Some sv' /\ m_state m' = Subscribed /\
    server_inv sv' /\ replica_view sv' m' /\ caught_up sv' m'.
Proof.
  intros Hinv Htd Hst (Hlt & Hsmall & _) Hfit. set (m := td_mutable td) in *.
  destruct (pi_part _ _ Hinv (resource td)) as [Hr Hreg]. set (ws := s_world (project (resource td) a)) in *.
  assert (Hms : w_cores ws !! core = Some m) by (apply resource_cores_lookup; by exists td).
  destruct (live_registered (resource td) ws core m (reachable_inv _ _ _ Hr) Hreg Hms)
    as (sv & Hsv & _ & Hni & _ & Hsi & Hv); [by unfold td_get_state in Hst; fold m in Hst; rewrite Hst|].
  assert (Hlen : (length (unacked m) <= length (buffered m))%nat) by (unfold unacked; rewrite length_drop; lia).
  specialize (Hsmall sv Hsv).
  destruct (round_catches_up (resource td) fk (project (resource td) a) sv core m now Hr Hsv Hms Hst (lookup_empty _)
    Hlt Hfit ltac:(lia)) as (m' & sv' & conn' & calls & Hdo & Hr' & Hsv' & Hst' & Hcu).
  exists m', sv', conn'.
  assert (Hpart : part_of ws (app_world a)).
  { split; [done|]. intros k x (tdx & Hk & <- & _)%resource_cores_lookup. by apply app_world_lookup. }
  pose proof (do_push_pull_part fk now core (app_world a) ws m m' conn' (Ok tt) calls Hpart Hms) as Hown.
  destruct (reachable_core _ _ _ core m Hr Hms) as [Hrid _].
  destruct (reachable_view (resource td) fk _ sv' core m' Hr' Hsv') as [Hsi' Hv'];
    [apply lookup_insert_eq|by rewrite Hst'|]. split_and!; try done.
  assert (Hdo' : do_push_pull now core (app_world a) =
    (Ok tt, mkWorld (<[core := m']> (w_cores (app_world a))) conn', calls)); last first.
  { unfold loop_round, Wired_push_pull, attempt, emit, lift, mbind, M_bind. by rewrite Hdo'. }
  apply Hown; [|exact Hdo]. intros x c k Hx Hk. rewrite Hrid, Hsv in Hx. injection Hx as <-.
  destruct (ni_wired _ _ _ _ Hni _ _ Hk) as (mk & Hmk & _). by exists mk.
Qed.

Lemma end_turn_replies core (s : LoopState (App LocalConnectivity B) ListChannel B) out :
  app_replies (end_turn core s out) = app_replies (ls_wired s) ++ replies_of out.
Proof.
  unfold end_turn, deliver_all. set (a1 := foldl (fun a c => deliver c a) _ _).
  destruct (deliver_outs_only core out a1) as [es He]. etrans; [exact (f_equal (@app_replies _ _) He)|].
  unfold a1. cbn [app_set_emitted app_replies]. etrans; [apply (deliver_all_replies (B := B))|]. reflexivity.
Qed.

(** The loop answers a request that is alone in its channel. *)
Lemma answered_turn now core a l tx w td : core_of core a = Some td -> app_inv a -> manual a ->
  Forall (fun r => r.1 <> tx) (app_replies a) ->
  app_loops a !! core = Some l -> lp_status l = Running -> lp_mode l <> Stopped ->
  lq_events (lp_unbounded l) = [PushTransaction (Some tx)] ->
  loop_round now core (app_world a) = (Ok tt, w) ->
  exists a', app_turn build next now core RecvUnbounded a = Some a' /\ app_world a' = w /\
    reply_to tx a' = Some None.
Proof.
  intros Htd Hinv Hm Hold Hl Hrun Hmode Hq Hround.
  destruct (manual_receive fk build next now core a l _ _ Hm Hq) as (s & Hrecv & Hw & _ & _ & Hmd & Hs).
  change (waiting_conn fk) with sync_conn in Hrecv.
  unfold app_turn. rewrite Hl. cbn [mbind option_bind]. unfold loop_turn. cbn [ls_status loop_state].
  rewrite Hrun, Hrecv. cbn [mbind option_bind].
  pose proof (app_round fk now core a td Htd (inv_hooks _ Hinv)) as Hpp.
  destruct (@handle_event _ _ _ (app_port now core) _ (Ok (PushTransaction (Some tx))) s) as [s' out] eqn:Hh.
  eexists. split; [reflexivity|]. cbn [handle_event] in Hh. unfold handle_push in Hh. rewrite Hmd in Hh.
  cbn [wp_push_pull app_port] in Hh. rewrite Hw in Hh.
  pose proof (push_pull_channels now core a) as Hsame.
  destruct (app_push_pull now core a) as [r a1]. destruct Hpp as [Hpp _].
  pose proof (eq_trans (eq_sym Hround) Hpp) as He. pose proof (f_equal fst He) as Hr. cbn [fst] in Hr. subst r.
  apply (f_equal snd) in He. cbn [snd] in He, Hsame. subst w.
  assert (Hs' : ls_wired s' = a1 /\ out = [Respond tx None]) by (destruct (lp_mode l); by injection Hh as <- <-).
  destruct Hs' as [Hw' ->]. split.
  - destruct (end_turn_effect core s' [Respond tx None]) as [Hheap _]. rewrite Hw' in Hheap.
    unfold app_world. by rewrite Hheap.
  - unfold reply_to. rewrite end_turn_replies, Hw', (proj1 Hsame). cbn [replies_of omap list_omap].
    assert (Hf : list_find (fun r : Z * option DatatypeError => r.1 = tx) (app_replies a ++ [(tx, None)]) =
      Some (length (app_replies a), (tx, None))).
    { rewrite list_find_app_r; [|by apply list_find_None]. cbn. rewrite decide_True by done. done. }
    by rewrite Hf.
Qed.

Lemma world_core a core m cs conn : app_world a = mkWorld (<[core := m]> cs) conn ->
  exists td, core_of core a = Some td /\ td_mutable td = m.
Proof.
  intros Hw. apply (f_equal (fun w => w_cores w !! core)) in Hw. cbn in Hw. rewrite lookup_insert_eq, lookup_fmap in Hw.
  unfold core_of. destruct (h_cores (app_heap a) !! core) as [td|]; [|done]. exists td. split; [done|]. by injection Hw.
Qed.

Lemma no_reply_yet tx a : Forall (fun r => r.1 < tx) (app_replies a) -> reply_to tx a = None.
Proof.
  intros Hnum. unfold reply_to. destruct (list_find _ _) as [[i r]|] eqn:Hfind; [|done]. exfalso.
  apply list_find_Some in Hfind as (Hi & He & _). rewrite Forall_forall in Hnum.
  specialize (Hnum r (list_elem_of_lookup_2 _ _ _ Hi)). cbn in Hnum. lia.
Qed.

(** The caller, when the loop answers in its first turn. *)
Lemma sync_answered now core a a1 a' td fuel : core_of core a = Some td -> td_get_state td <> Disabled ->
  app_send_sync core a = (app_requests a, a1) -> reply_to (app_requests a) a1 = None ->
  app_turn build next now core RecvUnbounded a1 = Some a' -> reply_to (app_requests a) a' = Some None ->
  app_sync build next (S fuel) now core a = (Ok tt, a').
Proof.
  intros Htd Hnd Hsend Hold Hturn Hreply. unfold app_sync. rewrite Htd. unfold check_disabled.
  rewrite decide_False by done. cbn [outcome fst]. rewrite Hsend. cbn -[app_turn]. rewrite Hold, Hturn. cbn -[app_turn].
  assert (Hrr : run_until_reply build next fuel now core (app_requests a) a' = (Some None, a'))
    by (destruct fuel; cbn; by rewrite Hreply).
  rewrite Hrr. cbn. unfold td_sync, check_disabled, emit, lift, mbind, M_bind. by rewrite decide_False by done.
Qed.

(** ** Properties *)

(** C4.  What [sync] means to its caller, through the handle, the channel, the event
    loop, the round and the server: in an orderly program with a manual
    connectivity, [sync] on a subscribed counter whose loop is idle and whose
    unacknowledged transactions fit into one transmission returns [Ok] after one
    turn; then all its transactions are acknowledged, its server version is the
    server's, and its value is the sum of the whole history of the resource, modulo
    2^64.  The program goes on orderly. *)
Theorem sync_catches_up now core a td l fuel :
  orderly_program fk build next a -> manual a ->
  core_of core a = Some td -> td_get_state td = Subscribed -> round_room td a ->
  sumZ Transaction_size (unacked (td_mutable td)) <= DEFAULT_MAX_TRANSMISSION_SIZE ->
  app_loops a !! core = Some l -> lp_status l = Running -> lp_mode l <> Stopped ->
  lq_events (lp_unbounded l) = [] ->
  exists a' td' sv',
    app_sync build next (S fuel) now core a = (Ok tt, a') /\
    core_of core a' = Some td' /\ td_get_state td' = Subscribed /\
    server_of (resource td) (h_conn (app_heap a')) = Some sv' /\
    td_get_client_version td' = td_get_synced_client_version td' /\
    td_get_server_version td' = srv_sseq sv' /\
    Counter_get_value td' = i64_wrap (sumZ tx_delta (history sv')) /\
    orderly_program fk build next a'.
Proof.
  intros Hrun Hm Htd Hst Hroom Hfit Hl Hlr Hmode Hq.
  pose proof (orderly_program_inv fk build next a Hrun) as Hinv.
  destruct (orderly_program_numbered a Hrun) as [Hnum _].
  destruct (program_round now core a td Hinv Htd Hst Hroom Hfit)
    as (m' & sv' & conn' & Hround & Hsv' & Hst' & Hsi & Hv & Hcu).
  destruct (app_send_sync core a) as [tx a1] eqn:Hsend.
  pose proof (OrderlySync fk build next core a) as Hstep1. rewrite Hsend in Hstep1. cbn [snd] in Hstep1.
  unfold app_send_sync in Hsend. injection Hsend as <- Ha1.
  assert (Hheap : app_heap a1 = app_heap a) by by subst a1.
  assert (Hinv1 : program_inv fk a1) by by eapply orderly_step_inv.
  destruct (pi_open _ _ Hinv core l Hl) as (_ & [_ Hcap] & _).
  destruct (answered_turn now core a1
    (on_unbounded (fun q => (lq_try_send (PushTransaction (Some (app_requests a))) q).2) l)
    (app_requests a) (mkWorld (<[core := m']> (w_cores (app_world a))) conn') td) as (a' & Hturn & Hw & Hreply); try done.
  { unfold core_of. by rewrite Hheap. }
  { apply Hinv1. }
  { unfold manual. by rewrite Hheap. }
  { subst a1. eapply Forall_impl; [exact Hnum|]. intros r Hlt He. cbn in Hlt. lia. }
  { subst a1. cbn. by rewrite lookup_alter_eq, Hl. }
  { cbn. unfold lq_try_send, lq_full. rewrite Hcap. cbn. by rewrite Hq. }
  { unfold app_world. rewrite Hheap. exact Hround. }
  destruct (world_core a' core m' _ conn' Hw) as (td' & Htd' & <-). exists a', td', sv'.
  destruct (caught_up_value sv' (td_mutable td') Hsi Hv Hcu) as [Hval _]. destruct Hcu as [Hseq Hun].
  split_and!; try done.
  - apply (sync_answered now core a a1 a' td fuel); try done; [by rewrite Hst|by rewrite <- Ha1|].
    apply no_reply_yet. subst a1. exact Hnum.
  - change (h_conn (app_heap a')) with (w_conn (app_world a')). by rewrite Hw.
  - unfold td_get_client_version, td_get_synced_client_version. unfold unacked in Hun.
    apply (f_equal length) in Hun. rewrite length_drop in Hun. cbn in Hun.
    rewrite (rv_cseq _ _ Hv). pose proof (view_bounds sv' _ Hv). lia.
  - destruct Hrun as [rt Hrun]. exists rt. eapply rtc_r; [eapply rtc_r; [exact Hrun|exact Hstep1]|].
    pose proof (OrderlyTurn fk build next now core RecvUnbounded a1) as Ht.
    change (program_conn fk) with sync_conn in Ht. rewrite Hturn in Ht. apply Ht.
    intros tdx. unfold core_of, round_room, app_world. rewrite Hheap. intros Hx. unfold core_of in Htd.
    rewrite Hx in Htd. injection Htd as ->. exact Hroom.
Qed.
End sync.

(** ** Example: a manual connectivity *)
#[local] Instance example_sync_conn : ConnectivityOps LocalConnectivity := local_connectivity first_key_of_list.
#[local] Instance example_sync_deps : ClientDeps := example_deps.

(** A request and the turn of the loop. *)
Definition sync_once (core : Z) (a : XApp) : XApp :=
  let a := (app_send_sync core a).2 in default a (app_turn 0%nat program_next 0 core RecvUnbounded a).

Definition increase (core d : Z) (a : XApp) : XApp :=
  (user_call core (run_user 1 9 9 0 (Counter_new (core + 1)) (UIncrease d)) a).2.

Definition manual1 : XApp := (app_build_client (program_client 1) (mkClientBuilder "col" "a") (initial_app false)).2.
Definition manual2 : XApp := (app_build_client (program_client 2) (mkClientBuilder "col" "b") manual1).2.
Definition manual3 : XApp := (app_build_counter (program_client 1) (program_duid 1) (create_datatype "k") manual2).2.
Definition manual4 : XApp := sync_once 0 manual3.
Definition manual5 : XApp := (app_build_counter (program_client 2) (program_duid 2) (subscribe_datatype "k") manual4).2.
Definition manual6 : XApp := sync_once 2 manual5.
Definition manual7 : XApp := increase 2 3 (sync_once 0 (increase 0 5 manual6)).

Abbreviation program_run := (rtc program_step).

Lemma sync_once_run core (a : XApp) :
  match core_of core a with Some td => room_ok td a | None => true end = true -> program_run a (sync_once core a).
Proof.
  intros H. eapply rtc_l; [by apply (OrderlySync _ _ _ core)|]. apply rtc_once.
  apply (program_turn RecvUnbounded core (app_send_sync core a).2).
  unfold core_of, room_ok in *. exact H.
Qed.

Lemma increase_run core d (a : XApp) :
  (forall td, core_of core a = Some td -> user_room 0 (Counter_new (core + 1)) (UIncrease d) (td_mutable td)) ->
  program_run a (increase core d a).
Proof. intros H. apply rtc_once. by apply (OrderlyUser _ _ _ core 1 9 9 0 (Counter_new (core + 1)) (UIncrease d)). Qed.

Lemma manual7_run : program_run (initial_app false) manual7.
Proof.
  eapply rtc_l; [by apply (OrderlyClient _ _ _ (program_client 1) (mkClientBuilder "col" "a"))|].
  eapply rtc_l; [by apply (OrderlyClient _ _ _ (program_client 2) (mkClientBuilder "col" "b"))|].
  eapply rtc_l.
  { apply (OrderlyCounter _ _ _ (program_client 1) (program_duid 1) (create_datatype "k")); [by left| |by vm_compute].
    apply program_first_time. by vm_compute. }
  etrans; [apply (sync_once_run 0); by vm_compute|].
  eapply rtc_l.
  { apply (OrderlyCounter _ _ _ (program_client 2) (program_duid 2) (subscribe_datatype "k")); [by right; left| |by vm_compute].
    apply program_first_time. by vm_compute. }
  etrans; [apply (sync_once_run 2); by vm_compute|].
  etrans; [apply (increase_run 0 5)|].
  { intros td Htd. vm_compute in Htd. injection Htd as <-. by vm_compute. }
  etrans; [apply (sync_once_run 0); by vm_compute|].
  apply (increase_run 2 3). intros td Htd. vm_compute in Htd. injection Htd as <-. by vm_compute.
Qed.

(** Client 2 has an increment of 3 that is not pushed; client 1's 5 comes with the
    answer. *)
Lemma sync_catches_up_witness : exists a' td',
  app_sync 0%nat program_next 1 0 2 manual7 = (Ok tt, a') /\ core_of 2 a' = Some td' /\
  td_get_client_version td' = td_get_synced_client_version td' /\ td_get_server_version td' = 2 /\
  Counter_get_value td' = 8.
Proof.
  assert (Htd : core_of 2 manual7 = Some (default example_td (core_of 2 manual7))) by (vm_compute; reflexivity).
  assert (Hl : app_loops manual7 !! 2 = Some (default new_loop (app_loops manual7 !! 2))) by (vm_compute; reflexivity).
  destruct (sync_catches_up first_key_of_list 0%nat program_next 0 2 manual7 _ (default new_loop (app_loops manual7 !! 2)) 0%nat
    (ex_intro _ false manual7_run) eq_refl Htd) as (a' & td' & sv' & Hs & Htd' & _ & Hsv & Hc & Hseq & Hv & _).
  { by vm_compute. }
  { apply room_ok_round. by vm_compute. }
  { by vm_compute. }
  { exact Hl. }
  { by vm_compute. }
  { by vm_compute. }
  { by vm_compute. }
  change (sync_conn first_key_of_list) with example_sync_conn in Hs.
  assert (Ha' : a' = (app_sync 0%nat program_next 1 0 2 manual7).2) by (rewrite Hs; reflexivity).
  clear Hl. rewrite Ha' in *. clear Ha' a'.
  exists (app_sync 0%nat program_next 1 0 2 manual7).2, td'. split; [exact Hs|]. split; [exact Htd'|]. split; [exact Hc|].
  assert (Hsv2 : (fun sv => (srv_sseq sv, i64_wrap (sumZ tx_delta (history sv)))) <$>
    server_of (resource (default example_td (core_of 2 manual7)))
      (h_conn (app_heap (app_sync 0%nat program_next 1 0 2 manual7).2)) = Some (2, 8)) by by vm_compute.
  rewrite Hsv in Hsv2. cbn -[i64_wrap] in Hsv2. injection Hsv2 as Hs2 Hd2.
  split; [by rewrite Hseq|by rewrite Hv].
Defined.
