(* ===== verification/Harness.v ===== *)
(** * Running the repository's tests on the model

    The unit tests of the repository ([#[cfg(test)] mod tests_..] in the files of
    [src/src]) are programs against the SDK.  A [Script] is such a program: a
    computation on an [App] that fails at an assertion that does not hold.  Waiting
    for the event loops ([awaitility], a sleep) is letting them run ([wait]);
    generated identifiers are [uid n].

    Here are the commands that the tests are made of; the files [..Conformance]
    hold the tests.  The cfg(test) accessors of the connectivity are here too. *)

From S2P Require Import Prelude Types Errors Operations Crdts PushBuffer Pack Handler Mutable Transactional PullHandler Server Connectivity Wired Interceptor EventLoop Client App.

(** The [n]-th identifier that nanoid gave. *)
Definition uid (n : nat) : Uid :=
  let d := pretty (Z.of_nat n) in
  mkUid (String.substring 0 (16 - String.length d) "nanoid-000000000" +:+ d).

(** The clients of the tests. *)
Definition client1 : Cuid := uid 1.
Definition client2 : Cuid := uid 2.
Definition client3 : Cuid := uid 3.

(** The back-off iterator counts its delays. *)
Definition backoff_build : nat := 0%nat.
Definition backoff_next (b : nat) : option Z * nat := (Some BACKOFF_MIN_DELAY, S b).

#[export] Instance test_deps : ClientDeps := example_deps.

(** Fuel for one [sync] and for one wait; more turns are never needed in the tests. *)
Definition sync_fuel : nat := 10.
Definition wait_fuel : nat := 60.

(** ** Test-only accessors *)

(** [remove_client_subscription] of the server and of the connectivity. *)
Definition Server_remove_client_subscription (cuid : Cuid) (sv : LocalDatatypeServer)
    : LocalDatatypeServer :=
  srv_set_clients (delete cuid (wired_map sv)) (delete cuid (sender_map sv)) sv.

Definition Server_get_wired_datatype (cuid : Cuid) (sv : LocalDatatypeServer) : option Z :=
  wired_map sv !! cuid.

Definition server_of (resource_id : string) (lc : LocalConnectivity) : option LocalDatatypeServer :=
  arc ← get_local_datatype_server resource_id lc; lc_arcs lc !! arc.

Definition LocalConnectivity_remove_client_subscription (resource_id : string) (cuid : Cuid)
    (lc : LocalConnectivity) : LocalConnectivity :=
  match get_local_datatype_server resource_id lc with
  | Some arc => lc_set_arcs (alter (Server_remove_client_subscription cuid) arc (lc_arcs lc)) lc
  | None => lc
  end.

(** The core whose interceptor it is. *)
Definition get_wired_interceptor (resource_id : string) (cuid : Cuid) (lc : LocalConnectivity)
    : option Z :=
  server ← server_of resource_id lc; Server_get_wired_datatype cuid server.

(** [Transaction::new_arc_for_test]. *)
Definition Transaction_new_arc_for_test (cuid : Cuid) (cseq : Z) : Transaction :=
  mkTransaction cuid cseq 0 None false [Operation_new_counter_increase 0 1].

(** ** Scripts *)
Section script.
Context {C : Type} `{ConnectivityOps C}.

Abbreviation Script := (M (App C nat) Empty_set string).

Definition assert (what : string) (b : bool) : Script unit :=
  if b then mret tt else fail what.

Definition assert_eq {A} `{EqDecision A} (what : string) (a b : A) : Script unit :=
  assert what (bool_decide (a = b)).

Definition unwrap {E A} (r : result E A) : Script A :=
  match r with
  | Ok a => mret a
  | Err _ => fail "unwrap of an error"
  | Panic why => fail why
  | Blocked => fail "blocked"
  end.

Definition unwrap_err {E A} (r : result E A) : Script E :=
  match r with
  | Err e => mret e
  | _ => fail "unwrap_err"
  end.

(** A command of the program. *)
Definition command {A} (f : App C nat -> A * App C nat) : Script A := fun a =>
  let '(x, a) := f a in (Ok x, a, []).

Definition observe {A} (f : App C nat -> A) : Script A := gets f.

Definition client (cuid : Cuid) (collection alias : string) : Script unit :=
  r ← command (app_build_client cuid (mkClientBuilder collection alias)); unwrap r.

(** [build_counter], [unwrap]ped: the core of the counter. *)
Definition build (cuid : Cuid) (duid : Duid) (b : DatatypeBuilder) : Script Z :=
  r ← command (app_build_counter cuid duid b);
  ds ← unwrap r;
  mret (DatatypeSet_get_core_id ds).

(** The default handle of a counter. *)
Definition handle_of (core : Z) : CounterHandle := Counter_new (core + 1).

(** Addresses of the contexts that transactions allocate. *)
Definition fresh_ctx : Z := 1000000.
Definition this_ctx : Z := 2000000.

Definition increase_by (core n : Z) : Script (result DatatypeError Z) :=
  command (user_call core (Counter_increase_by 1 fresh_ctx 0 n (handle_of core))).

Definition increase (core : Z) : Script (result DatatypeError Z) :=
  command (user_call core (Counter_increase 1 fresh_ctx 0 (handle_of core))).

Definition transaction_ (core : Z) (tag : string) (tx_func : CounterHandle -> TM string unit)
    : Script (result DatatypeError unit) :=
  command (user_call core (Counter_transaction 1 fresh_ctx this_ctx tag tx_func (handle_of core))).

(** [for i in 0..n { counter.increase_by(i).unwrap(); }]. *)
Fixpoint increase_each (core : Z) (ns : list Z) : Script unit :=
  match ns with
  | [] => mret tt
  | i :: ns => r ← increase_by core i; unwrap r ;; increase_each core ns
  end.

Definition range (n : nat) : list Z := seqZ 0 (Z.of_nat n).

Definition sync (core : Z) : Script (result DatatypeError unit) :=
  command (app_sync backoff_build backoff_next sync_fuel 0 core).

Definition sync_ok (core : Z) : Script unit := r ← sync core; unwrap r.

Definition unsubscribe (core : Z) : Script (result DatatypeError unit) :=
  command (user_call core dt_unsubscribe).

Definition set_handler (core id : Z) (h : DatatypeHandler) : Script unit :=
  r ← command (user_call core (dt_set_handler id h)); unwrap r.

Definition wait (timers : bool) : Script unit :=
  modify (settle backoff_build backoff_next wait_fuel 0 timers).

(** Observations of a counter. *)
Definition of_core {A} (f : TransactionalDatatype -> A) (core : Z) : Script A :=
  o ← observe (core_of core);
  match o with Some td => mret (f td) | None => fail "dangling Arc" end.

Definition get_value : Z -> Script Z := of_core Counter_get_value.
Definition state_of : Z -> Script DatatypeState := of_core get_state.
Definition server_version : Z -> Script Z := of_core get_server_version.
Definition client_version : Z -> Script Z := of_core get_client_version.
Definition synced_client_version : Z -> Script Z := of_core get_synced_client_version.

Definition assert_state (core : Z) (st : DatatypeState) : Script unit :=
  s ← state_of core; assert_eq "state" s st.
Definition assert_value (core : Z) (v : Z) : Script unit :=
  x ← get_value core; assert_eq "value" x v.

(** [client.get_datatype(key)]. *)
Definition get_datatype (cuid : Cuid) (key : string) : Script (option DatatypeSet) :=
  observe (app_get_datatype cuid key).

Definition before_push_of (core : Z) (f : BeforePushFn) : Script unit :=
  modify (fun a => app_set_interceptors
    (<[core := set_before_push f (interceptor_of core a)]> (app_interceptors a)) a).
Definition after_pull_of (core : Z) (f : AfterPullFn) : Script unit :=
  modify (fun a => app_set_interceptors
    (<[core := set_after_pull f (interceptor_of core a)]> (app_interceptors a)) a).
Definition cell_of (core : Z) : Script Z :=
  observe (fun a => wi_cell (interceptor_of core a)).
Definition set_cell_of (core v : Z) : Script unit :=
  modify (fun a => app_set_interceptors
    (<[core := wi_set_cell v (interceptor_of core a)]> (app_interceptors a)) a).

(** Closures of the tests: without a counter, and an injected error. *)
Definition pushing (f : PushPullPack -> PushPullPack) : BeforePushFn := fun cell p => (f p, cell).
Definition pulling (f : PushPullPack -> result DatatypeErrorWithAction unit * PushPullPack)
    : AfterPullFn := fun cell p => (f p, cell).
Definition inject (e : DatatypeError) : AfterPullFn :=
  pulling (fun p => (routed (DatatypeError_mapping e), p)).

(** The test passes. *)
Definition passes (conn : C) (s : Script unit) : bool := is_ok (outcome (s (App_new conn))).

(** The message of the assertion that failed. *)
Definition failure (conn : C) (s : Script unit) : option string :=
  match outcome (s (App_new conn)) with Ok _ => None | Err e => Some e | Panic w => Some w | Blocked => Some "blocked"%string end.
End script.

Abbreviation Script C := (M (App C nat) Empty_set string).

(** ** Scripts on a local connectivity *)
#[export] Instance test_connectivity : ConnectivityOps LocalConnectivity :=
  local_connectivity first_key_of_list.

Definition conn_of (a : App LocalConnectivity nat) : LocalConnectivity := h_conn (app_heap a).

Definition with_conn (f : LocalConnectivity -> LocalConnectivity) : Script LocalConnectivity unit :=
  modify (fun a => app_set_heap
    (mkHeap (h_cores (app_heap a)) (f (h_conn (app_heap a))) (h_fresh (app_heap a))) a).

Definition manual : LocalConnectivity := LocalConnectivity_set_realtime false LocalConnectivity_new_arc.
Definition realtime : LocalConnectivity := LocalConnectivity_new_arc.

Definition interceptor (resource_id : string) (cuid : Cuid) : Script LocalConnectivity Z :=
  o ← observe (fun a => get_wired_interceptor resource_id cuid (conn_of a));
  match o with Some core => mret core | None => fail "no interceptor" end.

Definition server (resource_id : string) : Script LocalConnectivity (option LocalDatatypeServer) :=
  observe (fun a => server_of resource_id (conn_of a)).

Definition server_some (resource_id : string) : Script LocalConnectivity LocalDatatypeServer :=
  o ← server resource_id;
  match o with Some sv => mret sv | None => fail "no server" end.

(** Patterns of errors. *)
Definition is_ServerRejected (e : DatatypeError) : bool := match e with ServerRejected _ => true | _ => false end.
Definition is_SyncFailed (e : DatatypeError) : bool := match e with SyncFailed _ => true | _ => false end.
Definition is_NotWritable (e : DatatypeError) : bool := match e with NotWritable _ => true | _ => false end.
Definition is_ReadonlyViolation (e : DatatypeError) : bool := match e with ReadonlyViolation => true | _ => false end.
Definition is_Disallowed (e : DatatypeError) : bool := match e with Disallowed _ => true | _ => false end.
Definition is_Internal (e : DatatypeError) : bool := match e with Internal _ => true | _ => false end.

(** [counter.f().unwrap_err()] matches [p]. *)
Definition fails_with {C E A} (p : E -> bool) (s : Script C (result E A)) : Script C unit :=
  r ← s; e ← unwrap_err r; assert "error" (p e).

(** [get_test_ids!()]: collection, key and resource. *)
Definition ids (collection key : string) : string * string * string :=
  (collection, key, collection +:+ "/" +:+ key).
