(* ===== verification/ServerConformance.v ===== *)
(** * The repository's tests of the server and the connectivity on the model

    Each definition is a test of [src/src], command by command; each theorem says
    that the test passes on the model, in all its cases.  Left out of a test are
    its logging and what is decided by Rust's type checker. *)

From S2P Require Import Prelude Types Errors Operations Crdts PushBuffer Pack Handler Mutable Transactional PullHandler Server Connectivity Wired Interceptor EventLoop Client App Harness.

(** ** connectivity/local_datatype_server.rs *)
Definition push_no_change (push : PushPullPack) : PushPullPack := push.
Definition push_set_readonly (push : PushPullPack) : PushPullPack :=
  mkPushPullPack (ppp_collection push) (ppp_cuid push) (ppp_duid push) (ppp_key push) (ppp_type push)
    (ppp_state push) (ppp_checkpoint push) (ppp_safe_sseq push) (ppp_transactions push)
    (ppp_snapshot_transaction push) true (ppp_error push).
Definition push_set_new_duid (push : PushPullPack) : PushPullPack := ppp_set_duid (uid 99) push.
Definition push_set_variable_type (push : PushPullPack) : PushPullPack :=
  mkPushPullPack (ppp_collection push) (ppp_cuid push) (ppp_duid push) (ppp_key push) Variable_
    (ppp_state push) (ppp_checkpoint push) (ppp_safe_sseq push) (ppp_transactions push)
    (ppp_snapshot_transaction push) (ppp_is_readonly push) (ppp_error push).
Definition push_set_disabled_state (push : PushPullPack) : PushPullPack := ppp_set_state Disabled push.
Definition push_add_transaction (push : PushPullPack) : PushPullPack :=
  ppp_set_transactions (ppp_transactions push ++ [Transaction_default]) push.

Definition error_eqb (a b : option PushPullError) : bool :=
  match a, b with
  | Some a, Some b => PushPullError_eqb a b
  | None, None => true
  | _, _ => false
  end.

(** As an [after_pull] closure: a failed assertion panics. *)
Definition assert_push_pull_pack (is_readonly : bool) (cp : CheckPoint)
    (error : option PushPullError) (tx_len : nat) : AfterPullFn :=
  pulling (fun pulled =>
    (if bool_decide (ppp_is_readonly pulled = is_readonly)
        && bool_decide (ppp_checkpoint pulled = cp)
        && bool_decide (ppp_state pulled = if error is Some _ then Disabled else Subscribed)
        && error_eqb (ppp_error pulled) error
        && bool_decide (length (ppp_transactions pulled) = tx_len)
     then Ok tt else Panic "assert_push_pull_pack", pulled)).

Definition can_process_creating (pre_create : bool) (modify_push : PushPullPack -> PushPullPack)
    (expected_is_readonly : bool) (expected_error : option PushPullError) (expected_cp : CheckPoint)
    (expected_created : bool) (expected_history_len : nat) : Script LocalConnectivity unit :=
  let '(collection, key, resource_id) := ids "tests_local_datatype_server" "can_process_creating" in
  client client1 collection key ;;
  counter1 ← build client1 (uid 11) (create_datatype key);
  increase_each counter1 (range 10) ;;
  wired_interceptor1 ← interceptor resource_id client1;
  (if pre_create then
     after_pull_of wired_interceptor1
       (inject (ConnectivityError_to_datatype_error (TimedOut ""))) ;;
     _r ← sync counter1;
     sv ← server_some resource_id;
     assert "created" (created sv)
   else mret tt) ;;
  before_push_of wired_interceptor1 (pushing modify_push) ;;
  after_pull_of wired_interceptor1
    (assert_push_pull_pack expected_is_readonly expected_cp expected_error 0) ;;
  match expected_error with
  | Some sppe =>
      fails_with (match sppe with PP_ReadonlyViolation => is_ReadonlyViolation | _ => is_ServerRejected end)
        (sync counter1) ;;
      assert_state counter1 Disabled
  | None => sync_ok counter1 ;; assert_state counter1 Subscribed
  end ;;
  sv ← server_some resource_id;
  assert_eq "created" (created sv) expected_created ;;
  assert_eq "history" (length (history sv)) expected_history_len.

Definition can_process_creating_cases : list (Script LocalConnectivity unit) :=
  [can_process_creating false push_set_readonly true (Some PP_ReadonlyViolation) (CheckPoint_new 0 0) false 0;
   can_process_creating false push_no_change false None (CheckPoint_new 10 10) true 10;
   can_process_creating true push_no_change false None (CheckPoint_new 10 10) true 10;
   can_process_creating true push_set_new_duid false (Some (PP_CreateFailed "already exist"))
     (CheckPoint_new 0 0) true 10].

Theorem can_process_creating_passes : forallb (passes manual) can_process_creating_cases = true.
Proof. vm_compute. reflexivity. Qed.

Definition can_process_subscribing (creator_sync : bool) (modify_push : PushPullPack -> PushPullPack)
    (expected_error : option PushPullError) (expected_cp : CheckPoint) : Script LocalConnectivity unit :=
  let '(collection, key, resource_id) := ids "tests_local_datatype_server" "can_process_subscribing" in
  client client1 collection key ;;
  client client2 collection key ;;
  counter1 ← build client1 (uid 11) (create_datatype key);
  increase_each counter1 (range 5) ;;
  (if creator_sync then sync_ok counter1 ;; assert_state counter1 Subscribed else mret tt) ;;
  counter2 ← build client2 (uid 12) (subscribe_datatype key);
  interceptor2 ← interceptor resource_id client2;
  before_push_of interceptor2 (pushing modify_push) ;;
  after_pull_of interceptor2 (assert_push_pull_pack false expected_cp expected_error 0) ;;
  match expected_error with
  | Some _ => fails_with is_ServerRejected (sync counter2) ;; assert_state counter2 Disabled
  | None =>
      sync_ok counter2 ;;
      v1 ← get_value counter1; assert_value counter2 v1 ;;
      assert_state counter2 Subscribed ;;
      a1 ← of_core (fun td => m_attr (td_mutable td)) counter1;
      a2 ← of_core (fun td => m_attr (td_mutable td)) counter2;
      assert "cuids" (negb (bool_decide (Attribute_get_cuid a1 = Attribute_get_cuid a2))) ;;
      assert_eq "duids" (Attribute_get_duid a1) (Attribute_get_duid a2)
  end.

Definition can_process_subscribing_cases : list (Script LocalConnectivity unit) :=
  [can_process_subscribing true push_no_change None (CheckPoint_new 5 0);
   can_process_subscribing false push_no_change (Some (PP_ResourceNotFound "")) (CheckPoint_new 0 0);
   can_process_subscribing true push_set_variable_type (Some (PP_ResourceNotFound "")) (CheckPoint_new 0 0);
   can_process_subscribing true push_add_transaction (Some (PP_ProtocolViolation "")) (CheckPoint_new 0 0)].

Theorem can_process_subscribing_passes : forallb (passes manual) can_process_subscribing_cases = true.
Proof. vm_compute. reflexivity. Qed.

Definition can_reject_readonly_unsubscribing_with_transactions : Script LocalConnectivity unit :=
  let '(collection, key, resource_id) :=
    ids "tests_local_datatype_server" "can_reject_readonly_unsubscribing_with_transactions" in
  client client1 collection "client" ;;
  counter ← build client1 (uid 11) (create_datatype key);
  sync_ok counter ;;
  r ← increase counter; unwrap r ;;
  r ← unsubscribe counter; unwrap r ;;
  i ← interceptor resource_id client1;
  before_push_of i (pushing push_set_readonly) ;;
  after_pull_of i (pulling (fun pull =>
    (if bool_decide (ppp_state pull = Disabled) && error_eqb (ppp_error pull) (Some PP_ReadonlyViolation)
     then Ok tt else Panic "after_pull", pull))) ;;
  fails_with is_ReadonlyViolation (sync counter) ;;
  assert_state counter Disabled ;;
  sv ← server resource_id;
  assert "server" (negb (bool_decide (is_Some sv))) ;;
  d ← get_datatype client1 key;
  assert "detached" (negb (bool_decide (is_Some d))).

Theorem can_reject_readonly_unsubscribing_with_transactions_passes :
  passes manual can_reject_readonly_unsubscribing_with_transactions = true.
Proof. vm_compute. reflexivity. Qed.

Definition check_error (expected_error : option PushPullError) (counter : Z)
    : Script LocalConnectivity unit :=
  match expected_error with
  | Some _ => fails_with is_ReadonlyViolation (sync counter) ;; assert_state counter Disabled
  | None => sync_ok counter ;; assert_state counter Subscribed
  end.

Definition can_process_subscribe (extra_ops : nat) (use_subscriber : bool)
    (modify_push : PushPullPack -> PushPullPack) (expected_is_readonly : bool)
    (expected_error : option PushPullError) (expected_cp : CheckPoint) (expected_tx_len : nat)
    : Script LocalConnectivity unit :=
  let '(collection, key, resource_id) := ids "tests_local_datatype_server" "can_process_subscribe" in
  client client1 collection "client1" ;;
  counter1 ← build client1 (uid 11) (subscribe_or_create_datatype key);
  increase_each counter1 (range 5) ;;
  sync_ok counter1 ;;
  assert_state counter1 Subscribed ;;
  if use_subscriber then
    client client2 collection "client2" ;;
    counter2 ← build client2 (uid 12) (subscribe_datatype key);
    sync_ok counter2 ;;
    assert_state counter2 Subscribed ;;
    increase_each counter1 (range extra_ops) ;;
    sync_ok counter1 ;;
    interceptor2 ← interceptor resource_id client2;
    before_push_of interceptor2 (pushing modify_push) ;;
    after_pull_of interceptor2
      (assert_push_pull_pack expected_is_readonly expected_cp expected_error expected_tx_len) ;;
    check_error expected_error counter2
  else
    increase_each counter1 (range extra_ops) ;;
    interceptor1 ← interceptor resource_id client1;
    before_push_of interceptor1 (pushing modify_push) ;;
    after_pull_of interceptor1
      (assert_push_pull_pack expected_is_readonly expected_cp expected_error expected_tx_len) ;;
    check_error expected_error counter1.

Definition can_process_subscribe_cases : list (Script LocalConnectivity unit) :=
  [can_process_subscribe 5 false push_no_change false None (CheckPoint_new 10 10) 0;
   can_process_subscribe 5 false push_set_readonly true (Some PP_ReadonlyViolation) (CheckPoint_new 0 0) 0;
   can_process_subscribe 0 false push_set_readonly true None (CheckPoint_new 5 5) 0;
   can_process_subscribe 3 true push_no_change false None (CheckPoint_new 8 0) 3].

Theorem can_process_subscribe_passes : forallb (passes manual) can_process_subscribe_cases = true.
Proof. vm_compute. reflexivity. Qed.

Definition can_sync_bidirectionally_between_two_clients : Script LocalConnectivity unit :=
  let '(collection, key, _) :=
    ids "tests_local_datatype_server" "can_sync_bidirectionally_between_two_clients" in
  client client1 collection "client1-1" ;;
  client client2 collection "client1-2" ;;
  counter1 ← build client1 (uid 11) (create_datatype key);
  sync_ok counter1 ;;
  counter2 ← build client2 (uid 12) (subscribe_datatype key);
  sync_ok counter2 ;;
  (* A: one-way convergence *)
  increase_each counter1 (range 5) ;;
  let expected_after_a := 10 in
  assert_value counter1 expected_after_a ;;
  sync_ok counter1 ;;
  assert_value counter1 expected_after_a ;;
  sync_ok counter2 ;;
  assert_value counter2 expected_after_a ;;
  (* B: reverse convergence *)
  increase_each counter2 [5; 5] ;;
  let expected_after_b := expected_after_a + 10 in
  sync_ok counter2 ;;
  assert_value counter2 expected_after_b ;;
  sync_ok counter1 ;;
  assert_value counter1 expected_after_b ;;
  (* C: bidirectional convergence after concurrent writes *)
  increase_each counter1 [3] ;;
  increase_each counter2 [7] ;;
  let expected_after_c := expected_after_b + 3 + 7 in
  sync_ok counter1 ;; sync_ok counter2 ;; sync_ok counter1 ;;
  assert_value counter1 expected_after_c ;;
  assert_value counter2 expected_after_c ;;
  (* D: checkpoint consistency and idempotent sync *)
  s1 ← server_version counter1; s2 ← server_version counter2;
  assert_eq "server versions" s1 s2 ;;
  c1 ← client_version counter1; y1 ← synced_client_version counter1;
  assert_eq "client1 versions" c1 y1 ;;
  c2 ← client_version counter2; y2 ← synced_client_version counter2;
  assert_eq "client2 versions" c2 y2 ;;
  value_before ← get_value counter1;
  sync_ok counter1 ;; sync_ok counter2 ;;
  assert_value counter1 value_before ;;
  assert_value counter2 value_before.

Theorem can_sync_bidirectionally_between_two_clients_passes :
  passes manual can_sync_bidirectionally_between_two_clients = true.
Proof. vm_compute. reflexivity. Qed.

Definition can_reject_subscribed_push_from_unsubscribed_client : Script LocalConnectivity unit :=
  let '(collection, key, resource_id) :=
    ids "tests_local_datatype_server" "can_reject_subscribed_push_from_unsubscribed_client" in
  client client1 collection key ;;
  counter1 ← build client1 (uid 11) (create_datatype key);
  sync_ok counter1 ;;
  assert_state counter1 Subscribed ;;
  with_conn (LocalConnectivity_remove_client_subscription resource_id client1) ;;
  fails_with is_ServerRejected (sync counter1) ;;
  assert_state counter1 Disabled.

Theorem can_reject_subscribed_push_from_unsubscribed_client_passes :
  passes manual can_reject_subscribed_push_from_unsubscribed_client = true.
Proof. vm_compute. reflexivity. Qed.

Definition can_unsubscribe_not_subscribed_client_gracefully : Script LocalConnectivity unit :=
  let '(collection, key, resource_id) :=
    ids "tests_local_datatype_server" "can_unsubscribe_not_subscribed_client_gracefully" in
  client client1 collection key ;;
  counter1 ← build client1 (uid 11) (create_datatype key);
  sync_ok counter1 ;;
  assert_state counter1 Subscribed ;;
  with_conn (LocalConnectivity_remove_client_subscription resource_id client1) ;;
  r ← unsubscribe counter1; unwrap r ;;
  assert_state counter1 Unsubscribing ;;
  sync_ok counter1 ;;
  assert_state counter1 Disabled.

Theorem can_unsubscribe_not_subscribed_client_gracefully_passes :
  passes manual can_unsubscribe_not_subscribed_client_gracefully = true.
Proof. vm_compute. reflexivity. Qed.

Definition can_reject_type_mismatch_in_subscribed_push : Script LocalConnectivity unit :=
  let '(collection, key, resource_id) :=
    ids "tests_local_datatype_server" "can_reject_type_mismatch_in_subscribed_push" in
  client client1 collection key ;;
  counter ← build client1 (uid 11) (create_datatype key);
  sync_ok counter ;;
  assert_state counter Subscribed ;;
  i ← interceptor resource_id client1;
  before_push_of i (pushing push_set_variable_type) ;;
  fails_with is_ServerRejected (sync counter) ;;
  assert_state counter Disabled.

Theorem can_reject_type_mismatch_in_subscribed_push_passes :
  passes manual can_reject_type_mismatch_in_subscribed_push = true.
Proof. vm_compute. reflexivity. Qed.

Definition can_reject_push_from_disabled_client : Script LocalConnectivity unit :=
  let '(collection, key, resource_id) :=
    ids "tests_local_datatype_server" "can_reject_push_from_disabled_client" in
  client client1 collection key ;;
  counter ← build client1 (uid 11) (create_datatype key);
  sync_ok counter ;;
  assert_state counter Subscribed ;;
  i ← interceptor resource_id client1;
  before_push_of i (pushing push_set_disabled_state) ;;
  fails_with is_ServerRejected (sync counter) ;;
  assert_state counter Disabled.

Theorem can_reject_push_from_disabled_client_passes :
  passes manual can_reject_push_from_disabled_client = true.
Proof. vm_compute. reflexivity. Qed.

Definition can_fail_subscribe_when_creator_is_unavailable : Script LocalConnectivity unit :=
  let '(collection, key, resource_id) :=
    ids "tests_local_datatype_server" "can_fail_subscribe_when_creator_is_unavailable" in
  client client1 collection "creator" ;;
  counter1 ← build client1 (uid 11) (create_datatype key);
  sync_ok counter1 ;;
  assert_state counter1 Subscribed ;;
  client client2 collection "subscriber" ;;
  counter2 ← build client2 (uid 12) (subscribe_datatype key);
  sync_ok counter2 ;;
  assert_state counter2 Subscribed ;;
  sv ← server_some resource_id;
  with_conn (LocalConnectivity_remove_client_subscription resource_id (creator sv)) ;;
  client client3 collection "new-subscriber" ;;
  counter3 ← build client3 (uid 13) (subscribe_datatype key);
  fails_with is_SyncFailed (sync counter3) ;;
  assert_state counter3 Subscribing.

Theorem can_fail_subscribe_when_creator_is_unavailable_passes :
  passes manual can_fail_subscribe_when_creator_is_unavailable = true.
Proof. vm_compute. reflexivity. Qed.

(** ** connectivity/local_connectivity.rs

    The first test uses two connectivities, so it is two scripts. *)
Definition can_compare_manual_and_realtime_local_connectivity (is_realtime : bool)
    : Script LocalConnectivity unit :=
  if is_realtime then
    client client2 "tests_local_connectivity" "realtime client" ;;
    counter_realtime ← build client2 (uid 12) (create_datatype "realtime");
    wait false ;;
    assert_state counter_realtime Subscribed
  else
    client client1 "tests_local_connectivity" "manual client" ;;
    counter_manual ← build client1 (uid 11) (create_datatype "manual");
    wait false ;;
    assert_state counter_manual Creating ;;
    sync_ok counter_manual ;;
    assert_state counter_manual Subscribed.

Theorem can_compare_manual_and_realtime_local_connectivity_passes :
  passes manual (can_compare_manual_and_realtime_local_connectivity false) = true /\
  passes realtime (can_compare_manual_and_realtime_local_connectivity true) = true.
Proof. split; vm_compute; reflexivity. Qed.

Definition can_notify_other_clients_after_realtime_push : Script LocalConnectivity unit :=
  let '(collection, key, _) :=
    ids "tests_local_connectivity" "can_notify_other_clients_after_realtime_push" in
  client client1 collection "client1" ;;
  client client2 collection "client2" ;;
  counter1 ← build client1 (uid 11) (create_datatype key);
  wait false ;;
  assert_state counter1 Subscribed ;;
  counter2 ← build client2 (uid 12) (subscribe_datatype key);
  wait false ;;
  assert_state counter2 Subscribed ;;
  r ← increase_by counter1 7; unwrap r ;;
  wait false ;;
  assert_value counter2 7 ;;
  s1 ← server_version counter1; s2 ← server_version counter2;
  assert_eq "server versions" s1 s2.

Theorem can_notify_other_clients_after_realtime_push_passes :
  passes realtime can_notify_other_clients_after_realtime_push = true.
Proof. vm_compute. reflexivity. Qed.

Definition does_not_notify_other_clients_in_manual_mode : Script LocalConnectivity unit :=
  let '(collection, key, _) :=
    ids "tests_local_connectivity" "does_not_notify_other_clients_in_manual_mode" in
  client client1 collection "client1" ;;
  client client2 collection "client2" ;;
  counter1 ← build client1 (uid 11) (create_datatype key);
  sync_ok counter1 ;;
  counter2 ← build client2 (uid 12) (subscribe_datatype key);
  sync_ok counter2 ;;
  r ← increase_by counter1 7; unwrap r ;;
  sync_ok counter1 ;;
  wait false ;;
  assert_value counter2 0 ;;
  sync_ok counter2 ;;
  assert_value counter2 7.

Theorem does_not_notify_other_clients_in_manual_mode_passes :
  passes manual does_not_notify_other_clients_in_manual_mode = true.
Proof. vm_compute. reflexivity. Qed.

Definition can_promote_remaining_client_when_creator_unsubscribes : Script LocalConnectivity unit :=
  let '(collection, key, resource_id) :=
    ids "tests_local_connectivity" "can_promote_remaining_client_when_creator_unsubscribes" in
  client client1 collection "client1" ;;
  client client2 collection "client2" ;;
  client client3 collection "client3" ;;
  counter1 ← build client1 (uid 11) (create_datatype key);
  r ← increase_by counter1 7; unwrap r ;;
  sync_ok counter1 ;;
  counter2 ← build client2 (uid 12) (subscribe_datatype key);
  sync_ok counter2 ;;
  assert_value counter2 7 ;;
  r ← unsubscribe counter1; unwrap r ;;
  sync_ok counter1 ;;
  assert_state counter1 Disabled ;;
  sv ← server_some resource_id;
  assert_eq "creator" (creator sv) client2 ;;
  r ← increase_by counter2 5; unwrap r ;;
  sync_ok counter2 ;;
  counter3 ← build client3 (uid 13) (subscribe_datatype key);
  sync_ok counter3 ;;
  assert_value counter3 12.

Theorem can_promote_remaining_client_when_creator_unsubscribes_passes :
  passes manual can_promote_remaining_client_when_creator_unsubscribes = true.
Proof. vm_compute. reflexivity. Qed.

Definition can_remove_server_when_last_client_unsubscribes : Script LocalConnectivity unit :=
  let '(collection, key, resource_id) :=
    ids "tests_local_connectivity" "can_remove_server_when_last_client_unsubscribes" in
  client client1 collection "client1" ;;
  client client2 collection "client2" ;;
  counter1 ← build client1 (uid 11) (create_datatype key);
  r ← increase_by counter1 7; unwrap r ;;
  sync_ok counter1 ;;
  r ← unsubscribe counter1; unwrap r ;;
  sync_ok counter1 ;;
  sv ← server resource_id;
  assert "server" (negb (bool_decide (is_Some sv))) ;;
  counter2 ← build client2 (uid 12) (create_datatype key);
  sync_ok counter2 ;;
  assert_value counter2 0 ;;
  assert_state counter2 Subscribed.

Theorem can_remove_server_when_last_client_unsubscribes_passes :
  passes manual can_remove_server_when_last_client_unsubscribes = true.
Proof. vm_compute. reflexivity. Qed.
