(* ===== verification/ClientConformance.v ===== *)
(** * The repository's tests of clients and handles on the model

    The tests of [clients/client.rs] and [datatypes/datatype.rs]; like
    [ServerConformance]. *)

From S2P Require Import Prelude Types Errors Operations Crdts PushBuffer Pack Handler Mutable Transactional PullHandler Server Connectivity Wired Interceptor EventLoop Client App Harness.

(** ** clients/client.rs

    [NullConnectivity] is what a client has without [with_connectivity]. *)
Definition builds (collection : string) : bool :=
  is_ok (app_build_client client1 (mkClientBuilder collection "alias")
           (App_new (C:=NullConnectivity) (B:=nat) NullConnectivity_new)).1.

Definition can_build_client : Script NullConnectivity unit :=
  client client1 "collection1" "alias1" ;;
  o ← observe (fun a => app_managers a !! client1);
  match o with
  | Some dm =>
      let c := mkClient dm (mkHeap ∅ NullConnectivity_new 0) in
      assert_eq "collection" (get_collection c) "collection1" ;;
      assert_eq "alias" (get_alias c) "alias1"
  | None => fail "no client"
  end.

Theorem can_build_client_passes : passes NullConnectivity_new can_build_client = true.
Proof. vm_compute. reflexivity. Qed.

Definition is_managed {C} `{ConnectivityOps C} (what : bool) (cuid : Cuid) (key : string)
    : Script C unit :=
  d ← get_datatype cuid key; assert_eq "managed" (bool_decide (is_Some d)) what.

(** The three clients of the test have connectivities of their own. *)
Definition can_use_counter_from_client : Script LocalConnectivity unit * Script NullConnectivity unit :=
  (client client1 "tests_client" "can_use_counter_from_client" ;;
   is_managed false client1 "k1" ;;
   counter1 ← build client1 (uid 11) (subscribe_datatype "k1");
   assert_state counter1 Subscribing ;;
   is_managed true client1 "k1",
   client client2 "tests_client" "tests_client" ;;
   counter2 ← build client2 (uid 12) (create_datatype "k1");
   assert_state counter2 Creating ;;
   client client3 "tests_client" "tests_client" ;;
   counter3 ← build client3 (uid 13) (subscribe_or_create_datatype "k1");
   assert_state counter3 SubscribingOrCreating).

Theorem can_use_counter_from_client_passes :
  passes manual can_use_counter_from_client.1 = true /\
  passes NullConnectivity_new can_use_counter_from_client.2 = true.
Proof. split; vm_compute; reflexivity. Qed.

Fixpoint str_repeat (s : string) (n : nat) : string :=
  match n with O => "" | S n => s +:+ str_repeat s n end.

Definition can_reject_invalid_collection_names : list (string * bool) :=
  [(""%string, false); (str_repeat "a" 48, false); ("1hello"%string, false);
   ("system.reserved"%string, false); ("my.system.db"%string, false); ("hello@world"%string, false);
   ("valid_name"%string, true); ("my-collection"%string, true); ("system"%string, true);
   ("hello.system"%string, true)].

Theorem can_reject_invalid_collection_names_passes :
  forallb (fun '(name, expected) => bool_decide (builds name = expected))
    can_reject_invalid_collection_names = true.
Proof. vm_compute. reflexivity. Qed.

Definition can_auto_detach_after_create_failure_disables_datatype : Script LocalConnectivity unit :=
  let collection := "tests_client"%string in
  let key := "can_auto_detach_after_create_failure_disables_datatype"%string in
  client client1 collection "client1" ;;
  client client2 collection "client2" ;;
  c ← build client1 (uid 11) (create_datatype key);
  sync_ok c ;;
  counter ← build client2 (uid 12) (create_datatype key);
  is_managed true client2 key ;;
  fails_with is_ServerRejected (sync counter) ;;
  assert_state counter Disabled ;;
  is_managed false client2 key.

Theorem can_auto_detach_after_create_failure_disables_datatype_passes :
  passes manual can_auto_detach_after_create_failure_disables_datatype = true.
Proof. vm_compute. reflexivity. Qed.

Definition can_auto_detach_after_subscribe_failure_disables_datatype : Script LocalConnectivity unit :=
  let key := "can_auto_detach_after_subscribe_failure_disables_datatype"%string in
  client client1 "tests_client" key ;;
  counter ← build client1 (uid 11) (subscribe_datatype key);
  is_managed true client1 key ;;
  fails_with is_ServerRejected (sync counter) ;;
  assert_state counter Disabled ;;
  is_managed false client1 key.

Theorem can_auto_detach_after_subscribe_failure_disables_datatype_passes :
  passes manual can_auto_detach_after_subscribe_failure_disables_datatype = true.
Proof. vm_compute. reflexivity. Qed.

Definition can_unsubscribe_datatype_from_client : Script LocalConnectivity unit :=
  let key := "can_unsubscribe_datatype_from_client"%string in
  client client1 "tests_client" key ;;
  counter ← build client1 (uid 11) (create_datatype key);
  sync_ok counter ;;
  r ← command (app_unsubscribe_datatype client1 key);
  removed ← unwrap r;
  assert_state (DatatypeSet_get_core_id removed) Unsubscribing ;;
  is_managed true client1 key ;;
  sync_ok counter ;;
  assert_state (DatatypeSet_get_core_id removed) Disabled ;;
  assert_state counter Disabled ;;
  is_managed false client1 key ;;
  new_core ← build client1 (uid 12) (subscribe_datatype key);
  assert "cores" (negb (new_core =? counter)).

Theorem can_unsubscribe_datatype_from_client_passes :
  passes manual can_unsubscribe_datatype_from_client = true.
Proof. vm_compute. reflexivity. Qed.

Definition can_auto_detach_after_datatype_unsubscribe_sync : Script LocalConnectivity unit :=
  let key := "can_auto_detach_after_datatype_unsubscribe_sync"%string in
  client client1 "tests_client" key ;;
  counter ← build client1 (uid 11) (create_datatype key);
  sync_ok counter ;;
  r ← unsubscribe counter; unwrap r ;;
  sync_ok counter ;;
  assert_state counter Disabled ;;
  is_managed false client1 key ;;
  new_core ← build client1 (uid 12) (subscribe_datatype key);
  assert "cores" (negb (new_core =? counter)).

Theorem can_auto_detach_after_datatype_unsubscribe_sync_passes :
  passes manual can_auto_detach_after_datatype_unsubscribe_sync = true.
Proof. vm_compute. reflexivity. Qed.

Definition can_auto_detach_after_datatype_unsubscribe_in_realtime : Script LocalConnectivity unit :=
  let key := "can_auto_detach_after_datatype_unsubscribe_in_realtime"%string in
  client client1 "tests_client" key ;;
  counter ← build client1 (uid 11) (create_datatype key);
  wait false ;;
  assert_state counter Subscribed ;;
  r ← unsubscribe counter; unwrap r ;;
  wait false ;;
  assert_state counter Disabled ;;
  is_managed false client1 key.

Theorem can_auto_detach_after_datatype_unsubscribe_in_realtime_passes :
  passes realtime can_auto_detach_after_datatype_unsubscribe_in_realtime = true.
Proof. vm_compute. reflexivity. Qed.

Definition can_unsubscribe_datatype_from_client_in_realtime : Script LocalConnectivity unit :=
  let key := "can_unsubscribe_datatype_from_client_in_realtime"%string in
  client client1 "tests_client" key ;;
  counter ← build client1 (uid 11) (create_datatype key);
  wait false ;;
  assert_state counter Subscribed ;;
  r ← command (app_unsubscribe_datatype client1 key);
  removed ← unwrap r;
  assert_state (DatatypeSet_get_core_id removed) Unsubscribing ;;
  is_managed true client1 key ;;
  wait false ;;
  assert_state (DatatypeSet_get_core_id removed) Disabled ;;
  is_managed false client1 key.

Theorem can_unsubscribe_datatype_from_client_in_realtime_passes :
  passes realtime can_unsubscribe_datatype_from_client_in_realtime = true.
Proof. vm_compute. reflexivity. Qed.

Definition can_reject_unsubscribe_for_unmanaged_key : Script NullConnectivity unit :=
  client client1 "tests_client" "can_reject_unsubscribe_for_unmanaged_key" ;;
  fails_with is_Disallowed (command (app_unsubscribe_datatype client1 "missing")).

Theorem can_reject_unsubscribe_for_unmanaged_key_passes :
  passes NullConnectivity_new can_reject_unsubscribe_for_unmanaged_key = true.
Proof. vm_compute. reflexivity. Qed.

(** ** datatypes/datatype.rs *)
Definition can_call_datatype_trait_methods : bool :=
  match TransactionalDatatype_new_arc 0
          (Attribute_new (uid 11) "key" Counter (ClientCommon_new_arc client1 "collection" "client")
             DatatypeOption_default false) Creating [] with
  | Ok data =>
      bool_decide (get_key data = "key"%string) && bool_decide (get_type data = Counter)
      && bool_decide (get_state data = Creating) && (get_server_version data =? 0)
      && (get_client_version data =? 0) && (get_synced_client_version data =? 0)
  | _ => false
  end.

Theorem can_call_datatype_trait_methods_passes : can_call_datatype_trait_methods = true.
Proof. vm_compute. reflexivity. Qed.

Definition can_use_sync_method : Script LocalConnectivity unit :=
  let '(collection, key, resource_id) := ids "tests_datatype_trait" "can_use_sync_method" in
  client client1 collection key ;;
  counter1 ← build client1 (uid 11) (create_datatype key);
  interceptor1 ← interceptor resource_id client1;
  after_pull_of interceptor1 (inject (SyncFailed "injected")) ;;
  fails_with is_SyncFailed (sync counter1) ;;
  assert_state counter1 Creating ;;
  after_pull_of interceptor1 (pulling (fun pull => (Ok tt, pull))) ;;
  sync_ok counter1 ;;
  assert_state counter1 Subscribed.

Theorem can_use_sync_method_passes : passes manual can_use_sync_method = true.
Proof. vm_compute. reflexivity. Qed.

Definition can_reject_unsubscribe_before_subscribed : Script LocalConnectivity unit :=
  client client1 "tests_datatype_trait" "can_reject_unsubscribe_before_subscribed" ;;
  counter ← build client1 (uid 11) (create_datatype "can_reject_unsubscribe_before_subscribed");
  fails_with is_NotWritable (unsubscribe counter) ;;
  assert_state counter Creating.

Theorem can_reject_unsubscribe_before_subscribed_passes :
  passes manual can_reject_unsubscribe_before_subscribed = true.
Proof. vm_compute. reflexivity. Qed.

Definition can_mark_unsubscribing : Script LocalConnectivity unit :=
  client client1 "tests_datatype_trait" "can_mark_unsubscribing" ;;
  counter ← build client1 (uid 11) (create_datatype "can_mark_unsubscribing");
  sync_ok counter ;;
  assert_state counter Subscribed ;;
  r ← unsubscribe counter; unwrap r ;;
  assert_state counter Unsubscribing.

Theorem can_mark_unsubscribing_passes : passes manual can_mark_unsubscribing = true.
Proof. vm_compute. reflexivity. Qed.

Definition can_reject_write_and_repeated_unsubscribe_while_unsubscribing
    : Script LocalConnectivity unit :=
  let key := "can_reject_write_and_repeated_unsubscribe_while_unsubscribing"%string in
  client client1 "tests_datatype_trait" key ;;
  counter ← build client1 (uid 11) (create_datatype key);
  sync_ok counter ;;
  r ← unsubscribe counter; unwrap r ;;
  assert_state counter Unsubscribing ;;
  fails_with is_NotWritable (increase counter) ;;
  fails_with is_NotWritable (unsubscribe counter).

Theorem can_reject_write_and_repeated_unsubscribe_while_unsubscribing_passes :
  passes manual can_reject_write_and_repeated_unsubscribe_while_unsubscribing = true.
Proof. vm_compute. reflexivity. Qed.

Definition can_sync_unsubscribe_to_disabled : Script LocalConnectivity unit :=
  let '(collection, key, resource_id) := ids "tests_datatype_trait" "can_sync_unsubscribe_to_disabled" in
  client client1 collection key ;;
  counter ← build client1 (uid 11) (create_datatype key);
  sync_ok counter ;;
  r ← unsubscribe counter; unwrap r ;;
  assert_state counter Unsubscribing ;;
  sync_ok counter ;;
  assert_state counter Disabled ;;
  sv ← server resource_id;
  assert "server" (negb (bool_decide (is_Some sv))).

Theorem can_sync_unsubscribe_to_disabled_passes :
  passes manual can_sync_unsubscribe_to_disabled = true.
Proof. vm_compute. reflexivity. Qed.

Definition can_disable_unsubscribing_on_protocol_violation : Script LocalConnectivity unit :=
  let '(collection, key, resource_id) :=
    ids "tests_datatype_trait" "can_disable_unsubscribing_on_protocol_violation" in
  client client1 collection key ;;
  counter ← build client1 (uid 11) (create_datatype key);
  sync_ok counter ;;
  r ← unsubscribe counter; unwrap r ;;
  i ← interceptor resource_id client1;
  after_pull_of i (pulling (fun pull => (Ok tt, ppp_set_state Subscribed pull))) ;;
  fails_with is_ServerRejected (sync counter) ;;
  assert_state counter Disabled ;;
  is_managed false client1 key.

Theorem can_disable_unsubscribing_on_protocol_violation_passes :
  passes manual can_disable_unsubscribing_on_protocol_violation = true.
Proof. vm_compute. reflexivity. Qed.

Definition can_unsubscribe_with_pending_transactions : Script LocalConnectivity unit :=
  let '(collection, key, _) :=
    ids "tests_datatype_trait" "can_unsubscribe_with_pending_transactions" in
  client client1 collection "client1" ;;
  client client2 collection "client2" ;;
  counter1 ← build client1 (uid 11) (create_datatype key);
  sync_ok counter1 ;;
  counter2 ← build client2 (uid 12) (subscribe_datatype key);
  sync_ok counter2 ;;
  assert_value counter2 0 ;;
  r ← increase_by counter1 7; unwrap r ;;
  r ← unsubscribe counter1; unwrap r ;;
  sync_ok counter1 ;;
  assert_state counter1 Disabled ;;
  sync_ok counter2 ;;
  assert_value counter2 7.

Theorem can_unsubscribe_with_pending_transactions_passes :
  passes manual can_unsubscribe_with_pending_transactions = true.
Proof. vm_compute. reflexivity. Qed.

Definition can_auto_sync_unsubscribe_in_realtime : Script LocalConnectivity unit :=
  client client1 "tests_datatype_trait" "can_auto_sync_unsubscribe_in_realtime" ;;
  counter ← build client1 (uid 11) (create_datatype "can_auto_sync_unsubscribe_in_realtime");
  wait false ;;
  assert_state counter Subscribed ;;
  r ← unsubscribe counter; unwrap r ;;
  wait false ;;
  assert_state counter Disabled.

Theorem can_auto_sync_unsubscribe_in_realtime_passes :
  passes realtime can_auto_sync_unsubscribe_in_realtime = true.
Proof. vm_compute. reflexivity. Qed.
