(* ===== verification/LoopConformance.v ===== *)
(** * The repository's tests of event loops, counters and handlers on the model

    The tests of the event loop, the user's handle, transactions, builders,
    handlers and the interceptor; like [ServerConformance]. *)

From S2P Require Import Prelude Types Errors Operations Crdts PushBuffer Pack Handler Mutable Transactional PullHandler Server Connectivity Wired Interceptor EventLoop Client App Harness.

(** ** datatypes/event_loop.rs

    The interceptor's cell is the tests' [pull_count]. *)
Definition make_backoff_error : result DatatypeErrorWithAction DatatypeErrorWithAction :=
  DatatypeError_mapping (SyncFailed "injected").

Definition make_pause_sync_error : result DatatypeErrorWithAction DatatypeErrorWithAction :=
  DatatypeError_mapping (ServerRejected (Rej_ProtocolViolation "injected")).

Definition can_manually_retry_after_backoff_error : Script LocalConnectivity unit :=
  let '(collection, key, resource_id) :=
    ids "tests_event_loop" "can_manually_retry_after_backoff_error" in
  client client1 collection "client" ;;
  counter ← build client1 (uid 11) (create_datatype key);
  i ← interceptor resource_id client1;
  after_pull_of i (pulling (fun p => (routed make_backoff_error, p))) ;;
  fails_with is_SyncFailed (sync counter) ;;
  assert_state counter Creating ;;
  after_pull_of i (pulling (fun p => (Ok tt, p))) ;;
  sync_ok counter ;;
  assert_state counter Subscribed.

Theorem can_manually_retry_after_backoff_error_passes :
  passes manual can_manually_retry_after_backoff_error = true.
Proof. vm_compute. reflexivity. Qed.

Definition can_auto_retry_after_backoff_timeout : Script LocalConnectivity unit :=
  let '(collection, key, resource_id) :=
    ids "tests_event_loop" "can_auto_retry_after_backoff_timeout" in
  client client1 collection "client" ;;
  counter ← build client1 (uid 11) (create_datatype key);
  i ← interceptor resource_id client1;
  after_pull_of i (fun pull_count p =>
    let count := pull_count + 1 in
    (if 3 <=? count then Ok tt else routed make_backoff_error, p, count)) ;;
  assert_state counter Creating ;;
  wait true ;;
  assert_state counter Subscribed ;;
  n ← cell_of i;
  assert_eq "pulls" n 3.

Theorem can_auto_retry_after_backoff_timeout_passes :
  passes realtime can_auto_retry_after_backoff_timeout = true.
Proof. vm_compute. reflexivity. Qed.

(** [should_fail] is changed by setting the closure again. *)
Definition can_block_extra_retry_after_successful_manual_retry : Script LocalConnectivity unit :=
  let '(collection, key, resource_id) :=
    ids "tests_event_loop" "can_block_extra_retry_after_successful_manual_retry" in
  client client1 collection "client" ;;
  counter ← build client1 (uid 11) (create_datatype key);
  i ← interceptor resource_id client1;
  let closure should_fail : AfterPullFn := fun pull_count p =>
    (if should_fail : bool then routed make_backoff_error else Ok tt, p, pull_count + 1) in
  after_pull_of i (closure true) ;;
  fails_with (fun _ => true) (sync counter) ;;
  n ← cell_of i; assert_eq "pull_count" n 1 ;;
  after_pull_of i (closure false) ;;
  sync_ok counter ;;
  n ← cell_of i; assert_eq "pull_count" n 2 ;;
  wait true ;;
  n ← cell_of i; assert_eq "pull_count" n 2.

Theorem can_block_extra_retry_after_successful_manual_retry_passes :
  passes manual can_block_extra_retry_after_successful_manual_retry = true.
Proof. vm_compute. reflexivity. Qed.

(** The first push may come from [sync] or from the loop itself; here it is
    [sync], whose event is waiting when the loop starts. *)
Definition can_handle_pause_sync_error_without_auto_retry_loop : Script LocalConnectivity unit :=
  let '(collection, key, resource_id) :=
    ids "tests_event_loop" "can_handle_pause_sync_error_without_auto_retry_loop" in
  client client1 collection "client" ;;
  counter ← build client1 (uid 11) (create_datatype key);
  i ← interceptor resource_id client1;
  after_pull_of i (fun pull_count p => (routed make_pause_sync_error, p, pull_count + 1)) ;;
  fails_with (fun _ => true) (sync counter) ;;
  n ← cell_of i; assert_eq "pull_count" n 1 ;;
  assert_state counter Disabled ;;
  wait true ;;
  assert_state counter Disabled ;;
  n ← cell_of i; assert_eq "pull_count" n 1.

Theorem can_handle_pause_sync_error_without_auto_retry_loop_passes :
  passes realtime can_handle_pause_sync_error_without_auto_retry_loop = true.
Proof. vm_compute. reflexivity. Qed.

(** ** datatypes/counter.rs *)

(** The errors that the handlers of the spawned tasks receive. *)
Definition errors_received (tasks : list HandlerTask) : list DatatypeError :=
  omap (fun t => match task_event t with ErrorRaised e => Some e | _ => None end) tasks.

Definition can_notify_on_error_when_enqueue_fails : Script NullConnectivity unit :=
  client client1 "tests_counter" "can_notify_on_error_when_enqueue_fails" ;;
  counter ← build client1 (uid 11) (create_datatype "can_notify_on_error_when_enqueue_fails");
  r ← increase_by counter 3; unwrap r ;;
  set_handler counter 1 (DatatypeHandler_set_on_error (UserFn 1) DatatypeHandler_new) ;;
  result ← transaction_ counter "oversize" (fun c =>
    with_err (fun _ => "unwrap"%string) (Counter_increase_by 1 fresh_ctx 0 100 c) ;;
    (* shrink the buffer limit so that the enqueue at commit fails *)
    modify (fun t => td_set_mutable
      (let m := td_mutable t in let b := m_push_buffer m in
       m_set_push_buffer {| transaction := transaction b; mem_size := mem_size b;
         option_ := {| max_mem_size_of_push_buffer := 0 |};
         first_cseq := first_cseq b; last_cseq := last_cseq b |} m) t));
  unwrap result ;;
  assert_value counter 3 ;;
  st ← state_of counter;
  assert "state" (negb (bool_decide (st = Disabled))) ;;
  received ← observe (fun a => errors_received (app_tasks a));
  assert_eq "received" received [PushBufferExceededMaxMemSize].

Theorem can_notify_on_error_when_enqueue_fails_passes :
  passes NullConnectivity_new can_notify_on_error_when_enqueue_fails = true.
Proof. vm_compute. reflexivity. Qed.

(** [Counter::new_for_test(state)]: a client with a counter in that state. *)
Definition counter_for_test (state : DatatypeState) : Script NullConnectivity Z :=
  client client1 "tests_counter" "client" ;;
  build client1 (uid 11) (DatatypeBuilder_new "counter" state).

Definition can_call_public_blanket_trait_methods : Script NullConnectivity unit :=
  counter ← counter_for_test Subscribed;
  t ← of_core get_type counter; assert_eq "type" t Counter ;;
  k ← of_core get_key counter; assert_eq "key" k "counter"%string ;;
  assert_state counter Subscribed.

Theorem can_call_public_blanket_trait_methods_passes :
  passes NullConnectivity_new can_call_public_blanket_trait_methods = true.
Proof. vm_compute. reflexivity. Qed.

Definition can_use_counter_operations : Script NullConnectivity unit :=
  counter ← counter_for_test Creating;
  r ← increase counter; v ← unwrap r; assert_eq "1" v 1 ;;
  r ← increase_by counter 10; v ← unwrap r; assert_eq "11" v 11 ;;
  assert_value counter 11.

Theorem can_use_counter_operations_passes :
  passes NullConnectivity_new can_use_counter_operations = true.
Proof. vm_compute. reflexivity. Qed.

(** [c.increase_by(n).unwrap()] inside a closure. *)
Definition tx_increase_by (n : Z) (c : CounterHandle) : TM string unit :=
  with_err (fun _ => "unwrap"%string) (Counter_increase_by 1 fresh_ctx 0 n c) ;; mret tt.

Definition can_use_transaction : Script NullConnectivity unit :=
  counter ← counter_for_test Creating;
  result1 ← transaction_ counter "success" (fun c => tx_increase_by 1 c ;; tx_increase_by 2 c);
  unwrap result1 ;;
  assert_value counter 3 ;;
  result2 ← transaction_ counter "failure" (fun c =>
    tx_increase_by 11 c ;; tx_increase_by 22 c ;; fail "failed"%string);
  unwrap_err result2 ;;
  assert_value counter 3.

Theorem can_use_transaction_passes : passes NullConnectivity_new can_use_transaction = true.
Proof. vm_compute. reflexivity. Qed.

(** One serial order of the five threads; [Concurrency] shows that the threads
    behave like some serial order. *)
Definition can_run_transactions_concurrently (order : list Z) : Script NullConnectivity unit :=
  counter ← counter_for_test Creating;
  foldr (fun i k => r ← transaction_ counter ("tag:" +:+ pretty i) (tx_increase_by i); unwrap r ;; k)
    (mret tt) order ;;
  assert_value counter (1 + 2 + 3 + 4).

Theorem can_run_transactions_concurrently_passes :
  forallb (fun order => passes NullConnectivity_new (can_run_transactions_concurrently order))
    (permutations [0; 1; 2; 3; 4]) = true.
Proof. vm_compute. reflexivity. Qed.

(** ** datatypes/builder.rs *)
Definition can_show_how_to_use_datatype_builder : Script NullConnectivity unit :=
  client client1 "tests_datatype_builder" "can_show_how_to_use_datatype_builder" ;;
  build client1 (uid 11) (with_max_memory_size_of_push_buffer 20000000
    (subscribe_datatype "can_show_how_to_use_datatype_builder")) ;;
  mret tt.

Definition can_create_readonly_counter : Script NullConnectivity unit :=
  client client1 "tests_datatype_builder" "can_create_readonly_counter" ;;
  counter ← build client1 (uid 11) (with_readonly (subscribe_datatype "can_create_readonly_counter"));
  assert_value counter 0 ;;
  fails_with is_NotWritable (increase counter) ;;
  fails_with (fun e => is_NotWritable e || is_ReadonlyViolation e)
    (transaction_ counter "test-tx" (tx_increase_by 1)) ;;
  assert_value counter 0.

Definition can_check_read_only_state : Script NullConnectivity unit :=
  client client1 "tests_datatype_builder" "can_check_read_only_state" ;;
  counter ← build client1 (uid 11) (create_datatype "create_dt");
  r ← increase counter; unwrap r ;;
  counter ← build client1 (uid 12) (subscribe_datatype "subscribe_dt");
  assert_state counter Subscribing ;;
  fails_with is_NotWritable (increase counter) ;;
  counter ← build client1 (uid 13) (subscribe_or_create_datatype "subscribe_or_create_dt");
  assert_state counter SubscribingOrCreating ;;
  r ← increase counter; unwrap r ;;
  mret tt.

Definition can_fail_with_invalid_datatype_keys (key : string) (success_expected : bool)
    : Script NullConnectivity unit :=
  client client1 "tests_datatype_builder" "can_fail_with_invalid_datatype_keys" ;;
  ret ← command (app_build_counter client1 (uid 11) (create_datatype key));
  assert_eq "ok" (is_ok ret) success_expected ;;
  if success_expected then mret tt
  else e ← unwrap_err ret;
       assert "error" (ClientError_eqb e (FailedToSubscribeOrCreateDatatype "")).

Definition invalid_key_cases : list (string * bool) :=
  [("hello"%string, true); (""%string, false); ("hello" +:+ NUL +:+ "world", false)].

Theorem builder_tests_pass :
  forallb (passes NullConnectivity_new)
    [can_show_how_to_use_datatype_builder; can_create_readonly_counter; can_check_read_only_state]
  && forallb (fun '(k, e) => passes NullConnectivity_new (can_fail_with_invalid_datatype_keys k e))
       invalid_key_cases = true.
Proof. vm_compute. reflexivity. Qed.

(** ** datatypes/pull_handler.rs *)
Definition can_check_versions : Script NullConnectivity unit :=
  client client1 "tests_push_handlers" "can_check_versions" ;;
  counter ← build client1 (uid 11) (create_datatype "can_check_versions");
  c ← client_version counter; assert_eq "client version" c 0 ;;
  s ← server_version counter; assert_eq "server version" s 0 ;;
  r ← increase_by counter 1; unwrap r ;;
  r ← increase counter; unwrap r ;;
  wait false ;;
  assert_state counter Subscribed ;;
  s ← server_version counter; assert_eq "server version" s 2 ;;
  c ← client_version counter; assert_eq "versions" s c ;;
  y ← synced_client_version counter; assert_eq "synced" c y ;;
  r ← increase_by counter 2; unwrap r ;;
  r ← increase_by counter 3; unwrap r ;;
  sync_ok counter ;;
  wait false ;;
  s ← server_version counter; assert_eq "server version" s 4.

Theorem can_check_versions_passes : passes NullConnectivity_new can_check_versions = true.
Proof. vm_compute. reflexivity. Qed.

(** ** datatypes/handler.rs

    A handler is called with the event and the number [a] of calls before it; its
    assertions are on both.  The world of the callbacks is the log of [(a, id)]
    whose assertions held. *)
Definition run_tasks (call : Z -> HandlerEvent -> Z -> bool) (tasks : list HandlerTask)
    : list (Z * bool) :=
  foldl (fun log t =>
    run_handlers (fun id _ ev log =>
        Returned (log ++ [(id, call id ev (Z.of_nat (length log)))]))
      (task_datatype t) (task_event t) (task_handlers t) log) [] tasks.

Definition can_notify_state_change : Script LocalConnectivity unit :=
  client client1 "tests_handers_manager" "can_notify_state_change" ;;
  let handler1 := DatatypeHandler_set_on_state_change (UserFn 1) DatatypeHandler_new in
  let handler2 := DatatypeHandler_set_on_state_change (UserFn 2) DatatypeHandler_new in
  let call id ev a :=
    bool_decide (ev = StateChanged Creating Subscribed)
    && (if id =? 1 then a =? 0 else a =? 1) in
  counter ← build client1 (uid 11)
    (with_handler 100 handler2 (create_datatype "can_notify_state_change"));
  set_handler counter 0 handler1 ;;
  sync_ok counter ;;
  log ← observe (fun a => run_tasks call (app_tasks a));
  assert_eq "calls" log [(1, true); (2, true)].

Theorem can_notify_state_change_passes : passes manual can_notify_state_change = true.
Proof. vm_compute. reflexivity. Qed.

Definition can_notify_error : Script LocalConnectivity unit :=
  client client1 "tests_handers_manager" "can_notify_error" ;;
  let handler1 := DatatypeHandler_set_on_error (UserFn 1) DatatypeHandler_new in
  let handler2 := DatatypeHandler_set_on_error (UserFn 2) DatatypeHandler_new in
  let call id ev a :=
    match ev with ErrorRaised (ServerRejected _) => if id =? 1 then a =? 1 else a =? 0 | _ => false end in
  counter1 ← build client1 (uid 11)
    (with_handler 0 handler2 (with_handler 1 handler1 (subscribe_datatype "can_notify_error")));
  assert_state counter1 Subscribing ;;
  fails_with is_ServerRejected (sync counter1) ;;
  assert_state counter1 Disabled ;;
  log ← observe (fun a => run_tasks call (app_tasks a));
  assert_eq "calls" log [(2, true); (1, true)].

Theorem can_notify_error_passes : passes manual can_notify_error = true.
Proof. vm_compute. reflexivity. Qed.

(** ** types/datatype.rs *)
Definition can_not_write_when_readonly : Script NullConnectivity unit :=
  client client1 "tests_datatype" "can_not_write_when_readonly" ;;
  counter1 ← build client1 (uid 11) (create_datatype "c1");
  assert_state counter1 Creating ;;
  r ← increase counter1; unwrap r ;;
  counter2 ← build client1 (uid 12) (subscribe_datatype "c2");
  assert_state counter2 Subscribing ;;
  fails_with (fun _ => true) (increase counter2) ;;
  counter3 ← build client1 (uid 13) (with_readonly (create_datatype "c3"));
  assert_state counter3 Creating ;;
  fails_with (fun _ => true) (increase counter3).

Theorem can_not_write_when_readonly_passes :
  passes NullConnectivity_new can_not_write_when_readonly = true.
Proof. vm_compute. reflexivity. Qed.

(** ** clients/datatype_manager.rs and datatypes/datatype_set.rs *)
Definition subscribe_or_create (key : string) (type : DataType) (state : DatatypeState)
    : M (Client NullConnectivity) (Z * TdCall) ClientError DatatypeSet :=
  DatatypeManager_subscribe_or_create_datatype (uid 11) key type state DatatypeOption_default false [].

Definition can_use_subscribe_or_create_datatype : bool :=
  let common := ClientCommon_new_arc client1 "collection" "client" in
  let dm := mkClient (DatatypeManager_new common) (mkHeap ∅ NullConnectivity_new 0) in
  match subscribe_or_create "k1" Counter Creating dm with
  | (Ok dt1, dm, _) =>
      bool_decide (DatatypeSet_get_state (cl_heap dm) dt1 = Some Creating)
      && bool_decide (DatatypeSet_get_type dt1 = Counter)
      && match subscribe_or_create "k1" Map Creating dm with
         | (Err e, dm, _) =>
             ClientError_eqb e (FailedToSubscribeOrCreateDatatype "")
             && match subscribe_or_create "k1" Counter SubscribingOrCreating dm with
                | (Err e, _, _) => ClientError_eqb e (FailedToSubscribeOrCreateDatatype "")
                | _ => false
                end
         | _ => false
         end
  | _ => false
  end.

(** A clone of a [DatatypeSet] refers to the same core. *)
Definition can_clone_datatype_set : Script NullConnectivity unit :=
  client client1 "tests_datatype_set" "client" ;;
  cnt1 ← build client1 (uid 11) (create_datatype "k1");
  let cnt2 := cnt1 in
  assert_value cnt1 0 ;;
  r ← increase_by cnt2 2; v ← unwrap r; assert_eq "increase" v 2 ;;
  assert_value cnt1 2.

Theorem manager_tests_pass :
  can_use_subscribe_or_create_datatype = true /\
  passes NullConnectivity_new can_clone_datatype_set = true.
Proof. split; vm_compute; reflexivity. Qed.

(** ** datatypes/transactional.rs *)
Definition can_compare_transaction_contexts : bool :=
  let ctx1 := mkTransactionContext 1 None in
  let ctx2 := mkTransactionContext 2 None in
  let ctx3 := mkTransactionContext 3 None in
  TransactionContext_eq ctx1 ctx1 && negb (TransactionContext_eq ctx1 ctx2)
  && TransactionContext_eq ctx3 ctx3 && negb (TransactionContext_eq ctx1 ctx3).

Definition can_rollback_on_enqueue_failure : Script NullConnectivity unit :=
  tx_dt ← counter_for_test Creating;
  let tx_ctx := TransactionContext_new this_ctx "non_sequential_cseq" in
  result ← command (user_call tx_dt (do_transaction 1 fresh_ctx tx_ctx
    (execute_local_operation_as_tx 1 fresh_ctx tx_ctx (Operation_new_counter_increase 0 5) ;;
     (* corrupt the sequence of the buffer *)
     modify (fun t => td_set_mutable
       (let m := td_mutable t in let b := m_push_buffer m in
        m_set_push_buffer {| transaction := transaction b; mem_size := mem_size b;
          option_ := option_ b; first_cseq := first_cseq b; last_cseq := 42 |} m) t))));
  unwrap result ;;
  assert_value tx_dt 0 ;;
  c ← client_version tx_dt; assert_eq "cseq" c 0 ;;
  st ← state_of tx_dt; assert "state" (negb (bool_decide (st = Disabled))).

Theorem transactional_tests_pass :
  can_compare_transaction_contexts = true /\
  passes NullConnectivity_new can_rollback_on_enqueue_failure = true.
Proof. split; vm_compute; reflexivity. Qed.

(** ** datatypes/wired.rs and wired_interceptor.rs

    A core without an event loop of its own, as [WiredDatatype::new_arc_for_test]. *)
Definition wired_for_test (state : DatatypeState) : World NullConnectivity :=
  mkWorld (match MutableDatatype_new
             (Attribute_new (uid 11) "key" Counter (ClientCommon_new_arc client1 "collection" "client")
                DatatypeOption_default false) state [] with
           | Ok m => {[0 := m]}
           | _ => ∅
           end) NullConnectivity_new.

Definition can_push_unsubscribing : bool := push_if_needed 0 (wired_for_test Unsubscribing).

(** The closures assert, through the cell, that they run in turn. *)
Definition can_use_wired_interceptor : bool :=
  let hook (n : Z) := set_after_pull (fun cell p => (if cell =? n then Ok tt else Panic "order", p, cell + 1))
    (set_before_push (fun cell p => (p, cell + 1)) WiredInterceptor_new_arc) in
  let '(r1, h, _) := Wired_push_pull_hooked 0 0 (mkHooked (wired_for_test Creating) (hook 1)) in
  let again := wi_set_cell (wi_cell (hk_interceptor h)) (hook 3) in
  let '(r2, h, _) := Wired_push_pull_hooked 0 0 (mkHooked (hk_world h) again) in
  is_ok r1 && is_ok r2 && (wi_cell (hk_interceptor h) =? 4).

Theorem wired_tests_pass : can_push_unsubscribing = true /\ can_use_wired_interceptor = true.
Proof. split; vm_compute; reflexivity. Qed.

(** ** tests/datatype_builder.rs and tests/datatype_handler.rs *)
Definition can_build_counter : Script NullConnectivity unit :=
  client client1 "test-collection" "can_build_counter" ;;
  counter ← build client1 (uid 11)
    (with_max_memory_size_of_push_buffer 10000000 (create_datatype "counter-1"));
  r ← increase_by counter 42; unwrap r ;;
  k ← of_core get_key counter; assert_eq "key" k "counter-1"%string ;;
  t ← of_core get_type counter; assert_eq "type" t Counter ;;
  st ← state_of counter; assert "state" (bool_decide (st ∈ [Creating; Subscribed])) ;;
  assert_value counter 42.

Definition can_use_datatype_handler : Script NullConnectivity unit :=
  client client1 "test-collection" "can_use_datatype_handler" ;;
  let handler id := DatatypeHandler_set_on_state_change (UserFn id) DatatypeHandler_new in
  let call (id : Z) ev (a : Z) :=
    match ev with StateChanged old new => negb (bool_decide (old = new)) | _ => false end in
  counter ← build client1 (uid 11)
    (with_handler 1 (handler 1) (with_handler 0 (handler 0) (create_datatype "counter-1")));
  r ← increase_by counter 42; unwrap r ;;
  wait false ;;
  log ← observe (fun a => run_tasks call (app_tasks a));
  assert_eq "order" log [(0, true); (1, true)] ;;
  assert_value counter 42 ;;
  assert_state counter Subscribed.

Theorem integration_tests_pass :
  passes NullConnectivity_new can_build_counter = true /\
  passes NullConnectivity_new can_use_datatype_handler = true.
Proof. split; vm_compute; reflexivity. Qed.
