(* ===== verification/UnitConformance.v ===== *)
(** * The repository's unit tests on the model

    The tests of the data types, the push buffer and the helpers, as boolean
    functions; like [ServerConformance]. *)

From Stdlib Require Import Strings.Byte.
From S2P Require Import Prelude Types Errors Operations Crdts PushBuffer Pack Handler Mutable Transactional PullHandler Server Connectivity Wired Client App Harness.

(** All the conditions of a test. *)
Definition all (bs : list bool) : bool := forallb id bs.

Definition eqb {A} `{EqDecision A} (a b : A) : bool := bool_decide (a = b).

(** ** types/uid.rs *)
Definition can_validate_uids (uid : string) (expected : bool) : bool := eqb expected (Uid_validate uid).

Definition can_try_from (uid : string) (expected : bool) : bool :=
  match Uid_try_from uid with
  | Ok u => expected && eqb (uid_str u) uid
  | _ => negb expected
  end.

Definition uid_cases : list (string * bool) :=
  [("0000000000000000"%string, true); ("-_00000000000000"%string, true);
   ("()00000000000000"%string, false); ("short"%string, false);
   ("longer_than_16_characters"%string, false)].

Theorem uid_tests_pass :
  forallb (fun '(u, e) => can_validate_uids u e && can_try_from u e) uid_cases = true.
Proof. vm_compute. reflexivity. Qed.

(** ** types/operation_id.rs *)
Definition can_new_and_display_operation_id : bool :=
  eqb (OperationId_to_string (OperationId_new_with_cuid Uid_new_nil)) "0:0000000000000000:0"%string.

Definition can_next_rollback_compare_operation_ids : bool :=
  let op_id1 := OperationId_new in
  let op_id2 := OperationId_new in
  let next := (OperationId_next_lamport op_id1).2 in
  let back := (OperationId_prev_lamport next).2 in
  all [eqb op_id1 op_id2; eqb (OperationId_partial_cmp next op_id2) (Some Gt);
       eqb (OperationId_partial_cmp op_id2 next) (Some Lt); eqb back op_id2].

Definition can_test_operation_id_methods : bool :=
  let op_id1 := (OperationId_prev_cseq OperationId_new).2 in
  let op_id2 := OperationId_new in
  let op_id1' := (OperationId_prev_lamport op_id1).2 in
  let op_id2' := (OperationId_next_cseq op_id2).2 in
  let synced := OperationId_sync op_id1' op_id2' in
  all [eqb op_id1 op_id2; eqb op_id1' op_id2; eqb synced op_id2';
       eqb (OperationId_partial_cmp (OperationId_prev_cseq synced).2 op_id2') (Some Eq)].

(** ** types/checkpoint.rs *)
Definition can_use_checkpoint : bool :=
  let cp1 := CheckPoint_default in
  let cp2 := CheckPoint_new 100 101 in
  all [eqb (CheckPoint_to_string cp1) "(s:0, c:0)"%string;
       eqb (CheckPoint_to_string cp2) "(s:100, c:101)"%string;
       negb (eqb cp1 cp2); eqb (CheckPoint_check_with cp1 cp2) cp2].

(** ** types/datatype.rs *)
Definition can_display_data_types : bool :=
  all [eqb (DataType_to_string Counter) "Counter"%string;
       eqb (DataType_to_string Variable_) "Variable"%string; eqb (DataType_to_string Map) "Map"%string].

Definition can_check_accessibility_of_datatype_state (state : DatatypeState) (expected : bool) : bool :=
  eqb (DatatypeState_is_read_writable state) expected
  && eqb (DatatypeState_is_readonly state) (negb expected).

Definition accessibility_cases : list (DatatypeState * bool) :=
  [(Creating, true); (Subscribed, true); (SubscribingOrCreating, true); (Subscribing, false);
   (Disabled, false)].

Theorem types_tests_pass :
  all [can_new_and_display_operation_id; can_next_rollback_compare_operation_ids;
       can_test_operation_id_methods; can_use_checkpoint; can_display_data_types;
       forallb (fun '(st, e) => can_check_accessibility_of_datatype_state st e) accessibility_cases] = true.
Proof. vm_compute. reflexivity. Qed.

(** ** operations/transaction.rs, operations/body.rs, operations/mod.rs *)
Definition can_debug_and_display_transaction : bool :=
  let '(cseq, op_id) := OperationId_next_cseq OperationId_new in
  let tx := Transaction_new (oid_cuid op_id) cseq in
  let tx := Transaction_set_event true (Transaction_set_tag (Some "tag1"%string) tx) in
  let tx := Transaction_push_operation (Operation_new_counter_increase 1 1) tx in
  let tx := Transaction_push_operation (Operation_new_counter_increase 2 2) (Transaction_set_event false tx) in
  eqb op_id (Transaction_get_op_id tx).

Definition can_measure_transaction_size : bool :=
  let '(cseq, op_id) := OperationId_next_cseq OperationId_new in
  let tx := Transaction_new (oid_cuid op_id) cseq in
  let tagged := Transaction_set_tag (Some "1234567890"%string) tx in
  let op := Operation_new_counter_increase 0 1 in
  let tx1 := Transaction_push_operation op tagged in
  let tx2 := Transaction_push_operation op tx1 in
  all [Transaction_size tx =? TRANSACTION_CONSTANT_SIZE;
       Transaction_size tagged =? TRANSACTION_CONSTANT_SIZE + 10;
       Transaction_size tx1 =? TRANSACTION_CONSTANT_SIZE + 10 + Operation_size op;
       Transaction_size tx2 =? TRANSACTION_CONSTANT_SIZE + 10 + Operation_size op * 2].

Definition str_ends_with (p s : string) : bool :=
  eqb (String.substring (String.length s - String.length p) (String.length p) s) p.

Definition can_display_and_debug : bool :=
  let s := OperationBody_to_string (CounterIncrease (CounterIncreaseBody_new 123)) in
  str_starts_with "CounterIncrease(" s && str_ends_with ")" s.

Definition can_measure_body_size : bool :=
  OperationBody_size (CounterIncrease (CounterIncreaseBody_new 123)) =? 8.

Definition can_measure_operation_size : bool :=
  let op := Operation_new_counter_increase 0 1 in
  Operation_size op =? 8 + 16 + OperationBody_size (op_body op).

Theorem operations_tests_pass :
  all [can_debug_and_display_transaction; can_measure_transaction_size; can_display_and_debug;
       can_measure_body_size; can_measure_operation_size] = true.
Proof. vm_compute. reflexivity. Qed.

(** ** datatypes/crdts *)
Definition can_new_and_increase_counter : bool :=
  let '(_, c) := CounterCrdt_increase_by 1 CounterCrdt_default in
  let '(_, c) := CounterCrdt_increase_by (-2) c in
  crdt_value (CrdtCounter c) =? -1.

Definition can_serialize_and_deserialize_counter_crdt : bool :=
  let '(_, counter) := CounterCrdt_increase_by 123 CounterCrdt_default in
  let serialized := CounterCrdt_to_bytes counter in
  all [eqb serialized [x7b; x00; x00; x00; x00; x00; x00; x00]%byte;
       eqb (CounterCrdt_from_bytes serialized) counter].

Definition can_serialize_and_deserialize : bool :=
  let '(_, counter) := CounterCrdt_increase_by 100 CounterCrdt_default in
  match Crdt_new Counter with
  | Ok crdt2 =>
      let '(r, crdt2) := Crdt_deserialize (Crdt_serialize (CrdtCounter counter)) crdt2 in
      let '(r', crdt2') := Crdt_deserialize [x7b; x7d]%byte crdt2 in
      all [is_ok r; crdt_value crdt2 =? 100;
           match r' with Err e => is_Internal e | _ => false end; crdt_value crdt2' =? 100]
  | _ => false
  end.

Theorem crdts_tests_pass :
  all [can_new_and_increase_counter; can_serialize_and_deserialize_counter_crdt;
       can_serialize_and_deserialize] = true.
Proof. vm_compute. reflexivity. Qed.

(** ** datatypes/option.rs and push_buffer.rs *)
Definition can_use_datatype_option : bool :=
  max_mem_size_of_push_buffer (DatatypeOption_new (LOWER_MAX_MEM_SIZE_OF_PUSH_BUFFER - 100))
  =? LOWER_MAX_MEM_SIZE_OF_PUSH_BUFFER.

(** [n] times: the next transaction of [op_id] is accepted. *)
Fixpoint enqueue_next (n : nat) (op_id : OperationId) (b : MemoryPushBuffer)
    : option (OperationId * MemoryPushBuffer) :=
  match n with
  | O => Some (op_id, b)
  | S n =>
      let '(cseq, op_id) := OperationId_next_cseq op_id in
      match enqueue (Transaction_new (oid_cuid op_id) cseq) b with
      | (Ok _, b) => enqueue_next n op_id b
      | _ => None
      end
  end.

(** The last loop of the test: until the buffer is full. *)
Fixpoint enqueue_until_full (fuel : nat) (max_size : Z) (op_id : OperationId) (b : MemoryPushBuffer)
    : bool :=
  match fuel with
  | O => false
  | S fuel =>
      let '(cseq, op_id) := OperationId_next_cseq op_id in
      let tx := Transaction_new (oid_cuid op_id) cseq in
      if max_size <? mem_size b + Transaction_size tx then
        match enqueue tx b with
        | (Err e, _) => DatatypeError_eqb (error e) PushBufferExceededMaxMemSize
        | _ => false
        end
      else match enqueue tx b with
           | (Ok _, b) => enqueue_until_full fuel max_size op_id b
           | _ => false
           end
  end.

Definition can_enque_from_push_buffer : bool :=
  let max_size := 1000000 in
  let push_buffer := MemoryPushBuffer_new (DatatypeOption_new max_size) in
  let tx_size := Transaction_size (Transaction_new Uid_new_nil 1) in
  all [mem_size push_buffer =? 0; first_cseq push_buffer =? 0; last_cseq push_buffer =? 0]
  && match enqueue_next 1 OperationId_new push_buffer with
     | None => false
     | Some (op_id, b1) =>
         all [mem_size b1 =? tx_size; first_cseq b1 =? 1; last_cseq b1 =? 1]
         && match enqueue_next 9 op_id b1 with
            | None => false
            | Some (op_id, b10) =>
                all [mem_size b10 =? tx_size * 10; first_cseq b10 =? 1; last_cseq b10 =? 10;
                     match enqueue (Transaction_new Uid_new_nil 1) b10 with
                     | (Err e, _) => is_Internal (error e)
                     | _ => false
                     end;
                     enqueue_until_full (Z.to_nat 20000) max_size op_id b10]
            end
     end.

Definition can_get_after_and_deque_from_push_buffer : bool :=
  let max_push_size := 1000000 in
  let tx_size := Transaction_size (Transaction_new Uid_new_nil 1) in
  match enqueue_next 100 OperationId_new (MemoryPushBuffer_new DatatypeOption_default) with
  | None => false
  | Some (_, b) =>
      let pushing cseq max (len : nat) (size first : Z) :=
        match get_pushing_transactions cseq max b with
        | Ok (txs, total) =>
            all [eqb (length txs) len; total =? size; eqb (tx_cseq <$> head txs)
                   (if decide (len = 0%nat) then None else Some first)]
        | _ => false
        end in
      let '(gone1, b1) := deque 50 b in
      let '(gone2, b2) := deque 0 b1 in
      let '(gone3, b3) := deque 101 b2 in
      all [mem_size b =? tx_size * 100; first_cseq b =? 1; last_cseq b =? 100;
           pushing 50 max_push_size 51%nat (tx_size * 51) 50;
           pushing 50 (tx_size * 10) 10%nat (tx_size * 10) 50;
           pushing 101 max_push_size 0%nat 0 0;
           eqb (length gone1) 50%nat; eqb (length gone2) 0%nat; eqb (length gone3) 50%nat;
           mem_size b3 =? 0; first_cseq b3 =? 0; last_cseq b3 =? 0]
  end.

Theorem push_buffer_tests_pass :
  all [can_use_datatype_option; can_enque_from_push_buffer;
       can_get_after_and_deque_from_push_buffer] = true.
Proof. vm_compute. reflexivity. Qed.

(** ** types/push_pull_pack.rs and connectivity/null_connectivity.rs *)
Definition attr_for_test : Attribute :=
  Attribute_new (uid 11) "key" Counter (ClientCommon_new_arc client1 "collection" "client")
    DatatypeOption_default false.

Definition can_use_push_pull_pack : bool :=
  eqb (PushPullPack_resource_id (PushPullPack_new attr_for_test Creating))
    (cc_collection (attr_client_common attr_for_test) +:+ "/" +:+ attr_key attr_for_test).

Definition can_deal_with_edge_cases_in_null_connectivity : bool :=
  let set_readonly p := mkPushPullPack (ppp_collection p) (ppp_cuid p) (ppp_duid p) (ppp_key p)
    (ppp_type p) (ppp_state p) (ppp_checkpoint p) (ppp_safe_sseq p) (ppp_transactions p)
    (ppp_snapshot_transaction p) true (ppp_error p) in
  let pushed1 := set_readonly (PushPullPack_new attr_for_test Creating) in
  let pushed2 := ppp_set_transactions [Transaction_new Uid_new_nil 1]
                   (PushPullPack_new attr_for_test Subscribing) in
  let pushed3 := ppp_set_transactions [Transaction_new Uid_new_nil 2]
                   (PushPullPack_new attr_for_test Unsubscribing) in
  let error_is (r : result ConnectivityError PushPullPack) e :=
    match r with
    | Ok pulled => match ppp_error pulled with Some e' => PushPullError_eqb e' e | None => false end
    | _ => false
    end in
  all [error_is (NullConnectivity_push_pull pushed1) PP_ReadonlyViolation;
       error_is (NullConnectivity_push_pull pushed2) (PP_ProtocolViolation "");
       match NullConnectivity_push_pull pushed3 with
       | Ok pulled3 => eqb (ppp_state pulled3) Disabled
           && (cp_cseq (ppp_checkpoint pulled3) =? cp_cseq (ppp_checkpoint pushed3))
       | _ => false
       end].

Theorem pack_tests_pass :
  all [can_use_push_pull_pack; can_deal_with_edge_cases_in_null_connectivity] = true.
Proof. vm_compute. reflexivity. Qed.

(** ** errors/mod.rs *)
Definition can_compare_errors : bool :=
  let e1 := TransactionFailed "source err1" in
  let e2 := TransactionFailed "source err2" in
  let e3 := Internal "e2" in
  all [DatatypeError_eqb e1 e2; negb (DatatypeError_eqb e2 e3); DatatypeError_eqb e3 e3].

Definition can_use_err_macro : bool :=
  all [negb (DatatypeError_eqb (Internal "datatype error") (TransactionFailed "source err1"));
       ClientError_eqb (FailedToSubscribeOrCreateDatatype "clients error")
         (FailedToSubscribeOrCreateDatatype "")].

(** ** utils *)
Definition collection_name_cases : list (string * bool) :=
  [("hello_world"%string, true); ("a"%string, true); ("my-collection"%string, true);
   ("my.collection"%string, true); ("my~collection"%string, true); ("_private"%string, true);
   ("Collection123"%string, true); ("a-b.c~d_e"%string, true);
   (String.concat "" (replicate 47 "a"%string), true); (""%string, false);
   (String.concat "" (replicate 48 "a"%string), false); ("1hello"%string, false);
   ("-hello"%string, false); (".hello"%string, false); ("system.hello"%string, false);
   ("my.system.hello"%string, false); ("hello@world"%string, false); ("hello world"%string, false);
   ("hello.system"%string, true); ("system"%string, true); ("system123"%string, true)].

Definition can_valid_collection_names (name : string) (expected : bool) : bool :=
  eqb expected (is_valid_collection_name name).

Definition datatype_key_cases : list (string * bool) :=
  [("hello_world"%string, true); ("simple"%string, true); ("user:123:profile"%string, true);
   ("a"%string, true); ("with-dash-and.dot"%string, true); ("한글키"%string, true);
   (String.concat "" (replicate 255 "a"%string), true); (""%string, false);
   ("hello" +:+ NUL +:+ "world", false); ("$hello"%string, false);
   (String.concat "" (replicate 256 "a"%string), false)].

Definition can_valid_datatype_key (key : string) (expected : bool) : bool :=
  eqb expected (is_valid_datatype_key key).

(** The closures of the guard work on a number; an assertion that fails panics. *)
Definition can_drop_defer_guard : bool :=
  let run (d : Z) (committed : bool) : M Z unit string unit := fun x =>
    if d =? 1 then (if (x =? 11) && committed then (Ok tt, x + 1, []) else (Panic "assert", x, []))
    else (if x =? 10 then (Ok tt, x + 1, []) else (Panic "assert", x, [])) in
  let guard := DeferGuard_commit (DeferGuard_add_defer_func 2
                 (DeferGuard_add_defer_func 1 DeferGuard_new)) in
  match DeferGuard_drop run guard 10 with
  | (Ok _, x, _) => x =? 12
  | _ => false
  end.

Definition can_lock_and_unlock : bool :=
  let td := mkTransactionalDatatype example_mutable None false false in
  let step (f : TM string unit) t := final (f t) in
  let t1 := step op_mutex_lock td in
  let t2 := step op_mutex_unlock t1 in
  let t3 := step op_mutex_unlock t2 in
  let t4 := step op_mutex_lock t3 in
  all [td_op_mutex t1; negb (td_op_mutex t2); negb (td_op_mutex t3); td_op_mutex t4].

Theorem utils_tests_pass :
  all [can_compare_errors; can_use_err_macro;
       forallb (fun '(n, e) => can_valid_collection_names n e) collection_name_cases;
       forallb (fun '(k, e) => can_valid_datatype_key k e) datatype_key_cases;
       can_drop_defer_guard; can_lock_and_unlock] = true.
Proof. vm_compute. reflexivity. Qed.

(** ** utils/runtime.rs

    A runtime of the tests is the number of its workers and its name, which is also
    its handle; a task that counts is the number of the increments it has left, one
    for each sleep of 100 ms. *)
Definition test_runtimes : Type := gmap string (Z * string).

Definition test_handle (group : string) (map : test_runtimes) : string * test_runtimes :=
  get_or_init_runtime_handle pair snd None group map.

(** Both handles are of one runtime, which leaves the table when it is shut down. *)
Definition can_show_how_to_work_runtime (group : string) : bool :=
  let '(h1, map) := test_handle group ∅ in
  let '(h2, map) := test_handle group map in
  let '(rt, map) := reserve_to_shutdown_runtime group map in
  all [eqb h1 h2; eqb rt (Some (DEFAULT_THREAD_WORKERS, h1)); eqb (size map) 0%nat].

Definition can_show_how_to_work_runtime_in_sync_function : bool :=
  can_show_how_to_work_runtime "sync_group".
Definition can_show_how_to_work_runtime_in_async_function : bool :=
  can_show_how_to_work_runtime "async_group".

(** 100 ms of both tasks. *)
Definition count_tick (s : list nat * Z) : list nat * Z :=
  (pred <$> s.1, s.2 + Z.of_nat (length (filter (fun n => n <> 0%nat) s.1))).

(** Polling every 100 ms until the count is 20; the time that took, in ms. *)
Fixpoint poll_count (fuel : nat) (elapsed : Z) (s : list nat * Z) : option Z :=
  if 20 <=? s.2 then Some elapsed
  else match fuel with O => None | S fuel => poll_count fuel (elapsed + 100) (count_tick s) end.

Definition can_execute_runtimes_concurrently : bool :=
  let '(h1, map) := test_handle "test_runtime1" ∅ in
  let '(h2, map) := test_handle "test_runtime2" map in
  let elapsed := poll_count 50 0 ([10%nat; 20%nat], 0) in
  let map := (reserve_to_shutdown_runtime "test_runtime1" map).2 in
  let map := (reserve_to_shutdown_runtime "test_runtime2" map).2 in
  all [negb (eqb h1 h2); match elapsed with Some ms => ms / 1000 <? 2 | None => false end; eqb (size map) 0%nat].

Theorem runtime_tests_pass :
  all [can_show_how_to_work_runtime_in_sync_function; can_show_how_to_work_runtime_in_async_function;
       can_execute_runtimes_concurrently] = true.
Proof. vm_compute. reflexivity. Qed.
