(* ===== verification/Observability.v ===== *)
(** * Log lines and metrics ([src/observability], [with_stack_trace] of [src/errors])

    A [QortooTraceContextVisitor] collects the message and five context fields of
    an event or of a span; [QortooLogLayer] completes the fields of an event from
    the enclosing spans, innermost first, and writes one line.  The metrics are
    those of the [metrics] crate, as the list of recordings.  Formatting done by
    other crates (the time, a number, [Debug] of a value) and the parsed
    backtrace are arguments. *)

From S2P Require Import Prelude Types Errors Operations Crdts PushBuffer Pack Handler Mutable PullHandler Server Connectivity Wired.

(** ** trace_context.rs *)
Definition MESSAGE_FIELD : string := "message".
Definition COLLECTION_FIELD : string := "collection".
Definition CLIENT_FIELD : string := "client".
Definition CUID_FIELD : string := "cuid".
Definition DATATYPE_FIELD : string := "data_key".
Definition DUID_FIELD : string := "duid".

Record QortooTraceContextVisitor : Type := mkVisitor {
  v_msg : string;
  v_collection : string;
  v_client : string;
  v_cuid : string;
  v_datatype : string;
  v_duid : string;
}.

Definition Visitor_new : QortooTraceContextVisitor := mkVisitor "" "" "" "" "" "".

Definition v_set_msg x v := mkVisitor x (v_collection v) (v_client v) (v_cuid v) (v_datatype v) (v_duid v).
Definition v_set_collection x v := mkVisitor (v_msg v) x (v_client v) (v_cuid v) (v_datatype v) (v_duid v).
Definition v_set_client x v := mkVisitor (v_msg v) (v_collection v) x (v_cuid v) (v_datatype v) (v_duid v).
Definition v_set_cuid x v := mkVisitor (v_msg v) (v_collection v) (v_client v) x (v_datatype v) (v_duid v).
Definition v_set_datatype x v := mkVisitor (v_msg v) (v_collection v) (v_client v) (v_cuid v) x (v_duid v).
Definition v_set_duid x v := mkVisitor (v_msg v) (v_collection v) (v_client v) (v_cuid v) (v_datatype v) x.

Definition TAB : string := String (Ascii.ascii_of_nat 9) EmptyString.
Definition NEWLINE : string := String (Ascii.ascii_of_nat 10) EmptyString.
Definition ESC : string := String (Ascii.ascii_of_nat 27) EmptyString.

Definition message_into (v : QortooTraceContextVisitor) (buf : string) : string :=
  buf +:+ v_msg v +:+ TAB +:+ TAB.

Definition category_into (v : QortooTraceContextVisitor) (buf : string) : string :=
  let buf := if negb (str_is_empty (v_collection v))
             then buf +:+ "🗄" +:+ v_collection v else buf in
  let buf := if negb (str_is_empty (v_client v)) || negb (str_is_empty (v_cuid v))
             then buf +:+ "👥" +:+ v_client v +:+ "(" +:+ v_cuid v +:+ ")" else buf in
  let buf := if negb (str_is_empty (v_datatype v)) || negb (str_is_empty (v_duid v))
             then buf +:+ "🗂" +:+ v_datatype v +:+ "(" +:+ v_duid v +:+ ")" else buf in
  buf +:+ TAB.

(** [self] is [v]; whether the caller should go on, and [self] afterwards. *)
Definition merge (other v : QortooTraceContextVisitor) : bool * QortooTraceContextVisitor :=
  if negb (str_is_empty (v_collection v)) && negb (str_is_empty (v_client v))
     && negb (str_is_empty (v_cuid v)) && negb (str_is_empty (v_datatype v))
     && negb (str_is_empty (v_duid v))
  then (false, v)
  else
    let v := if str_is_empty (v_collection v) && negb (str_is_empty (v_collection other))
             then v_set_collection (v_collection other) v else v in
    let v := if str_is_empty (v_client v) && negb (str_is_empty (v_client other))
             then v_set_client (v_client other) v else v in
    let v := if str_is_empty (v_cuid v) && negb (str_is_empty (v_cuid other))
             then v_set_cuid (v_cuid other) v else v in
    let v := if str_is_empty (v_datatype v) && negb (str_is_empty (v_datatype other))
             then v_set_datatype (v_datatype other) v else v in
    let v := if str_is_empty (v_duid v) && negb (str_is_empty (v_duid other))
             then v_set_duid (v_duid other) v else v in
    (true, v).

(** [record_str]; [value] is appended to the field. *)
Definition record_str (name value : string) (v : QortooTraceContextVisitor)
    : QortooTraceContextVisitor :=
  if bool_decide (name = MESSAGE_FIELD) then v_set_msg (v_msg v +:+ value) v
  else if bool_decide (name = COLLECTION_FIELD) then v_set_collection (v_collection v +:+ value) v
  else if bool_decide (name = CLIENT_FIELD) then v_set_client (v_client v +:+ value) v
  else if bool_decide (name = CUID_FIELD) then v_set_cuid (v_cuid v +:+ value) v
  else if bool_decide (name = DATATYPE_FIELD) then v_set_datatype (v_datatype v +:+ value) v
  else if bool_decide (name = DUID_FIELD) then v_set_duid (v_duid v +:+ value) v
  else v.

(** [value] as [{:?}] writes it, into the same fields. *)
Definition record_debug (name debug_value : string) (v : QortooTraceContextVisitor)
    : QortooTraceContextVisitor := record_str name debug_value v.

(** The fields of an event or of a span, in the order in which they are visited. *)
Inductive FieldValue : Type :=
| StrValue (value : string)
| DebugValue (debug_value : string).

Definition record_field (v : QortooTraceContextVisitor) (f : string * FieldValue)
    : QortooTraceContextVisitor :=
  match f.2 with
  | StrValue x => record_str f.1 x v
  | DebugValue x => record_debug f.1 x v
  end.

Definition record (fields : list (string * FieldValue)) (v : QortooTraceContextVisitor)
    : QortooTraceContextVisitor := foldl record_field v fields.

(** ** log_layer.rs *)
Inductive Level : Type := TRACE | DEBUG | INFO | WARN | ERROR.

Definition level_str_into (level : Level) (buf : string) : string :=
  buf +:+ ESC +:+
  match level with
  | TRACE => "[35m[T] "
  | DEBUG => "[34m[D] "
  | INFO => "[32m[I] "
  | WARN => "[33m[W] "
  | ERROR => "[31m[E] "
  end +:+ ESC +:+ "[0m".

(** [now] is the local time in RFC 2822. *)
Definition ts_into (now buf : string) : string := buf +:+ now +:+ TAB.

Definition strip_prefix (p s : string) : option string :=
  if String.prefix p s then Some (String.substring (String.length p) (String.length s) s) else None.

Definition strip_suffix (p s : string) : option string :=
  let n := (String.length s - String.length p)%nat in
  if bool_decide ((String.length p <= String.length s)%nat) &&
     bool_decide (String.substring n (String.length p) s = p)
  then Some (String.substring 0 n s) else None.

(** [dbg] is [{:?}] of the thread's identifier. *)
Definition thread_id_into (dbg buf : string) : string :=
  let trimmed := default dbg (strip_prefix "ThreadId(" dbg ≫= strip_suffix ")") in
  buf +:+ "[🧵#" +:+ trimmed +:+ "]" +:+ TAB.

Record Metadata : Type := mkMetadata { md_level : Level; md_file : option string; md_line : option Z }.

Definition metadata_into (md : Metadata) (buf : string) : string :=
  buf +:+ "🗂️ " +:+ default "unknown" (md_file md) +:+ ":" +:+ pretty (default 0 (md_line md)).

(** The spans of the current scope from the innermost outward, each with the
    visitor among its extensions. *)
Fixpoint merge_scope (scope : list (option QortooTraceContextVisitor))
    (v : QortooTraceContextVisitor) : QortooTraceContextVisitor :=
  match scope with
  | [] => v
  | Some visitor :: scope =>
      let '(go_on, v) := merge visitor v in if go_on then merge_scope scope v else v
  | None :: scope => merge_scope scope v
  end.

Definition process_context (current : option (list (option QortooTraceContextVisitor)))
    (v : QortooTraceContextVisitor) : QortooTraceContextVisitor :=
  match current with
  | Some scope => merge_scope scope v
  | None => v
  end.

Section log_layer.
(** [LevelFilter], and its comparison with a [Level]. *)
Context {LevelFilter : Type} (level_le : Level -> LevelFilter -> bool).

Definition enabled (level_filter : option LevelFilter) (md : Metadata) : bool :=
  default true (level_le (md_level md) <$> level_filter).
End log_layer.

(** The visitor that [on_new_span] inserts into the span's extensions. *)
Definition on_new_span (attrs : list (string * FieldValue)) : QortooTraceContextVisitor :=
  record attrs Visitor_new.

(** The line that [on_event] writes. *)
Definition on_event (now thread : string) (md : Metadata) (event : list (string * FieldValue))
    (current : option (list (option QortooTraceContextVisitor))) : string :=
  let buffer := ts_into now "" in
  let buffer := level_str_into (md_level md) buffer in
  let visitor := record event Visitor_new in
  let buffer := message_into visitor buffer in
  let buffer := thread_id_into thread buffer in
  let visitor := process_context current visitor in
  let buffer := category_into visitor buffer in
  metadata_into md buffer +:+ NEWLINE.

(** ** metrics.rs

    [D] is [std::time::Duration] and [as_secs] its length in seconds. *)
Section metrics.
Context {D F : Type} (as_secs_f64 : D -> F).

Inductive Metric : Type :=
| IncrementCounter (name : string) (labels : list (string * string)) (n : Z)
| RecordHistogram (name : string) (labels : list (string * string)) (value : F).

Definition SYNC_TOTAL : string := "qortoo_sync_total".
Definition SYNC_DURATION_SECONDS : string := "qortoo_sync_duration_seconds".
Definition BACKOFF_TOTAL : string := "qortoo_backoff_total".
Definition LABEL_COLLECTION : string := "collection".
Definition LABEL_KEY : string := "key".
Definition LABEL_TYPE : string := "type".
Definition LABEL_RESULT : string := "result".
Definition RESULT_SUCCESS : string := "success".
Definition RESULT_FAILURE : string := "failure".

Definition emit_sync (attr : Attribute) (success : bool) (duration : D) : list Metric :=
  let result := if success then RESULT_SUCCESS else RESULT_FAILURE in
  let col := cc_collection (attr_client_common attr) in
  let key := attr_key attr in
  let dt := DataType_to_string (attr_type attr) in
  [IncrementCounter SYNC_TOTAL
     [(LABEL_COLLECTION, col); (LABEL_KEY, key); (LABEL_TYPE, dt); (LABEL_RESULT, result)] 1;
   RecordHistogram SYNC_DURATION_SECONDS
     [(LABEL_COLLECTION, col); (LABEL_KEY, key); (LABEL_TYPE, dt)] (as_secs_f64 duration)].

Definition emit_backoff (attr : Attribute) : list Metric :=
  [IncrementCounter BACKOFF_TOTAL
     [(LABEL_COLLECTION, cc_collection (attr_client_common attr)); (LABEL_KEY, attr_key attr);
      (LABEL_TYPE, DataType_to_string (attr_type attr))] 1].
End metrics.

(** ** errors/mod.rs: [with_stack_trace]

    A frame as [btparse] gives it; [caller] is the file and line of the call. *)
Record Frame : Type := mkFrame { fr_function : string; fr_file : option string; fr_line : option Z }.

Definition SDK_NAME : string := "qortoo".

Fixpoint stack_trace_loop (frames : list Frame) (caller : string * Z) (stack_count : nat)
    (s : string) : string :=
  match frames with
  | [] => s
  | frame :: frames =>
      if str_contains SDK_NAME (fr_function frame) then
        let stack_count := Datatypes.S stack_count in
        let file_str := default "" (fr_file frame) in
        let file := default file_str (strip_prefix "./" file_str) in
        let line := default 0 (fr_line frame) in
        let space := String.concat "" (replicate stack_count " "%string) in
        let '(file, line) := if bool_decide (stack_count = 1%nat) then caller else (file, line) in
        stack_trace_loop frames caller stack_count
          (s +:+ NEWLINE +:+ space +:+ "↘︎ " +:+ fr_function frame +:+ " 🗂️ " +:+ file +:+ ":"
             +:+ pretty line)
      else stack_trace_loop frames caller stack_count s
  end.

Definition with_stack_trace (frames : list Frame) (caller : string * Z) : string :=
  stack_trace_loop frames caller 0 "".

(** ** Specification vocabulary *)
Inductive ContextField : Type := FCollection | FClient | FCuid | FDatatype | FDuid.

Definition context_field (f : ContextField) (v : QortooTraceContextVisitor) : string :=
  match f with
  | FCollection => v_collection v
  | FClient => v_client v
  | FCuid => v_cuid v
  | FDatatype => v_datatype v
  | FDuid => v_duid v
  end.

Definition field_name (f : ContextField) : string :=
  match f with
  | FCollection => COLLECTION_FIELD
  | FClient => CLIENT_FIELD
  | FCuid => CUID_FIELD
  | FDatatype => DATATYPE_FIELD
  | FDuid => DUID_FIELD
  end.

(** The first string of a list that is not empty. *)
Fixpoint first_nonempty (l : list string) : string :=
  match l with
  | [] => ""
  | s :: l => if str_is_empty s then first_nonempty l else s
  end.

(** What a list of fields says of one name: the values one after the other. *)
Definition values_of (name : string) (fields : list (string * FieldValue)) : string :=
  String.concat "" (omap (fun f => if bool_decide (f.1 = name)
    then Some (match f.2 with StrValue x | DebugValue x => x end) else None) fields).

(** ** Lemmas *)
Lemma str_is_empty_true s : str_is_empty s = true <-> s = "".
Proof. unfold str_is_empty. by rewrite bool_decide_eq_true. Qed.

(** One step of [merge]: take the other's value where one's own is empty. *)
Lemma take_over (x y : string) :
  first_nonempty [x; y] = if str_is_empty x && negb (str_is_empty y) then y else x.
Proof.
  unfold first_nonempty, str_is_empty. by repeat case_bool_decide; simplify_eq/=.
Qed.

Lemma if_same {A} (b : bool) (x : A) : (if b then x else x) = x.
Proof. by destruct b. Qed.

Lemma merge_field f other v :
  context_field f (merge other v).2 = first_nonempty [context_field f v; context_field f other].
Proof.
  unfold merge. destruct (_ && _) eqn:Hall.
  - rewrite !andb_true_iff, !negb_true_iff in Hall. destruct Hall as [[[[H1 H2] H3] H4] H5].
    rewrite take_over. by destruct f; simpl; rewrite ?H1, ?H2, ?H3, ?H4, ?H5.
  - clear Hall. rewrite take_over.
    assert (Hif : forall g (b : bool) (x y : QortooTraceContextVisitor),
      (g (if b then x else y) : string) = if b then g x else g y) by (by intros ? []).
    by destruct f; cbn [snd context_field];
      repeat (rewrite ?(Hif v_collection), ?(Hif v_client), ?(Hif v_cuid), ?(Hif v_datatype), ?(Hif v_duid);
              cbn [v_collection v_client v_cuid v_datatype v_duid v_set_collection v_set_client v_set_cuid
                   v_set_datatype v_set_duid]; rewrite ?if_same).
Qed.

Lemma merge_msg other v : v_msg (merge other v).2 = v_msg v.
Proof. unfold merge. by repeat case_match. Qed.

(** [merge] tells the caller to stop only when nothing is missing. *)
Lemma merge_stops other v f : (merge other v).1 = false -> context_field f v <> "".
Proof.
  unfold merge. destruct (_ && _) eqn:Hall; [intros _|done].
  rewrite !andb_true_iff, !negb_true_iff in Hall. destruct Hall as [[[[H1 H2] H3] H4] H5].
  by destruct f; simpl; intros Heq%str_is_empty_true; congruence.
Qed.

(** What the layer knows of a field after walking the spans. *)
Lemma merge_scope_field f scope v :
  context_field f (merge_scope scope v) =
  first_nonempty (context_field f v :: (context_field f <$> omap id scope)).
Proof.
  revert v. induction scope as [|[other|] scope IH]; intros v; simpl.
  - unfold str_is_empty. by case_bool_decide.
  - pose proof (merge_field f other v) as Hf. pose proof (merge_stops other v f) as Hs.
    destruct (merge other v) as [[] v'] eqn:Hm; simpl in *.
    + rewrite IH, Hf. cbn [first_nonempty].
      destruct (str_is_empty (context_field f v)) eqn:H1; [|by rewrite H1].
      by destruct (str_is_empty (context_field f other)) eqn:H2; rewrite ?H2.
    + specialize (Hs eq_refl). rewrite Hf. cbn [first_nonempty].
      destruct (str_is_empty (context_field f v)) eqn:He; [|done].
      by apply str_is_empty_true in He.
  - apply IH.
Qed.

Lemma merge_scope_msg scope v : v_msg (merge_scope scope v) = v_msg v.
Proof.
  revert v. induction scope as [|[other|] scope IH]; intros v; simpl; [done| |apply IH].
  pose proof (merge_msg other v). destruct (merge other v) as [[] v']; simpl in *; [by rewrite IH|done].
Qed.

Lemma context_field_record_str f name x v :
  context_field f (record_str name x v) =
  if bool_decide (name = field_name f) then context_field f v +:+ x else context_field f v.
Proof.
  unfold record_str. repeat case_bool_decide; subst; destruct f; simpl in *; simplify_eq; done.
Qed.

Lemma string_app_assoc (s t u : string) : (s +:+ t) +:+ u = s +:+ (t +:+ u).
Proof. induction s as [|a s IH]; [done|]. exact (f_equal (String a) IH). Qed.

Lemma string_app_empty (s : string) : s +:+ "" = s.
Proof. induction s as [|a s IH]; [done|]. exact (f_equal (String a) IH). Qed.

Lemma concat_cons (s : string) l : String.concat "" (s :: l) = s +:+ String.concat "" l.
Proof. destruct l; simpl; [by rewrite string_app_empty|done]. Qed.

(** Recording appends the values of a name to its field. *)
Lemma context_field_record f fields v :
  context_field f (record fields v) = context_field f v +:+ values_of (field_name f) fields.
Proof.
  revert v. induction fields as [|[name x] fields IH]; intros v; cbn [record foldl].
  - symmetry. apply string_app_empty.
  - fold (record fields (record_field v (name, x))). rewrite IH. unfold values_of. cbn [omap list_omap].
    assert (Hr : context_field f (record_field v (name, x)) =
      if bool_decide (name = field_name f)
      then context_field f v +:+ match x with StrValue y | DebugValue y => y end
      else context_field f v).
    { destruct x; apply context_field_record_str. }
    rewrite Hr. cbn [fst snd]. case_bool_decide; [|done]. by rewrite concat_cons, string_app_assoc.
Qed.

(** ** Properties *)

(** Each context field of a log line has the first value that is not empty:
    what the event itself records under its name, else what the innermost
    enclosing span with such a value was created with.  The early end of the walk
    over the spans loses nothing, and the message is the event's alone. *)
Theorem log_context_takes_innermost_value f
    (event : list (string * FieldValue)) (spans : list (list (string * FieldValue))) :
  let v := record event Visitor_new in
  let resolved := process_context (Some ((fun attrs => Some (on_new_span attrs)) <$> spans)) v in
  context_field f resolved = first_nonempty (values_of (field_name f) <$> event :: spans) /\
  v_msg resolved = v_msg v.
Proof.
  intros v resolved. split; [|apply merge_scope_msg].
  subst resolved. unfold process_context. rewrite merge_scope_field. subst v.
  rewrite fmap_cons, context_field_record. do 2 f_equal; [by destruct f|].
  induction spans as [|attrs spans IH]; cbn [fmap list_fmap omap list_omap id]; [done|].
  f_equal; [|exact IH]. unfold on_new_span. rewrite context_field_record. by destruct f.
Qed.

(** [merge]'s comment promises [false] once all five fields are collected; the
    call that collects the last one still answers [true]. *)
Lemma merge_answers_true_when_complete :
  let v := mkVisitor "" "col" "cl" "cuid" "key" "" in
  let span := mkVisitor "" "" "" "" "" "duid" in
  (merge span v).1 = true /\ forall f, context_field f (merge span v).2 <> "".
Proof. split; [reflexivity|]. by intros []. Qed.

(** ** The metric of a round *)
Definition is_emit_sync (c : WorldCall) : bool :=
  match c with EmitSync _ _ => true | _ => false end.

(** No call is a metric. *)
Definition silent {S E A} (f : M S WorldCall E A) : Prop :=
  forall s, filter is_emit_sync (calls (f s)) = [].

Lemma silent_bind {S E A B} (f : M S WorldCall E A) (k : A -> M S WorldCall E B) :
  silent f -> (forall a, silent (k a)) -> silent (f ≫= k).
Proof.
  intros Hf Hk s. specialize (Hf s). unfold mbind, M_bind.
  destruct (f s) as [[[a| | |] s'] w]; simpl in *; try done.
  specialize (Hk a s'). destruct (k a s') as [[r s''] w']; simpl in *.
  by rewrite filter_app, Hf, Hk.
Qed.

Lemma filter_no_metric {A} (g : A -> WorldCall) (l : list A) :
  (forall a, is_emit_sync (g a) = false) -> filter is_emit_sync (g <$> l) = [].
Proof.
  intros Hg. induction l as [|a l IH]; simpl; [done|].
  rewrite filter_cons_False; [exact IH|]. rewrite Hg. by intros [].
Qed.

Section rounds.
Context {C : Type} `{ConnectivityOps C}.

Lemma on_core_silent {E A} core (f : MM E A) : silent (on_core (C:=C) core f).
Proof.
  intros w. unfold on_core. destruct (w_cores w !! core) as [m|]; [|done].
  destruct (f m) as [[r m'] cs]. by apply filter_no_metric.
Qed.

Lemma do_push_pull_silent now core : silent (do_push_pull (C:=C) now core).
Proof.
  apply silent_bind; [apply on_core_silent|intros pushing].
  apply silent_bind; [|intros; apply on_core_silent].
  intros w. unfold call_push_pull.
  destruct (conn_push_pull _ _ _) as [[r conn] cs]. by apply filter_no_metric.
Qed.

(** A round is counted once, under the label of its outcome, whatever it did; a
    round that panics is not counted. *)
Lemma sync_is_counted_once now core (w : World C) :
  let x := Wired_push_pull now core w in
  filter is_emit_sync (calls x) =
    match outcome x with
    | Ok _ => [EmitSync core true]
    | Err _ => [EmitSync core false]
    | Panic _ | Blocked => []
    end.
Proof.
  unfold Wired_push_pull, mbind, M_bind, attempt, emit, lift.
  pose proof (do_push_pull_silent now core w) as Hs.
  destruct (do_push_pull now core w) as [[[[]|e|why|] w'] cs]; simpl in *; try done;
    by rewrite filter_app, Hs.
Qed.
End rounds.
