(* ===== verification/Metering.v ===== *)
(** * What the metrics recorder is told ([src/observability/metrics.rs], [tests/metrics.rs])

    [App] lists the emissions of a program; here they become recordings of the
    [metrics] crate, and a turn of an event loop is shown to emit one round and at
    most one back-off.  The recorder that the tests install is an argument: a
    function from recordings to the entries of a snapshot, with the documented
    behaviour that its counters add up increments and that its histograms keep
    their samples. *)

From S2P Require Import Prelude Types Errors Operations Crdts PushBuffer Pack Handler Mutable Transactional PullHandler Server Connectivity Wired Interceptor EventLoop Client App Lifecycle Harness Observability.

(** ** What a turn emits *)
Definition Emission_attr (e : Emission) : Attribute :=
  match e with EmittedSync attr _ | EmittedBackoff attr => attr end.

Definition is_emitted_sync (e : Emission) : bool :=
  match e with EmittedSync _ _ => true | _ => false end.

(** What the loop of the datatype with [attr] emits when the round gave [r]. *)
Definition round_emissions (attr : Attribute) (r : result DatatypeErrorWithAction unit) : list Emission :=
  match r with
  | Ok _ => [EmittedSync attr true]
  | Err e => EmittedSync attr false ::
      (if decide (LoopMode_from (recovery e) = BackOffMode) then [EmittedBackoff attr] else [])
  | Panic _ | Blocked => []
  end.

Section turns.
Context {C B : Type} `{ConnectivityOps C} `{ClientDeps}.
Context (build : B) (next : B -> option Z * B).
Implicit Types (a : App C B).

Lemma silent_on_world {E A} (f : M (World C) WorldCall E A) : silent f -> silent (on_world f).
Proof.
  intros Hf h. specialize (Hf (hk_world h)). unfold on_world.
  by destruct (f (hk_world h)) as [[r w] calls].
Qed.

Lemma silent_call now p : silent (call_push_pull (C:=C) now p).
Proof.
  intros w. unfold call_push_pull.
  destruct (conn_push_pull _ _ _) as [[r conn] cs]. by apply filter_no_metric.
Qed.

Lemma hooked_round_counted now core (h : Hooked C) :
  filter is_emit_sync (calls (Wired_push_pull_hooked now core h)) =
    match outcome (Wired_push_pull_hooked now core h) with
    | Ok _ => [EmitSync core true]
    | Err _ => [EmitSync core false]
    | Panic _ | Blocked => []
    end.
Proof.
  assert (Hs : silent (do_push_pull_hooked (C:=C) now core)).
  { unfold do_push_pull_hooked. repeat (apply silent_bind; intros).
    - apply silent_on_world, on_core_silent.
    - intros h'. unfold before_push. by destruct (wi_before_push _ _ _).
    - apply silent_on_world, silent_call.
    - intros h'. unfold after_pull. by destruct (wi_after_pull _ _ _) as [[? ?] ?].
    - apply silent_on_world, on_core_silent. }
  specialize (Hs h). unfold Wired_push_pull_hooked, mbind, M_bind, attempt, emit, lift.
  destruct (do_push_pull_hooked now core h) as [[[[]|e|why|] h'] cs]; simpl in *; try done;
    by rewrite filter_app, Hs.
Qed.

(** What delivering a call adds to the emissions. *)
Definition emission_of a (c : WorldCall) : option Emission :=
  match c with
  | EmitSync core success =>
      td ← core_of core a; Some (EmittedSync (m_attr (td_mutable td)) success)
  | _ => None
  end.

Lemma deliver_emits c a :
  app_heap (deliver c a) = app_heap a /\ app_undelivered (deliver c a) = app_undelivered a /\
  app_emitted (deliver c a) = app_emitted a ++ option_list (emission_of a c).
Proof.
  destruct c as [core [t|key id]|[core n]|core b]; cbn; rewrite ?app_nil_r; try done.
  - by destruct (core_of core a).
  - unfold record_emission. destruct (core_of core a); cbn; by rewrite ?app_nil_r.
Qed.

Lemma deliver_fold_emits w : forall a,
  let a' := foldl (fun a c => deliver c a) a w in
  app_heap a' = app_heap a /\ app_undelivered a' = app_undelivered a /\
  app_emitted a' = app_emitted a ++ omap (emission_of a) (filter is_emit_sync w).
Proof.
  induction w as [|c w IH]; intros a; cbn [foldl]; [by rewrite app_nil_r|].
  destruct (deliver_emits c a) as (Hh & Hu & He).
  destruct (IH (deliver c a)) as (Hh' & Hu' & He'). cbn zeta in *.
  split; [congruence|]. split; [congruence|]. rewrite He', He, <- app_assoc. f_equal.
  assert (Hsame : omap (emission_of (deliver c a)) (filter is_emit_sync w) =
                  omap (emission_of a) (filter is_emit_sync w)).
  { unfold emission_of, core_of. by rewrite Hh. }
  rewrite Hsame. destruct c as [core c|c|core b]; try done.
  rewrite filter_cons_True by done. cbn. by destruct (core_of core a).
Qed.

Definition out_emission a (core : Z) (o : LoopOut) : option Emission :=
  match o with
  | EmitBackoff => td ← core_of core a; Some (EmittedBackoff (m_attr (td_mutable td)))
  | _ => None
  end.

Lemma deliver_outs_emit core out : forall a,
  app_emitted (foldl (deliver_out core) a out) = app_emitted a ++ omap (out_emission a core) out.
Proof.
  induction out as [|o out IH]; intros a; cbn [foldl]; [by rewrite app_nil_r|]. rewrite IH.
  assert (Ho : exists es, deliver_out core a o = app_set_emitted es a /\
    es = app_emitted a ++ option_list (out_emission a core o)).
  { unfold deliver_out, record_emission, out_emission.
    destruct o; try (exists (app_emitted a); rewrite app_nil_r; by destruct a).
    destruct (core_of core a); [by eexists|]. exists (app_emitted a). rewrite app_nil_r. by destruct a. }
  destruct Ho as (es & -> & ->). cbn [app_set_emitted app_emitted]. rewrite <- app_assoc. f_equal.
  cbn. by destruct (out_emission a core o).
Qed.

(** What the program that a turn left has emitted. *)
Lemma end_turn_emits core (s : LoopState (App C B) ListChannel B) out :
  let a := ls_wired s in
  let a' := end_turn core s out in
  app_heap a' = app_heap a /\ app_undelivered a' = [] /\
  app_emitted a' = app_emitted a ++ omap (emission_of a) (filter is_emit_sync (app_undelivered a))
                     ++ omap (out_emission a core) out.
Proof.
  cbn zeta. unfold end_turn, deliver_all. set (a0 := app_set_undelivered [] _).
  destruct (deliver_fold_emits (app_undelivered (ls_wired s)) a0) as (Hh & Hu & He). cbn zeta in *.
  set (a1 := foldl (fun a c => deliver c a) a0 _) in *.
  destruct (deliver_outs_only core out a1) as [es Hes].
  pose proof (deliver_outs_emit core out a1) as Ho. cbn in Hes |- *. fold a1 in Hes |- *.
  split; [by rewrite Hes; cbn; rewrite Hh|]. split; [by rewrite Hes; cbn; rewrite Hu|].
  rewrite Ho, He, <- app_assoc. cbn. f_equal. f_equal.
  unfold out_emission, core_of. by rewrite Hh.
Qed.

(** A round of [core] in the whole program. *)
Lemma app_push_pull_emits now core a :
  let '(r, a1) := app_push_pull now core a in
  app_emitted a1 = app_emitted a /\
  filter is_emit_sync (app_undelivered a1) = filter is_emit_sync (app_undelivered a) ++
    match r with Ok _ => [EmitSync core true] | Err _ => [EmitSync core false] | _ => [] end.
Proof.
  unfold app_push_pull. pose proof (hooked_round_counted now core
    (mkHooked (app_world a) (interceptor_of core a))) as Hc.
  destruct (Wired_push_pull_hooked now core _) as [[r h] w]. cbn in *.
  split; [done|]. by rewrite filter_app, Hc.
Qed.

Lemma app_handle_error_emits core err rec a :
  app_emitted (app_handle_error core err rec a) = app_emitted a /\
  filter is_emit_sync (app_undelivered (app_handle_error core err rec a)) =
    filter is_emit_sync (app_undelivered a).
Proof.
  unfold app_handle_error. pose proof (on_core_silent core (handle_error err rec) (app_world a)) as Hs.
  destruct (on_core core _ _) as [[r w] cs]. cbn in *. by rewrite filter_app, Hs, app_nil_r.
Qed.

Definition is_emit_backoff (o : LoopOut) : bool := match o with EmitBackoff => true | _ => false end.

Lemma out_emissions a core (out : list LoopOut) :
  omap (out_emission a core) out = omap (out_emission a core) (filter is_emit_backoff out).
Proof.
  induction out as [|o out IH]; [done|]. destruct o; cbn; rewrite IH; try done;
    rewrite ?filter_cons_True, ?filter_cons_False by naive_solver; done.
Qed.

Lemma reply_is_no_backoff tx err : filter is_emit_backoff (process_blocking_resp tx err) = [].
Proof. by destruct tx. Qed.

(** What handling an event leaves for the recorder: nothing, or what a round gave. *)
Lemma handle_event_emits now core ev (s : LoopState (App C B) ListChannel B) :
  let a := ls_wired s in
  let '(s1, out) := @handle_event _ _ _ (app_port now core) _ ev s in
  let emits := (filter is_emit_sync (app_undelivered (ls_wired s1)), filter is_emit_backoff out) in
  app_undelivered a = [] ->
  app_emitted (ls_wired s1) = app_emitted a /\
  (emits = ([], []) \/
   emits = match (app_push_pull now core a).1 with
           | Ok _ => ([EmitSync core true], [])
           | Err e => ([EmitSync core false],
                       if decide (LoopMode_from (recovery e) = BackOffMode) then [EmitBackoff] else [])
           | _ => ([], [])
           end).
Proof.
  cbn zeta. destruct ev as [[tx|resp| |n]|err|why|]; cbn [handle_event];
    try (intros Hu; split; [done|]; left; cbn; by rewrite Hu).
  - unfold handle_push. destruct (ls_mode s);
      try (intros Hu; split; [done|]; left; by rewrite reply_is_no_backoff, Hu).
    all: cbn [wp_push_pull app_port]; pose proof (app_push_pull_emits now core (ls_wired s)) as Hp;
      destruct (app_push_pull now core (ls_wired s)) as [[[]|e|why|] a1]; destruct Hp as [He Hf];
      cbn [fst ls_wired ls_set_wired ls_set_mode ls_set_backoff ls_set_status]; intros Hu;
      rewrite Hu in Hf; cbn in Hf.
    1,3,4,5,7,8: split; [done|]; right; by rewrite Hf, ?reply_is_no_backoff.
    all: destruct (app_handle_error_emits core (error e) (recovery e) a1) as [He' Hf'].
    all: destruct (decide (LoopMode_from (recovery e) = BackOffMode)); cbn -[app_handle_error];
      (split; [congruence|]); right; by rewrite Hf', Hf, ?reply_is_no_backoff.
  - destruct (wp_handle_notification _ _); intros Hu; (split; [done|]); left; cbn; by rewrite Hu.
  - intros Hu. destruct (app_handle_error_emits core err Disable (ls_wired s)) as [He Hf].
    split; [done|]. left. cbn -[app_handle_error]. by rewrite Hf, Hu.
Qed.

(** A turn of a loop emits nothing, or the outcome of one round and, exactly when
    that sends the loop into its back-off, one back-off. *)
Theorem turn_emits now core branch a a' :
  app_undelivered a = [] -> app_turn build next now core branch a = Some a' ->
  app_undelivered a' = [] /\
  exists es, app_emitted a' = app_emitted a ++ es /\
    (es = [] \/ exists td, core_of core a' = Some td /\
       es = round_emissions (m_attr (td_mutable td)) (app_push_pull now core a).1).
Proof.
  intros Hund. unfold app_turn. destruct (app_loops a !! core) as [l|]; [|done]. cbn [mbind option_bind].
  unfold loop_turn. destruct (ls_status _); try done.
  destruct (receive_event build next branch (loop_state l a)) as [[ev s]|] eqn:Hev; [|done].
  assert (Hw : ls_wired s = a) by (by eapply receive_event_wired in Hev). cbn [mbind option_bind].
  pose proof (handle_event_emits now core ev s) as Hemits. cbn zeta in Hemits. rewrite Hw in Hemits.
  destruct (handle_event ev s) as [s1 out]. destruct (Hemits Hund) as [Hsame Hcase]. clear Hemits.
  intros [= <-]. destruct (end_turn_emits core s1 out) as (Hh & Hu & He). cbn zeta in *.
  split; [exact Hu|]. rewrite He, out_emissions, Hsame.
  assert (Hcore : core_of core (end_turn core s1 out) = core_of core (ls_wired s1))
    by (unfold core_of; by rewrite Hh).
  rewrite Hcore. eexists. split; [reflexivity|].
  destruct Hcase as [[= -> ->]|Hcase]; [by left|].
  destruct (app_push_pull now core a).1 as [[]|e|why|]; injection Hcase as -> ->; cbn; try by left.
  all: destruct (core_of core (ls_wired s1)) as [td|] eqn:Htd; cbn.
  - right. by exists td.
  - by left.
  - right. exists td. split; [done|]. case_decide; cbn; [by rewrite Htd|done].
  - left. case_decide; cbn; [by rewrite Htd|done].
Qed.
End turns.

(** ** The recorder *)
Section recorder.
Context {D F : Type} (as_secs_f64 : D -> F).

(** The recordings of a program; [elapsed n] is the duration that the [n]-th
    emission measured. *)
Definition metrics_of (elapsed : nat -> D) (es : list Emission) : list Metric :=
  concat (imap (fun n e =>
    match e with
    | EmittedSync attr success => emit_sync as_secs_f64 attr success (elapsed n)
    | EmittedBackoff attr => emit_backoff attr
    end) es).

(** An entry of a snapshot: the key's name and labels, and the value. *)
Inductive DebugValue : Type :=
| DebugCounter (n : Z)
| DebugHistogram (xs : list F)
| DebugOther.

Record Entry : Type := mkEntry {
  en_name : string;
  en_labels : list (string * string);
  en_value : DebugValue;
}.

Definition counter_of (e : Entry) : Z :=
  match en_value e with DebugCounter n => n | _ => 0 end.

Definition samples_of (e : Entry) : Z :=
  match en_value e with DebugHistogram xs => Z.of_nat (length xs) | _ => 0 end.

Definition has_label (lk lv : string) (labels : list (string * string)) : bool :=
  existsb (fun l => String.eqb l.1 lk && String.eqb l.2 lv) labels.

(** A condition on keys. *)
Definition entry_is (p : string -> list (string * string) -> bool) (e : Entry) : bool :=
  p (en_name e) (en_labels e).

Definition named (name : string) (n : string) (labels : list (string * string)) : bool :=
  String.eqb n name.
Definition named_with (name lk lv : string) (n : string) (labels : list (string * string)) : bool :=
  String.eqb n name && has_label lk lv labels.

(** [extract_counter!(vec, name, lk, lv)], also the sums of [tests/metrics.rs]. *)
Definition extract_counter (vec : list Entry) (name lk lv : string) : Z :=
  u64_sum counter_of
    (filter (fun e => entry_is (named_with name lk lv) e) vec).

(** [extract_counter!(vec, name)]. *)
Definition extract_counter_unlabelled (vec : list Entry) (name : string) : Z :=
  u64_sum counter_of (filter (fun e => entry_is (named name) e) vec).

Definition histogram_samples (vec : list Entry) (name : string) : Z :=
  sumZ samples_of (filter (fun e => entry_is (named name) e) vec).

(** What a recording adds under the keys that satisfy [p]. *)
Definition increment_of (p : string -> list (string * string) -> bool) (m : Metric (F := F)) : Z :=
  match m with IncrementCounter name labels n => if p name labels then n else 0 | _ => 0 end.
Definition sample_of (p : string -> list (string * string) -> bool) (m : Metric (F := F)) : Z :=
  match m with RecordHistogram name labels _ => if p name labels then 1 else 0 | _ => 0 end.

(** The snapshot of [metrics_util]'s recorder since the last one. *)
Context (snapshot : list (Metric (F := F)) -> list Entry).
Hypothesis snapshot_adds : forall p ms,
  u64_sum counter_of (filter (entry_is p) (snapshot ms)) = u64_sum (increment_of p) ms.
Hypothesis snapshot_keeps : forall p ms,
  sumZ samples_of (filter (entry_is p) (snapshot ms)) = sumZ (sample_of p) ms.

Definition emitted_syncs (success : bool) (es : list Emission) : Z :=
  sumZ (fun e => match e with EmittedSync _ b => if Bool.eqb b success then 1 else 0 | _ => 0 end) es.

Definition emitted_backoffs (es : list Emission) : Z :=
  sumZ (fun e => match e with EmittedBackoff _ => 1 | _ => 0 end) es.

Lemma increments_cons p elapsed e es :
  sumZ (increment_of p) (metrics_of elapsed (e :: es)) =
    sumZ (increment_of p) (metrics_of elapsed [e]) +
    sumZ (increment_of p) (metrics_of (fun n => elapsed (S n)) es).
Proof. unfold metrics_of. rewrite <- sumZ_app. cbn [imap concat]. by rewrite app_nil_r. Qed.

Lemma samples_cons p elapsed e es :
  sumZ (sample_of p) (metrics_of elapsed (e :: es)) =
    sumZ (sample_of p) (metrics_of elapsed [e]) +
    sumZ (sample_of p) (metrics_of (fun n => elapsed (S n)) es).
Proof. unfold metrics_of. rewrite <- sumZ_app. cbn [imap concat]. by rewrite app_nil_r. Qed.

(** The recorder of a program counts its rounds by their outcome, its back-offs,
    and one duration per round. *)
Theorem recorder_counts_rounds elapsed es :
  let vec := snapshot (metrics_of elapsed es) in
  extract_counter vec SYNC_TOTAL LABEL_RESULT RESULT_SUCCESS = u64_wrap (emitted_syncs true es) /\
  extract_counter vec SYNC_TOTAL LABEL_RESULT RESULT_FAILURE = u64_wrap (emitted_syncs false es) /\
  extract_counter_unlabelled vec BACKOFF_TOTAL = u64_wrap (emitted_backoffs es) /\
  histogram_samples vec SYNC_DURATION_SECONDS = emitted_syncs true es + emitted_syncs false es.
Proof.
  cbn zeta. unfold extract_counter, extract_counter_unlabelled, histogram_samples.
  rewrite !snapshot_adds, snapshot_keeps, !u64_sum_wrap.
  assert (H : forall b : bool, sumZ (increment_of (named_with SYNC_TOTAL LABEL_RESULT
    (if b then RESULT_SUCCESS else RESULT_FAILURE))) (metrics_of elapsed es) = emitted_syncs b es).
  { intros b. revert elapsed. induction es as [|e es IH]; intros elapsed; [done|].
    rewrite increments_cons, IH. unfold emitted_syncs. rewrite sumZ_cons. f_equal. clear IH.
    destruct e as [attr [] | attr], b; vm_compute; reflexivity. }
  rewrite (H true), (H false). split; [done|]. split; [done|]. clear H. split.
  - f_equal. revert elapsed. induction es as [|e es IH]; intros elapsed; [done|].
    rewrite increments_cons, IH. unfold emitted_backoffs. rewrite sumZ_cons. f_equal.
    destruct e as [attr [] | attr]; vm_compute; reflexivity.
  - revert elapsed. induction es as [|e es IH]; intros elapsed; [done|].
    rewrite samples_cons, IH. unfold emitted_syncs. rewrite !sumZ_cons.
    destruct e as [attr [] | attr]; vm_compute sumZ at 1; cbn [Bool.eqb]; lia.
Qed.
End recorder.

(** ** The tests of metrics.rs and tests/metrics.rs *)

(** The emissions of a program that passes. *)
Definition emissions {C} `{ConnectivityOps C} (conn : C) (s : Script C unit) : option (list Emission) :=
  match s (App_new conn) with
  | (Ok _, a, _) => Some (app_emitted a)
  | _ => None
  end.

Definition can_record_sync_success : Script NullConnectivity unit :=
  client client1 "observability-metrics-tests_metrics" "can_record_sync_success" ;;
  counter ← build client1 (uid 11) (create_datatype "c");
  sync_ok counter.

(** [let _ = counter.sync()]. *)
Definition can_record_sync_failure_and_backoff : Script LocalConnectivity unit :=
  let '(collection, key, resource_id) :=
    ids "observability-metrics-tests_metrics" "can_record_sync_failure_and_backoff" in
  client client1 collection "client" ;;
  counter ← build client1 (uid 11) (create_datatype key);
  i ← interceptor resource_id client1;
  after_pull_of i (inject (SyncFailed "injected")) ;;
  _ ← sync counter;
  mret tt.

Definition can_record_sync_success_metrics : Script NullConnectivity unit :=
  client client1 "metrics-test" "can_record_sync_success_metrics" ;;
  counter ← build client1 (uid 11) (create_datatype "c1");
  sync_ok counter.

(** Their assertions on the snapshot after the program; [base] is what other tests
    recorded before the program began. *)
Section tests.
Context {D F : Type} (as_secs_f64 : D -> F) (elapsed : nat -> D).
Context (snapshot : list (Metric (F := F)) -> list (Entry (F := F))).

Definition records_sync_success (es : list Emission) : bool :=
  let after := snapshot (metrics_of as_secs_f64 elapsed es) in
  1 <=? extract_counter after "qortoo_sync_total" "result" "success".

Definition records_failure_and_backoff (es : list Emission) : bool :=
  let after := snapshot (metrics_of as_secs_f64 elapsed es) in
  (1 <=? extract_counter after "qortoo_sync_total" "result" "failure")
  && (1 <=? extract_counter_unlabelled after "qortoo_backoff_total").

(** [base_ok] drains the recorder, so it is compared with a count from zero. *)
Definition records_success_metrics (base es : list Emission) : bool :=
  let base_ok := extract_counter (snapshot (metrics_of as_secs_f64 elapsed base))
                   "qortoo_sync_total" "result" "success" in
  let after := snapshot (metrics_of as_secs_f64 elapsed es) in
  let after_ok := extract_counter after "qortoo_sync_total" "result" "success" in
  let after_fail := extract_counter after "qortoo_sync_total" "result" "failure" in
  (base_ok <? after_ok) && (1 <=? histogram_samples after "qortoo_sync_duration_seconds")
  && (after_fail =? 0).
End tests.

(** They pass with every recorder that adds up. *)
Theorem metrics_tests_pass {D F} (as_secs_f64 : D -> F) (elapsed : nat -> D) snapshot :
  (forall p ms, u64_sum counter_of (filter (entry_is p) (snapshot ms)) = u64_sum (increment_of p) ms) ->
  (forall p ms, sumZ samples_of (filter (entry_is p) (snapshot ms)) = sumZ (sample_of p) ms) ->
  records_sync_success as_secs_f64 elapsed snapshot <$> emissions NullConnectivity_new can_record_sync_success
    = Some true /\
  records_failure_and_backoff as_secs_f64 elapsed snapshot
    <$> emissions manual can_record_sync_failure_and_backoff = Some true /\
  records_success_metrics as_secs_f64 elapsed snapshot []
    <$> emissions NullConnectivity_new can_record_sync_success_metrics = Some true.
Proof.
  intros Hadds Hkeeps.
  pose proof (recorder_counts_rounds as_secs_f64 snapshot Hadds Hkeeps elapsed) as Hcount.
  assert (H1 : exists attr, emissions NullConnectivity_new can_record_sync_success
    = Some [EmittedSync attr true; EmittedSync attr true]) by (eexists; vm_compute; reflexivity).
  assert (H2 : exists attr, emissions manual can_record_sync_failure_and_backoff
    = Some [EmittedSync attr false; EmittedBackoff attr]) by (eexists; vm_compute; reflexivity).
  assert (H3 : exists attr, emissions NullConnectivity_new can_record_sync_success_metrics
    = Some [EmittedSync attr true; EmittedSync attr true]) by (eexists; vm_compute; reflexivity).
  destruct H1 as [attr1 ->], H2 as [attr2 ->], H3 as [attr3 ->]. cbn [fmap option_fmap option_map].
  unfold records_sync_success, records_failure_and_backoff, records_success_metrics. cbn zeta.
  change "qortoo_sync_total"%string with SYNC_TOTAL. change "qortoo_backoff_total"%string with BACKOFF_TOTAL.
  change "qortoo_sync_duration_seconds"%string with SYNC_DURATION_SECONDS.
  change "result"%string with LABEL_RESULT. change "success"%string with RESULT_SUCCESS.
  change "failure"%string with RESULT_FAILURE.
  destruct (Hcount [EmittedSync attr1 true; EmittedSync attr1 true]) as (-> & _).
  destruct (Hcount [EmittedSync attr2 false; EmittedBackoff attr2]) as (_ & -> & -> & _).
  destruct (Hcount []) as (-> & _).
  destruct (Hcount [EmittedSync attr3 true; EmittedSync attr3 true]) as (-> & -> & _ & ->).
  split; [|split]; vm_compute; reflexivity.
Qed.

(** A recorder that keeps an entry per recording. *)
Definition entry_per_recording {F} (ms : list (Metric (F := F))) : list (Entry (F := F)) :=
  (fun m => match m with
            | IncrementCounter name labels n => mkEntry name labels (DebugCounter n)
            | RecordHistogram name labels v => mkEntry name labels (DebugHistogram [v])
            end) <$> ms.

Lemma entry_per_recording_adds {F} p (ms : list (Metric (F := F))) :
  u64_sum counter_of (filter (entry_is p) (entry_per_recording ms)) = u64_sum (increment_of p) ms.
Proof.
  rewrite !u64_sum_wrap. f_equal. unfold entry_per_recording.
  induction ms as [|m ms IH]; [done|]. rewrite fmap_cons, sumZ_cons, <- IH.
  destruct m as [name labels n|name labels v]; cbn [increment_of];
    (destruct (p name labels) eqn:Hp;
      [rewrite filter_cons_True by (unfold entry_is; cbn; by rewrite Hp); by rewrite sumZ_cons
      |rewrite filter_cons_False by (unfold entry_is; cbn; rewrite Hp; by intros []); lia]).
Qed.

Lemma entry_per_recording_keeps {F} p (ms : list (Metric (F := F))) :
  sumZ samples_of (filter (entry_is p) (entry_per_recording ms)) = sumZ (sample_of p) ms.
Proof.
  unfold entry_per_recording.
  induction ms as [|m ms IH]; [done|]. rewrite fmap_cons, sumZ_cons, <- IH.
  destruct m as [name labels n|name labels v]; cbn [sample_of];
    (destruct (p name labels) eqn:Hp;
      [rewrite filter_cons_True by (unfold entry_is; cbn; by rewrite Hp); by rewrite sumZ_cons
      |rewrite filter_cons_False by (unfold entry_is; cbn; rewrite Hp; by intros []); lia]).
Qed.

Lemma metrics_tests_pass_witness :
  records_failure_and_backoff (fun d : Z => d) Z.of_nat entry_per_recording
    <$> emissions manual can_record_sync_failure_and_backoff = Some true.
Proof.
  apply (metrics_tests_pass (fun d : Z => d) Z.of_nat entry_per_recording
    entry_per_recording_adds entry_per_recording_keeps).
Defined.
