(* ===== verification/Examples.v ===== *)
(** * The examples ([src/examples/observability])

    The workloads of the four examples as programs on the model, with the values
    that they print as results.  The subscribers and exporters that they install
    around the workload are other crates.  The clock of the profiled workload and
    the endless loop of the metrics example are numbers of iterations. *)

From S2P Require Import Prelude Types Errors Operations Crdts PushBuffer Pack Handler Mutable Transactional PullHandler Server Connectivity Wired Interceptor EventLoop Client App Harness.

(** ** trace.rs *)
Definition trace_build_client (cuid : Cuid) (alias : string) : Script LocalConnectivity unit :=
  client cuid "example-trace" alias.

Definition trace_write_and_sync (counter delta : Z) : Script LocalConnectivity unit :=
  r ← increase_by counter delta; unwrap r ;;
  sync_ok counter.

Definition pull_and_read (counter : Z) : Script LocalConnectivity unit := sync_ok counter.

(** The values of both clients. *)
Definition run_counter_sync : Script LocalConnectivity (Z * Z) :=
  trace_build_client client1 "client-a" ;;
  trace_build_client client2 "client-b" ;;
  counter1 ← build client1 (uid 11) (create_datatype "shared-counter");
  trace_write_and_sync counter1 5 ;;
  counter2 ← build client2 (uid 12) (subscribe_datatype "shared-counter");
  pull_and_read counter2 ;;
  v1 ← get_value counter1; v2 ← get_value counter2;
  mret (v1, v2).

(** ** log.rs *)
Definition log_main : Script LocalConnectivity Z :=
  client client1 "example-log" "client-a" ;;
  counter ← build client1 (uid 11) (create_datatype "log-counter");
  r ← increase_by counter 3; unwrap r ;;
  sync_ok counter ;;
  get_value counter.

(** ** metrics.rs

    [n] rounds of the loop from [iteration]; the values it prints. *)
Fixpoint metrics_loop (n : nat) (iteration counter : Z) : Script NullConnectivity (list (Z * Z)) :=
  match n with
  | O => mret []
  | S n =>
      let iteration := i64_add iteration 1 in
      r ← increase_by counter iteration; unwrap r ;;
      sync_ok counter ;;
      v ← get_value counter;
      rest ← metrics_loop n iteration counter;
      mret ((iteration, v) :: rest)
  end.

Definition metrics_main (n : nat) : Script NullConnectivity (list (Z * Z)) :=
  client client1 "example-metrics" "client-a" ;;
  counter ← build client1 (uid 11) (create_datatype "counter");
  metrics_loop n 0 counter.

(** ** profile.rs *)

(** [u64::wrapping_mul] and [u64::rotate_left]. *)
Definition u64_mul (a b : Z) : Z := u64_wrap (a * b).
Definition u64_rotate_left (a n : Z) : Z := Z.lor (u64_wrap (Z.shiftl a n)) (Z.shiftr a (64 - n)).

Definition burn_round (value round : Z) : Z :=
  u64_mul (Z.lxor (u64_rotate_left value 7) round) 13787848793156543929.

Definition burn_cpu (seed : Z) : Z :=
  foldl burn_round (u64_mul seed 11400714819323198485) (seqZ 0 2048).

Definition profile_write_and_sync (counter iteration : Z) : Script LocalConnectivity unit :=
  r ← increase_by counter (iteration mod 13 + 1); unwrap r ;;
  let _ := burn_cpu iteration in
  sync_ok counter.

(** [n] iterations pass before the duration; the progress it prints. *)
Fixpoint profile_loop (n : nat) (iteration counter_a counter_b : Z)
    : Script LocalConnectivity (list (Z * Z * Z)) :=
  match n with
  | O => mret []
  | S n =>
      let iteration := u64_add iteration 1 in
      profile_write_and_sync counter_a iteration ;;
      sync_ok counter_b ;;
      printed ← (if iteration mod 10000 =? 0
                 then va ← get_value counter_a; vb ← get_value counter_b; mret [(iteration, va, vb)]
                 else mret []);
      rest ← profile_loop n iteration counter_a counter_b;
      mret (printed ++ rest)
  end.

Definition run_counter_workload (n : nat) : Script LocalConnectivity (list (Z * Z * Z) * (Z * Z)) :=
  client client1 "example-profile" "client-a" ;;
  client client2 "example-profile" "client-b" ;;
  counter_a ← build client1 (uid 11) (create_datatype "profile-counter");
  counter_b ← build client2 (uid 12) (subscribe_datatype "profile-counter");
  printed ← profile_loop n 0 counter_a counter_b;
  va ← get_value counter_a; vb ← get_value counter_b;
  mret (printed, (va, vb)).

Definition result_of {C A} `{ConnectivityOps C} (conn : C) (s : Script C A) : result string A :=
  outcome (s (App_new conn)).

Theorem examples_run :
  result_of manual run_counter_sync = Ok (5, 5) /\
  result_of manual log_main = Ok 3 /\
  result_of NullConnectivity_new (metrics_main 30) = Ok ((fun i => (i, i * (i + 1) / 2)) <$> seqZ 1 30).
Proof. split; [|split]; vm_compute; reflexivity. Qed.

(** A workload of [n] iterations leaves both counters at the sum of its steps. *)
Definition profile_sum (n : nat) : Z := sumZ (fun i => i mod 13 + 1) (seqZ 1 (Z.of_nat n)).

Theorem profile_example_runs :
  Forall (fun n => result_of manual (run_counter_workload n) = Ok ([], (profile_sum n, profile_sum n)))
    [0%nat; 1%nat; 14%nat; 26%nat].
Proof. repeat constructor; vm_compute; reflexivity. Qed.

(** The work of the profile stays a [u64]. *)
Lemma burn_cpu_range seed : is_u64 (burn_cpu seed).
Proof.
  unfold burn_cpu. induction (seqZ 0 2048) as [|r rs IH] using rev_ind; [apply u64_wrap_range|].
  rewrite foldl_app. apply u64_wrap_range.
Qed.
