(* ===== verification/Build.v ===== *)
(** * The version of the SDK ([src/build.rs], [src/src/constants.rs])

    The build script finds the commit it builds, from the files of [.git] or else
    from the [git] command, and hands it to [constants.rs], which puts it into the
    agent string.  Strings are UTF-8 bytes; what the standard library does with
    them ([trim], the slice of a [str], [from_utf8], [Path::join] on Unix) is
    written out.  The file system and the command are arguments. *)

From S2P Require Import Prelude Types Errors Operations Crdts PushBuffer Pack Handler Mutable PullHandler Server Connectivity Wired Observability.

(** ** UTF-8 *)
Definition byte_of (c : Ascii.ascii) : Z := Z.of_N (Ascii.N_of_ascii c).

Definition between (lo hi : Z) (c : Ascii.ascii) : bool := (lo <=? byte_of c) && (byte_of c <=? hi).

(** A byte that continues a character. *)
Definition is_cont (c : Ascii.ascii) : bool := between 128 191 c.

(** [String::from_utf8] accepts the bytes. *)
Fixpoint is_utf8 (s : string) : bool :=
  match s with
  | EmptyString => true
  | String a s =>
      if between 0 127 a then is_utf8 s
      else match s with
      | EmptyString => false
      | String b s =>
          if between 194 223 a then is_cont b && is_utf8 s
          else match s with
          | EmptyString => false
          | String c s =>
              if between 224 239 a then
                (if byte_of a =? 224 then between 160 191 b
                 else if byte_of a =? 237 then between 128 159 b
                 else is_cont b) && is_cont c && is_utf8 s
              else match s with
              | EmptyString => false
              | String d s =>
                  between 240 244 a &&
                  (if byte_of a =? 240 then between 144 191 b
                   else if byte_of a =? 244 then between 128 143 b
                   else is_cont b) && is_cont c && is_cont d && is_utf8 s
              end
          end
      end
  end.

(** The characters of Unicode's [White_Space], by the length of their encoding. *)
Definition space1 (a : Ascii.ascii) : bool := between 9 13 a || (byte_of a =? 32).
Definition space2 (a b : Ascii.ascii) : bool :=
  (byte_of a =? 194) && ((byte_of b =? 133) || (byte_of b =? 160)).
Definition space3 (a b c : Ascii.ascii) : bool :=
  (byte_of a =? 225) && (byte_of b =? 154) && (byte_of c =? 128)
  || (byte_of a =? 226) && (byte_of b =? 128)
     && (between 128 138 c || (byte_of c =? 168) || (byte_of c =? 169) || (byte_of c =? 175))
  || (byte_of a =? 226) && (byte_of b =? 129) && (byte_of c =? 159)
  || (byte_of a =? 227) && (byte_of b =? 128) && (byte_of c =? 128).

(** Drop white space at the front, its bytes being read in the order of [flip]. *)
Fixpoint trim_front (backwards : bool) (s : string) : string :=
  match s with
  | EmptyString => EmptyString
  | String a r =>
      if space1 a then trim_front backwards r
      else match r with
      | EmptyString => s
      | String b r =>
          if if backwards then space2 b a else space2 a b then trim_front backwards r
          else match r with
          | EmptyString => s
          | String c r =>
              if if backwards then space3 c b a else space3 a b c then trim_front backwards r else s
          end
      end
  end.

Definition trim_start (s : string) : string := trim_front false s.
Definition trim_end (s : string) : string := String.rev (trim_front true (String.rev s)).

(** [str::trim]. *)
Definition trim (s : string) : string := trim_end (trim_start s).

(** [str::is_char_boundary]. *)
Definition is_char_boundary (n : nat) (s : string) : bool :=
  match String.get n s with
  | Some c => (n =? 0)%nat || negb (is_cont c)
  | None => (n =? String.length s)%nat
  end.

(** [&s[..n]]. *)
Definition slice_to (n : nat) (s : string) : result Empty_set string :=
  if is_char_boundary n s then Ok (String.substring 0 n s)
  else Panic "end byte index is not a char boundary".

(** [Path::join] on Unix. *)
Definition path_join (base path : string) : string :=
  if String.prefix "/" path then path else base +:+ "/" +:+ path.

(** ** build.rs

    [read path] are the bytes of a file; [git_output] is what running
    [git rev-parse --short HEAD] gives: whether it succeeds, and its output. *)
Section build.
Context (read : string -> option string) (git_output : option (bool * string)).

Definition fs_read_to_string (path : string) : option string :=
  bytes ← read path; if is_utf8 bytes then Some bytes else None.

Definition short_hash (s : string) : result Empty_set (option string) :=
  if str_is_empty s then Ok None
  else h ← slice_to (Nat.min (String.length s) 7) s; Ok (Some h).

Definition resolve_git_hash_from_git_dir : result Empty_set (option string) :=
  match fs_read_to_string ".git/HEAD" with
  | None => Ok None
  | Some head =>
      let head := trim head in
      match strip_prefix "ref: " head with
      | Some ref_path =>
          match fs_read_to_string (path_join ".git" ref_path) with
          | None => Ok None
          | Some commit => short_hash (trim commit)
          end
      | None => short_hash head
      end
  end.

Definition resolve_git_hash_from_git_cmd : option string :=
  '(success, stdout) ← git_output;
  if negb success then None
  else if negb (is_utf8 stdout) then None
  else
    let git_hash := trim stdout in
    if str_is_empty git_hash then None else Some git_hash.

Definition resolve_git_hash : result Empty_set (option string) :=
  h ← resolve_git_hash_from_git_dir;
  Ok (match h with Some h => Some h | None => resolve_git_hash_from_git_cmd end).

(** The lines that [main] prints. *)
Definition build_main : result Empty_set (list string) :=
  h ← resolve_git_hash;
  let git_hash := default "unknown"%string h in
  Ok ["cargo:rerun-if-changed=build.rs"; "cargo:rustc-env=GIT_HASH=" +:+ git_hash]%string.
End build.

(** ** constants.rs *)
Definition SDK_HASH (git_hash : option string) : string :=
  match git_hash with Some hash => hash | None => "unknown" end.

(** [AGENT.get_or_init]; [agent] is the cell. *)
Definition get_agent (sdk_ver : string) (git_hash agent : option string) : string * option string :=
  match agent with
  | Some s => (s, agent)
  | None =>
      let s := SDK_NAME +:+ "-" +:+ sdk_ver +:+ "-" +:+ SDK_HASH git_hash in (s, Some s)
  end.

(** ** Lemmas *)

(** A byte of a name of a commit: ASCII and no white space. *)
Definition is_graph (c : Ascii.ascii) : bool := between 33 126 c.

Lemma str_all_app p s t : str_all p (s +:+ t) = str_all p s && str_all p t.
Proof. induction s as [|c s IH]; [done|]. simpl. by rewrite IH, andb_assoc. Qed.

Lemma is_graph_range c : is_graph c = true -> 33 <= byte_of c <= 126.
Proof. unfold is_graph, between. lia. Qed.

Lemma graph_is_no_space a : is_graph a = true ->
  space1 a = false /\ (forall b, space2 a b = false /\ space2 b a = false) /\
  (forall b c, space3 a b c = false /\ space3 c b a = false).
Proof. intros H%is_graph_range. unfold space1, space2, space3, between. split_and!; intros; lia. Qed.

Lemma trim_front_graph backwards s : str_all is_graph s = true -> forall t, s <> "" ->
  trim_front backwards (s +:+ t) = s +:+ t.
Proof.
  destruct s as [|a s]; [done|]. simpl [str_all]. intros [Ha _]%andb_true_iff t _.
  destruct (graph_is_no_space a Ha) as (H1 & H2 & H3). simpl. rewrite H1.
  change (String a s +:+ t) with (String a (s +:+ t)).
  destruct (s +:+ t) as [|b [|c r]]; [done|..]; destruct (H2 b) as [H2a H2b];
    [by destruct backwards; rewrite ?H2a, ?H2b|].
  destruct (H3 b c) as [H3a H3b]. by destruct backwards; rewrite ?H2a, ?H2b, ?H3a, ?H3b.
Qed.

Lemma trim_front_spaces backwards pre s :
  str_all space1 pre = true -> trim_front backwards (pre +:+ s) = trim_front backwards s.
Proof. induction pre as [|c pre IH]; simpl; [done|]. intros [-> H]%andb_true_iff. by apply IH. Qed.

Lemma rev_app_spec s : forall t, String.rev_app s t = String.rev s +:+ t.
Proof.
  unfold String.rev. induction s as [|c s IH]; intros t; [done|]. simpl.
  by rewrite (IH (String c t)), (IH (String c "")), string_app_assoc.
Qed.

Lemma rev_app_distr s t : String.rev (s +:+ t) = String.rev t +:+ String.rev s.
Proof.
  induction s as [|c s IH]; simpl; [by rewrite string_app_empty|].
  unfold String.rev at 1 3. simpl. by rewrite !rev_app_spec, IH, string_app_assoc.
Qed.

Lemma rev_cons c s : String.rev (String c s) = String.rev s +:+ String c "".
Proof. unfold String.rev at 1. simpl. apply rev_app_spec. Qed.

Lemma rev_involutive s : String.rev (String.rev s) = s.
Proof. induction s as [|c s IH]; [done|]. by rewrite rev_cons, rev_app_distr, IH. Qed.

Lemma str_all_rev p s : str_all p (String.rev s) = str_all p s.
Proof.
  induction s as [|c s IH]; [done|]. rewrite rev_cons, str_all_app, IH. simpl.
  by rewrite andb_true_r, andb_comm.
Qed.

Lemma rev_empty s : String.rev s = "" -> s = "".
Proof. intros H. by rewrite <- (rev_involutive s), H. Qed.

(** [trim] removes the white space around a word. *)
Lemma trim_padded pre s post : s <> "" -> str_all is_graph s = true ->
  str_all space1 pre = true -> str_all space1 post = true -> trim (pre +:+ s +:+ post) = s.
Proof.
  intros Hne Hs Hpre Hpost. unfold trim, trim_start, trim_end.
  rewrite trim_front_spaces, trim_front_graph, rev_app_distr by done.
  rewrite trim_front_spaces by by rewrite str_all_rev.
  rewrite <- (string_app_empty (String.rev s)), trim_front_graph.
  - by rewrite string_app_empty, rev_involutive.
  - by rewrite str_all_rev.
  - by intros H%rev_empty.
Qed.

Lemma ascii_is_utf8 s : str_all (between 0 127) s = true -> is_utf8 s = true.
Proof. induction s as [|c s IH]; [done|]. simpl. intros [-> H]%andb_true_iff. by apply IH. Qed.

Lemma str_all_impl (p q : Ascii.ascii -> bool) s :
  (forall c, p c = true -> q c = true) -> str_all p s = true -> str_all q s = true.
Proof. intros Hpq. induction s; simpl; [done|]. intros [H%Hpq ?]%andb_true_iff. rewrite H. by apply IHs. Qed.

Lemma file_is_utf8 s post : str_all is_graph s = true -> str_all space1 post = true ->
  is_utf8 (s +:+ post) = true.
Proof.
  intros Hs Hpost. apply ascii_is_utf8. rewrite str_all_app. apply andb_true_iff. split.
  - eapply str_all_impl, Hs. intros c H%is_graph_range. unfold between. lia.
  - eapply str_all_impl, Hpost. unfold space1, between. intros c. lia.
Qed.

Lemma get_None n s : String.get n s = None -> (String.length s <= n)%nat.
Proof.
  revert n. induction s as [|c s IH]; intros n; simpl; [lia|]. destruct n as [|n]; [done|].
  intros H%IH. lia.
Qed.

(** A word is cut after seven characters. *)
Lemma short_hash_word s : s <> "" -> str_all is_graph s = true ->
  short_hash s = Ok (Some (String.substring 0 (Nat.min (String.length s) 7) s)).
Proof.
  intros Hne Hs. unfold short_hash, slice_to.
  assert (str_is_empty s = false) as -> by by destruct s.
  assert (is_char_boundary (Nat.min (String.length s) 7) s = true) as ->; [|done].
  unfold is_char_boundary. destruct (String.get _ s) as [c|] eqn:Hc.
  - pose proof (proj1 (str_all_forall is_graph s) Hs _ _ Hc) as Hg%is_graph_range.
    apply orb_true_iff. right. unfold is_cont, between. lia.
  - apply Nat.eqb_eq. apply get_None in Hc. lia.
Qed.

Lemma substring_all s n : (String.length s <= n)%nat -> String.substring 0 n s = s.
Proof.
  revert n. induction s as [|c s IH]; intros [|n]; simpl; intros; try done; try lia.
  f_equal. apply IH. lia.
Qed.

Lemma strip_prefix_app p s : strip_prefix p (p +:+ s) = Some s.
Proof.
  unfold strip_prefix.
  assert (String.prefix p (p +:+ s) = true) as ->.
  { induction p as [|c p IH]; [by destruct s|]. simpl. destruct (Ascii.ascii_dec c c); done. }
  f_equal. assert (H : forall n, (String.length s <= n)%nat ->
    String.substring (String.length p) n (p +:+ s) = s).
  { induction p as [|c p IH]; intros n Hn; [by apply substring_all|]. by apply IH. }
  apply H. clear H. induction p as [|c p IH]; [apply le_n|]. simpl. by apply le_S.
Qed.

(** ** Theorems *)

(** The content of [.git/HEAD] or of a ref: a word, and white space around it. *)
Definition holds_word (read : string -> option string) (path word : string) : Prop :=
  word <> "" /\ str_all is_graph word = true /\
  exists post, str_all space1 post = true /\ read path = Some (word +:+ post).

Lemma read_word read path word : holds_word read path word ->
  exists bytes, fs_read_to_string read path = Some bytes /\ trim bytes = word.
Proof.
  intros (Hne & Hw & post & Hpost & Hread). exists (word +:+ post).
  split; [by unfold fs_read_to_string; rewrite Hread; simpl; rewrite file_is_utf8|].
  by apply (trim_padded "" word post).
Qed.

(** A detached head and a branch give the first seven characters of the commit;
    without a readable commit the command decides. *)
Theorem git_hash_of_repository read git_output head :
  (holds_word read ".git/HEAD" head -> strip_prefix "ref: " head = None ->
   resolve_git_hash read git_output = Ok (Some (String.substring 0 (Nat.min (String.length head) 7) head))) /\
  (forall ref commit,
   (exists bytes, fs_read_to_string read ".git/HEAD" = Some bytes /\ trim bytes = "ref: " +:+ ref) ->
   (holds_word read (path_join ".git" ref) commit ->
    resolve_git_hash read git_output
      = Ok (Some (String.substring 0 (Nat.min (String.length commit) 7) commit))) /\
   (read (path_join ".git" ref) = None ->
    resolve_git_hash read git_output = Ok (resolve_git_hash_from_git_cmd git_output))) /\
  (read ".git/HEAD" = None ->
   resolve_git_hash read git_output = Ok (resolve_git_hash_from_git_cmd git_output)).
Proof.
  unfold resolve_git_hash, resolve_git_hash_from_git_dir. split; [|split].
  - intros Hhead Hno. destruct (read_word _ _ _ Hhead) as (bytes & -> & ->). rewrite Hno.
    destruct Hhead as (Hne & Hw & _). by rewrite short_hash_word.
  - intros ref commit (bytes & -> & ->). rewrite strip_prefix_app. split.
    + intros Hc. destruct (read_word _ _ _ Hc) as (bytes' & -> & ->).
      destruct Hc as (Hne & Hw & _). by rewrite short_hash_word.
    + intros Hread. unfold fs_read_to_string. by rewrite Hread.
  - intros Hread. unfold fs_read_to_string. by rewrite Hread.
Qed.

(** The script panics when the seventh byte of the commit is inside a character. *)
Lemma build_can_panic :
  build_main (fun path => if String.eqb path ".git/HEAD" then Some "abcdefé"%string else None) None
    = Panic "end byte index is not a char boundary".
Proof. vm_compute. reflexivity. Qed.

(** The agent string is fixed by the first call. *)
Lemma agent_is_stable ver hash ver' hash' :
  let '(s, agent) := get_agent ver hash None in get_agent ver' hash' agent = (s, agent).
Proof. done. Qed.
