(* ===== verification/Tracing.v ===== *)
(** * Installing subscribers ([src/observability/test_subscriber.rs], the examples'
    [setup_tracing] and [setup_subscriber])

    A test build installs a subscriber once per process, from a constructor; the
    examples install their own.  A [Process] has the process-wide cells that this
    reads and writes.  The crates [tracing], [tracing-subscriber], [tracing-loki],
    [opentelemetry], [url] and [tokio] are the class [TracingDeps]; of the dispatcher
    of [tracing] the theorems assume that its global default is set at most once
    ([DispatcherLaws]). *)

From S2P Require Import Prelude Types Errors Pack Client Observability Build.

(** ** The crates *)
Class TracingDeps := {
  EnvFilter : Type;
  EnvFilter_to_string : EnvFilter -> string;
  try_from_default_env : (string -> option string) -> option EnvFilter;
  from_default_env : (string -> option string) -> EnvFilter;
  EnvFilter_default : EnvFilter;
  Directive : Type;
  parse_directive : string -> option Directive;
  add_directive : Directive -> EnvFilter -> EnvFilter;

  Url : Type;
  Url_parse : string -> option Url;

  LokiBuilder : Type;
  LokiLayer : Type;
  LokiTask : Type;
  loki_builder : LokiBuilder;
  loki_label : string -> string -> LokiBuilder -> result string LokiBuilder;
  loki_build_url : Url -> LokiBuilder -> result string (LokiLayer * LokiTask);

  Runtime : Type;
  Handle : Type;
  build_runtime : Z -> string -> Runtime;        (* worker threads, thread name *)
  runtime_handle : Runtime -> Handle;

  (** The gRPC exporter, in the context of a runtime; the endpoint may be given. *)
  SpanExporter : Type;
  build_exporter : option Handle -> option string -> result string SpanExporter;
  SdkTracerProvider : Type;
  build_provider : SpanExporter -> string -> SdkTracerProvider;   (* with a service name *)
  provider_shutdown : SdkTracerProvider -> option string;         (* the error, if any *)
  SdkTracer : Type;
  provider_tracer : string -> SdkTracerProvider -> SdkTracer;
}.

Section tracing.
Context `{TracingDeps}.

(** The layers on [Registry::default()], the first one innermost. *)
Inductive SubscriberLayer : Type :=
| OpenTelemetryLayer (tracer : SdkTracer)
| FilterLayer (filter : EnvFilter)
| QortooLayer                                    (* [level_filter: None] *)
| FmtLayer
| LokiSubscriberLayer (loki : LokiLayer).

(** The process-wide cells; [D] is the state of the dispatcher of [tracing]. *)
Record Process (D : Type) : Type := mkProcess {
  p_runtimes : gmap string Runtime;              (* [RUNTIME_MAP] *)
  p_current : option Handle;                     (* the runtime context of this thread *)
  p_agent : option string;                       (* [AGENT] *)
  p_initialized : bool;                          (* [TRACING_INITIALIZED] *)
  p_provider : option SdkTracerProvider;         (* [PROVIDER] *)
  p_dispatcher : D;
}.
End tracing.

Arguments mkProcess {H D}.
Arguments p_runtimes {H D}. Arguments p_current {H D}. Arguments p_agent {H D}.
Arguments p_initialized {H D}. Arguments p_provider {H D}. Arguments p_dispatcher {H D}.

(** What is asked of others. *)
Inductive ProcessCall `{TracingDeps} : Type :=
| Println (s : string)
| Eprintln (s : string)
| SpawnLoki (on : Handle) (task : LokiTask)
| AtExitShutdownProvider                         (* [atexit(shutdown_provider)] *)
| ShutdownProvider (provider : SdkTracerProvider)
| Sleep (millis : Z).

(** [tracing::subscriber::set_global_default]: whether it was set. *)
Class Dispatcher `{TracingDeps} (D : Type) := {
  set_global_default : list SubscriberLayer -> D -> bool * D;
  global_default : D -> option (list SubscriberLayer);
}.

(** The global default is set at most once. *)
Class DispatcherLaws `{TracingDeps} D `{!Dispatcher D} : Prop := {
  set_first : forall s d, global_default d = None ->
    exists d', set_global_default s d = (true, d') /\ global_default d' = Some s;
  set_again : forall s d, global_default d <> None -> set_global_default s d = (false, d);
}.

Section subscriber.
Context `{TracingDeps} {D : Type} `{!Dispatcher D}.

(** The environment, the number of processors, the version of the crate, the commit
    it was built from, and whether the feature [log_layer] is on. *)
Context (env : string -> option string) (available_parallelism : option Z)
  (sdk_ver : string) (git_hash : option string) (log_layer : bool).

Abbreviation PM := (M (Process D) ProcessCall string).

Definition p_set_current x (p : Process D) : Process D := mkProcess (p_runtimes p) x (p_agent p) (p_initialized p) (p_provider p) (p_dispatcher p).
Definition p_set_runtimes x (p : Process D) : Process D := mkProcess x (p_current p) (p_agent p) (p_initialized p) (p_provider p) (p_dispatcher p).
Definition p_set_agent x (p : Process D) : Process D := mkProcess (p_runtimes p) (p_current p) x (p_initialized p) (p_provider p) (p_dispatcher p).
Definition p_set_initialized x (p : Process D) : Process D := mkProcess (p_runtimes p) (p_current p) (p_agent p) x (p_provider p) (p_dispatcher p).
Definition p_set_provider x (p : Process D) : Process D := mkProcess (p_runtimes p) (p_current p) (p_agent p) (p_initialized p) x (p_dispatcher p).
Definition p_set_dispatcher x (p : Process D) : Process D := mkProcess (p_runtimes p) (p_current p) (p_agent p) (p_initialized p) (p_provider p) x.

Definition agent : PM string := fun p =>
  let '(s, cell) := get_agent sdk_ver git_hash (p_agent p) in (Ok s, p_set_agent cell p, []).

Definition runtime_of (group : string) : PM Handle := fun p =>
  let '(h, map) := get_or_init_runtime_handle build_runtime runtime_handle available_parallelism group (p_runtimes p) in
  (Ok h, p_set_runtimes map p, []).

Definition set_default (s : list SubscriberLayer) : PM bool := fun p =>
  let '(set, d) := set_global_default s (p_dispatcher p) in (Ok set, p_set_dispatcher d p, []).

(** [handle.enter()] until the end of [f], whatever its outcome. *)
Definition entered {A} (handle : Handle) (f : PM A) : PM A := fun p =>
  let '(r, p', w) := f (p_set_current (Some handle) p) in (r, p_set_current (p_current p) p', w).

(** ** test_subscriber.rs *)
Definition build_env_filter : PM EnvFilter :=
  match try_from_default_env env with
  | Some filter => mret filter
  | None =>
      match parse_directive "qortoo=debug" with
      | Some d => mret (add_directive d EnvFilter_default)
      | None => panic "called `Result::unwrap()` on an `Err` value"
      end
  end.

Definition init_provider : PM SdkTracerProvider :=
  p ← get;
  match build_exporter (p_current p) None with
  | Ok exporter =>
      service ← agent;
      let provider := build_provider exporter service in
      (* [PROVIDER.set], its result ignored *)
      modify (fun p => match p_provider p with None => p_set_provider (Some provider) p | Some _ => p end) ;;
      emit [AtExitShutdownProvider] ;;
      mret provider
  | Err _ => panic "failed to create OTLP exporter"
  | Panic why => panic why
  | Blocked => lift Blocked
  end.

Definition build_telemetry_layer : PM SubscriberLayer :=
  provider ← init_provider;
  name ← agent;
  mret (OpenTelemetryLayer (provider_tracer name provider)).

Definition build_fmt_layer : SubscriberLayer := if log_layer then QortooLayer else FmtLayer.

Definition init_subscriber (env_filter : EnvFilter) : PM unit :=
  let env_filter_display := EnvFilter_to_string env_filter in
  telemetry ← build_telemetry_layer;
  set ← set_default [telemetry; FilterLayer env_filter; build_fmt_layer];
  if (set : bool) then
    name ← agent;
    emit [Println ("Initialized OpenTelemetry tracing with service '" +:+ name +:+ "' and filter '"
                     +:+ env_filter_display +:+ "'")]
  else mret tt.

Definition loki_of (parsed_url : Url) : result string (LokiLayer * LokiTask) :=
  b ← loki_label "app" "qortoo" loki_builder;
  b ← loki_label "source" "test" b;
  loki_build_url parsed_url b.

Definition init_subscriber_with_loki (env_filter : EnvFilter) (loki_url : string) (handle : Handle) : PM unit :=
  match Url_parse loki_url with
  | None =>
      emit [Eprintln ("QORTOO_RS_LOKI_URL is not a valid URL: " +:+ loki_url)] ;;
      init_subscriber env_filter
  | Some parsed_url =>
      match loki_of parsed_url with
      | Ok (loki_layer, loki_task) =>
          emit [SpawnLoki handle loki_task] ;;
          let env_filter_display := EnvFilter_to_string env_filter in
          telemetry ← build_telemetry_layer;
          set ← set_default [telemetry; FilterLayer env_filter; build_fmt_layer; LokiSubscriberLayer loki_layer];
          if (set : bool) then
            name ← agent;
            emit [Println ("Initialized OpenTelemetry tracing with service '" +:+ name +:+ "', filter '"
                             +:+ env_filter_display +:+ "', and Loki: " +:+ loki_url)]
          else mret tt
      | Err e =>
          emit [Eprintln ("failed to build Loki layer: " +:+ e)] ;;
          init_subscriber env_filter
      | Panic why => panic why
      | Blocked => lift Blocked
      end
  end.

Definition init_once : PM unit :=
  handle ← runtime_of "observability";
  entered handle (
    env_filter ← build_env_filter;
    match env "QORTOO_RS_LOKI_URL" with
    | Some url => init_subscriber_with_loki env_filter url handle
    | None => init_subscriber env_filter
    end).

(** [TRACING_INITIALIZED.get_or_init]: the cell stays empty when the closure panics. *)
Definition init : PM unit :=
  p ← get;
  if p_initialized p then mret tt
  else init_once ;; modify (p_set_initialized true).

Definition shutdown_provider : PM unit :=
  p ← get;
  match p_provider p with
  | None => mret tt
  | Some provider =>
      emit [ShutdownProvider provider] ;;
      match provider_shutdown provider with
      | Some e => emit [Println ("failed to shutdown SDK tracer provider: " +:+ e)]
      | None => mret tt
      end
  end.

(** ** examples/observability/trace.rs *)
Definition OtelGuard_drop (guard : SdkTracerProvider) : PM unit :=
  emit [ShutdownProvider guard] ;;
  match provider_shutdown guard with
  | Some e => emit [Eprintln ("OTel provider shutdown error: " +:+ e)]
  | None => mret tt
  end.

Definition trace_endpoint : string :=
  match env "OTEL_EXPORTER_OTLP_TRACES_ENDPOINT" with
  | Some e => e
  | None => default "http://localhost:4317" (env "OTEL_EXPORTER_OTLP_ENDPOINT")
  end.

(** [?] on an [Option] of what a crate gives, with the text of its error. *)
Definition or_err {A} (why : string) (x : option A) : PM A :=
  match x with Some a => mret a | None => fail why end.

Definition setup_tracing : PM SdkTracerProvider :=
  let endpoint := trace_endpoint in
  emit [Println ("Exporting traces → " +:+ endpoint);
        Println "View in Grafana  → http://localhost:3000 → Explore → Tempo"] ;;
  p ← get;
  exporter ← lift (build_exporter (p_current p) (Some endpoint));
  let provider := build_provider exporter "qortoo-example-trace" in
  let otel_layer := OpenTelemetryLayer (provider_tracer "qortoo-example" provider) in
  d1 ← or_err "invalid directive" (parse_directive "qortoo=trace");
  d2 ← or_err "invalid directive" (parse_directive "trace=trace");
  let filter := add_directive d2 (add_directive d1 (from_default_env env)) in
  set ← set_default [FilterLayer filter; FmtLayer; otel_layer];
  if (set : bool) then mret provider
  else fail "a global default trace dispatcher has already been set".

(** [f] with the guard in scope, which is dropped however [f] ends. *)
Definition with_otel_guard {A} (guard : SdkTracerProvider) (f : PM A) : PM A := fun p =>
  let '(r, p', w) := f p in
  match r with
  | Blocked => (Blocked, p', w)
  | _ => let '(_, p'', w') := OtelGuard_drop guard p' in (r, p'', w ++ w')
  end.

(** [workload] is what [run_counter_sync] returns. *)
Definition trace_main (workload : result string unit) : PM unit :=
  guard ← setup_tracing;
  with_otel_guard guard (lift workload ;; emit [Sleep 500]).

(** ** examples/observability/log.rs *)
Definition setup_subscriber : PM unit :=
  b ← lift (loki_label "app" "qortoo" loki_builder);
  b ← lift (loki_label "source" "example" b);
  url ← or_err "invalid URL" (Url_parse "http://localhost:3100");
  '(loki_layer, loki_task) ← lift (loki_build_url url b);
  p ← get;
  (* [tokio::spawn] *)
  handle ← match p_current p with Some h => mret h | None => panic "there is no reactor running" end;
  emit [SpawnLoki handle loki_task] ;;
  _ ← set_default [FilterLayer (from_default_env env); build_fmt_layer; LokiSubscriberLayer loki_layer];
  mret tt.

(** ** Lemmas *)
Lemma get_agent_cell cell : exists name, get_agent sdk_ver git_hash cell = (name, Some name).
Proof. destruct cell as [s|]; by eexists. Qed.

Lemma agent_eq p : exists name, agent p = (Ok name, p_set_agent (Some name) p, []).
Proof. unfold agent. destruct (get_agent_cell (p_agent p)) as [name ->]. by eexists. Qed.

Lemma telemetry_eq p e : build_exporter (p_current p) None = Ok e -> p_provider p = None ->
  exists provider t name, build_telemetry_layer p =
    (Ok (OpenTelemetryLayer t), p_set_agent (Some name) (p_set_provider (Some provider) p), [AtExitShutdownProvider]).
Proof.
  intros He Hp. unfold build_telemetry_layer, init_provider, mbind, M_bind, get, modify, emit. rewrite He.
  destruct (agent_eq p) as [name ->]. cbn -[agent]. rewrite Hp. cbn -[agent].
  match goal with |- context [agent ?q] => destruct (agent_eq q) as [name' ->] end.
  eexists _, _, name'. reflexivity.
Qed.

(** The last calls of both ways to install a subscriber. *)
Lemma install_effect `{!DispatcherLaws D} rest (line : string -> string) p e :
  build_exporter (p_current p) None = Ok e -> p_provider p = None -> global_default (p_dispatcher p) = None ->
  exists t p' s,
    (telemetry ← build_telemetry_layer;
     set ← set_default (telemetry :: rest);
     if (set : bool) then name ← agent; emit [Println (line name)] else mret tt) p =
      (Ok tt, p', [AtExitShutdownProvider; Println s]) /\
    is_Some (p_provider p') /\ global_default (p_dispatcher p') = Some (OpenTelemetryLayer t :: rest) /\
    p_initialized p' = p_initialized p.
Proof.
  intros He Hp Hd. unfold mbind, M_bind. destruct (telemetry_eq p e He Hp) as (provider & t & name & ->).
  unfold set_default. cbn [p_dispatcher p_set_agent p_set_provider].
  destruct (set_first (OpenTelemetryLayer t :: rest) _ Hd) as (d' & -> & Hd').
  match goal with |- context [agent ?q] => destruct (agent_eq q) as [name' ->] end.
  eexists t, _, _. cbn. split_and!; [reflexivity|by eexists|exact Hd'|done].
Qed.

(** The filter of the environment, or [qortoo=debug]. *)
Definition filter_of : option EnvFilter :=
  match try_from_default_env env with
  | Some f => Some f
  | None => (fun d => add_directive d EnvFilter_default) <$> parse_directive "qortoo=debug"
  end.

(** The layer that ships to Loki: with a URL in the environment that is valid and
    that the builder accepts. *)
Definition loki_layers : list SubscriberLayer :=
  match env "QORTOO_RS_LOKI_URL" with
  | Some url =>
      match loki_of <$> Url_parse url with
      | Some (Ok (l, _)) => [LokiSubscriberLayer l]
      | _ => []
      end
  | None => []
  end.

Definition answers {A} (r : result string A) : Prop :=
  match r with Ok _ | Err _ => True | _ => False end.

Definition is_at_exit (c : ProcessCall) : bool :=
  match c with AtExitShutdownProvider => true | _ => false end.

(** *** The body of the constructor *)
Lemma init_body_effect `{!DispatcherLaws D} handle f p e :
  filter_of = Some f -> (forall u, answers (loki_of u)) ->
  build_exporter (p_current p) None = Ok e -> p_provider p = None -> global_default (p_dispatcher p) = None ->
  exists t p' w,
    (env_filter ← build_env_filter;
     match env "QORTOO_RS_LOKI_URL" with
     | Some url => init_subscriber_with_loki env_filter url handle
     | None => init_subscriber env_filter
     end) p = (Ok tt, p', w) /\
    is_Some (p_provider p') /\
    global_default (p_dispatcher p') =
      Some ([OpenTelemetryLayer t; FilterLayer f; build_fmt_layer] ++ loki_layers) /\
    filter is_at_exit w = [AtExitShutdownProvider] /\ p_initialized p' = p_initialized p.
Proof.
  intros Hf Hl He Hp Hd.
  assert (Hbuild : build_env_filter p = (Ok f, p, [])).
  { unfold build_env_filter. unfold filter_of in Hf. destruct (try_from_default_env env); [by injection Hf as ->|].
    destruct (parse_directive _); [by injection Hf as <-|done]. }
  unfold mbind at 1, M_bind at 1. rewrite Hbuild. clear Hbuild Hf.
  assert (Hplain : exists t p' s, init_subscriber f p = (Ok tt, p', [AtExitShutdownProvider; Println s]) /\
    is_Some (p_provider p') /\
    global_default (p_dispatcher p') = Some ([OpenTelemetryLayer t; FilterLayer f; build_fmt_layer] ++ []) /\
    p_initialized p' = p_initialized p).
  { unfold init_subscriber. cbv zeta. by eapply install_effect. }
  unfold loki_layers. destruct (env "QORTOO_RS_LOKI_URL") as [url|].
  2: { destruct Hplain as (t & p' & s & -> & H1 & H2 & H3). by exists t, p', [AtExitShutdownProvider; Println s]. }
  unfold init_subscriber_with_loki. destruct (Url_parse url) as [u|]; cbn [fmap option_fmap option_map].
  2: { destruct Hplain as (t & p' & s & Hi & H1 & H2 & H3). unfold mbind, M_bind, emit. rewrite Hi.
       eexists t, p', _. split; [reflexivity|]. by split_and!. }
  specialize (Hl u). destruct (loki_of u) as [[l task]|why|why|]; try done.
  - edestruct (install_effect [FilterLayer f; build_fmt_layer; LokiSubscriberLayer l]
      (fun name => "Initialized OpenTelemetry tracing with service '" +:+ name +:+ "', filter '"
         +:+ EnvFilter_to_string f +:+ "', and Loki: " +:+ url) p e) as (t & p' & s & Hi & H1 & H2 & H3); [done..|].
    cbv beta in Hi. erewrite (M_bind_Ok (emit _)) by reflexivity. cbv zeta. rewrite Hi. eexists t, p', _. split; [reflexivity|]. by split_and!.
  - destruct Hplain as (t & p' & s & Hi & H1 & H2 & H3). unfold mbind, M_bind, emit. rewrite Hi.
    eexists t, p', _. split; [reflexivity|]. by split_and!.
Qed.

(** ** Properties *)

(** The constructor of a test build installs one subscriber: telemetry, filter and
    format layers, and the Loki layer exactly when its URL is valid and accepted (a
    bad URL costs no more than that layer).  The provider is kept for the exit, with
    one handler.  A second call does nothing. *)
Theorem init_installs_once `{!DispatcherLaws D} p f e :
  p_initialized p = false -> p_provider p = None -> global_default (p_dispatcher p) = None ->
  filter_of = Some f -> (forall u, answers (loki_of u)) ->
  (forall h, build_exporter (Some h) None = Ok e) ->
  exists t p' w,
    init p = (Ok tt, p', w) /\ is_Some (p_provider p') /\ p_current p' = p_current p /\
    global_default (p_dispatcher p') =
      Some ([OpenTelemetryLayer t; FilterLayer f; build_fmt_layer] ++ loki_layers) /\
    filter is_at_exit w = [AtExitShutdownProvider] /\ init p' = (Ok tt, p', []).
Proof.
  intros Hi Hp Hd Hf Hl He. unfold init at 1. unfold mbind at 1, M_bind at 1, get. rewrite Hi.
  unfold init_once, runtime_of, mbind at 1 2, M_bind at 1 2.
  destruct (get_or_init_runtime_handle _ _ _ _ _) as [h map]. unfold entered.
  destruct (init_body_effect h f (p_set_current (Some h) (p_set_runtimes map p)) e Hf Hl (He h) Hp Hd)
    as (t & p' & w & -> & H1 & H2 & H3 & _).
  eexists t, _, _. split; [reflexivity|]. split_and!; [exact H1|done|exact H2| |done].
  rewrite !app_nil_r. exact H3.
Qed.

(** When the exporter cannot be built the constructor panics, and the cell stays
    empty, so the next call tries again. *)
Theorem init_without_exporter p f e :
  p_initialized p = false -> filter_of = Some f -> env "QORTOO_RS_LOKI_URL" = None ->
  (forall h, build_exporter (Some h) None = Err e) ->
  exists p', init p = (Panic "failed to create OTLP exporter", p', []) /\ p_initialized p' = false /\
    p_current p' = p_current p /\ p_provider p' = p_provider p.
Proof.
  intros Hi Hf Henv He. unfold init. unfold mbind at 1, M_bind at 1, get. rewrite Hi.
  unfold init_once, runtime_of, mbind at 1 2, M_bind at 1 2.
  destruct (get_or_init_runtime_handle _ _ _ _ _) as [h map]. unfold entered.
  set (p1 := p_set_current (Some h) (p_set_runtimes map p)).
  assert (Hbuild : build_env_filter p1 = (Ok f, p1, [])).
  { unfold build_env_filter. unfold filter_of in Hf. destruct (try_from_default_env env); [by injection Hf as ->|].
    destruct (parse_directive _); [by injection Hf as <-|done]. }
  unfold mbind at 1, M_bind at 1. rewrite Hbuild, Henv.
  unfold init_subscriber, build_telemetry_layer, init_provider, mbind, M_bind, get. cbn [p_current p1 p_set_current].
  rewrite He. eexists. split; [reflexivity|]. by split_and!.
Qed.

(** The example that traces shuts its provider down however its workload ends, and
    returns what the workload returned; it refuses to run under another subscriber. *)
Theorem trace_main_shuts_down `{!DispatcherLaws D} p e d1 d2 workload :
  build_exporter (p_current p) (Some trace_endpoint) = Ok e ->
  parse_directive "qortoo=trace" = Some d1 -> parse_directive "trace=trace" = Some d2 -> workload <> Blocked ->
  let provider := build_provider e "qortoo-example-trace" in
  let '(r, p', w) := trace_main workload p in
  match global_default (p_dispatcher p) with
  | None => r = workload /\ ShutdownProvider provider ∈ w
  | Some _ => r = Err "a global default trace dispatcher has already been set" /\ ShutdownProvider provider ∉ w
  end.
Proof.
  intros He H1 H2 Hw provider. unfold trace_main, setup_tracing, or_err, lift, emit, mbind, M_bind, get.
  cbn [p_current]. rewrite He, H1, H2. unfold mret, M_ret, set_default. cbn [p_dispatcher].
  destruct (global_default (p_dispatcher p)) as [s|] eqn:Hd.
  - rewrite set_again by by rewrite Hd. unfold fail. cbn. split; [done|]. set_solver.
  - match goal with |- context [set_global_default ?s _] => destruct (set_first s _ Hd) as (d' & -> & _) end.
    unfold with_otel_guard, OtelGuard_drop, emit, mbind, M_bind. fold provider.
    destruct workload as [[]|why|why|]; try done; cbn; destruct (provider_shutdown provider); cbn; split; set_solver.
Qed.
End subscriber.

(** ** examples/observability/profile.rs

    The agent of [pyroscope] is a parameter: [build] takes the builder's arguments
    and tags. *)

(** [str::parse::<u64>]. *)
Definition digit_value (c : Ascii.ascii) : option Z :=
  let n := Z.of_nat (Ascii.nat_of_ascii c) in
  if (48 <=? n) && (n <=? 57) then Some (n - 48) else None.

Fixpoint parse_digits (s : string) (acc : Z) : option Z :=
  match s with
  | EmptyString => Some acc
  | String c s =>
      d ← digit_value c;
      let acc := acc * 10 + d in
      if u64_max <? acc then None else parse_digits s acc
  end.

Definition parse_u64 (s : string) : option Z :=
  match s with
  | EmptyString => None
  | String c rest =>
      if bool_decide (c = Ascii.ascii_of_nat 43)     (* "+" *)
      then match rest with EmptyString => None | _ => parse_digits rest 0 end
      else parse_digits s 0
  end.

Section profile.
Context {Agent : Type} (env : string -> option string) (sdk_ver : string).
Context (build : string -> string -> Z -> string -> string -> list (string * string) -> result string Agent)
  (start stop : Agent -> result string Agent).

Inductive ProfileCall : Type :=
| ProfilePrintln (s : string)
| RunWorkload (seconds : Z)
| AgentShutdown (agent : Agent).

Definition DEFAULT_PYROSCOPE_URL : string := "http://localhost:4040".
Definition DEFAULT_APPLICATION_NAME : string := "qortoo-example-profile".

Definition profile_seconds : Z := default 30 (env "QORTOO_PROFILE_SECONDS" ≫= parse_u64).

(** [workload] is what [run_counter_workload] returns. *)
Definition profile_main (workload : result string unit) : M unit ProfileCall string unit :=
  let pyroscope_url := default DEFAULT_PYROSCOPE_URL (env "PYROSCOPE_URL") in
  let application_name := default DEFAULT_APPLICATION_NAME (env "PYROSCOPE_APPLICATION_NAME") in
  emit [ProfilePrintln ("Exporting profiles -> " +:+ pyroscope_url);
        ProfilePrintln ("Application        -> " +:+ application_name);
        ProfilePrintln "View in Grafana    -> http://localhost:3000 -> Explore -> Pyroscope";
        ProfilePrintln ("Running workload for " +:+ pretty profile_seconds +:+ "s...")] ;;
  agent ← lift (build pyroscope_url application_name 100 "pyroscope-rs" sdk_ver
                  [("example", "profile"); ("library", "qortoo")]);
  agent ← lift (start agent);
  emit [RunWorkload profile_seconds] ;; lift workload ;;
  agent ← lift (stop agent);
  emit [AgentShutdown agent] ;;
  emit [ProfilePrintln "Profile export finished."].

(** The agent is stopped and shut down only after a workload that succeeds. *)
Lemma profile_main_shuts_down workload agent : AgentShutdown agent ∈ calls (profile_main workload tt) ->
  workload = Ok tt /\ exists a1 a2, start a1 = Ok a2 /\ stop a2 = Ok agent.
Proof.
  unfold profile_main, emit, lift, mbind, M_bind. cbn.
  destruct (build _ _ _ _ _ _) as [a1|e|why|]; cbn; [|set_solver..].
  destruct (start a1) as [a2|e|why|] eqn:Hs; cbn; [|set_solver..].
  destruct workload as [[]|e|why|]; cbn; [|set_solver..].
  destruct (stop a2) as [a3|e|why|] eqn:Ht; cbn; [|set_solver..].
  intros Hin. split; [done|]. exists a1, a2. split; [done|]. rewrite Ht. f_equal.
  set_solver.
Qed.
End profile.

Lemma parse_digits_range s acc n : 0 <= acc <= u64_max -> parse_digits s acc = Some n -> is_u64 n.
Proof.
  revert acc. induction s as [|c s IH]; intros acc Hacc; cbn [parse_digits]; [by intros [= <-]|].
  unfold digit_value. destruct (_ && _) eqn:Hd; [|done]. cbn [mbind option_bind].
  apply andb_true_iff in Hd as [H1%Z.leb_le H2%Z.leb_le].
  destruct (Z.ltb_spec u64_max (acc * 10 + (Z.of_nat (Ascii.nat_of_ascii c) - 48))); [done|]. apply IH. lia.
Qed.

(** A number that is parsed fits into 64 bits, and the numbers that do are parsed
    from how they are printed. *)
Lemma parse_u64_range s n : parse_u64 s = Some n -> is_u64 n.
Proof.
  destruct s as [|c s]; [done|]. unfold parse_u64. assert (H0 : 0 <= 0 <= u64_max) by (unfold u64_max; lia).
  case_bool_decide; [destruct s; [done|]|]; by eapply parse_digits_range.
Qed.

Example parse_u64_examples :
  parse_u64 "30" = Some 30 /\ parse_u64 "+7" = Some 7 /\ parse_u64 "" = None /\ parse_u64 "+" = None /\
  parse_u64 "-1" = None /\ parse_u64 "3s" = None /\
  parse_u64 "18446744073709551615" = Some u64_max /\ parse_u64 "18446744073709551616" = None.
Proof. vm_compute. repeat split. Qed.

(** ** observability/trace.rs

    [add_event] of the current span of [opentelemetry]; the values are written with
    [Display]. *)
Section span_event.
Context {Span : Type} (add_event : string -> list (string * string) -> Span -> Span).

Definition add_span_event (name : string) (attributes : list (string * string)) (current : Span) : Span :=
  add_event name attributes current.
End span_event.

(** ** The tests of test_subscriber.rs

    A test as the events that it logs.  An event is logged in a scope, the fields of
    the current span and of its parents; entering a span again leaves the scope as
    it is. *)
Record Logged : Type := mkLogged {
  lg_level : Level;
  lg_event : list (string * FieldValue);
  lg_scope : list (list (string * FieldValue));
}.

Definition Traced : Type := list (list (string * FieldValue)) -> list Logged.

Definition in_span (fields : list (string * FieldValue)) (body : Traced) : Traced :=
  fun scope => body (fields :: scope).
Definition seq_traced (fs : list Traced) : Traced := fun scope => concat ((fun f => f scope) <$> fs).

(** [fields] and a message, as [info!] and the other macros record them. *)
Definition log_event (level : Level) (fields : list (string * FieldValue)) (message : string) : Traced :=
  fun scope => [mkLogged level ((MESSAGE_FIELD, DebugValue message) :: fields) scope].

Record SpanType : Type := mkSpanType {
  st_client : string; st_cuid : string; st_datatype : string; st_duid : string; st_collection : string }.

Definition do_something_level2 : Traced :=
  in_span [] (log_event INFO [] "inside do_something_level2").

Definition do_something_level1 (st : SpanType) : Traced :=
  in_span [(CLIENT_FIELD, StrValue (st_client st)); (CUID_FIELD, StrValue (st_cuid st));
           (DUID_FIELD, StrValue (st_duid st)); (DATATYPE_FIELD, StrValue (st_datatype st));
           (COLLECTION_FIELD, StrValue (st_collection st))]
    (seq_traced [log_event INFO [] "info do_something_level1"; log_event DEBUG [] "debug do_something_level1";
                 do_something_level2]).

Definition can_log_message : Traced :=
  in_span [] (in_span [(COLLECTION_FIELD, StrValue "col1")] (seq_traced [
    log_event TRACE [] "trace log"; log_event DEBUG [] "debug log"; log_event INFO [] "info log";
    log_event WARN [] "warn log"; log_event ERROR [] "error log"; log_event INFO [] "in_scope";
    do_something_level1 (mkSpanType "client" "cuid" "datatype" "duid" "collection")])).

Definition datatype_level2 : Traced :=
  in_span [(DATATYPE_FIELD, StrValue "😘")]
    (seq_traced [log_event INFO [] "begin datatype_level2"; log_event INFO [] "end datatype_level2"]).

Definition datatype_level : Traced :=
  in_span [(DATATYPE_FIELD, StrValue "🙈")]
    (seq_traced [log_event INFO [] "begin datatype_level"; datatype_level2; log_event INFO [] "end datatype_level"]).

Definition client_level2 : Traced :=
  seq_traced [log_event INFO [] "begin client_level2"; datatype_level; log_event INFO [] "end client_level2"].

Definition client_level (cuid : string) : Traced :=
  in_span [(CUID_FIELD, StrValue cuid)] (in_span [(CUID_FIELD, StrValue "1")] (seq_traced [
    log_event INFO [(CUID_FIELD, StrValue "🙊")] "begin client_level"; client_level2;
    log_event INFO [] "end client_level"])).

Definition can_log_with_spans : Traced :=
  in_span [] (seq_traced [log_event INFO [] "begin can_log_spans"; client_level "😘";
                          log_event INFO [] "end can_log_spans"]).

(** What the log layer says of an event. *)
Definition context_of (l : Logged) : QortooTraceContextVisitor :=
  process_context (Some ((fun attrs => Some (on_new_span attrs)) <$> lg_scope l)) (record (lg_event l) Visitor_new).

(** ** datatypes/common.rs: the instrumented methods of a datatype

    The fields of the span that [datatype_instrument] and
    [internal_datatype_instrument] put around a method, recorded with [Display]. *)
Definition instrument_fields (attr : Attribute) : list (string * FieldValue) :=
  [(COLLECTION_FIELD, DebugValue (cc_collection (attr_client_common attr)));
   (CLIENT_FIELD, DebugValue (cc_alias (attr_client_common attr)));
   (CUID_FIELD, DebugValue (uid_str (Attribute_get_cuid attr)));
   (DATATYPE_FIELD, DebugValue (attr_key attr));
   (DUID_FIELD, DebugValue (uid_str (Attribute_get_duid attr)))].

Definition datatype_instrument (attr : Attribute) (body : Traced) : Traced := in_span (instrument_fields attr) body.

Lemma instrument_span attr : on_new_span (instrument_fields attr) =
  mkVisitor "" (cc_collection (attr_client_common attr)) (cc_alias (attr_client_common attr))
    (uid_str (Attribute_get_cuid attr)) (attr_key attr) (uid_str (Attribute_get_duid attr)).
Proof. reflexivity. Qed.

(** What an instrumented method logs names its datatype, whatever spans it was
    called in; they only give the fields that are empty there. *)
Lemma instrumented_event_names_datatype attr level message scope f :
  let named := context_field f (on_new_span (instrument_fields attr)) in
  (fun l => context_field f (context_of l)) <$> datatype_instrument attr (log_event level [] message) scope =
  [if str_is_empty named then context_field f (merge_scope ((fun attrs => Some (on_new_span attrs)) <$> scope) Visitor_new)
   else named].
Proof.
  intros named. unfold datatype_instrument, in_span, log_event. cbn [fmap list_fmap]. f_equal.
  unfold context_of, process_context. cbn [lg_scope lg_event]. rewrite !merge_scope_field, !fmap_cons.
  assert (He : context_field f (record [(MESSAGE_FIELD, DebugValue message)] Visitor_new) = "") by by destruct f.
  rewrite He. change (context_field f Visitor_new) with (context_field f (mkVisitor "" "" "" "" "" "")).
  assert (Hn : context_field f (mkVisitor "" "" "" "" "" "") = "") by by destruct f. rewrite Hn.
  cbn [omap list_omap id fmap list_fmap first_nonempty]. unfold str_is_empty at 1. rewrite bool_decide_true by done.
  fold named. destruct (str_is_empty named); [|done]. cbn [first_nonempty].
  unfold str_is_empty at 1. by rewrite bool_decide_true by done.
Qed.

(** Each event has the fields of the innermost span that has them. *)
Theorem tests_log_their_spans :
  ((fun l => let v := context_of l in (v_msg v, v_collection v, v_client v, v_duid v)) <$> can_log_message []) =
    [("trace log", "col1", "", ""); ("debug log", "col1", "", ""); ("info log", "col1", "", "");
     ("warn log", "col1", "", ""); ("error log", "col1", "", ""); ("in_scope", "col1", "", "");
     ("info do_something_level1", "collection", "client", "duid");
     ("debug do_something_level1", "collection", "client", "duid");
     ("inside do_something_level2", "collection", "client", "duid")]%string /\
  ((fun l => let v := context_of l in (v_msg v, v_cuid v, v_datatype v)) <$> can_log_with_spans []) =
    [("begin can_log_spans", "", ""); ("begin client_level", "🙊", ""); ("begin client_level2", "1", "");
     ("begin datatype_level", "1", "🙈"); ("begin datatype_level2", "1", "😘"); ("end datatype_level2", "1", "😘");
     ("end datatype_level", "1", "🙈"); ("end client_level2", "1", ""); ("end client_level", "1", "");
     ("end can_log_spans", "", "")]%string.
Proof. split; vm_compute; reflexivity. Qed.

(** ** Example: a process *)
Section example.
#[local] Instance example_tracing : TracingDeps := {|
  EnvFilter := list string;
  EnvFilter_to_string := String.concat ",";
  try_from_default_env env := (fun s => [s]) <$> env "RUST_LOG";
  from_default_env env := default [] ((fun s => [s]) <$> env "RUST_LOG");
  EnvFilter_default := [];
  Directive := string;
  parse_directive s := Some s;
  add_directive d f := (f ++ [d])%list;
  Url := string;
  Url_parse s := if String.prefix "http" s then Some s else None;
  LokiBuilder := list (string * string);
  LokiLayer := string;
  LokiTask := string;
  loki_builder := [];
  loki_label k v b := Ok (b ++ [(k, v)])%list;
  loki_build_url u _ := Ok (u, u);
  Runtime := string;
  Handle := string;
  build_runtime _ name := name;
  runtime_handle rt := rt;
  SpanExporter := string;
  build_exporter current endpoint :=
    match current with Some _ => Ok (default "http://localhost:4317" endpoint) | None => Err "no runtime" end;
  SdkTracerProvider := string * string;
  build_provider e service := (e, service);
  provider_shutdown _ := None;
  SdkTracer := string;
  provider_tracer name _ := name;
|}%string.

#[local] Instance example_dispatcher : Dispatcher (option (list SubscriberLayer)) := {|
  set_global_default s d := match d with None => (true, Some s) | Some _ => (false, d) end;
  global_default d := d;
|}.

#[local] Instance example_dispatcher_laws : DispatcherLaws (option (list SubscriberLayer)).
Proof. split; [intros s [d|] [=]; by eexists|by intros s [d|]]. Qed.

Definition example_env (loki : option string) (name : string) : option string :=
  if bool_decide (name = "QORTOO_RS_LOKI_URL"%string) then loki else None.

Definition example_process : Process (option (list SubscriberLayer)) := mkProcess ∅ None None false None None.

(** With a URL that is no URL the subscriber is installed without Loki. *)
Lemma init_installs_once_witness :
  exists t p' w,
    init (example_env (Some "loki")) None "0.1.0" None false example_process = (Ok tt, p', w) /\
    p_dispatcher p' = Some [OpenTelemetryLayer t; FilterLayer ["qortoo=debug"%string]; FmtLayer] /\
    init (example_env (Some "loki")) None "0.1.0" None false p' = (Ok tt, p', []).
Proof.
  destruct (init_installs_once (example_env (Some "loki")) None "0.1.0" None false example_process
    ["qortoo=debug"%string] "http://localhost:4317"%string) as (t & p' & w & Hi & _ & _ & Hd & _ & Hagain);
    [reflexivity..|done|done|].
  exists t, p', w. split; [exact Hi|]. split; [exact Hd|exact Hagain].
Defined.
End example.
