(* ===== verification/TestSupport.v ===== *)
(** * What the tests of the repository use
    ([src/src/utils/test_utils.rs], and the parts for tests of
    [datatypes/common.rs], [clients/common.rs], [types/uid.rs] and
    [utils/no_guard_mutex.rs])

    Names that tests take from their module path and thread, and the datatypes
    without a client that unit tests make from them.  [module_path!], the line of
    a call, the thread's name and fresh identifiers are arguments. *)

From Stdlib Require Import Ascii.
From S2P Require Import Prelude Types Errors Operations Crdts PushBuffer Pack Handler Mutable Transactional PullHandler Server Connectivity Wired Client Observability Build.

(** ** utils/test_utils.rs *)

(** [mod_path.split("::")], [cur] being the piece that is read. *)
Fixpoint split_from (cur s : string) : list string :=
  match s with
  | EmptyString => [cur]
  | String a r =>
      match r with
      | String b r' =>
          if Ascii.eqb a ":"%char && Ascii.eqb b ":"%char then cur :: split_from "" r'
          else split_from (cur +:+ String a "") r
      | EmptyString => split_from (cur +:+ String a "") r
      end
  end.

Definition split_module_path (mod_path : string) : list string := split_from "" mod_path.

(** [VecDeque::pop_back]. *)
Definition pop_back {A} (l : list A) : option A * list A := (last l, removelast l).

(** [unwrap_or]. *)
Definition unwrap_or {A} (x : A) (o : option A) : A := default x o.

Definition get_test_func_name (thread_name : option string) : result Empty_set string :=
  match (pop_back (split_module_path (unwrap_or "unknown"%string thread_name))).1 with
  | Some last => Ok last
  | None => Panic "called `Option::unwrap()` on a `None` value"
  end.

Definition caller_path (module_path : string) (line : Z) (thread_name : option string)
    : result Empty_set (list string) :=
  let '(last, ret) := pop_back (split_module_path module_path) in
  match last with
  | None => Panic "called `Option::unwrap()` on a `None` value"
  | Some last =>
      let ret := ret ++ [last +:+ ":" +:+ pretty line] in
      test_func_name ← get_test_func_name thread_name;
      Ok (ret ++ [test_func_name])
  end.

(** [join("-")]. *)
Definition join_dashes (parts : list string) : string := String.concat "-" parts.

(** [String::truncate]. *)
Definition truncate (n : nat) (s : string) : result Empty_set string :=
  if (n <=? String.length s)%nat then slice_to n s else Ok s.

Definition get_test_collection_name (thread_name : option string) : result Empty_set string :=
  let thread_name := unwrap_or "unknown"%string thread_name in
  let parts := split_module_path thread_name in
  let collection_name := if (1 <? length parts)%nat then join_dashes (removelast parts)
                         else "unknown"%string in
  if (47 <? String.length collection_name)%nat then truncate 47 collection_name
  else Ok collection_name.

Definition get_test_ids (thread_name : option string) : result Empty_set (string * string * string) :=
  c ← get_test_collection_name thread_name;
  k ← get_test_func_name thread_name;
  Ok (c, k, c +:+ "/" +:+ k).

(** ** clients/common.rs and datatypes/common.rs for tests *)
Definition ClientCommon_new_for_test (cuid : Cuid) (paths : list string) : ClientCommon :=
  let '(_, paths) := pop_back paths in
  let '(alias, paths) := pop_back paths in
  let '(collection, paths) := pop_back paths in
  ClientCommon_new_arc cuid (unwrap_or "client"%string collection) (unwrap_or "collection"%string alias).

Definition Attribute_new_for_test (duid : Duid) (cuid : Cuid) (paths : list string) (type : DataType)
    : Attribute :=
  let '(key, paths) := pop_back paths in
  let '(client_alias, paths) := pop_back paths in
  let '(collection, paths) := pop_back paths in
  let client_common := ClientCommon_new_arc cuid (unwrap_or "collection"%string collection)
                         (unwrap_or "client"%string client_alias) in
  {| attr_key := unwrap_or (DataType_to_string type) key; attr_type := type; attr_duid := duid;
     attr_client_common := client_common; attr_option := DatatypeOption_default;
     attr_is_readonly := false; attr_weak_transactional := None |}.

(** [new_attribute!] at a line of a test. *)
Definition new_attribute (duid : Duid) (cuid : Cuid) (module_path : string) (line : Z)
    (thread_name : option string) (type : DataType) : result Empty_set Attribute :=
  paths ← caller_path module_path line thread_name;
  Ok (Attribute_new_for_test duid cuid paths type).

Definition ReturnType_debug (r : ReturnType) : string :=
  match r with
  | RetNone => "None"
  | RetCounter value => "Counter(" +:+ pretty value +:+ ")"
  end.

(** ** types/uid.rs *)
Definition Uid_default : Uid := Uid_new_nil.
Definition Uid_to_string (u : Uid) : string := uid_str u.
Definition Uid_as_ref (u : Uid) : string := uid_str u.
Definition Uid_deref (u : Uid) : string := uid_str u.

(** ** Lemmas *)

(** Induction by one or two characters. *)
Lemma string_pair_ind (P : string -> Prop) :
  P "" -> (forall a, P (String a "")) ->
  (forall a b r, P r -> P (String b r) -> P (String a (String b r))) -> forall s, P s.
Proof.
  intros H0 H1 H2 s. enough (P s /\ forall a, P (String a s)) by tauto.
  induction s as [|b r [IHr IHb]]; [by split|]. split; [apply IHb|]. intros a. by apply H2.
Qed.

Lemma split_from_pair cur a b r : split_from cur (String a (String b r)) =
  if Ascii.eqb a ":"%char && Ascii.eqb b ":"%char then cur :: split_from "" r
  else split_from (cur +:+ String a "") (String b r).
Proof. reflexivity. Qed.

Lemma split_from_not_nil s : forall cur, split_from cur s <> [].
Proof.
  induction s as [|a|a b r IHr IHb] using string_pair_ind; intros cur; [done|done|].
  rewrite split_from_pair. destruct (Ascii.eqb a ":"%char && Ascii.eqb b ":"%char); [done|apply IHb].
Qed.

(** The pieces are those between the separators. *)
Lemma split_from_joins s : forall cur, String.concat "::" (split_from cur s) = cur +:+ s.
Proof.
  induction s as [|a|a b r IHr IHb] using string_pair_ind; intros cur.
  - simpl. by rewrite string_app_empty.
  - done.
  - rewrite split_from_pair. destruct (Ascii.eqb_spec a ":"%char) as [->|]; cbn [andb];
      [destruct (Ascii.eqb_spec b ":"%char) as [->|]|].
    + pose proof (split_from_not_nil r "") as Hne. pose proof (IHr "") as Hr.
      destruct (split_from "" r) as [|x l]; [done|].
      change (String.concat "::" (cur :: x :: l)) with (cur +:+ "::" +:+ String.concat "::" (x :: l)).
      by rewrite Hr.
    + rewrite IHb. by rewrite string_app_assoc.
    + rewrite IHb. by rewrite string_app_assoc.
Qed.

(** A thread always has a function name. *)
Lemma get_test_func_name_total thread_name : is_ok (get_test_func_name thread_name) = true.
Proof.
  unfold get_test_func_name, pop_back, split_module_path. cbn [fst].
  destruct (last _) as [x|] eqn:Hl; [done|]. apply last_None in Hl.
  by destruct (split_from_not_nil _ _ Hl).
Qed.

Lemma split_module_path_joins s : String.concat "::" (split_module_path s) = s.
Proof. apply split_from_joins. Qed.

Lemma substring_length n s : (String.length (String.substring 0 n s) <= n)%nat.
Proof.
  revert n. induction s as [|c s IH]; intros [|n]; simpl; try apply Nat.le_0_l. apply le_n_S, IH.
Qed.

(** The name of a collection has at most 47 bytes, as clients demand; cutting a
    longer one can fail only inside a character. *)
Lemma get_test_collection_name_short thread_name c :
  get_test_collection_name thread_name = Ok c -> (String.length c <= 47)%nat.
Proof.
  unfold get_test_collection_name. set (name := if (1 <? _)%nat then _ else _).
  destruct (Nat.ltb_spec 47 (String.length name)) as [Hlt|Hle].
  - unfold truncate, slice_to. rewrite (proj2 (Nat.leb_le _ _)) by lia.
    destruct (is_char_boundary 47 name); [|done]. intros [= <-]. apply substring_length.
  - intros [= <-]. exact Hle.
Qed.

(** ** Tests *)
Definition can_use_path_macros : bool :=
  let thread := Some "utils::test_utils::tests_path::can_use_path_macros"%string in
  match get_test_collection_name thread, get_test_func_name thread, get_test_ids thread with
  | Ok collection_name, Ok document_key, Ok (c, d, r) =>
      String.eqb collection_name "utils-test_utils-tests_path" &&
      String.eqb document_key "can_use_path_macros" &&
      String.eqb c collection_name && String.eqb d document_key && String.eqb r (c +:+ "/" +:+ d)
  | _, _, _ => false
  end.

(** The lines of the two macros in the test. *)
Definition can_new_attribute_for_test : bool :=
  let module_path := "qortoo::datatypes::common::tests_attribute"%string in
  let thread := Some "datatypes::common::tests_attribute::can_new_attribute_for_test"%string in
  match new_attribute (mkUid "nanoid-000000001") (mkUid "nanoid-000000002") module_path 204 thread Counter,
        caller_path module_path 206 thread with
  | Ok attr, Ok path =>
      let '(key, path) := pop_back path in
      let '(alias, path) := pop_back path in
      let '(collection, _) := pop_back path in
      bool_decide (attr_type attr = Counter) && bool_decide (Some (attr_key attr) = key) &&
      negb (bool_decide (Some (cc_alias (attr_client_common attr)) = alias)) &&
      bool_decide (Some (cc_collection (attr_client_common attr)) = collection) &&
      String.eqb (cc_collection (attr_client_common attr) +:+ "/" +:+ attr_key attr)
        (Attribute_resource_id attr)
  | _, _ => false
  end.

(** Identifiers are equal when their strings are; their address is not modelled. *)
Definition can_use_get_and_set_duid (new_duid : Duid) : bool :=
  let attr := Attribute_new_for_test (mkUid "nanoid-000000001") (mkUid "nanoid-000000002") [] Counter in
  bool_decide (Attribute_get_duid (Attribute_set_duid new_duid attr) = new_duid).

Definition can_debug_return_type : bool :=
  String.eqb (ReturnType_debug RetNone) "None" &&
  String.eqb (ReturnType_debug (RetCounter 42)) "Counter(42)".

Theorem test_support_tests_pass :
  can_use_path_macros = true /\ can_new_attribute_for_test = true /\
  can_use_get_and_set_duid (mkUid "nanoid-000000003") = true /\ can_debug_return_type = true.
Proof. by vm_compute. Qed.
